(* ===== verification/_CoqProject ===== *)
-Q . S2P
Prelude.v
RustStr.v
Text.v
Utf8.v
Unicode.v
Ordering.v
Json.v
Effects.v
Kube.v
Quantity.v
Model.v
Config.v
Env.v
Leader.v
Startup.v
Hub.v
Policy.v
Workload.v
Access.v
Demo.v
Clock.v
Drain.v
Preflight.v
Actions.v
Rollout.v
Dispatch.v
Executor.v
Dedup.v
Agent.v
Operator.v
Governance.v
Lifecycle.v
Tetragon.v
Dependencies.v
Tech.v
Inventory.v
Cluster.v
AppMetrics.v
Network.v
Posture.v
Monitoring.v
Collect.v
Gather.v
PgMatch.v
PgProbe.v
Postgresql.v
Diagnosis.v
Snapshot.v
PgDemo.v
Metrics.v
Process.v
System.v
