(* ===== verification/Prelude.v ===== *)
(** * The Sentinella Hub Kubernetes agent

    A model of the agent (src/src/*.rs) and the theorems that make it safe to
    leave running in a cluster.

    ** The program

    The agent collects an inventory of its cluster and sends it to the hub; the
    hub sends commands, which the agent's executor runs one after the other,
    each of them once, and answers with a result.  A command may read an
    object, preview or apply a change of a workload, or drain a node.  What a
    command may do is governed by custom resources, the action policies: a
    second mode of the program, the operator, periodically decides in which
    namespaces actions are enabled, maintains a role binding there, and writes
    a status on every policy; the executor lets a command through only if some
    policy with a fresh and Ready status authorises it.  A lifecycle watcher in
    the agent installs and removes the operator and labels the namespaces as a
    ConfigMap asks.  Of several agents only the one that holds a lease sends
    snapshots and runs the watcher.  Network dependencies come from event
    streams of Tetragon, which the agent discovers, follows and buffers.

    ** The files, in dependency order

    - Prelude: results, notations, tactics, generic lemmas (this file).
    - RustStr, Text, Utf8, Unicode: the string and integer functions of Rust's
      standard library that the agent uses, on byte strings, with their laws;
      Unicode holds the case mappings, with generated tables.
    - Ordering: comparison functions, [then_with], [sort_by], with their laws.
    - Json: [serde_json] values, the [json!] literals and pointer lookups.
    - Effects: a handler is a finite tree of operations ([prog]); [runs] gives
      its traces, [wp] the program logic, [interp] its run in an environment.
    - Kube: the fields of the Kubernetes objects that the agent reads, the
      operations of the API client and of the clock with their response types,
      [mutating], and label selectors.
    - Quantity: parse_cpu_quantity, parse_memory_quantity (model.rs) and the
      formatters of collector.rs.
    - Model: commands, specs, policies, results (model.rs).
    - Config, Env: the configuration record, the environment it is read from
      and the two reports of it (config.rs).
    - Leader: leader.rs, and a tick of the collector loop of main.rs.
    - Startup: the mode argument, the duplicate check and the suppression of
      warnings (main.rs).
    - Hub: the client, routes, retries, polls, acknowledgements and log texts
      (hub.rs).
    - Policy: which policy authorises a command (executor.rs:
      ensure_effective_policy_allows, select_cluster_action_policy and below).
    - Workload: patches, pod templates, the image check, sanitising
      (the free functions of executor.rs).
    - Access: listing and decoding the policies; [consulted], the evidence of an
      authorisation in a history; [handler_guard].
    - Demo: a sample cluster, for the witnesses only.
    - Clock: what deadlines rely on.
    - Drain, Preflight, Actions, Rollout: the handlers of executor.rs.
    - Dispatch, Executor: execute_inner.
    - Dedup: execute, dedup_begin, dedup_finish, with concurrent calls.
    - Agent: command_loop (main.rs) around the executor and its table.
    - Operator: operator.rs, a round and the loop over them.
    - Governance: the operator's statuses seen by the executor.
    - Lifecycle: operator_lifecycle.rs.
    - Tetragon: tetragon.rs, and readyz of health.rs.
    - Dependencies: collect_dependency_inventory and below (collector.rs).
    - Tech: tech.rs, and container_technology of collector.rs.
    - Inventory, Cluster, Network, Posture: the sections of [collect]
      (collector.rs): probes of optional APIs, configuration, storage and pod
      usage; nodes, workloads and pods; services and ingresses; events, jobs,
      security and maturity.
    - AppMetrics: collect_app_metrics and collect_workload_monitoring_logs
      (collector.rs).
    - Monitoring: build_workload_monitoring (plugins/mod.rs).
    - Collect: collect (collector.rs), the sections put together.
    - Gather: the calls of collect, with the probes of optional APIs and the
      scrapes (collector.rs).
    - PgMatch, PgProbe, Postgresql: the heuristics, the live probe and the block
      of the PostgreSQL plugin (plugins/mod.rs).
    - Diagnosis: diagnose_postgresql (plugins/mod.rs), and the instance of
      [Actions.Diagnostics] that it is.
    - Snapshot: build_and_send and a turn of collector_loop (main.rs).
    - PgDemo: a sample database, for the witnesses only.
    - Metrics: the statics of the metrics registry (health.rs).
    - Process: main up to the modes, run_agent_mode as a step relation over its
      tasks (main.rs), and the endpoints of health.rs.
    - System: agents and the operator as processes of one cluster, with
      restarts.

    ** Correspondence

    A Rust struct is a Record, an enum an Inductive; of the API objects only the
    fields that the agent reads or writes are there.  [Result] is [result], an
    early return is a branch ([try], [some]); [await] on an API call is an
    operation of [Kube.op], in the order of the calls, and its response is
    whatever the environment gives: nothing is assumed about the API server.
    The hub client has a signature of its own ([Hub.hop]), the command loop and
    the collector loop have signatures that hold both.  A connection to a
    database and its query are operations too.  The answers to the
    collector's list calls, which run concurrently, are arguments: of the
    sections one by one, and of [Collect.collect] as the record [Answers], which
    a tick of the collector loop takes as it is; [Gather.gather] makes the calls
    in the order in which they are started and yields that record, and a
    diagnosis starts with it.  Integers are Z with Rust's checked, saturating
    or wrapping operations written out; a panic is [None] where it can happen.
    Maps are gmap, sets gset; an iteration over a BTreeMap is in key order.  A
    loop over a list is a Fixpoint.  Branches that the source repeats for
    Deployment, StatefulSet and DaemonSet are one definition over
    [Workload.Controller].  Texts that are cut at characters are lists of code
    points; all other strings are byte strings.

    Shared state is explicit: [Dedup] and [Tetragon] are transition systems over
    the table behind the lock, with one step per locked section.  A turn of
    Tetragon's manager and a refresh of its health flags are one step there; the
    code writes the flags after it has left the lock, and what refreshes that
    overlap may leave is a finer system of its own ([Tetragon.shared_step]).
    The endless loops ([Agent.command_loop], [Operator.run_action_operator],
    [Lifecycle.watch_loop], [Leader.leader_loop], [Tetragon.manager_run]) are
    runs over a sequence of rounds, inputs, answers or events of any length.
    [Process.agent_step] interleaves the tasks of the agent call by call over
    the one leader flag; its traces are all the prefixes, so that a shutdown,
    which aborts the tasks, is where a trace ends.  [System.sys_step] interleaves
    any number of agents and the operator over one cluster, call by call, with
    crashes and restarts; what it assumes of the API server, [System.honest], is
    that a status which an executor reads was patched on that policy before, and
    of serde ([System.StatusCodecLaw]) that different statuses are written
    differently.

    Code outside the repository enters as a class: [Access.Codec],
    [Operator.OperatorCodec], [Lifecycle.LifecycleCodec], [Hub.HubCodec] and
    [Dependencies.JsonParser] for what serde and k8s_openapi provide,
    [Env.YamlList] for lists in YAML and [Tetragon.IpAddresses] for IP
    addresses, [PgProbe.NativeTls] for native_tls, [Metrics.MetricsLibrary] for
    prometheus.  [Actions.Diagnostics] is what
    the executor relies on of the PostgreSQL plugin, that it changes nothing in
    the cluster; [Diagnosis.plugin_diagnostics] discharges it.

    ** What is shown

    - Executor: every change is authorised ([execute_authorised]) and, outside
      apply and drain, rehearsed; nothing is changed in read-only mode or by a
      preview; every command ends, with its own id and a known status.
    - Drain, Rollout, Actions: what each handler may change, what its result
      means, and that its loop ends.
    - Dedup, Agent: at most one execution per command id, under every
      interleaving; the loop serves the commands in order, acknowledges every
      one of them and exits only after a self-update.
    - Operator: which namespaces get the binding, when a policy is Ready, what
      a completed round has established, and the same over the whole loop.
    - Policy, Governance: selection refines "the first policy that authorises
      the command"; a status written by the operator authorises exactly the
      commands in eligible namespaces.
    - Lifecycle: what the watcher may change and when, what a reconciliation
      has established, and that the configuration which a process reads from
      the same ConfigMap agrees with it.
    - Hub, Startup, Leader: the retry schedule as a reference program, bounds
      on requests and warnings, the counters, the leader flag.
    - Env: a configuration is well formed and survives its own report.
    - Tetragon, Dependencies: the flags follow the table of streams, a snapshot
      is a window of the received lines, an event is read back as its record,
      and the aggregation is a grouping with caps.
    - Inventory, Cluster, Network, Posture, AppMetrics, Tech: what the sections
      say and what they never tell; independence of the order of listings and
      of tasks; the Prometheus parser against a reference by lines.
    - Monitoring, PgMatch, PgProbe, Postgresql: what the blocks hold and say, in
      terms of the inventory and the probe; when a database is touched, with
      which settings, and what is told of it.
    - Gather, Diagnosis: a diagnosis collects the cluster, Secrets only if it
      is told to, and then stays in its namespace; its status as a table.
    - Collect, Snapshot: a tick of the collector, from the answers to the
      requests: it reads only, sends one snapshot, and depends on no value of a
      listed Secret.
    - Process: what the agent as a whole changes, in every interleaving of its
      tasks ([agent_safe]); what [/readyz] tells ([endpoints_exact]); and that
      what the watcher deploys starts as an operator and answers its probes
      ([operator_deployment_starts]).
    - System: the program end to end.  A change an agent makes under a policy
      goes back to a status that the operator computed in one round from the
      namespace labels and the policies it read there ([changes_governed]), so
      that a namespace it never saw labelled is never acted upon
      ([unlabelled_namespace_untouched]).
    - Metrics: no task panics over a metric, and all of them get registered.
    - Workload, Kube, Quantity, Model: the functional behaviour of the patches,
      checks, selectors, parsers and printers, with round trips.

    Behaviours that contradict a comment or an intention are lemmas or examples
    next to the definition, as [Quantity.negative_fraction_sign] or
    [Tetragon.overlapping_refreshes].

    ** Fuel

    The poll loop of a drain gets a round per five seconds of its timeout and
    two more ([Drain.drain_poll_fuel]); the wait for a rollout gets 62 rounds
    (120 seconds, two per round, and two more).  Under the clock law of
    Clock.v, that a clock does not go back and advances over a sleep, neither
    runs out ([drain_node_terminates], [rollout_restart_terminates]).

    ** Not modelled

    Logging, apart from what is suppressed or told of secrets; when a ticker
    fires; the transport of HTTP and gRPC, the inside of the metrics registry and
    the HTTP server for it; the concurrency of the list calls and scrapes of
    [collect]; and of serde what it derives, which is a class. *)
From stdpp Require Export base tactics option list strings gmap sorting.
From Stdlib Require Export ZArith Lia.
From Stdlib Require Ascii.
Export Stdlib.Strings.Ascii (ascii(..)).
Export (notations) Stdlib.Strings.Ascii.
#[global] Bind Scope char_scope with ascii.

(** ** Results of fallible code *)

(** Rust's [Result<A, E>]; the error type comes first so that [result E] is a
    monad. *)
Inductive result (E A : Type) : Type :=
  | Ok (a : A)
  | Err (e : E).
Arguments Ok {E A} a.
Arguments Err {E A} e.

Global Instance result_ret {E} : MRet (result E) := fun A a => Ok a.
Global Instance result_bind {E} : MBind (result E) := fun A B f r =>
  match r with Ok a => f a | Err e => Err e end.
Global Instance result_fmap {E} : FMap (result E) := fun A B f r =>
  match r with Ok a => Ok (f a) | Err e => Err e end.

Global Instance result_eq_dec {E A} `{EqDecision E, EqDecision A} :
  EqDecision (result E A).
Proof. solve_decision. Defined.

(** [Result::map_err]. *)
Definition map_err {E F A} (f : E -> F) (r : result E A) : result F A :=
  match r with Ok a => Ok a | Err e => Err (f e) end.

(** [Result::ok]. *)
Definition result_ok {E A} (r : result E A) : option A :=
  match r with Ok a => Some a | Err _ => None end.

(** [Option::ok_or_else]. *)
Definition ok_or {E A} (o : option A) (e : E) : result E A :=
  match o with Some a => Ok a | None => Err e end.

Definition is_ok {E A} (r : result E A) : bool :=
  match r with Ok _ => true | Err _ => false end.

(** [Option::unwrap_or]. *)
Definition unwrap_or {A} (d : A) (o : option A) : A := default d o.

Definition opt_or {A} (o1 o2 : option A) : option A :=
  match o1 with Some _ => o1 | None => o2 end.

Definition is_none {A} (o : option A) : bool :=
  match o with None => true | Some _ => false end.
Definition is_some {A} (o : option A) : bool := negb (is_none o).

Definition is_empty {A} (l : list A) : bool :=
  match l with [] => true | _ => false end.

Declare Scope agent_scope.
Delimit Scope agent_scope with agent.
Open Scope agent_scope.

(** The [?] operator and [let ... else] on a value of type [result]: bind the
    success value, leave through [h] otherwise. *)
Notation "'try' x ':=' r 'else' e '=>' h 'in' k" :=
  (match r with Ok x => k | Err e => h end)
  (at level 10, x name, e name, r at level 100, h at level 200, k at level 200) : agent_scope.
(** [let Some(x) = o else { h };] *)
Notation "'some' x ':=' o 'else' h 'in' k" :=
  (match o with Some x => k | None => h end)
  (at level 10, x name, o at level 100, h at level 200, k at level 200) : agent_scope.

(** ** Tactics and hints *)

Create HintDb agent discriminated.

(** Case analysis on every match of the goal and the hypotheses, closing the
    contradictory branches. *)
Ltac crush_match :=
  repeat (case_match; simplify_eq/=; try done).

(** Split boolean conjunctions and disjunctions in the hypotheses. *)
Ltac bools :=
  repeat match goal with
  | H : _ && _ = true |- _ => apply andb_true_iff in H as [? ?]
  | H : _ || _ = false |- _ => apply orb_false_iff in H as [? ?]
  | H : negb _ = true |- _ => apply negb_true_iff in H
  | H : negb _ = false |- _ => apply negb_false_iff in H
  | H : bool_decide _ = true |- _ => apply bool_decide_eq_true in H
  | H : bool_decide _ = false |- _ => apply bool_decide_eq_false in H
  | H : (_ =? _)%string = true |- _ => apply String.eqb_eq in H
  | H : (_ =? _)%string = false |- _ => apply String.eqb_neq in H
  end.

(** Close a comparison of closed integers by computation. *)
Ltac z_compute :=
  match goal with
  | |- (_ <= _)%Z => apply Z.leb_le; vm_compute; reflexivity
  | |- (_ < _)%Z => apply Z.ltb_lt; vm_compute; reflexivity
  end.

(** ** Generic lemmas *)

Section lists.
Context {A : Type}.

(** [Iterator::find]. *)
Fixpoint find_first (p : A -> bool) (l : list A) : option A :=
  match l with
  | [] => None
  | x :: l => if p x then Some x else find_first p l
  end.

Lemma find_first_some p l x :
  find_first p l = Some x <->
  exists l1 l2, l = l1 ++ x :: l2 /\ p x = true /\ Forall (fun y => p y = false) l1.
Proof.
  split.
  - induction l as [|y l IH]; simpl; [done|].
    destruct (p y) eqn:Hy; intros H.
    + simplify_eq. exists [], l. auto.
    + destruct (IH H) as (l1 & l2 & -> & Hx & HF).
      exists (y :: l1), l2. auto.
  - intros (l1 & l2 & -> & Hx & HF).
    induction HF as [|y l1 Hy _ IH]; simpl; by rewrite ?Hx, ?Hy.
Qed.

Lemma find_first_none p l :
  find_first p l = None <-> Forall (fun y => p y = false) l.
Proof.
  induction l as [|y l IH]; simpl; [by split|].
  rewrite Forall_cons. destruct (p y) eqn:Hy; [naive_solver|].
  rewrite IH. naive_solver.
Qed.

Lemma find_first_in p l x : find_first p l = Some x -> In x l /\ p x = true.
Proof.
  intros (l1 & l2 & -> & Hx & _)%find_first_some.
  split; [|done]. apply in_app_iff. right. by left.
Qed.

Lemma existsb_false_Forall (p : A -> bool) l :
  existsb p l = false <-> Forall (fun y => p y = false) l.
Proof.
  induction l as [|y l IH]; simpl; [by split|].
  rewrite orb_false_iff, Forall_cons, IH. done.
Qed.

Lemma is_empty_nil (l : list A) : is_empty l = true <-> l = [].
Proof. by destruct l. Qed.

(** [Iterator::skip_while]: also what a loop that pops the front leaves. *)
Fixpoint skip_while (p : A -> bool) (l : list A) : list A :=
  match l with [] => [] | x :: l' => if p x then skip_while p l' else l end.

Lemma skip_while_nil p l : skip_while p l = [] <-> Forall (fun x => p x = true) l.
Proof using Type.
  induction l as [|x l IH]; cbn [skip_while]; [by split|].
  rewrite Forall_cons. destruct (p x) eqn:Hp; [rewrite IH; tauto|]. split; [done|naive_solver].
Qed.

Lemma skip_while_incl p l x : In x (skip_while p l) -> In x l.
Proof. induction l as [|y l IH]; simpl; [done|]. destruct (p y); simpl; tauto. Qed.

(** [Iterator::find_map]. *)
Fixpoint find_map {B} (f : A -> option B) (l : list A) : option B :=
  match l with
  | [] => None
  | x :: l => match f x with Some y => Some y | None => find_map f l end
  end.

Lemma find_map_some {B} (f : A -> option B) l y :
  find_map f l = Some y ->
  exists l1 x l2, l = l1 ++ x :: l2 /\ f x = Some y /\ Forall (fun x => f x = None) l1.
Proof.
  induction l as [|x l IH]; simpl; [done|]. destruct (f x) eqn:Hx; intros H.
  - simplify_eq. exists [], x, l. auto.
  - destruct (IH H) as (l1 & z & l2 & -> & Hz & HF). exists (x :: l1), z, l2. auto.
Qed.
End lists.

#[export] Hint Resolve in_eq in_cons : agent.
