(* ===== verification/RustStr.v ===== *)
(** * Rust string slices and integer parsing

    The part of Rust's standard library for [str] and the integer types that
    the agent uses.  A [str] is the list of bytes of its UTF-8 encoding; all
    the functions below act on bytes, which for valid UTF-8 agrees with Rust's
    definitions by code point.  [trim] knows every code point with the Unicode
    property White_Space.  The case mappings here are those of ASCII; the ones
    of Unicode are in Unicode.v. *)
From S2P Require Import Prelude.
Local Open Scope Z_scope.

#[global] Arguments String.append : simpl nomatch.
#[global] Arguments Ascii.eqb : simpl never.
#[global] Arguments String.eqb : simpl never.

Infix "+s+" := String.append (at level 60, right associativity) : agent_scope.

Definition str_is_empty (s : string) : bool :=
  match s with EmptyString => true | _ => false end.

(** [str::len]: the number of bytes. *)
Definition str_len (s : string) : Z := Z.of_nat (String.length s).

(** ** Prefixes, suffixes, substrings *)

Fixpoint strip_prefix (p s : string) : option string :=
  match p, s with
  | EmptyString, _ => Some s
  | String a p, String b s => if Ascii.eqb a b then strip_prefix p s else None
  | String _ _, EmptyString => None
  end.

Definition starts_with (p s : string) : bool := is_some (strip_prefix p s).

Fixpoint strip_suffix (p s : string) : option string :=
  if String.eqb s p then Some "" else
  match s with
  | EmptyString => None
  | String a s => String a <$> strip_suffix p s
  end.

Definition ends_with (p s : string) : bool := is_some (strip_suffix p s).

(** [hay.contains(needle)]. *)
Fixpoint str_contains (needle hay : string) : bool :=
  starts_with needle hay ||
  match hay with EmptyString => false | String _ hay => str_contains needle hay end.

(** [s.split_once(sep)]: at the first occurrence of a non-empty [sep]. *)
Fixpoint split_once (sep s : string) : option (string * string) :=
  match strip_prefix sep s with
  | Some rest => Some ("", rest)
  | None =>
      match s with
      | EmptyString => None
      | String a s => (fun '(l, r) => (String a l, r)) <$> split_once sep s
      end
  end.

(** [s.rsplit_once(sep)]: at the last occurrence of a non-empty [sep]. *)
Fixpoint rsplit_once (sep s : string) : option (string * string) :=
  match s with
  | EmptyString => (fun rest => ("", rest)) <$> strip_prefix sep s
  | String a s' =>
      match rsplit_once sep s' with
      | Some (l, r) => Some (String a l, r)
      | None => (fun rest => ("", rest)) <$> strip_prefix sep s
      end
  end.

(** [s.rsplit(c).next()]: what follows the last [c], or all of [s]. *)
Definition last_segment (c : string) (s : string) : string :=
  match rsplit_once c s with Some (_, r) => r | None => s end.

(** [s.split(c)] for one byte [c]. *)
Fixpoint str_split (c : ascii) (s : string) : list string :=
  match s with
  | EmptyString => [""]
  | String a s =>
      if Ascii.eqb a c then "" :: str_split c s else
      match str_split c s with
      | w :: ws => String a w :: ws
      | [] => [String a ""]
      end
  end.

(** [Vec<String>::sort]; a [BTreeSet<String>] iterates in this order too. *)
Definition sort_strings (l : list string) : list string := merge_sort String.le l.
Definition btree_elements (s : gset string) : list string := sort_strings (elements s).

(** [[T]::join]. *)
Fixpoint join (sep : string) (l : list string) : string :=
  match l with
  | [] => ""
  | [s] => s
  | s :: l => s +s+ sep +s+ join sep l
  end.

Fixpoint str_rev_app (s acc : string) : string :=
  match s with EmptyString => acc | String a s => str_rev_app s (String a acc) end.
Definition str_rev (s : string) : string := str_rev_app s "".

(** ** Characters *)

Definition byte_of (n : nat) : ascii := Ascii.ascii_of_nat n.

Definition in_range (a lo hi : ascii) : bool :=
  (Ascii.nat_of_ascii lo <=? Ascii.nat_of_ascii a)%nat
  && (Ascii.nat_of_ascii a <=? Ascii.nat_of_ascii hi)%nat.

Definition is_ascii_digit (a : ascii) : bool := in_range a "0" "9".
Definition is_ascii_upper (a : ascii) : bool := in_range a "A" "Z".
Definition is_ascii_lower (a : ascii) : bool := in_range a "a" "z".
Definition is_ascii_alphanumeric (a : ascii) : bool :=
  is_ascii_digit a || is_ascii_upper a || is_ascii_lower a.
Definition is_ascii_hexdigit (a : ascii) : bool :=
  is_ascii_digit a || in_range a "A" "F" || in_range a "a" "f".

Definition ascii_lower (a : ascii) : ascii :=
  if is_ascii_upper a then byte_of (Ascii.nat_of_ascii a + 32) else a.
Definition ascii_upper (a : ascii) : ascii :=
  if is_ascii_lower a then byte_of (Ascii.nat_of_ascii a - 32) else a.

Fixpoint str_map (f : ascii -> ascii) (s : string) : string :=
  match s with EmptyString => "" | String a s => String (f a) (str_map f s) end.

Definition to_ascii_lowercase (s : string) : string := str_map ascii_lower s.
Definition to_ascii_uppercase (s : string) : string := str_map ascii_upper s.
Definition eq_ignore_ascii_case (s t : string) : bool :=
  String.eqb (to_ascii_lowercase s) (to_ascii_lowercase t).

(** [s.bytes().all(p)]; for predicates that are false on non-ASCII bytes this
    is [s.chars().all(p)]. *)
Fixpoint str_all (p : ascii -> bool) (s : string) : bool :=
  match s with EmptyString => true | String a s => p a && str_all p s end.

(** ** [str::trim] *)

(** The UTF-8 encodings of the code points of White_Space. *)
Definition white_space : list string :=
  map (fun n => String (byte_of n) "") [9; 10; 11; 12; 13; 32]%nat
  ++ map (fun n => String (byte_of 194) (String (byte_of n) "")) [133; 160]%nat
  ++ [String (byte_of 225) (String (byte_of 154) (String (byte_of 128) ""))]
  ++ map (fun n => String (byte_of 226) (String (byte_of 128) (String (byte_of n) "")))
       ([128; 129; 130; 131; 132; 133; 134; 135; 136; 137; 138; 168; 169; 175]%nat)
  ++ [String (byte_of 226) (String (byte_of 129) (String (byte_of 159) ""));
      String (byte_of 227) (String (byte_of 128) (String (byte_of 128) ""))].

Fixpoint strip_any (ws : list string) (s : string) : option string :=
  match ws with
  | [] => None
  | w :: ws => match strip_prefix w s with Some r => Some r | None => strip_any ws s end
  end.

(** Drop leading members of [ws]; [fuel] bounds the number of characters. *)
Fixpoint trim_start_fuel (fuel : nat) (ws : list string) (s : string) : string :=
  match fuel with
  | O => s
  | S fuel =>
      match strip_any ws s with Some r => trim_start_fuel fuel ws r | None => s end
  end.

Definition trim_start (s : string) : string :=
  trim_start_fuel (String.length s) white_space s.
Definition trim_end (s : string) : string :=
  str_rev (trim_start_fuel (String.length s) (map str_rev white_space) (str_rev s)).
Definition trim (s : string) : string := trim_end (trim_start s).

(** [s.trim_end_matches(suf)] and [s.trim_start_matches(pre)]. *)
Definition trim_start_matches (pre s : string) : string :=
  trim_start_fuel (String.length s) [pre] s.
Definition trim_end_matches (suf s : string) : string :=
  str_rev (trim_start_fuel (String.length s) [str_rev suf] (str_rev s)).

(** ** Integers *)

Definition u16_max : Z := 2 ^ 16 - 1.
Definition u32_max : Z := 2 ^ 32 - 1.
Definition u64_max : Z := 2 ^ 64 - 1.
Definition u128_max : Z := 2 ^ 128 - 1.
Definition i64_max : Z := 2 ^ 63 - 1.
Definition i128_min : Z := - 2 ^ 127.
Definition i128_max : Z := 2 ^ 127 - 1.

(** Checked arithmetic keeps a value when it is in range. *)
Definition check_range (lo hi n : Z) : option Z :=
  if (lo <=? n) && (n <=? hi) then Some n else None.
Definition i128_checked (n : Z) : option Z := check_range i128_min i128_max n.
Definition u64_checked (n : Z) : option Z := check_range 0 u64_max n.

(** [u128::saturating_sub], [u64::saturating_add]. *)
Definition sat_sub (a b : Z) : Z := Z.max 0 (a - b).
Definition u64_sat_add (a b : Z) : Z := Z.min u64_max (a + b).

Definition digit_value (a : ascii) : Z := Z.of_nat (Ascii.nat_of_ascii a) - 48.
Definition digit_char (d : Z) : ascii := byte_of (Z.to_nat (d + 48)).

Fixpoint parse_digits (acc : Z) (s : string) : option Z :=
  match s with
  | EmptyString => Some acc
  | String a s =>
      if is_ascii_digit a then parse_digits (acc * 10 + digit_value a) s else None
  end.

(** The value of a non-empty string of decimal digits. *)
Definition parse_nat (s : string) : option Z :=
  if str_is_empty s then None else parse_digits 0 s.

(** [s.parse::<u16>()], [u64], [u128]: an optional plus sign, digits, no
    overflow. *)
Definition parse_unsigned (hi : Z) (s : string) : option Z :=
  n ← parse_nat (match strip_prefix "+" s with Some r => r | None => s end);
  check_range 0 hi n.
Definition parse_u16 := parse_unsigned u16_max.
Definition parse_u64 := parse_unsigned u64_max.
Definition parse_u128 := parse_unsigned u128_max.

(** [s.parse::<i128>()]: an optional sign, digits, no overflow. *)
Definition parse_i128 (s : string) : option Z :=
  match s with
  | String "-" r => n ← parse_nat r; i128_checked (- n)
  | String "+" r => n ← parse_nat r; i128_checked n
  | _ => n ← parse_nat s; i128_checked n
  end.

(** [n.to_string()]. *)
Fixpoint print_digits (fuel : nat) (n : Z) (acc : string) : string :=
  match fuel with
  | O => acc
  | S fuel =>
      if n <? 10 then String (digit_char n) acc
      else print_digits fuel (n / 10) (String (digit_char (n mod 10)) acc)
  end.
Definition nat_to_string (n : Z) : string :=
  print_digits (S (Z.to_nat (Z.log2 n))) n "".
Definition int_to_string (n : Z) : string :=
  if n <? 0 then String "-" (nat_to_string (- n)) else nat_to_string n.

(** ** Lemmas: sorting *)

Lemma sort_strings_in l x : In x (sort_strings l) <-> In x l.
Proof. unfold sort_strings. by rewrite <- !list_elem_of_In, merge_sort_Permutation. Qed.

Lemma btree_elements_in s x : In x (btree_elements s) <-> x ∈ s.
Proof. unfold btree_elements. rewrite sort_strings_in, <- list_elem_of_In. apply elem_of_elements. Qed.

(** ** Lemmas: prefixes and suffixes *)

Lemma append_nil_r s : s +s+ "" = s.
Proof. induction s as [|a s IH]; simpl; [done|]. by rewrite IH. Qed.

Lemma append_assoc s t u : (s +s+ t) +s+ u = s +s+ (t +s+ u).
Proof. induction s as [|a s IH]; simpl; [done|]. by rewrite IH. Qed.

Lemma string_compare_refl s : String.compare s s = Eq.
Proof.
  pose proof (String.compare_antisym s s) as H.
  destruct (String.compare s s); done.
Qed.

Lemma strip_prefix_some p s r : strip_prefix p s = Some r <-> s = p +s+ r.
Proof.
  revert s; induction p as [|a p IH]; intros s; simpl; [naive_solver|].
  destruct s as [|b s]; simpl; [done|].
  destruct (Ascii.eqb_spec a b) as [->|Hne].
  - rewrite IH. split; [by intros ->|by injection 1].
  - split; [done|]. by intros [= ->].
Qed.

Lemma strip_prefix_app p r : strip_prefix p (p +s+ r) = Some r.
Proof. by apply strip_prefix_some. Qed.

Lemma starts_with_spec p s : starts_with p s = true <-> exists r, s = p +s+ r.
Proof.
  unfold starts_with. destruct (strip_prefix p s) as [r|] eqn:H; simpl.
  - apply strip_prefix_some in H. naive_solver.
  - split; [done|]. intros [r Hr]. by apply strip_prefix_some in Hr; simplify_eq.
Qed.

Lemma length_append s t : String.length (s +s+ t) = (String.length s + String.length t)%nat.
Proof. induction s as [|a s IH]; simpl; [done|]. by rewrite IH. Qed.

Lemma append_self_nil s t : s = t +s+ s -> t = "".
Proof.
  intros H. apply (f_equal String.length) in H. rewrite length_append in H.
  destruct t; [done|]. simpl in *. lia.
Qed.

Lemma strip_suffix_some p s r : strip_suffix p s = Some r <-> s = r +s+ p.
Proof.
  revert r; induction s as [|a s IH]; intros r; cbn [strip_suffix].
  - destruct p as [|b p]; simpl.
    + rewrite append_nil_r. naive_solver.
    + split; [done|]. by destruct r.
  - destruct (String.eqb_spec (String a s) p) as [<-|Hne].
    + split; [by intros [= <-]|].
      intros H. by apply append_self_nil in H as ->.
    + rewrite fmap_Some. split.
      * intros (r' & Hr & ->). by apply IH in Hr as ->.
      * destruct r as [|b r]; simpl; [congruence|]. intros [= -> ->].
        exists r. by rewrite IH.
Qed.

Lemma strip_suffix_app r p : strip_suffix p (r +s+ p) = Some r.
Proof. by apply strip_suffix_some. Qed.

Lemma ends_with_spec p s : ends_with p s = true <-> exists r, s = r +s+ p.
Proof.
  unfold ends_with. destruct (strip_suffix p s) as [r|] eqn:H; simpl.
  - apply strip_suffix_some in H. naive_solver.
  - split; [done|]. intros [r Hr]. by apply strip_suffix_some in Hr; simplify_eq.
Qed.

Lemma split_once_some sep s l r : split_once sep s = Some (l, r) -> s = l +s+ sep +s+ r.
Proof.
  revert l; induction s as [|a s IH]; intros l; simpl.
  - destruct (strip_prefix sep "") eqn:H; [|done].
    intros [= <- <-]. by apply strip_prefix_some in H.
  - destruct (strip_prefix sep (String a s)) eqn:H.
    + intros [= <- <-]. by apply strip_prefix_some in H.
    + intros ([l' r'] & Hs & Heq)%fmap_Some. simplify_eq.
      by rewrite (IH _ Hs) at 1.
Qed.

Lemma rsplit_once_some sep s l r : rsplit_once sep s = Some (l, r) -> s = l +s+ sep +s+ r.
Proof.
  revert l; induction s as [|a s IH]; intros l; cbn [rsplit_once].
  - intros (r' & Hs & Heq)%fmap_Some. simplify_eq. by apply strip_prefix_some in Hs.
  - destruct (rsplit_once sep s) as [[l' r']|].
    + intros [= <- <-]. by rewrite (IH l').
    + intros (r' & Hs & Heq)%fmap_Some. simplify_eq. by apply strip_prefix_some in Hs.
Qed.

Lemma str_is_empty_spec s : str_is_empty s = true <-> s = "".
Proof. by destruct s. Qed.

(** [sep] occurs in [s]. *)
Definition occurs (sep s : string) : Prop := exists l r, s = l +s+ sep +s+ r.

Lemma str_contains_occurs needle hay : str_contains needle hay = true <-> occurs needle hay.
Proof.
  induction hay as [|a hay IH]; cbn [str_contains].
  - rewrite orb_false_r, starts_with_spec. split.
    + intros [r Hr]. by exists "", r.
    + intros (l & r & H). destruct l; [by exists r|done].
  - rewrite orb_true_iff, starts_with_spec, IH. split.
    + intros [[r Hr]|(l & r & ->)]; [by exists "", r|by exists (String a l), r].
    + intros (l & r & H). destruct l as [|b l]; [left; by exists r|].
      injection H as -> ->. right. by exists l, r.
Qed.

(** Patterns: a name, or a non-empty prefix followed by a star. *)
Definition pattern_covers (nm pattern : string) : Prop :=
  (exists prefix rest, pattern = prefix +s+ "*" /\ prefix <> "" /\ nm = prefix +s+ rest) \/
  (nm = pattern /\ ~ exists prefix, pattern = prefix +s+ "*").
Definition wildcard_matches (nm pattern : string) : bool :=
  match strip_suffix "*" pattern with
  | Some prefix => negb (str_is_empty prefix) && starts_with prefix nm
  | None => String.eqb nm pattern
  end.
Lemma wildcard_spec nm pattern : wildcard_matches nm pattern = true <-> pattern_covers nm pattern.
Proof.
  unfold wildcard_matches, pattern_covers.
  destruct (strip_suffix "*" pattern) as [prefix|] eqn:Hs.
  - apply strip_suffix_some in Hs as ->.
    assert (Huniq : forall p, prefix +s+ "*" = p +s+ "*" -> p = prefix).
    { intros p Hp. apply strip_suffix_some in Hp.
      assert (strip_suffix "*" (prefix +s+ "*") = Some prefix) by (by apply strip_suffix_some).
      congruence. }
    destruct (str_is_empty prefix) eqn:He.
    + apply str_is_empty_spec in He as ->. cbn [negb andb]. split; [done|].
      intros [(p & r & Hp & Hne & _)|[_ Hno]].
      * apply Huniq in Hp. congruence.
      * destruct Hno. by exists "".
    + cbn [negb andb]. rewrite starts_with_spec. split.
      * intros [r ->]. left. exists prefix, r. split_and!; [done| |done].
        by intros ->.
      * intros [(p & r & Hp & _ & ->)|[_ Hno]].
        -- apply Huniq in Hp as ->. by exists r.
        -- destruct Hno. by exists prefix.
  - rewrite String.eqb_eq. split.
    + intros ->. right. split; [done|]. intros [p ->].
      assert (strip_suffix "*" (p +s+ "*") = Some p) as Hx by (by apply strip_suffix_some).
      congruence.
    + intros [(p & r & -> & _)|[-> _]]; [|done].
      assert (strip_suffix "*" (p +s+ "*") = Some p) as Hx by (by apply strip_suffix_some).
      congruence.
Qed.

(** No byte of [s] is [c]. *)
Definition free_of (c : ascii) (s : string) : bool := str_all (fun a => negb (Ascii.eqb c a)) s.

Lemma rsplit_once_none sep s : rsplit_once sep s = None <-> ~ occurs sep s.
Proof.
  split.
  - intros Hn (l & r & ->). revert Hn. induction l as [|a l IH].
    + change ("" +s+ sep +s+ r) with (sep +s+ r).
      pose proof (strip_prefix_app sep r) as Hp.
      destruct (sep +s+ r); cbn [rsplit_once]; rewrite Hp; simpl; [done|].
      by destruct (rsplit_once sep _) as [[]|].
    + change (String a l +s+ sep +s+ r) with (String a (l +s+ sep +s+ r)).
      cbn [rsplit_once]. by destruct (rsplit_once sep (l +s+ sep +s+ r)) as [[]|]; auto.
  - intros Hno. destruct (rsplit_once sep s) as [[l r]|] eqn:H; [|done].
    apply rsplit_once_some in H. exfalso. apply Hno. by exists l, r.
Qed.

Lemma rsplit_once_free c sep s : free_of c s = true -> rsplit_once (String c sep) s = None.
Proof.
  unfold free_of. induction s as [|a s IH]; simpl; [done|].
  intros [Ha Hs]%andb_true_iff. rewrite (IH Hs). apply negb_true_iff in Ha. by rewrite Ha.
Qed.

(** When the first byte of the separator does not occur after it, this is the
    last occurrence. *)
Lemma rsplit_once_last c sep l r :
  free_of c (sep +s+ r) = true -> rsplit_once (String c sep) (l +s+ String c sep +s+ r) = Some (l, r).
Proof.
  intros Hf. induction l as [|a l IH].
  - change ("" +s+ String c sep +s+ r) with (String c (sep +s+ r)). cbn [rsplit_once].
    rewrite (rsplit_once_free _ _ _ Hf).
    change (String c (sep +s+ r)) with (String c sep +s+ r). by rewrite strip_prefix_app.
  - change (String a l +s+ String c sep +s+ r) with (String a (l +s+ String c sep +s+ r)).
    cbn [rsplit_once]. by rewrite IH.
Qed.

(** After the last occurrence of a one-byte separator it does not occur. *)
Lemma rsplit_once_rest_free c s l r :
  rsplit_once (String c "") s = Some (l, r) -> free_of c r = true.
Proof.
  unfold free_of. revert l; induction s as [|a s IH]; intros l; cbn [rsplit_once]; [done|].
  destruct (rsplit_once (String c "") s) as [[l' r']|] eqn:H.
  - intros [= <- <-]. eauto.
  - simpl. destruct (Ascii.eqb_spec c a) as [->|]; [|done]. intros [= <- <-].
    clear IH. induction s as [|b s IH]; [done|]. cbn [rsplit_once] in H. simpl.
    destruct (rsplit_once (String a "") s) as [[]|]; [done|].
    simpl in H. destruct (Ascii.eqb a b); [done|]. simpl. auto.
Qed.

(** ** Lemmas: characters *)

Lemma str_all_app p s t : str_all p (s +s+ t) = str_all p s && str_all p t.
Proof. induction s as [|a s IH]; simpl; [done|]. by rewrite IH, andb_assoc. Qed.

Lemma str_all_impl (p q : ascii -> bool) s :
  (forall a, p a = true -> q a = true) -> str_all p s = true -> str_all q s = true.
Proof.
  intros Hpq. induction s as [|a s IH]; simpl; [done|].
  intros [? ?]%andb_true_iff. apply andb_true_iff. auto.
Qed.

Lemma str_rev_app_spec s acc : str_rev_app s acc = str_rev s +s+ acc.
Proof.
  unfold str_rev. revert acc; induction s as [|a s IH]; intros acc; simpl; [done|].
  by rewrite IH, (IH (String a "")), append_assoc.
Qed.

Lemma str_rev_cons a s : str_rev (String a s) = str_rev s +s+ String a "".
Proof. unfold str_rev at 1. simpl. apply str_rev_app_spec. Qed.

Lemma str_rev_append s t : str_rev (s +s+ t) = str_rev t +s+ str_rev s.
Proof.
  induction s as [|a s IH]; simpl; [by rewrite append_nil_r|].
  by rewrite !str_rev_cons, IH, append_assoc.
Qed.

Lemma str_rev_involutive s : str_rev (str_rev s) = s.
Proof.
  induction s as [|a s IH]; [done|]. rewrite str_rev_cons, str_rev_append, IH. done.
Qed.

Lemma str_all_rev p s : str_all p (str_rev s) = str_all p s.
Proof.
  induction s as [|a s IH]; [done|]. rewrite str_rev_cons, str_all_app, IH. simpl.
  by rewrite andb_true_r, andb_comm.
Qed.

(** Printable ASCII without the space. *)
Definition visible (a : ascii) : bool := in_range a "!" "~".

Lemma digit_visible a : is_ascii_digit a = true -> visible a = true.
Proof. destruct a as [[] [] [] [] [] [] [] []]; by vm_compute. Qed.

(** A text of visible ASCII characters has nothing to trim. *)
Lemma trim_start_visible fuel ws s :
  Forall (fun w => match w with String a _ => visible a = false | _ => False end) ws ->
  str_all visible s = true -> trim_start_fuel fuel ws s = s.
Proof.
  intros Hws Hs. assert (strip_any ws s = None) as Hn.
  { induction Hws as [|w ws Hw _ IH]; simpl; [done|]. rewrite IH.
    destruct w as [|b w]; [done|]. destruct s as [|a s]; simpl; [done|].
    simpl in Hs. apply andb_true_iff in Hs as [Ha _].
    destruct (Ascii.eqb_spec b a); [congruence|done]. }
  destruct fuel; simpl; [done|]. by rewrite Hn.
Qed.

Lemma trim_visible s : str_all visible s = true -> trim s = s.
Proof.
  intros Hs. unfold trim, trim_end, trim_start.
  rewrite (trim_start_visible (String.length s)); [|repeat constructor|done].
  rewrite trim_start_visible; [apply str_rev_involutive|repeat constructor|].
  by rewrite str_all_rev.
Qed.

(** ** Lemmas: decimal printing and parsing *)

Lemma digit_value_char d : 0 <= d < 10 -> digit_value (digit_char d) = d.
Proof.
  intros Hd. unfold digit_value, digit_char, byte_of.
  rewrite Ascii.nat_ascii_embedding; lia.
Qed.

Lemma digit_char_digit d : 0 <= d < 10 -> is_ascii_digit (digit_char d) = true.
Proof.
  intros Hd. unfold is_ascii_digit, in_range, digit_char, byte_of.
  rewrite Ascii.nat_ascii_embedding by lia.
  change (Ascii.nat_of_ascii "0"%char) with 48%nat.
  change (Ascii.nat_of_ascii "9"%char) with 57%nat.
  apply andb_true_iff; split; apply Nat.leb_le; lia.
Qed.

Lemma parse_print_digits fuel n s :
  0 <= n < 2 ^ Z.of_nat fuel ->
  parse_digits 0 (print_digits fuel n s) = parse_digits n s.
Proof.
  revert n s; induction fuel as [|fuel IH]; intros n s Hn.
  - simpl in *. by assert (n = 0) as -> by lia.
  - cbn [print_digits]. rewrite Nat2Z.inj_succ, Z.pow_succ_r in Hn by lia.
    destruct (Z.ltb_spec n 10).
    + cbn [parse_digits]. rewrite digit_char_digit, digit_value_char by lia.
      f_equal; lia.
    + assert (0 <= n mod 10 < 10) by (apply Z.mod_pos_bound; lia).
      rewrite IH by (split; [apply Z.div_pos; lia|apply Z.div_lt_upper_bound; lia]).
      cbn [parse_digits]. rewrite digit_char_digit, digit_value_char by lia.
      f_equal. rewrite (Z.div_mod n 10) at 3 by lia. lia.
Qed.

Lemma print_digits_all fuel n s :
  0 <= n -> str_all is_ascii_digit s = true ->
  str_all is_ascii_digit (print_digits fuel n s) = true.
Proof.
  revert n s; induction fuel as [|fuel IH]; intros n s Hn Hs; cbn [print_digits]; [done|].
  destruct (Z.ltb_spec n 10).
  - simpl. rewrite digit_char_digit by lia. done.
  - apply IH; [apply Z.div_pos; lia|]. simpl. rewrite digit_char_digit; [done|].
    apply Z.mod_pos_bound; lia.
Qed.

Lemma print_digits_nonempty fuel n s :
  fuel <> O \/ s <> "" -> print_digits fuel n s <> "".
Proof.
  revert n s; induction fuel as [|fuel IH]; intros n s H; cbn [print_digits].
  - by destruct H.
  - destruct (n <? 10); [done|]. apply IH. by right.
Qed.

Lemma nat_to_string_all n : 0 <= n -> str_all is_ascii_digit (nat_to_string n) = true.
Proof. intros. by apply print_digits_all. Qed.

Lemma nat_to_string_nonempty n : nat_to_string n <> "".
Proof. apply print_digits_nonempty. by left. Qed.

Lemma parse_nat_to_string n : 0 <= n -> parse_nat (nat_to_string n) = Some n.
Proof.
  intros Hn. unfold parse_nat.
  destruct (nat_to_string n) eqn:E; [by apply nat_to_string_nonempty in E|].
  cbn [str_is_empty]. rewrite <- E. unfold nat_to_string.
  rewrite parse_print_digits; [done|]. split; [done|].
  rewrite Nat2Z.inj_succ, Z2Nat.id by apply Z.log2_nonneg.
  destruct (Z.eq_dec n 0) as [->|]; [done|]. apply Z.log2_spec. lia.
Qed.

(** A digit string does not start with a sign. *)
Lemma parse_i128_digits s :
  str_all is_ascii_digit s = true -> parse_i128 s = n ← parse_nat s; i128_checked n.
Proof.
  destruct s as [|a s]; [done|]. simpl. intros [Ha _]%andb_true_iff.
  destruct a as [[] [] [] [] [] [] [] []]; done.
Qed.

Lemma split_once_dot_digits s :
  str_all is_ascii_digit s = true -> split_once "." s = None.
Proof.
  induction s as [|a s IH]; simpl; [done|]. intros [Ha Hs]%andb_true_iff.
  rewrite (IH Hs). destruct (Ascii.eqb_spec "."%char a) as [<-|].
  - discriminate Ha.
  - done.
Qed.
