(* ===== verification/Text.v ===== *)
(** * Lemmas on trimming, splitting and joining

    What the readers of configuration, images and URLs rely on: trimming gives
    a text without margins and is idempotent, joining with a separator undoes
    splitting at it. *)
From S2P Require Import Prelude RustStr.
Local Open Scope Z_scope.

(** ** Trimming *)

(** No member of [ws] starts [s]. *)
Definition no_margin (ws : list string) (s : string) : Prop := strip_any ws s = None.

Section margins.
Context (ws : list string) (Hws : Forall (fun w => str_is_empty w = false) ws).

Lemma strip_any_some s r : strip_any ws s = Some r -> exists w, In w ws /\ s = w +s+ r.
Proof using.
  clear Hws. induction ws as [|w l IH]; simpl; [done|].
  destruct (strip_prefix w s) as [x|] eqn:Hp.
  - intros [= ->]. exists w. split; [by left|]. by apply strip_prefix_some.
  - intros H. destruct (IH H) as (v & ? & ?). exists v. auto.
Qed.

Lemma strip_any_none s : no_margin ws s <-> Forall (fun w => starts_with w s = false) ws.
Proof using.
  clear Hws. unfold no_margin. induction ws as [|w l IH]; simpl; [by split|].
  rewrite Forall_cons, <- IH. unfold starts_with. destruct (strip_prefix w s); naive_solver.
Qed.

Lemma strip_any_shorter s r :
  strip_any ws s = Some r -> (String.length r < String.length s)%nat.
Proof using Hws.
  intros (w & Hin & ->)%strip_any_some.
  rewrite Forall_forall in Hws. specialize (Hws w (proj2 (list_elem_of_In _ _) Hin)).
  rewrite length_append. destruct w; simpl in *; [done|lia].
Qed.

Lemma trim_fuel_no_margin n s :
  (String.length s <= n)%nat -> no_margin ws (trim_start_fuel n ws s).
Proof using Hws.
  revert s. induction n as [|n IH]; intros s Hn; simpl.
  - destruct s; simpl in Hn; [|lia]. apply strip_any_none, Forall_forall. intros w Hin.
    rewrite Forall_forall in Hws. specialize (Hws w Hin). by destruct w.
  - destruct (strip_any ws s) as [r|] eqn:Hs; [|done].
    apply IH. apply strip_any_shorter in Hs. lia.
Qed.

Lemma trim_fuel_suffix n s : exists p, s = p +s+ trim_start_fuel n ws s.
Proof using.
  clear Hws. revert s. induction n as [|n IH]; intros s; simpl; [by exists ""|].
  destruct (strip_any ws s) as [r|] eqn:Hs; [|by exists ""].
  apply strip_any_some in Hs as (w & _ & ->). destruct (IH r) as [p Hp].
  exists (w +s+ p). by rewrite append_assoc, <- Hp.
Qed.

Lemma trim_fuel_id n s : no_margin ws s -> trim_start_fuel n ws s = s.
Proof using. clear Hws. intros Hs. destruct n; simpl; [done|]. by rewrite Hs. Qed.

Lemma no_margin_prefix s t : no_margin ws (s +s+ t) -> no_margin ws s.
Proof using.
  clear Hws. rewrite !strip_any_none. intros H. eapply Forall_impl; [exact H|].
  intros w Hw. apply not_true_iff_false. intros (r & ->)%starts_with_spec.
  apply not_true_iff_false in Hw. apply Hw, starts_with_spec.
  exists (r +s+ t). by rewrite append_assoc.
Qed.
End margins.

Lemma white_space_nonempty : Forall (fun w => str_is_empty w = false) white_space.
Proof. by repeat constructor. Qed.
Lemma white_space_rev_nonempty :
  Forall (fun w => str_is_empty w = false) (map str_rev white_space).
Proof. by repeat constructor. Qed.

Lemma str_rev_length s : String.length (str_rev s) = String.length s.
Proof.
  induction s as [|a s IH]; [done|]. rewrite str_rev_cons, length_append, IH. simpl. lia.
Qed.

(** A text without white space at its ends. *)
Definition trimmed (s : string) : Prop :=
  no_margin white_space s /\ no_margin (map str_rev white_space) (str_rev s).

Lemma trim_start_suffix s : exists p, s = p +s+ trim_start s.
Proof. apply trim_fuel_suffix. Qed.

Lemma trim_end_prefix s : exists q, s = trim_end s +s+ q.
Proof.
  unfold trim_end.
  destruct (trim_fuel_suffix (map str_rev white_space) (String.length s) (str_rev s)) as [p Hp].
  exists (str_rev p). rewrite <- str_rev_append, <- Hp. by rewrite str_rev_involutive.
Qed.

Lemma trim_trimmed s : trimmed (trim s).
Proof.
  unfold trimmed, trim. split.
  - destruct (trim_end_prefix (trim_start s)) as [q Hq].
    eapply no_margin_prefix. rewrite <- Hq.
    apply trim_fuel_no_margin; [apply white_space_nonempty|done].
  - unfold trim_end. rewrite str_rev_involutive.
    apply trim_fuel_no_margin; [apply white_space_rev_nonempty|by rewrite str_rev_length].
Qed.

Lemma trimmed_trim s : trimmed s -> trim s = s.
Proof.
  intros [H1 H2]. unfold trim, trim_end, trim_start.
  rewrite (trim_fuel_id _ _ _ H1), (trim_fuel_id _ _ _ H2). apply str_rev_involutive.
Qed.

Lemma trim_idempotent s : trim (trim s) = trim s.
Proof. apply trimmed_trim, trim_trimmed. Qed.

Lemma trim_infix s : exists p q, s = p +s+ trim s +s+ q.
Proof.
  destruct (trim_start_suffix s) as [p Hp], (trim_end_prefix (trim_start s)) as [q Hq].
  exists p, q. unfold trim. by rewrite <- Hq.
Qed.

Lemma trim_all p s : str_all p s = true -> str_all p (trim s) = true.
Proof.
  destruct (trim_infix s) as (a & b & Hs). rewrite Hs at 1.
  rewrite !str_all_app, !andb_true_iff. tauto.
Qed.

(** [trim_end_matches] with a non-empty pattern leaves no such suffix. *)
Lemma trim_end_matches_spec suf s :
  str_is_empty suf = false ->
  ends_with suf (trim_end_matches suf s) = false /\ exists q, s = trim_end_matches suf s +s+ q.
Proof.
  intros Hsuf. unfold trim_end_matches. split.
  - apply not_true_iff_false. intros (r & Hr)%ends_with_spec.
    assert (Hm : no_margin [str_rev suf] (trim_start_fuel (String.length s) [str_rev suf] (str_rev s))).
    { apply trim_fuel_no_margin; [|by rewrite str_rev_length].
      repeat constructor. destruct suf as [|a suf]; [done|]. rewrite str_rev_cons.
      by destruct (str_rev suf). }
    apply strip_any_none in Hm. apply Forall_cons in Hm as [Hm _].
    apply (f_equal str_rev) in Hr. rewrite str_rev_involutive, str_rev_append in Hr.
    rewrite Hr in Hm. unfold starts_with in Hm. by rewrite strip_prefix_app in Hm.
  - destruct (trim_fuel_suffix [str_rev suf] (String.length s) (str_rev s)) as [p Hp].
    exists (str_rev p). rewrite <- str_rev_append, <- Hp. by rewrite str_rev_involutive.
Qed.

Lemma trim_end_matches_id suf s :
  ends_with suf s = false -> trim_end_matches suf s = s.
Proof.
  intros Hs. unfold trim_end_matches. rewrite trim_fuel_id; [apply str_rev_involutive|].
  apply strip_any_none, Forall_singleton, not_true_iff_false.
  intros (r & Hr)%starts_with_spec. apply not_true_iff_false in Hs. apply Hs, ends_with_spec.
  exists (str_rev r). apply (f_equal str_rev) in Hr.
  by rewrite str_rev_involutive, str_rev_append, str_rev_involutive in Hr.
Qed.

(** ** Splitting and joining *)

Lemma str_split_nonempty c s : str_split c s <> [].
Proof.
  destruct s as [|a s]; simpl; [done|]. destruct (Ascii.eqb a c); [done|].
  by destruct (str_split c s).
Qed.

Lemma str_split_free c s : Forall (fun w => free_of c w = true) (str_split c s).
Proof.
  unfold free_of. induction s as [|a s IH]; simpl; [by repeat constructor|].
  destruct (Ascii.eqb_spec a c) as [->|Hne]; [by constructor|].
  destruct (str_split c s) as [|w ws].
  - constructor; [|done]. simpl. rewrite andb_true_r. apply negb_true_iff.
    by apply Ascii.eqb_neq.
  - apply Forall_cons in IH as [Hw Hl]. constructor; [|done]. simpl. rewrite Hw, andb_true_r.
    apply negb_true_iff. by apply Ascii.eqb_neq.
Qed.

Lemma str_split_free_id c s : free_of c s = true -> str_split c s = [s].
Proof.
  unfold free_of. induction s as [|a s IH]; simpl; [done|].
  intros [Ha Hs]%andb_true_iff. apply negb_true_iff in Ha. rewrite Ascii.eqb_sym in Ha.
  rewrite Ha, (IH Hs). done.
Qed.

Lemma str_split_cons c w s :
  free_of c w = true -> str_split c (w +s+ String c s) = w :: str_split c s.
Proof.
  unfold free_of. induction w as [|a w IH]; simpl.
  - intros _. by rewrite Ascii.eqb_refl.
  - intros [Ha Hw]%andb_true_iff. apply negb_true_iff in Ha. rewrite Ascii.eqb_sym in Ha.
    by rewrite Ha, (IH Hw).
Qed.

(** Splitting a joined text gives the parts back. *)
Lemma str_split_join c l :
  l <> [] -> Forall (fun w => free_of c w = true) l -> str_split c (join (String c "") l) = l.
Proof.
  intros Hne HF. induction HF as [|w l Hw HF IH]; [done|].
  destruct l as [|v l]; [by apply str_split_free_id|].
  change (join (String c "") (w :: v :: l)) with (w +s+ String c "" +s+ join (String c "") (v :: l)).
  change (String c "" +s+ join (String c "") (v :: l)) with (String c (join (String c "") (v :: l))).
  rewrite str_split_cons by done. by rewrite IH.
Qed.

(** Joining the parts of a text gives it back. *)
Lemma join_str_split c s : join (String c "") (str_split c s) = s.
Proof.
  induction s as [|a s IH]; simpl; [done|].
  pose proof (str_split_nonempty c s) as Hne.
  destruct (Ascii.eqb_spec a c) as [->|_].
  - destruct (str_split c s) as [|w ws]; [done|]. by rewrite <- IH.
  - destruct (str_split c s) as [|w ws]; [done|]. rewrite <- IH. by destruct ws.
Qed.
