(* ===== verification/Utf8.v ===== *)
(** * UTF-8 (String::from_utf8, chars)

    Byte strings and code points: which byte strings [String::from_utf8]
    accepts (the table of well-formed sequences in the Unicode standard), and
    the encoding of a text that is given as a list of code points. *)
From S2P Require Import Prelude RustStr.
Local Open Scope Z_scope.

Definition byte_value (a : ascii) : Z := Z.of_nat (Ascii.nat_of_ascii a).
Definition between (lo hi b : Z) : bool := (lo <=? b) && (b <=? hi).
Definition is_continuation (a : ascii) : bool := between 128 191 (byte_value a).

(** The bytes that may follow the first one in a sequence of three or four. *)
Definition second_of_three (b : Z) (a : ascii) : bool :=
  if b =? 224 then between 160 191 (byte_value a)
  else if b =? 237 then between 128 159 (byte_value a)
  else is_continuation a.
Definition second_of_four (b : Z) (a : ascii) : bool :=
  if b =? 240 then between 144 191 (byte_value a)
  else if b =? 244 then between 128 143 (byte_value a)
  else is_continuation a.

(** [String::from_utf8(bytes).is_ok()]. *)
Fixpoint valid_utf8 (s : string) : bool :=
  match s with
  | EmptyString => true
  | String a s =>
      let b := byte_value a in
      if b <? 128 then valid_utf8 s
      else if between 194 223 b then
        match s with String c s => is_continuation c && valid_utf8 s | _ => false end
      else if between 224 239 b then
        match s with
        | String c (String d s) => second_of_three b c && is_continuation d && valid_utf8 s
        | _ => false
        end
      else if between 240 244 b then
        match s with
        | String c (String d (String e s)) =>
            second_of_four b c && is_continuation d && is_continuation e && valid_utf8 s
        | _ => false
        end
      else false
  end.

(** [str::chars]: the code points, [None] for bytes that are no [str]. *)
Definition tail_bits (a : ascii) : Z := byte_value a - 128.
Fixpoint utf8_decode (s : string) : option (list Z) :=
  match s with
  | EmptyString => Some []
  | String a s =>
      let b := byte_value a in
      if b <? 128 then cons b <$> utf8_decode s
      else if between 194 223 b then
        match s with
        | String c s =>
            if is_continuation c then cons ((b - 192) * 2 ^ 6 + tail_bits c) <$> utf8_decode s else None
        | _ => None
        end
      else if between 224 239 b then
        match s with
        | String c (String d s) =>
            if second_of_three b c && is_continuation d
            then cons ((b - 224) * 2 ^ 12 + tail_bits c * 2 ^ 6 + tail_bits d) <$> utf8_decode s
            else None
        | _ => None
        end
      else if between 240 244 b then
        match s with
        | String c (String d (String e s)) =>
            if second_of_four b c && is_continuation d && is_continuation e
            then cons ((b - 240) * 2 ^ 18 + tail_bits c * 2 ^ 12 + tail_bits d * 2 ^ 6 + tail_bits e)
                   <$> utf8_decode s
            else None
        | _ => None
        end
      else None
  end.

(** The encoding of one code point, and of a text. *)
Definition byte_char (b : Z) : ascii := byte_of (Z.to_nat b).
Definition utf8_char (c : Z) : string :=
  if c <? 2 ^ 7 then String (byte_char c) ""
  else if c <? 2 ^ 11 then
    String (byte_char (192 + c / 2 ^ 6)) (String (byte_char (128 + c mod 2 ^ 6)) "")
  else if c <? 2 ^ 16 then
    String (byte_char (224 + c / 2 ^ 12)) (String (byte_char (128 + c / 2 ^ 6 mod 2 ^ 6))
      (String (byte_char (128 + c mod 2 ^ 6)) ""))
  else
    String (byte_char (240 + c / 2 ^ 18)) (String (byte_char (128 + c / 2 ^ 12 mod 2 ^ 6))
      (String (byte_char (128 + c / 2 ^ 6 mod 2 ^ 6)) (String (byte_char (128 + c mod 2 ^ 6)) ""))).
Definition utf8_encode (t : list Z) : string := fold_right (fun c s => utf8_char c +s+ s) "" t.

(** A [char]: a code point that is not a surrogate. *)
Definition is_scalar (c : Z) : Prop := 0 <= c < 55296 \/ 57344 <= c <= 1114111.

Lemma byte_value_char b : 0 <= b < 256 -> byte_value (byte_char b) = b.
Proof.
  intros Hb. unfold byte_value, byte_char, byte_of.
  rewrite Ascii.nat_ascii_embedding by lia. lia.
Qed.

Lemma between_true lo hi b : lo <= b <= hi -> between lo hi b = true.
Proof. intros [? ?]. unfold between. apply andb_true_iff. split; by apply Z.leb_le. Qed.
Lemma between_false lo hi b : b < lo \/ hi < b -> between lo hi b = false.
Proof.
  unfold between. intros [H|H]; apply andb_false_iff; [left|right]; by apply Z.leb_gt.
Qed.

Lemma continuation_char b : 0 <= b < 64 -> is_continuation (byte_char (128 + b)) = true.
Proof. intros Hb. unfold is_continuation. rewrite byte_value_char by lia. apply between_true. lia. Qed.

Lemma second_of_three_char c :
  2 ^ 11 <= c < 2 ^ 16 -> is_scalar c ->
  second_of_three (224 + c / 2 ^ 12) (byte_char (128 + c / 2 ^ 6 mod 2 ^ 6)) = true.
Proof.
  intros Hc Hs. unfold second_of_three, is_continuation.
  rewrite byte_value_char by (pose proof (Z.mod_pos_bound (c / 2 ^ 6) (2 ^ 6)); lia).
  unfold is_scalar in Hs.
  destruct (_ =? 224) eqn:H1; [apply Z.eqb_eq in H1; apply between_true|apply Z.eqb_neq in H1;
    destruct (_ =? 237) eqn:H2; [apply Z.eqb_eq in H2|]; apply between_true];
  Z.to_euclidean_division_equations; lia.
Qed.

Lemma second_of_four_char c :
  2 ^ 16 <= c <= 1114111 ->
  second_of_four (240 + c / 2 ^ 18) (byte_char (128 + c / 2 ^ 12 mod 2 ^ 6)) = true.
Proof.
  intros Hc. unfold second_of_four, is_continuation.
  rewrite byte_value_char by (pose proof (Z.mod_pos_bound (c / 2 ^ 12) (2 ^ 6)); lia).
  destruct (_ =? 240) eqn:H1; [apply Z.eqb_eq in H1; apply between_true|apply Z.eqb_neq in H1;
    destruct (_ =? 244) eqn:H2; [apply Z.eqb_eq in H2|]; apply between_true];
  Z.to_euclidean_division_equations; lia.
Qed.

Lemma utf8_char_valid c s : is_scalar c -> valid_utf8 (utf8_char c +s+ s) = valid_utf8 s.
Proof.
  intros Hc. assert (Hr : 0 <= c <= 1114111) by (unfold is_scalar in Hc; lia).
  pose proof (Z.mod_pos_bound c (2 ^ 6) eq_refl) as H6.
  pose proof (Z.mod_pos_bound (c / 2 ^ 6) (2 ^ 6) eq_refl) as H12.
  unfold utf8_char. destruct (c <? 2 ^ 7) eqn:H1; [apply Z.ltb_lt in H1|apply Z.ltb_ge in H1].
  { cbn [String.append valid_utf8]. rewrite byte_value_char by lia.
    by rewrite (proj2 (Z.ltb_lt c 128)) by lia. }
  destruct (c <? 2 ^ 11) eqn:H2; [apply Z.ltb_lt in H2|apply Z.ltb_ge in H2].
  { assert (2 <= c / 2 ^ 6 < 32) by (Z.to_euclidean_division_equations; lia).
    cbn [String.append valid_utf8]. rewrite byte_value_char by lia.
    rewrite (proj2 (Z.ltb_ge _ 128)), between_true by lia. by rewrite continuation_char by lia. }
  destruct (c <? 2 ^ 16) eqn:H3; [apply Z.ltb_lt in H3|apply Z.ltb_ge in H3].
  { assert (0 <= c / 2 ^ 12 < 16) by (Z.to_euclidean_division_equations; lia).
    cbn [String.append valid_utf8]. rewrite (byte_value_char (224 + _)) by lia.
    rewrite (proj2 (Z.ltb_ge _ 128)), between_false, between_true by lia.
    rewrite second_of_three_char by (done || lia). by rewrite continuation_char by lia. }
  assert (0 <= c / 2 ^ 18 <= 4) by (Z.to_euclidean_division_equations; lia).
  cbn [String.append valid_utf8]. rewrite (byte_value_char (240 + _)) by lia.
  rewrite (proj2 (Z.ltb_ge _ 128)) by lia. do 2 rewrite between_false by lia.
  rewrite between_true, second_of_four_char by lia. by rewrite !continuation_char by lia.
Qed.

(** The encoding of a text is valid UTF-8. *)
Lemma utf8_encode_valid t : Forall is_scalar t -> valid_utf8 (utf8_encode t) = true.
Proof.
  induction 1 as [|c t Hc _ IH]; [done|]. cbn [utf8_encode fold_right].
  by rewrite utf8_char_valid.
Qed.

(** ** Decoding *)

Lemma tail_bits_char b : 0 <= b < 64 -> tail_bits (byte_char (128 + b)) = b.
Proof. intros Hb. unfold tail_bits. rewrite byte_value_char by lia. lia. Qed.

Lemma utf8_decode_char c s : is_scalar c -> utf8_decode (utf8_char c +s+ s) = cons c <$> utf8_decode s.
Proof.
  intros Hc. assert (Hr : 0 <= c <= 1114111) by (unfold is_scalar in Hc; lia).
  pose proof (Z.mod_pos_bound c (2 ^ 6) eq_refl) as H6.
  pose proof (Z.mod_pos_bound (c / 2 ^ 6) (2 ^ 6) eq_refl) as H12.
  pose proof (Z.mod_pos_bound (c / 2 ^ 12) (2 ^ 6) eq_refl) as H18.
  unfold utf8_char. destruct (c <? 2 ^ 7) eqn:H1; [apply Z.ltb_lt in H1|apply Z.ltb_ge in H1].
  { cbn [String.append utf8_decode]. rewrite byte_value_char by lia.
    by rewrite (proj2 (Z.ltb_lt c 128)) by lia. }
  destruct (c <? 2 ^ 11) eqn:H2; [apply Z.ltb_lt in H2|apply Z.ltb_ge in H2].
  { assert (2 <= c / 2 ^ 6 < 32) by (Z.to_euclidean_division_equations; lia).
    cbn [String.append utf8_decode]. rewrite byte_value_char by lia.
    rewrite (proj2 (Z.ltb_ge _ 128)), between_true, continuation_char, tail_bits_char by lia.
    do 2 f_equal. Z.to_euclidean_division_equations; lia. }
  destruct (c <? 2 ^ 16) eqn:H3; [apply Z.ltb_lt in H3|apply Z.ltb_ge in H3].
  { assert (0 <= c / 2 ^ 12 < 16) by (Z.to_euclidean_division_equations; lia).
    cbn [String.append utf8_decode]. rewrite (byte_value_char (224 + _)) by lia.
    rewrite (proj2 (Z.ltb_ge _ 128)), between_false, between_true by lia.
    rewrite second_of_three_char by (done || lia). rewrite continuation_char, !tail_bits_char by lia.
    cbn [andb]. do 2 f_equal. Z.to_euclidean_division_equations; lia. }
  assert (0 <= c / 2 ^ 18 <= 4) by (Z.to_euclidean_division_equations; lia).
  cbn [String.append utf8_decode]. rewrite (byte_value_char (240 + _)) by lia.
  rewrite (proj2 (Z.ltb_ge _ 128)) by lia. do 2 rewrite between_false by lia.
  rewrite between_true, second_of_four_char by lia.
  rewrite !continuation_char, !tail_bits_char by lia.
  cbn [andb]. do 2 f_equal. Z.to_euclidean_division_equations; lia.
Qed.

(** Decoding inverts encoding. *)
Lemma utf8_decode_encode t : Forall is_scalar t -> utf8_decode (utf8_encode t) = Some t.
Proof.
  induction 1 as [|c t Hc _ IH]; [done|]. cbn [utf8_encode fold_right].
  rewrite utf8_decode_char by done. change (fold_right _ _ t) with (utf8_encode t). by rewrite IH.
Qed.

(** A byte string can be decoded exactly if it is valid. *)
Lemma utf8_decode_valid s : is_some (utf8_decode s) = valid_utf8 s.
Proof.
  assert (Hcons : forall c (o : option (list Z)), is_some (cons c <$> o) = is_some o) by (by intros c []).
  induction s as [s IH] using (induction_ltof1 _ String.length). unfold ltof in IH.
  destruct s as [|a s]; [done|]. cbn [utf8_decode valid_utf8].
  destruct (byte_value a <? 128); [rewrite Hcons; apply IH; simpl; lia|].
  destruct (between 194 223 _).
  { destruct s as [|c s]; [done|]. destruct (is_continuation c); [|done]. rewrite Hcons. apply IH. simpl. lia. }
  destruct (between 224 239 _).
  { destruct s as [|c [|d s]]; [done..|]. destruct (_ && _); [|done]. rewrite Hcons. apply IH. simpl. lia. }
  destruct (between 240 244 _); [|done].
  destruct s as [|c [|d [|e s]]]; [done..|]. destruct (_ && _ && _); [|done]. rewrite Hcons. apply IH. simpl. lia.
Qed.

Example utf8_accent : utf8_encode [233] = String (byte_of 195) (String (byte_of 169) "").
Proof. reflexivity. Qed.
Example utf8_lone_continuation : valid_utf8 (String (byte_of 128) "") = false.
Proof. reflexivity. Qed.
Example utf8_overlong : valid_utf8 (String (byte_of 192) (String (byte_of 128) "")) = false.
Proof. reflexivity. Qed.
