(* ===== verification/Ordering.v ===== *)
(** * Comparators

    Rust's [Ord::cmp], [then_with] and the derived orders: three-way comparisons
    with their laws as a class, and the sort that they give. *)
From S2P Require Import Prelude.
Local Open Scope Z_scope.

(** What [sort_by] asks of a comparator. *)
Class Comparator {A} (cmp : A -> A -> comparison) : Prop := {
  cmp_flip : forall a b, cmp b a = CompOpp (cmp a b);
  cmp_lt_trans : forall a b c, cmp a b = Lt -> cmp b c = Lt -> cmp a c = Lt;
  cmp_eq_left : forall a b c, cmp a b = Eq -> cmp a c = cmp b c }.
Arguments cmp_flip {A} cmp {_} a b.
Arguments cmp_lt_trans {A} cmp {_} a b c.
Arguments cmp_eq_left {A} cmp {_} a b c.
Global Hint Mode Comparator - ! : typeclass_instances.

(** ** The comparators of the source *)

(** [Ordering::then_with]. *)
Definition cmp_then (c d : comparison) : comparison := match c with Eq => d | _ => c end.
(** [a.cmp(b)] on a key of [a] and [b]; [b.cmp(a)]. *)
Definition cmp_on {A B} (f : A -> B) (cmp : B -> B -> comparison) (a b : A) : comparison :=
  cmp (f a) (f b).
Definition cmp_rev {A} (cmp : A -> A -> comparison) (a b : A) : comparison := cmp b a.
(** One comparator, then another one. *)
Definition cmp_lex {A} (cmp cmp' : A -> A -> comparison) (a b : A) : comparison :=
  cmp_then (cmp a b) (cmp' a b).
(** The derived order of [Option]. *)
Definition opt_compare {A} (cmp : A -> A -> comparison) (a b : option A) : comparison :=
  match a, b with
  | None, None => Eq | None, Some _ => Lt | Some _, None => Gt
  | Some a, Some b => cmp a b
  end.

Definition cmp_le {A} (cmp : A -> A -> comparison) (a b : A) : Prop := cmp a b <> Gt.
Global Instance cmp_le_dec {A} (cmp : A -> A -> comparison) : RelDecision (cmp_le cmp).
Proof. intros a b. unfold cmp_le. apply _. Defined.
(** [slice::sort_by]. *)
Definition sort_by {A} (cmp : A -> A -> comparison) (l : list A) : list A :=
  merge_sort (cmp_le cmp) l.

(** ** Laws *)

Global Instance Z_comparator : Comparator Z.compare.
Proof.
  split.
  - intros a b. apply Z.compare_antisym.
  - intros a b c. rewrite !Z.compare_lt_iff. lia.
  - intros a b c ->%Z.compare_eq. done.
Qed.

Lemma ascii_compare_lt_trans a b c :
  Ascii.compare a b = Lt -> Ascii.compare b c = Lt -> Ascii.compare a c = Lt.
Proof. unfold Ascii.compare. rewrite !N.compare_lt_iff. lia. Qed.

Lemma string_compare_lt_trans s t u :
  String.compare s t = Lt -> String.compare t u = Lt -> String.compare s u = Lt.
Proof.
  revert t u. induction s as [|a s IH]; intros [|b t] [|c u]; simpl; try done.
  destruct (Ascii.compare a b) eqn:Hab; [|intros _|done].
  - apply Ascii.compare_eq_iff in Hab as ->. intros Hst.
    destruct (Ascii.compare b c); [by apply IH|done|done].
  - destruct (Ascii.compare b c) eqn:Hbc; [|intros _|done].
    + apply Ascii.compare_eq_iff in Hbc as ->. by rewrite Hab.
    + by rewrite (ascii_compare_lt_trans a b c).
Qed.

Global Instance string_comparator : Comparator String.compare.
Proof.
  split.
  - intros a b. apply String.compare_antisym.
  - apply string_compare_lt_trans.
  - intros a b c ->%String.compare_eq_iff. done.
Qed.

Section combinators.
Context {A B : Type} (cmp cmp' : A -> A -> comparison) `{!Comparator cmp, !Comparator cmp'}.

Global Instance cmp_on_comparator (f : B -> A) : Comparator (cmp_on f cmp).
Proof.
  unfold cmp_on. split; intros *;
    [apply (cmp_flip cmp)|exact (cmp_lt_trans cmp _ _ _)|exact (cmp_eq_left cmp _ _ _)].
Qed.

Global Instance cmp_rev_comparator : Comparator (cmp_rev cmp).
Proof.
  unfold cmp_rev. split; intros *.
  - apply (cmp_flip cmp).
  - intros H1 H2. by apply (cmp_lt_trans cmp c b a).
  - intros H.
    assert (H' : cmp a b = Eq) by (by rewrite (cmp_flip cmp b a), H).
    by rewrite (cmp_flip cmp a c), (cmp_flip cmp b c), (cmp_eq_left cmp a b c H').
Qed.

Global Instance opt_comparator : Comparator (opt_compare cmp).
Proof.
  split.
  - intros [a|] [b|]; simpl; try done. apply (cmp_flip cmp).
  - intros [a|] [b|] [c|]; simpl; try done. exact (cmp_lt_trans cmp _ _ _).
  - intros [a|] [b|] [c|]; simpl; try done. exact (cmp_eq_left cmp _ _ _).
Qed.

Global Instance cmp_lex_comparator : Comparator (cmp_lex cmp cmp').
Proof.
  unfold cmp_lex. split; intros a b; [|intros c..].
  - rewrite (cmp_flip cmp a b), (cmp_flip cmp' a b). by destruct (cmp a b).
  - destruct (cmp a b) eqn:Hab; simpl; [|intros _|done].
    + rewrite (cmp_eq_left cmp a b c Hab). destruct (cmp b c); simpl; [|done|done]. exact (cmp_lt_trans cmp' _ _ _).
    + destruct (cmp b c) eqn:Hbc; simpl; [|intros _|done].
      * rewrite (cmp_flip cmp c a), <- (cmp_eq_left cmp b c a Hbc), (cmp_flip cmp a b), Hab. done.
      * by rewrite (cmp_lt_trans cmp a b c).
  - destruct (cmp a b) eqn:Hab; simpl; [|done|done]. intros Hab'.
    by rewrite (cmp_eq_left cmp a b c Hab), (cmp_eq_left cmp' a b c Hab').
Qed.
End combinators.

#[global] Typeclasses Opaque cmp_on cmp_rev cmp_lex opt_compare.

(** Laws of a comparator that is built from the combinators. *)
Ltac comparator :=
  repeat lazymatch goal with
  | |- Comparator (cmp_lex ?c ?d) => notypeclasses refine (@cmp_lex_comparator _ c d _ _)
  | |- Comparator (cmp_on ?f ?c) => notypeclasses refine (@cmp_on_comparator _ _ c _ f)
  | |- Comparator (cmp_rev ?c) => notypeclasses refine (@cmp_rev_comparator _ c _)
  | |- Comparator (opt_compare ?c) => notypeclasses refine (@opt_comparator _ c _)
  | |- Comparator Z.compare => exact Z_comparator
  | |- Comparator String.compare => exact string_comparator
  end.

(** ** Sorting *)

Section sorting.
Context {A : Type} (cmp : A -> A -> comparison) `{!Comparator cmp}.

Global Instance cmp_le_total : Total (cmp_le cmp).
Proof.
  intros a b. unfold cmp_le. rewrite (cmp_flip cmp a b). destruct (cmp a b); [by left..|by right].
Qed.

Global Instance cmp_le_trans : Transitive (cmp_le cmp).
Proof.
  intros a b c. unfold cmp_le. destruct (cmp a b) eqn:Hab; [| |done]; intros _.
  - by rewrite (cmp_eq_left cmp a b c).
  - destruct (cmp b c) eqn:Hbc; intros H; [| |done].
    + rewrite (cmp_flip cmp c a), <- (cmp_eq_left cmp b c a Hbc), (cmp_flip cmp a b), Hab. done.
    + by rewrite (cmp_lt_trans cmp a b c).
Qed.

Lemma sort_by_sorted l : StronglySorted (cmp_le cmp) (sort_by cmp l).
Proof. apply StronglySorted_merge_sort; apply _. Qed.

Lemma sort_by_permutation l : sort_by cmp l ≡ₚ l.
Proof. apply merge_sort_Permutation. Qed.

Lemma sort_by_in l x : In x (sort_by cmp l) <-> In x l.
Proof. by rewrite <- !list_elem_of_In, sort_by_permutation. Qed.

(** A sorted list with different keys does not depend on where it came from. *)
Lemma sort_by_unique l l' :
  (forall a b, In a l -> In b l -> cmp a b = Eq -> a = b) ->
  l ≡ₚ l' -> StronglySorted (cmp_le cmp) l' -> sort_by cmp l = l'.
Proof.
  intros Hu Hp Hs. apply (StronglySorted_unique_strong (cmp_le cmp)).
  - intros a b Ha%list_elem_of_In Hb%list_elem_of_In Hab Hba. apply Hu.
    + by apply sort_by_in.
    + apply list_elem_of_In. apply list_elem_of_In in Hb. by rewrite Hp.
    + unfold cmp_le in *. rewrite (cmp_flip cmp a b) in Hba. by destruct (cmp a b).
  - apply sort_by_sorted.
  - done.
  - by rewrite sort_by_permutation.
Qed.

Lemma sort_by_perm l l' :
  (forall a b, In a l -> In b l -> cmp a b = Eq -> a = b) ->
  l ≡ₚ l' -> sort_by cmp l = sort_by cmp l'.
Proof.
  intros Hu Hp. apply sort_by_unique; [done| |apply sort_by_sorted]. by rewrite sort_by_permutation.
Qed.

(** What [take n] keeps of a sorted list comes before everything it drops. *)
Lemma take_sorted n l a b :
  StronglySorted (cmp_le cmp) l -> In a (take n l) -> In b (drop n l) -> cmp_le cmp a b.
Proof.
  intros Hs. revert n. induction Hs as [|x l Hs IH Hx]; intros n.
  - by rewrite take_nil.
  - destruct n as [|n]; simpl; [done|]. intros [<-|Ha] Hb.
    + rewrite List.Forall_forall in Hx. apply Hx. rewrite <- (take_drop n l). apply in_app_iff. by right.
    + by apply (IH n).
Qed.
End sorting.

(** ** Sorting and maps *)

Section map_sort.
Context {A B : Type} (f : A -> B) (cmp : A -> A -> comparison) (cmp' : B -> B -> comparison).
Context (Hf : forall a b, cmp' (f a) (f b) = cmp a b).

Lemma list_merge_map l1 l2 :
  list_merge (cmp_le cmp') (map f l1) (map f l2) = map f (list_merge (cmp_le cmp) l1 l2).
Proof using Hf.
  revert l2. induction l1 as [|a l1 IH1]; intros l2; induction l2 as [|b l2 IH2]; simpl; try done.
  unfold decide_rel. assert (Hiff : cmp_le cmp' (f a) (f b) <-> cmp_le cmp a b) by (unfold cmp_le; by rewrite Hf).
  case_decide as H; case_decide as H'; try tauto; simpl; f_equal; [apply (IH1 (b :: l2))|exact IH2].
Qed.

Lemma merge_stack_map st :
  merge_stack (cmp_le cmp') (map (fmap (map f)) st) = map f (merge_stack (cmp_le cmp) st).
Proof using Hf.
  induction st as [|[l|] st IH]; simpl; [done| |done]. by rewrite IH, list_merge_map.
Qed.

Lemma merge_list_to_stack_map st l :
  merge_list_to_stack (cmp_le cmp') (map (fmap (map f)) st) (map f l) =
  map (fmap (map f)) (merge_list_to_stack (cmp_le cmp) st l).
Proof using Hf.
  revert l. induction st as [|[l'|] st IH]; intros l; simpl; [done| |done]. by rewrite list_merge_map, IH.
Qed.

(** Sorting commutes with a function that keeps the order. *)
Lemma sort_by_map l : sort_by cmp' (map f l) = map f (sort_by cmp l).
Proof using Hf.
  unfold sort_by, merge_sort. change (@nil (option (list B))) with (map (fmap (map f)) (@nil (option (list A)))).
  generalize (@nil (option (list A))). induction l as [|a l IH]; intros st; simpl.
  - apply merge_stack_map.
  - rewrite <- IH. f_equal. apply (merge_list_to_stack_map st [a]).
Qed.
End map_sort.
