(* ===== verification/Json.v ===== *)
(** * JSON values

    The value type of [serde_json] as the agent builds and inspects it: the
    [json!] literals of the patches and of the audit fields, and the pointer
    lookups.  Object fields are kept in key order, as in the crate's default
    map. *)
From S2P Require Import Prelude RustStr.
Local Open Scope Z_scope.

Inductive json : Type :=
  | JNull
  | JBool (b : bool)
  | JNum (n : Z)
  | JFloat (repr : string)
  | JStr (s : string)
  | JArr (l : list json)
  | JObj (fields : list (string * json)).

Fixpoint obj_get (k : string) (l : list (string * json)) : option json :=
  match l with
  | [] => None
  | (k', v) :: l => if String.eqb k k' then Some v else obj_get k l
  end.

(** [Map::insert]. *)
Fixpoint obj_insert (k : string) (v : json) (l : list (string * json))
    : list (string * json) :=
  match l with
  | [] => [(k, v)]
  | (k', v') :: l' =>
      match String.compare k k' with
      | Eq => (k, v) :: l'
      | Lt => (k, v) :: l
      | Gt => (k', v') :: obj_insert k v l'
      end
  end.

(** [Map::remove]. *)
Definition obj_remove (k : string) (l : list (string * json)) : list (string * json) :=
  List.filter (fun p => negb (String.eqb k (fst p))) l.

(** Writing through [Map::get_mut]: replaces the value of a present key. *)
Definition obj_update (k : string) (v : json) (l : list (string * json))
    : list (string * json) :=
  map (fun p => if String.eqb k (fst p) then (fst p, v) else p) l.

(** [json!({...})]: the fields are inserted one after the other. *)
Definition jobj (l : list (string * json)) : json :=
  JObj (fold_left (fun m p => obj_insert (fst p) (snd p) m) l []).

Definition jopt {A} (f : A -> json) (o : option A) : json :=
  match o with Some a => f a | None => JNull end.
Definition jstrs (l : list string) : json := JArr (map JStr l).

(** [Value::get]. *)
Definition json_get (k : string) (v : json) : option json :=
  match v with JObj l => obj_get k l | _ => None end.

(** [Value::pointer] along object keys. *)
Fixpoint json_pointer (path : list string) (v : json) : option json :=
  match path with
  | [] => Some v
  | k :: path => v' ← json_get k v; json_pointer path v'
  end.

Definition as_str (v : json) : option string :=
  match v with JStr s => Some s | _ => None end.
Definition as_bool (v : json) : option bool :=
  match v with JBool b => Some b | _ => None end.
Definition as_u64 (v : json) : option Z :=
  match v with JNum n => u64_checked n | _ => None end.
Definition as_array (v : json) : option (list json) :=
  match v with JArr l => Some l | _ => None end.

(** ** Lookup lemmas *)

Lemma obj_get_insert_eq k v l : obj_get k (obj_insert k v l) = Some v.
Proof.
  induction l as [|[k' v'] l IH]; simpl; [by rewrite String.eqb_refl|].
  destruct (String.compare k k') eqn:Hc; simpl; rewrite ?String.eqb_refl; try done.
  destruct (String.eqb_spec k k') as [->|]; [|done].
  by rewrite string_compare_refl in Hc.
Qed.

Lemma obj_get_insert_ne k k' v l :
  k <> k' -> obj_get k (obj_insert k' v l) = obj_get k l.
Proof.
  intros Hne%String.eqb_neq. induction l as [|[k'' v''] l IH]; simpl; [by rewrite Hne|].
  destruct (String.compare k' k'') eqn:Hc; simpl; rewrite ?Hne; try done.
  - by apply String.compare_eq_iff in Hc as <-; rewrite Hne.
  - by rewrite IH.
Qed.

Lemma obj_get_remove_eq k l : obj_get k (obj_remove k l) = None.
Proof.
  induction l as [|[k' v'] l IH]; simpl; [done|].
  destruct (k =? k')%string eqn:Hk; simpl; [done|]. by rewrite Hk.
Qed.

Lemma obj_get_remove_ne k k' l : k <> k' -> obj_get k (obj_remove k' l) = obj_get k l.
Proof.
  intros Hne. induction l as [|[k'' v''] l IH]; simpl; [done|].
  destruct (String.eqb_spec k' k'') as [->|]; simpl; rewrite IH; [|done].
  by apply String.eqb_neq in Hne as ->.
Qed.

Lemma obj_get_update_eq k v v0 l : obj_get k l = Some v0 -> obj_get k (obj_update k v l) = Some v.
Proof.
  induction l as [|[k' v'] l IH]; simpl; [done|].
  destruct (k =? k')%string eqn:Hk; simpl; rewrite Hk; auto.
Qed.

Lemma obj_get_update_ne k k' v l : k <> k' -> obj_get k (obj_update k' v l) = obj_get k l.
Proof.
  intros Hne. induction l as [|[k'' v''] l IH]; simpl; [done|].
  destruct (String.eqb_spec k' k'') as [->|]; simpl; rewrite IH; [|done].
  by apply String.eqb_neq in Hne as ->.
Qed.

Lemma obj_update_remove k k' v l :
  obj_remove k' (obj_update k v l) = obj_update k v (obj_remove k' l).
Proof.
  unfold obj_remove, obj_update. induction l as [|p l IH]; simpl; [done|].
  destruct (k =? p.1)%string eqn:H; simpl; destruct (k' =? p.1)%string eqn:H'; simpl;
    rewrite ?H; simpl; congruence.
Qed.

Lemma obj_update_idem k v l : obj_update k v (obj_update k v l) = obj_update k v l.
Proof.
  unfold obj_update. induction l as [|p l IH]; simpl; [done|].
  destruct (k =? p.1)%string eqn:H; simpl; rewrite ?H; simpl; congruence.
Qed.

Lemma obj_remove_comm k k' l : obj_remove k (obj_remove k' l) = obj_remove k' (obj_remove k l).
Proof.
  unfold obj_remove. induction l as [|p l IH]; simpl; [done|].
  destruct (k' =? p.1)%string eqn:H', (k =? p.1)%string eqn:H; simpl;
    rewrite ?H, ?H'; simpl; congruence.
Qed.

Lemma obj_remove_idem k l : obj_remove k (obj_remove k l) = obj_remove k l.
Proof.
  unfold obj_remove. induction l as [|p l IH]; simpl; [done|].
  destruct (k =? p.1)%string eqn:H; simpl; rewrite ?H; simpl; congruence.
Qed.

#[export] Hint Rewrite obj_get_insert_eq obj_get_remove_eq : agent.
