(* ===== verification/Effects.v ===== *)
(** * Effectful programs

    A handler of the agent talks to the API server and to the clock.  It is
    modelled as a finite tree of operations ([prog]): each operation [o] has a
    type [R o] of responses, and the continuation receives whatever response
    the environment gives.  [runs p t a] says that [p] returns [a] after the
    operations and responses of the trace [t]; [wp] is the program logic for
    such traces; [interp] runs a program against a concrete environment.
    Two programs are equivalent ([≡]) when they have the same runs. *)
From S2P Require Import Prelude.

Section prog.
Context {O : Type} (R : O -> Type).

Inductive prog (A : Type) : Type :=
  | Ret (a : A)
  | Vis (o : O) (k : R o -> prog A).
Arguments Ret {A} a.
Arguments Vis {A} o k.

Fixpoint bind {A B} (f : A -> prog B) (p : prog A) : prog B :=
  match p with
  | Ret a => f a
  | Vis o k => Vis o (fun x => bind f (k x))
  end.

Global Instance prog_ret : MRet prog := fun A a => Ret a.
Global Instance prog_bind : MBind prog := fun A B f p => bind f p.

(** Perform one operation. *)
Definition call (o : O) : prog (R o) := Vis o (fun x => Ret x).

(** An operation with the response it received. *)
Definition event : Type := { o : O & R o }.
Definition ev (o : O) (x : R o) : event := existT o x.
Definition op_of (e : event) : O := projT1 e.

Fixpoint runs {A} (p : prog A) (t : list event) (a : A) : Prop :=
  match p with
  | Ret b => t = [] /\ a = b
  | Vis o k => exists x t', t = ev o x :: t' /\ runs (k x) t' a
  end.

Lemma runs_ret {A} (a : A) t b : runs (mret a) t b <-> t = [] /\ b = a.
Proof. done. Qed.

Lemma runs_call o t x : runs (call o) t x <-> t = [ev o x].
Proof.
  simpl. split; [|by intros ->; exists x, []].
  by intros (y & t' & -> & -> & ->).
Qed.

Lemma runs_bind {A B} (f : A -> prog B) p t b :
  runs (p ≫= f) t b <->
  exists t1 a t2, t = t1 ++ t2 /\ runs p t1 a /\ runs (f a) t2 b.
Proof.
  revert t; induction p as [a|o k IH]; intros t; simpl.
  - split; [intros H; by exists [], a, t|].
    by intros (t1 & a' & t2 & -> & [-> ->] & H).
  - split.
    + intros (x & t' & -> & H). apply IH in H as (t1 & a & t2 & -> & H1 & H2).
      exists (ev o x :: t1), a, t2. naive_solver.
    + intros (t1 & a & t2 & -> & (x & t' & -> & H1) & H2).
      exists x, (t' ++ t2). split; [done|]. apply IH. naive_solver.
Qed.

(** ** Program equivalence *)

Global Instance prog_equiv {A} : Equiv (prog A) :=
  fun p q => forall t a, runs p t a <-> runs q t a.

Global Instance prog_equivalence {A} : Equivalence (≡@{prog A}).
Proof.
  split.
  - by intros p t a.
  - intros p q H t a. by rewrite (H t a).
  - intros p q r H1 H2 t a. by rewrite (H1 t a), (H2 t a).
Qed.

Global Instance runs_proper {A} : Proper ((≡@{prog A}) ==> (=) ==> (=) ==> iff) runs.
Proof. intros p q H t ? <- a ? <-. apply H. Qed.

Global Instance bind_proper {A B} :
  Proper (pointwise_relation A (≡) ==> (≡) ==> (≡@{prog B})) bind.
Proof.
  intros f g Hf p q Hp t b.
  change (bind f p) with (p ≫= f). change (bind g q) with (q ≫= g).
  rewrite !runs_bind. setoid_rewrite Hp.
  split; intros (t1 & a & t2 & ? & ? & ?); exists t1, a, t2; split_and!; try done;
    by apply Hf.
Qed.

Lemma bind_ret_l {A B} (a : A) (f : A -> prog B) : mret a ≫= f ≡ f a.
Proof. by intros t b. Qed.

Lemma bind_ret_r {A} (p : prog A) : p ≫= mret ≡ p.
Proof.
  intros t b. rewrite runs_bind. split.
  - intros (t1 & a & t2 & -> & H & -> & ->). by rewrite app_nil_r.
  - intros H. exists t, b, []. by rewrite app_nil_r.
Qed.

Lemma bind_assoc {A B C} (p : prog A) (f : A -> prog B) (g : B -> prog C) :
  (p ≫= f) ≫= g ≡ p ≫= (fun a => f a ≫= g).
Proof.
  intros t c. rewrite !runs_bind. split.
  - intros (t1 & b & t2 & -> & (t3 & a & t4 & -> & H1 & H2)%runs_bind & H3).
    exists t3, a, (t4 ++ t2). rewrite app_assoc, runs_bind. naive_solver.
  - intros (t1 & a & t2 & -> & H1 & (t3 & b & t4 & -> & H2 & H3)%runs_bind).
    exists (t1 ++ t3), b, t4. rewrite <- app_assoc, runs_bind. naive_solver.
Qed.

(** ** Program logic

    [wp G Q h p]: run from history [h], every operation [o] that [p] performs
    at a history [h'] satisfies the guard [G h' o], and the final value and
    history satisfy [Q]. *)

Fixpoint wp {A} (G : list event -> O -> Prop) (Q : A -> list event -> Prop)
    (h : list event) (p : prog A) : Prop :=
  match p with
  | Ret a => Q a h
  | Vis o k => G h o /\ forall x, wp G Q (h ++ [ev o x]) (k x)
  end.

Section logic.
Context (G : list event -> O -> Prop).

Lemma wp_ret {A} (Q : A -> list event -> Prop) h a : Q a h -> wp G Q h (mret a).
Proof. done. Qed.

Lemma wp_call o (Q : R o -> list event -> Prop) h :
  G h o -> (forall x, Q x (h ++ [ev o x])) -> wp G Q h (call o).
Proof. done. Qed.

Lemma wp_mono {A} (Q Q' : A -> list event -> Prop) h p :
  wp G Q h p -> (forall a h', Q a h' -> Q' a h') -> wp G Q' h p.
Proof.
  intros H HQ. revert h H. induction p as [a|o k IH]; intros h; simpl; [auto|].
  intros [HG H]. split; auto.
Qed.

Lemma wp_bind {A B} (f : A -> prog B) (Q : B -> list event -> Prop) h p :
  wp G (fun a h' => wp G Q h' (f a)) h p -> wp G Q h (p ≫= f).
Proof.
  revert h. induction p as [a|o k IH]; intros h; simpl; [done|].
  intros [HG H]. split; [done|]. intros x. apply IH, H.
Qed.

(** Soundness: in any run, every operation meets the guard at the point
    where it happens and the result meets the postcondition. *)
Lemma wp_sound {A} (Q : A -> list event -> Prop) h p t a :
  wp G Q h p -> runs p t a ->
  Q a (h ++ t) /\ forall t1 e t2, t = t1 ++ e :: t2 -> G (h ++ t1) (op_of e).
Proof.
  revert h t. induction p as [b|o k IH]; intros h t; simpl.
  - intros HQ [-> ->]. rewrite app_nil_r. split; [done|].
    by intros [|? ?] ? ? ?.
  - intros [HG H] (x & t' & -> & Hr).
    destruct (IH x (h ++ [ev o x]) t' (H x) Hr) as [HQ Hall].
    rewrite <- app_assoc in HQ. split; [done|].
    intros [|e1 t1] e t2; simpl; intros [= <- Heq].
    + by rewrite app_nil_r.
    + specialize (Hall _ _ _ Heq). by rewrite <- app_assoc in Hall.
Qed.
End logic.

Lemma wp_guard_mono {A} (G G' : list event -> O -> Prop) (Q : A -> list event -> Prop) h p :
  wp G Q h p -> (forall h' o, G h' o -> G' h' o) -> wp G' Q h p.
Proof.
  intros H HG. revert h H. induction p as [a|o k IH]; intros h; simpl; [done|].
  intros [? ?]. auto.
Qed.

(** A program that is proved from its own start runs from any history. *)
Lemma wp_shift {A} (G : list event -> O -> Prop) (Q : A -> list event -> Prop) h t p :
  wp G Q t p ->
  wp (fun h' o => exists t', h' = h ++ t' /\ G t' o) (fun a h' => exists t', h' = h ++ t' /\ Q a t')
    (h ++ t) p.
Proof.
  revert t. induction p as [a|o k IH]; intros t; simpl; [by exists t|].
  intros [HG Hk]. split; [by exists t|]. intros x. rewrite <- app_assoc. by apply IH.
Qed.

(** ** Running against an environment *)

Section interp.
Context {S : Type} (handler : forall o, S -> R o * S).

Fixpoint interp {A} (p : prog A) (s : S) : A * S :=
  match p with
  | Ret a => (a, s)
  | Vis o k => let '(x, s') := handler o s in interp (k x) s'
  end.

Fixpoint interp_trace {A} (p : prog A) (s : S) : list event :=
  match p with
  | Ret a => []
  | Vis o k => let '(x, s') := handler o s in ev o x :: interp_trace (k x) s'
  end.

(** Every environment drives a program to a result along one of its runs:
    programs terminate. *)
Lemma interp_runs {A} (p : prog A) s : runs p (interp_trace p s) (fst (interp p s)).
Proof.
  revert s; induction p as [a|o k IH]; intros s; simpl; [done|].
  destruct (handler o s) as [x s'] eqn:Hh. exists x, (interp_trace (k x) s'). auto.
Qed.
End interp.
End prog.

Arguments Ret {O R A} a.
Arguments Vis {O R A} o k.
Arguments call {O R} o.
Arguments ev {O R} o x.
Arguments op_of {O R} e.
Arguments runs {O R A} p t a.
Arguments wp {O R A} G Q h p.
Arguments interp {O R S} handler {A} p s.
Arguments interp_trace {O R S} handler {A} p s.

Lemma runs_vis {O} {R : O -> Type} {A} (o : O) (k : R o -> prog R A) t a :
  runs (Vis o k) t a <-> exists x t', t = ev o x :: t' /\ runs (k x) t' a.
Proof. done. Qed.

Lemma runs_call_bind {O} {R : O -> Type} {A} (o : O) (f : R o -> prog R A) t a :
  runs (call o ≫= f) t a <-> exists x t', t = ev o x :: t' /\ runs (f x) t' a.
Proof. done. Qed.

(** Take the first operation, or the first part, off a run. *)
Tactic Notation "run_call" hyp(H) "as" ident(x) ident(t) :=
  cbv beta zeta in H;
  match type of H with
  | runs (call ?o ≫= ?f) ?tr ?a =>
      apply (proj1 (runs_call_bind o f tr a)) in H; destruct H as (x & t & -> & H)
  end.
Tactic Notation "run_bind" hyp(H) "as" ident(x) ident(t1) ident(t2) ident(H1) :=
  apply runs_bind in H as (t1 & x & t2 & -> & H1 & H).

(** Programs all of whose operations are of one kind, whatever came before. *)
Section only.
Context {O : Type} {R : O -> Type}.
Definition only {A} (P : O -> Prop) (p : prog R A) : Prop :=
  forall h, wp (fun _ => P) (fun _ _ => True) h p.
Context (P : O -> Prop).

Lemma only_call o : P o -> only P (call o : prog R (R o)).
Proof. intros Ho h. by apply wp_call. Qed.
Lemma only_bind {A B} (p : prog R A) (f : A -> prog R B) :
  only P p -> (forall a, only P (f a)) -> only P (p ≫= f).
Proof. intros Hp Hf h. apply wp_bind. eapply wp_mono; [apply Hp|]. intros a h' _. apply Hf. Qed.
Lemma only_ret {A} (a : A) : only P (mret a : prog R A).
Proof. by intros h. Qed.
Lemma only_runs {A} (p : prog R A) t a : only P p -> runs p t a -> Forall (fun e => P (op_of e)) t.
Proof.
  intros Hp Hr. destruct (wp_sound _ (fun _ => P) (fun _ _ => True) [] p t a (Hp []) Hr) as [_ Hall].
  apply Forall_forall. intros e (t1 & t2 & ->)%list_elem_of_split. exact (Hall _ _ _ eq_refl).
Qed.
End only.
Lemma only_mono {O} {R : O -> Type} {A} (P Q : O -> Prop) (p : prog R A) :
  only P p -> (forall o, P o -> Q o) -> only Q p.
Proof. intros Hp H h. eapply wp_guard_mono; [apply Hp|]. auto. Qed.

(** Decompose the runs of a program in the hypotheses. *)
Ltac inv_runs :=
  repeat match goal with
  | H : runs (_ ≫= _) _ _ |- _ => apply runs_bind in H as (? & ? & ? & -> & ? & ?)
  | H : runs (mret _) _ _ |- _ => destruct H as [-> ->]
  | H : runs (Ret _) _ _ |- _ => destruct H as [-> ->]
  | H : runs (call _) _ _ |- _ => apply runs_call in H; subst
  end.

(** Decompose a [wp] goal down to its operations and returns. *)
Ltac wp_step :=
  match goal with
  | |- wp _ _ _ (_ ≫= _) => apply wp_bind
  | |- wp _ _ _ (mret _) => apply wp_ret
  | |- wp ?G ?Q ?h (call ?o) => refine (wp_call _ G o Q h _ _)
  end.

(** Case analysis on what the program branches on. *)
Ltac wp_case :=
  cbv beta zeta;
  match goal with
  | |- wp _ _ _ (match ?s with _ => _ end) => let E := fresh "E" in destruct s eqn:E
  end.
