(* ===== verification/Kube.v ===== *)
(** * Kubernetes objects and the operations of the API client

    The structs of [k8s_openapi], restricted to the fields the agent reads or
    writes, with their field names; and the calls of [kube::Api], of the clock
    and of the PostgreSQL client, as the operations of the effect signature of
    the agent.  The API server and the databases are the environment: nothing
    is assumed about their responses. *)
From S2P Require Import Prelude RustStr Json Effects.
Local Open Scope Z_scope.

(** A [BTreeMap] iterates in the order of its keys. *)
Definition key_le {A} : relation (string * A) := fun p q => String.le (fst p) (fst q).
Global Instance key_le_dec {A} : RelDecision (@key_le A).
Proof. intros p q. unfold key_le. apply _. Defined.
Definition btree_iter {A} (m : gmap string A) : list (string * A) :=
  merge_sort key_le (map_to_list m).

Lemma btree_iter_in {A} (m : gmap string A) k v :
  In (k, v) (btree_iter m) <-> m !! k = Some v.
Proof.
  unfold btree_iter. rewrite <- list_elem_of_In, merge_sort_Permutation.
  apply elem_of_map_to_list.
Qed.

(** ** Object metadata *)

(** A point in time: its seconds and the text it is displayed as. *)
Record Time := { as_second : Z; time_text : string }.

Record OwnerReference := { owner_kind : string; owner_name : string }.

Record ObjectMeta := {
  name : option string;
  namespace : option string;
  labels : option (gmap string string);
  annotations : option (gmap string string);
  generation : option Z;
  resource_version : option string;
  owner_references : option (list OwnerReference);
  creation_timestamp : option Time }.

Definition meta_default : ObjectMeta :=
  {| name := None; namespace := None; labels := None; annotations := None;
     generation := None; resource_version := None; owner_references := None; creation_timestamp := None |}.
Definition meta_named (n : string) : ObjectMeta :=
  {| name := Some n; namespace := None; labels := None; annotations := None;
     generation := None; resource_version := None; owner_references := None; creation_timestamp := None |}.

Record LabelSelectorRequirement := {
  req_key : string;
  req_operator : string;
  req_values : option (list string) }.
Record LabelSelector := {
  match_labels : option (gmap string string);
  match_expressions : option (list LabelSelectorRequirement) }.

(** ** Workloads *)

Record ResourceRequirements := {
  rr_requests : option (gmap string string);
  rr_limits : option (gmap string string) }.
Record Container := {
  c_name : string;
  c_image : option string;
  c_image_pull_policy : option string;
  c_command : option (list string);
  c_args : option (list string);
  c_resources : option ResourceRequirements }.
Definition container (nm : string) (image : option string) : Container :=
  {| c_name := nm; c_image := image; c_image_pull_policy := None; c_command := None; c_args := None;
     c_resources := None |}.
Record PodSpec := { containers : list Container; node_name : option string }.
Record PodTemplateSpec := {
  tpl_metadata : option ObjectMeta;
  tpl_spec : option PodSpec }.

(** The specs of the three workload controllers hold a template; a
    [DaemonSetSpec] has no [replicas] field. *)
Record DeploymentSpec := {
  dp_replicas : option Z; dp_selector : LabelSelector; dp_template : PodTemplateSpec }.
Record DeploymentStatus := {
  dps_replicas : option Z; dps_updated : option Z; dps_available : option Z;
  dps_ready : option Z; dps_observed_generation : option Z }.
Record Deployment := {
  dp_metadata : ObjectMeta; dp_spec : option DeploymentSpec;
  dp_status : option DeploymentStatus }.

Record StatefulSetSpec := { st_replicas : option Z; st_template : PodTemplateSpec }.
Record StatefulSetStatus := {
  sts_replicas : Z; sts_updated : option Z; sts_ready : option Z;
  sts_current : option Z; sts_observed_generation : option Z }.
Record StatefulSet := {
  st_metadata : ObjectMeta; st_spec : option StatefulSetSpec;
  st_status : option StatefulSetStatus }.

Record DaemonSetSpec := { ds_template : PodTemplateSpec }.
Record DaemonSetStatus := {
  dss_desired : Z; dss_current : Z; dss_number_ready : Z;
  dss_updated : option Z; dss_available : option Z;
  dss_observed_generation : option Z }.
Record DaemonSet := {
  ds_metadata : ObjectMeta; ds_spec : option DaemonSetSpec;
  ds_status : option DaemonSetStatus }.

Record ScaleStatus := { sc_status_replicas : Z }.
Record ScaleSpecObj := { sc_replicas : option Z }.
Record Scale := { sc_spec : option ScaleSpecObj; sc_status : option ScaleStatus }.

(** ** Nodes, pods and the objects of the preflight checks *)

Record NodeSpec := { unschedulable : option bool }.
Record NodeSystemInfo := {
  kubelet_version : string; os_image : string; container_runtime_version : string;
  architecture : string }.
Record NodeCondition := { nc_type : string; nc_status : string }.
Record NodeStatus := {
  node_info : option NodeSystemInfo; capacity : option (gmap string string);
  allocatable : option (gmap string string); node_conditions : option (list NodeCondition) }.
Record Node := {
  nd_metadata : ObjectMeta; nd_spec : option NodeSpec; nd_status : option NodeStatus }.

Record PodStatus := { pod_ip : option string; pod_phase : option string }.
Record Pod := {
  pod_metadata : ObjectMeta; pod_spec : option PodSpec; pod_status : option PodStatus }.

Inductive IntOrString := IntPort (n : Z) | NamedPort (s : string).
(** [port] and [node_port] are [i32]s. *)
Record ServicePort := {
  svp_name : option string; svp_protocol : option string; svp_port : Z;
  svp_target_port : option IntOrString; svp_node_port : option Z }.
Record ServiceSpec := {
  service_type : option string; cluster_ip : option string; external_ips : option (list string);
  selector : option (gmap string string); service_ports : option (list ServicePort) }.
Record LoadBalancerIngress := {
  lbi_hostname : option string; lbi_ip : option string; lbi_ip_mode : option string }.
Record LoadBalancerStatus := { lb_ingress : option (list LoadBalancerIngress) }.
Record ServiceStatus := { load_balancer : option LoadBalancerStatus }.
Record Service := {
  svc_metadata : ObjectMeta; svc_spec : option ServiceSpec; svc_status : option ServiceStatus }.

Record NamespaceStatus := { ns_phase : option string }.
Record Namespace := { ns_metadata : ObjectMeta; ns_status : option NamespaceStatus }.

Record ConfigMap := {
  cm_metadata : ObjectMeta; cm_immutable : option bool;
  cm_data : option (gmap string string); cm_binary_data : option (gmap string string) }.
(** The values of a Secret are byte strings. *)
Record SecretObject := {
  sec_metadata : ObjectMeta; sec_type : option string; sec_immutable : option bool;
  sec_data : option (gmap string string) }.

Record CrossVersionObjectReference := { ref_kind : string; ref_name : string }.
Record HorizontalPodAutoscaler := {
  hpa_metadata : ObjectMeta;
  hpa_target : option CrossVersionObjectReference }.
Record PodDisruptionBudget := {
  pdb_metadata : ObjectMeta;
  pdb_spec : option (option LabelSelector) }.
Record PlainObject := { plain_metadata : ObjectMeta }.

Record ServiceBackendPort := { bp_name : option string; bp_number : option Z }.
Record IngressServiceBackend := { ib_name : string; ib_port : option ServiceBackendPort }.
Record HTTPIngressPath := {
  hp_path : option string; hp_path_type : string; hp_backend_service : option IngressServiceBackend }.
Record IngressRule := { ir_host : option string; ir_http : option (list HTTPIngressPath) }.
Record IngressTLS := { it_hosts : option (list string); it_secret_name : option string }.
Record IngressSpec := {
  ingress_class_name : option string; ingress_rules_of : option (list IngressRule);
  ingress_tls : option (list IngressTLS) }.
Record Ingress := {
  ing_metadata : ObjectMeta; ing_spec : option IngressSpec;
  ing_load_balancer : option LoadBalancerStatus }.

(** The rules of a network policy are only counted. *)
Record NetworkPolicySpec := {
  np_pod_selector : option LabelSelector; policy_types : option (list string);
  ingress_rules : option (list json); egress_rules : option (list json) }.
Record NetworkPolicy := { np_metadata : ObjectMeta; np_spec : option NetworkPolicySpec }.
Record Subject := { subject_kind : string; subject_name : string; subject_namespace : option string }.
Record ClusterRoleBinding := {
  crb_name : option string; crb_role_kind : string; crb_role_name : string;
  crb_subjects : option (list Subject) }.

Record StorageClass := {
  sco_metadata : ObjectMeta; sco_provisioner : string; sco_parameters : option (gmap string string) }.
Record PersistentVolume := { pv_metadata : ObjectMeta; pv_spec_storage_class : option (option string) }.
Record PersistentVolumeClaimSpec := { pvc_storage_class_name : option string; pvc_volume_name : option string }.
Record PersistentVolumeClaim := { pvc_metadata : ObjectMeta; pvc_spec : option PersistentVolumeClaimSpec }.

Record ObjectReference := {
  or_kind : option string; or_name : option string; or_namespace : option string;
  or_uid : option string }.

(** An event; the message is a list of code points. *)
Record EventObject := {
  evt_metadata : ObjectMeta; evt_type : option string; evt_reason : option string;
  evt_message : option (list Z); evt_count : option Z;
  evt_event_time : option Time; evt_last_timestamp : option Time; evt_first_timestamp : option Time;
  evt_reporting_component : option string; evt_reporting_instance : option string;
  evt_involved_object : ObjectReference }.

Record CronJobSpec := { schedule : string; suspend : option bool }.
Record CronJobStatus := { last_schedule_time : option Time; last_successful_time : option Time }.
Record CronJob := {
  cj_metadata : ObjectMeta; cj_spec : option CronJobSpec; cj_status : option CronJobStatus }.

(** [kube::api::DynamicObject]: metadata and untyped data. *)
Record DynamicObject := { dyn_metadata : ObjectMeta; dyn_data : json }.

Record DeleteOptions := { grace_period : option Z }.
Record Eviction := { delete_options : option DeleteOptions; ev_metadata : ObjectMeta }.

(** ** Errors *)

(** [kube::Error], with the text that its [Display] instance prints. *)
Inductive KubeError :=
  | ApiError (code : Z) (reason : string) (display : string)
  | OtherError (display : string).
Definition kube_display (e : KubeError) : string :=
  match e with ApiError _ _ d => d | OtherError d => d end.

(** What a GET of an HTTP client answers: an error; or a response with its
    status, its declared length and its text or the error of reading it. *)
Inductive ScrapeAnswer :=
  | SendError (display : string)
  | Answer (status : Z) (content_length : option Z) (text : result string string).

(** ** The operations *)

(** An object of [RValue] is a dynamic object that is read as the JSON value that
    it is turned into. *)
Inductive resource :=
  | RNamespace | RNode | RPod | RDeployment | RStatefulSet | RDaemonSet
  | RHpa | RLimitRange | RResourceQuota | RPdb | RRoleBinding | RServiceAccount | RConfigMap
  | RSecret | RService | RIngress | RNetworkPolicy | RClusterRoleBinding
  | RStorageClass | RPersistentVolume | RPersistentVolumeClaim | RCronJob | REvent
  | RDynamic (group version kind : string)
  | RValue (group version kind : string).

Definition obj (r : resource) : Type :=
  match r with
  | RNamespace => Namespace
  | RNode => Node
  | RPod => Pod
  | RDeployment => Deployment
  | RStatefulSet => StatefulSet
  | RDaemonSet => DaemonSet
  | RHpa => HorizontalPodAutoscaler
  | RPdb => PodDisruptionBudget
  | RLimitRange | RResourceQuota => PlainObject
  | RRoleBinding | RServiceAccount => json
  | RConfigMap => ConfigMap
  | RSecret => SecretObject
  | RService => Service
  | RIngress => Ingress
  | RNetworkPolicy => NetworkPolicy
  | RClusterRoleBinding => ClusterRoleBinding
  | RStorageClass => StorageClass
  | RPersistentVolume => PersistentVolume
  | RPersistentVolumeClaim => PersistentVolumeClaim
  | RCronJob => CronJob
  | REvent => EventObject
  | RDynamic _ _ _ => DynamicObject
  | RValue _ _ _ => json
  end.

Inductive patch := Strategic (v : json) | Merge (v : json).
(** [PatchParams::default()], optionally with [.dry_run()]. *)
Record PatchParams := { dry_run : bool }.

(** [postgres_native_tls::MakeTlsConnector], with the certificate that was added
    to the roots, as PEM. *)
Record MakeTlsConnector := { root_certificate : option string }.

Inductive op : Type :=
  | Get (r : resource) (ns : option string) (name : string)
  | GetOpt (r : resource) (ns : option string) (name : string)
  | ListObjs (r : resource) (ns : option string) (fields : option string)
  | Create (r : resource) (ns : option string) (o : json)
  | PatchObj (r : resource) (ns : option string) (name : string) (pp : PatchParams) (p : patch)
  | PatchStatus (r : resource) (ns : option string) (name : string) (p : patch)
  | DeleteObj (r : resource) (ns : option string) (name : string)
  | GetScale (ns name : string)
  | PatchScale (ns name : string) (pp : PatchParams) (p : patch)
  | Evict (ns name : string) (e : Eviction)
  | NowMs
  | NowRfc3339
  | InstantNow
  | SystemNow
  | GetUid (r : resource) (name : string)
  | ServerVersion
  | HttpGet (url : string)
  | Sleep (secs : Z)
  | PgConnect (connect_str : string) (tls : option MakeTlsConnector)
  | PgQuery (sql : string).

(** The responses.  [NowMs] is in milliseconds since the epoch, [InstantNow] and
    [SystemNow] are in nanoseconds.  A connection to a database and a query on
    it are made under a [timeout]: [None] says that it elapsed, an error is
    given by its text.  [GetUid] is a [Get] of which only the UID is used, and of
    [ServerVersion] an error counts as nothing. *)
Definition resp (o : op) : Type :=
  match o with
  | Get r _ _ => result KubeError (obj r)
  | GetOpt r _ _ => result KubeError (option (obj r))
  | ListObjs r _ _ => result KubeError (list (obj r))
  | Create _ _ _ => result KubeError unit
  | PatchObj r _ _ _ _ => result KubeError (obj r)
  | PatchStatus _ _ _ _ => result KubeError unit
  | DeleteObj _ _ _ => result KubeError unit
  | GetScale _ _ => result KubeError Scale
  | PatchScale _ _ _ _ => result KubeError Scale
  | Evict _ _ _ => result KubeError json
  | NowMs | InstantNow | SystemNow => Z
  | NowRfc3339 => string
  | GetUid _ _ => result KubeError (option string)
  | ServerVersion => option string
  | HttpGet _ => ScrapeAnswer
  | Sleep _ => unit
  | PgConnect _ _ | PgQuery _ => option (result string unit)
  end.

Notation kprog := (prog resp).
Notation kevent := (event resp).

(** An operation changes the cluster unless it is a read, a clock operation
    or a server-side dry run. *)
Definition mutating (o : op) : bool :=
  match o with
  | Create _ _ _ | PatchStatus _ _ _ _ | DeleteObj _ _ _ | Evict _ _ _ => true
  | PatchObj _ _ _ pp _ | PatchScale _ _ pp _ => negb (dry_run pp)
  | _ => false
  end.

Lemma only_op (P : op -> Prop) (o : op) : P o -> only P (call o : kprog (resp o)).
Proof. exact (only_call P o). Qed.

(** ** Label selectors *)

(** [label_selector_matches] of executor.rs. *)
Definition requirement_matches (e : LabelSelectorRequirement) (ls : gmap string string) : bool :=
  let value := ls !! req_key e in
  let values := unwrap_or [] (req_values e) in
  match req_operator e with
  | "In" => match value with Some v => existsb (String.eqb v) values | None => false end
  | "NotIn" =>
      match value with Some v => forallb (fun c => negb (String.eqb c v)) values | None => true end
  | "Exists" => is_some value
  | "DoesNotExist" => is_none value
  | _ => false
  end.

Fixpoint match_labels_loop (l : list (string * string)) (ls : gmap string string) : bool :=
  match l with
  | [] => true
  | (key, expected) :: l =>
      match ls !! key with
      | Some v => if String.eqb v expected then match_labels_loop l ls else false
      | None => false
      end
  end.

Fixpoint expressions_loop (l : list LabelSelectorRequirement) (ls : gmap string string) : bool :=
  match l with
  | [] => true
  | e :: l => if requirement_matches e ls then expressions_loop l ls else false
  end.

Definition label_selector_matches (selector : option LabelSelector)
    (ls : gmap string string) : bool :=
  match selector with
  | None => true
  | Some s =>
      (match match_labels s with
       | Some m => match_labels_loop (btree_iter m) ls
       | None => true
       end)
      && (match match_expressions s with
          | Some es => expressions_loop es ls
          | None => true
          end)
  end.

(** The meaning of one requirement, from the Kubernetes documentation. *)
Definition requirement_holds (e : LabelSelectorRequirement) (ls : gmap string string) : Prop :=
  let values := unwrap_or [] (req_values e) in
  (req_operator e = "In" /\ exists v, ls !! req_key e = Some v /\ In v values) \/
  (req_operator e = "NotIn" /\ forall v, ls !! req_key e = Some v -> ~ In v values) \/
  (req_operator e = "Exists" /\ is_Some (ls !! req_key e)) \/
  (req_operator e = "DoesNotExist" /\ ls !! req_key e = None).

Definition selector_holds (s : LabelSelector) (ls : gmap string string) : Prop :=
  unwrap_or ∅ (match_labels s) ⊆ ls /\
  Forall (fun e => requirement_holds e ls) (unwrap_or [] (match_expressions s)).

Lemma existsb_eqb_in v l : existsb (String.eqb v) l = true <-> In v l.
Proof.
  rewrite existsb_exists. split; [by intros (x & Hx & ->%String.eqb_eq)|].
  intros H. exists v. by rewrite String.eqb_refl.
Qed.

Lemma forallb_neqb_notin v l :
  forallb (fun c => negb (String.eqb c v)) l = true <-> ~ In v l.
Proof.
  rewrite forallb_forall. split.
  - intros H Hin. specialize (H v Hin). by rewrite String.eqb_refl in H.
  - intros H x Hx. apply negb_true_iff, String.eqb_neq. by intros ->.
Qed.

Lemma requirement_matches_spec e ls :
  requirement_matches e ls = true <-> requirement_holds e ls.
Proof.
  destruct e as [k o vs]. unfold requirement_matches, requirement_holds; simpl.
  assert (Hin : forall v, ls !! k = Some v ->
    existsb (String.eqb v) (unwrap_or [] vs) = true <->
    exists v', ls !! k = Some v' /\ In v' (unwrap_or [] vs)).
  { intros v Hv. rewrite existsb_eqb_in. naive_solver. }
  crush_match;
    destruct (ls !! k) as [v|] eqn:Hk; unfold is_some, is_none; simpl;
    rewrite ?(Hin _ eq_refl), ?forallb_neqb_notin; split; intros; destruct_or?;
    destruct_and?; simplify_eq; unfold is_Some in *; try naive_solver.
Qed.

Lemma match_labels_loop_spec l ls :
  match_labels_loop l ls = true <-> forall k v, In (k, v) l -> ls !! k = Some v.
Proof.
  induction l as [|[k v] l IH]; simpl; [naive_solver|].
  destruct (ls !! k) as [v'|] eqn:Hk.
  - destruct (String.eqb_spec v' v) as [->|Hne].
    + rewrite IH. split; [|naive_solver]. intros H k' v' [[= <- <-]|Hin]; auto.
    + split; [done|]. intros H. specialize (H k v (or_introl eq_refl)). congruence.
  - split; [done|]. intros H. specialize (H k v (or_introl eq_refl)). congruence.
Qed.

Lemma expressions_loop_spec l ls :
  expressions_loop l ls = true <-> Forall (fun e => requirement_holds e ls) l.
Proof.
  induction l as [|e l IH]; simpl; [by split|].
  rewrite Forall_cons, <- IH, <- requirement_matches_spec.
  destruct (requirement_matches e ls); naive_solver.
Qed.

Lemma label_selector_matches_spec s ls :
  label_selector_matches (Some s) ls = true <-> selector_holds s ls.
Proof.
  unfold label_selector_matches, selector_holds.
  rewrite andb_true_iff. f_equiv.
  - destruct (match_labels s) as [m|]; simpl.
    + rewrite match_labels_loop_spec, map_subseteq_spec.
      split; intros H k v; [rewrite <- btree_iter_in|rewrite btree_iter_in]; apply H.
    + split; [intros _; apply map_empty_subseteq|done].
  - destruct (match_expressions s) as [es|]; simpl; [apply expressions_loop_spec|].
    split; [constructor|done].
Qed.

(** A label selector matches a set of labels exactly when every required
    label is present with its value and every expression holds (In, NotIn,
    Exists, DoesNotExist; an unknown operator never holds).  A missing selector
    matches everything. *)
Theorem label_selector_matches_exact s ls :
  (label_selector_matches (Some s) ls = true <-> selector_holds s ls) /\
  label_selector_matches None ls = true.
Proof. split; [apply label_selector_matches_spec|done]. Qed.
