(* ===== verification/Quantity.v ===== *)
(** * Kubernetes quantities

    [parse_cpu_quantity], [parse_memory_quantity] and the decimal parser under
    them (model.rs, and the same code again in collector.rs), with the
    formatters of collector.rs.  Integers are [i128] with Rust's checked
    arithmetic: an intermediate result out of range makes the parse fail. *)
From S2P Require Import Prelude RustStr.
Local Open Scope Z_scope.

(** ** Definitions *)

(** [frac.len() as u32] as the exponent of [10_i128.checked_pow]. *)
Definition checked_pow10 (e : Z) : option Z :=
  if e <=? 38 then Some (10 ^ e) else None.

(** [checked_div] of [i128]: truncated division; the divisor is a power of
    ten, so neither failure case of Rust's [checked_div] can arise. *)
Definition parse_decimal_scaled (number : string) (scale : Z) : option Z :=
  let trimmed := trim number in
  if str_is_empty trimmed then None else
  let '(whole, frac) := unwrap_or (trimmed, "") (split_once "." trimmed) in
  whole_value ← parse_i128 whole;
  total ← i128_checked (whole_value * scale);
  if str_is_empty frac then Some total else
  frac_value ← parse_i128 frac;
  denom ← checked_pow10 (str_len frac mod 2 ^ 32);
  scaled ← i128_checked (frac_value * scale);
  i128_checked (total + Z.quot scaled denom).

Fixpoint parse_scaled_decimal (quantity : string) (suffixes : list (string * Z)) : option Z :=
  match suffixes with
  | [] => None
  | (suffix, scale) :: rest =>
      match strip_suffix suffix quantity with
      | Some number =>
          if str_is_empty suffix || negb (str_is_empty number)
          then parse_decimal_scaled number scale
          else parse_scaled_decimal quantity rest
      | None => parse_scaled_decimal quantity rest
      end
  end.

Definition cpu_suffixes : list (string * Z) :=
  [("n", 1); ("u", 1000); ("m", 1000000); ("", 1000000000)].
Definition parse_cpu_quantity (quantity : string) : option Z :=
  parse_scaled_decimal quantity cpu_suffixes.

Definition memory_suffixes : list (string * Z) :=
  [("Ki", 1024); ("Mi", 1024 ^ 2); ("Gi", 1024 ^ 3); ("Ti", 1024 ^ 4);
   ("Pi", 1024 ^ 5); ("Ei", 1024 ^ 6); ("k", 1000); ("M", 1000000);
   ("G", 1000000000); ("T", 1000000000000); ("P", 1000000000000000);
   ("E", 1000000000000000000); ("", 1)].
Definition parse_memory_quantity (quantity : string) : option Z :=
  parse_scaled_decimal quantity memory_suffixes.

Definition format_cpu_quantity (cpu_nano : Z) : option string :=
  if cpu_nano <? 0 then None
  else if Z.rem cpu_nano 1000000 =? 0
  then Some (int_to_string (Z.quot cpu_nano 1000000) +s+ "m")
  else Some (int_to_string cpu_nano +s+ "n").

Definition binary_units : list (string * Z) :=
  [("Ei", 1024 ^ 6); ("Pi", 1024 ^ 5); ("Ti", 1024 ^ 4); ("Gi", 1024 ^ 3);
   ("Mi", 1024 ^ 2); ("Ki", 1024)].

Fixpoint format_memory_loop (memory_bytes : Z) (units : list (string * Z)) : string :=
  match units with
  | [] => int_to_string memory_bytes
  | (suffix, scale) :: units =>
      if (scale <=? memory_bytes) && (Z.rem memory_bytes scale =? 0)
      then int_to_string (Z.quot memory_bytes scale) +s+ suffix
      else format_memory_loop memory_bytes units
  end.
Definition format_memory_quantity (memory_bytes : Z) : option string :=
  if memory_bytes <? 0 then None else Some (format_memory_loop memory_bytes binary_units).

(** ** Specification

    The number that a decimal quantity denotes, rounded toward zero to the
    unit of the parser: [whole] and [frac] are digit strings. *)
Definition decimal_value (whole frac : Z) (frac_digits : Z) (scale : Z) : Z :=
  whole * scale + frac * scale / 10 ^ frac_digits.

Definition is_i128 (n : Z) : Prop := i128_min <= n <= i128_max.

(** ** Lemmas *)

Lemma check_range_some lo hi n m : check_range lo hi n = Some m <-> m = n /\ lo <= n <= hi.
Proof.
  unfold check_range.
  destruct (Z.leb_spec lo n), (Z.leb_spec n hi); simpl;
    (split; [intros; simplify_eq; lia|intros [-> ?]; first [done|lia]]).
Qed.

Lemma check_range_in lo hi n : lo <= n <= hi -> check_range lo hi n = Some n.
Proof. intros. by apply check_range_some. Qed.

Lemma i128_checked_in n : is_i128 n -> i128_checked n = Some n.
Proof. apply check_range_in. Qed.

Lemma i128_checked_some n m : i128_checked n = Some m <-> m = n /\ is_i128 n.
Proof. apply check_range_some. Qed.

(** The guard of [checked_pow10] is the overflow test of the power. *)
Lemma checked_pow10_spec e : 0 <= e -> checked_pow10 e = i128_checked (10 ^ e).
Proof.
  intros He. unfold checked_pow10. destruct (Z.leb_spec e 38).
  - rewrite i128_checked_in; [done|]. split.
    + trans 0; [z_compute|]. apply Z.pow_nonneg. lia.
    + trans (10 ^ 38); [apply Z.pow_le_mono_r; lia|z_compute].
  - symmetry. apply eq_None_not_Some. intros [m (-> & Hb)%i128_checked_some].
    assert (10 ^ 39 <= 10 ^ e) by (apply Z.pow_le_mono_r; lia).
    destruct Hb as [_ Hb]. assert (i128_max < 10 ^ 39) by z_compute. lia.
Qed.

(** The parsers never leave the range of [i128]. *)
Lemma parse_decimal_scaled_range s scale v :
  parse_decimal_scaled s scale = Some v -> is_i128 v.
Proof.
  unfold parse_decimal_scaled. case_match; [done|].
  destruct (unwrap_or _ _) as [whole frac].
  intros (w & _ & (total & (-> & Ht)%i128_checked_some & Hf)%bind_Some)%bind_Some.
  case_match; [by simplify_eq|].
  apply bind_Some in Hf as (f & _ & (d & _ & (sc & _ & Hr)%bind_Some)%bind_Some).
  by apply i128_checked_some in Hr as [-> ?].
Qed.

Lemma parse_scaled_decimal_range s l v :
  parse_scaled_decimal s l = Some v -> is_i128 v.
Proof.
  induction l as [|[suf sc] l IH]; simpl; [done|].
  repeat case_match; eauto using parse_decimal_scaled_range.
Qed.

(** ** Printed numbers *)

(** [suffix_clash p q]: the suffix [p] cannot match a digit string followed by
    [q]. *)
Definition suffix_clash (p q : string) : bool :=
  match strip_suffix q p with
  | Some p' => negb (str_all is_ascii_digit p')
  | None => negb (ends_with p q)
  end.

Lemma append_length_inj s1 s2 t1 t2 :
  s1 +s+ t1 = s2 +s+ t2 -> String.length t1 = String.length t2 -> t1 = t2.
Proof.
  revert s2; induction s1 as [|a s1 IH]; intros [|b s2]; simpl; intros H Hlen; try done.
  - subst t1. simpl in Hlen. rewrite length_append in Hlen. lia.
  - subst t2. simpl in Hlen. rewrite length_append in Hlen. lia.
  - injection H as -> H. eauto.
Qed.

(** Of two suffixes of one text, one is a suffix of the other. *)
Lemma suffixes_comparable s1 s2 t1 t2 :
  s1 +s+ t1 = s2 +s+ t2 ->
  (exists u, t1 = u +s+ t2 /\ s2 = s1 +s+ u) \/ (exists u, t2 = u +s+ t1).
Proof.
  revert s2; induction s1 as [|a s1 IH]; intros s2 H; simpl in *.
  - left. by exists s2.
  - destruct s2 as [|b s2]; simpl in *.
    + right. exists (String a s1). by rewrite <- H.
    + injection H as -> H. destruct (IH _ H) as [(u & -> & ->)|?]; eauto.
Qed.

Lemma strip_suffix_clash D p q :
  str_all is_ascii_digit D = true -> suffix_clash p q = true ->
  strip_suffix p (D +s+ q) = None.
Proof.
  unfold suffix_clash. intros HD Hc. apply eq_None_not_Some. intros [r Hr%strip_suffix_some].
  symmetry in Hr. apply suffixes_comparable in Hr as [(u & -> & ->)|[u ->]].
  - rewrite strip_suffix_app in Hc. rewrite str_all_app in HD. bools. congruence.
  - destruct (strip_suffix (u +s+ p) p) as [p'|] eqn:Hp.
    + apply strip_suffix_some in Hp. apply (f_equal String.length) in Hp as Hl.
      rewrite !length_append in Hl. destruct p' as [|? ?]; [done|]. simpl in Hl. lia.
    + apply negb_true_iff in Hc. assert (ends_with p (u +s+ p) = true); [|congruence].
      apply ends_with_spec. eauto.
Qed.

Lemma digits_visible D : str_all is_ascii_digit D = true -> str_all visible D = true.
Proof. apply str_all_impl, digit_visible. Qed.

Lemma parse_decimal_digits D scale n :
  str_all is_ascii_digit D = true -> parse_nat D = Some n -> is_i128 n ->
  parse_decimal_scaled D scale = i128_checked (n * scale).
Proof.
  intros HD Hn Hr. unfold parse_decimal_scaled.
  rewrite trim_visible by by apply digits_visible.
  destruct (str_is_empty D) eqn:He; [by destruct D|].
  rewrite split_once_dot_digits by done. unfold unwrap_or. cbn [default id].
  rewrite (parse_i128_digits D) by done. rewrite Hn. cbn [mbind option_bind].
  rewrite (i128_checked_in n) by done. cbn [mbind option_bind str_is_empty].
  by destruct (i128_checked (n * scale)).
Qed.

(** A printed non-negative number followed by a suffix of the table is read
    with the scale of that suffix, when no earlier suffix can match. *)
Lemma parse_printed l1 q scale l2 n :
  forallb (fun p => suffix_clash (fst p) q) l1 = true -> 0 <= n -> is_i128 n ->
  parse_scaled_decimal (nat_to_string n +s+ q) (l1 ++ (q, scale) :: l2)
  = i128_checked (n * scale).
Proof.
  intros Hl Hn Hr. pose proof (nat_to_string_all n Hn) as Hall.
  induction l1 as [|[p sc] l1 IH]; simpl in *.
  - rewrite strip_suffix_app.
    assert (str_is_empty (nat_to_string n) = false) as ->.
    { destruct (nat_to_string n) eqn:E; [by apply nat_to_string_nonempty in E|done]. }
    rewrite orb_true_r.
    apply parse_decimal_digits; [done|by apply parse_nat_to_string|done].
  - bools. rewrite strip_suffix_clash by done. auto.
Qed.

Lemma int_to_string_nonneg n : 0 <= n -> int_to_string n = nat_to_string n.
Proof. intros. unfold int_to_string. by destruct (Z.ltb_spec n 0); [lia|]. Qed.

Lemma parse_memory_printed q scale n :
  In (q, scale) (binary_units ++ [("", 1)]) -> 0 <= n -> is_i128 n ->
  parse_memory_quantity (nat_to_string n +s+ q) = i128_checked (n * scale).
Proof.
  intros Hin Hn Hr. unfold parse_memory_quantity.
  assert (exists l1 l2, memory_suffixes = l1 ++ (q, scale) :: l2 /\
    forallb (fun p => suffix_clash (fst p) q) l1 = true) as (l1 & l2 & -> & Hl).
  { simpl in Hin; repeat destruct Hin as [[= <- <-]|Hin]; try done;
      [exists (take 5 memory_suffixes), (drop 6 memory_suffixes)
      |exists (take 4 memory_suffixes), (drop 5 memory_suffixes)
      |exists (take 3 memory_suffixes), (drop 4 memory_suffixes)
      |exists (take 2 memory_suffixes), (drop 3 memory_suffixes)
      |exists (take 1 memory_suffixes), (drop 2 memory_suffixes)
      |exists [], (drop 1 memory_suffixes)
      |exists (take 12 memory_suffixes), (drop 13 memory_suffixes)];
      split; vm_compute; reflexivity. }
  by apply parse_printed.
Qed.

Lemma format_memory_loop_parses units b :
  incl units binary_units -> 0 <= b <= i128_max ->
  parse_memory_quantity (format_memory_loop b units) = Some b.
Proof.
  intros Hincl Hb. assert (is_i128 b) by (split; [trans 0; [z_compute|lia]|lia]).
  induction units as [|[q scale] units IH]; cbn [format_memory_loop].
  - rewrite int_to_string_nonneg, <- (append_nil_r (nat_to_string b)) by lia.
    rewrite (parse_memory_printed "" 1) by (done || lia || (apply in_or_app; right; by left)).
    rewrite Z.mul_1_r. by apply i128_checked_in.
  - apply incl_cons_inv in Hincl as [Hin Hincl].
    assert (0 < scale).
    { simpl in Hin; repeat destruct Hin as [[= <- <-]|Hin]; done || z_compute. }
    destruct (_ && _) eqn:E; [|by apply IH]. bools.
    assert (b = Z.quot b scale * scale) as Hq.
    { pose proof (Z.quot_rem' b scale). lia. }
    assert (0 <= Z.quot b scale) by (apply Z.quot_pos; lia).
    assert (Z.quot b scale <= b) by (rewrite Hq at 2; nia).
    rewrite int_to_string_nonneg by done.
    rewrite (parse_memory_printed q scale); [|by apply in_or_app; left|done|].
    + rewrite <- Hq. by apply i128_checked_in.
    + split; [trans 0; [z_compute|done]|lia].
Qed.

Lemma parse_cpu_printed q scale n :
  In (q, scale) [("n", 1); ("m", 1000000)] -> 0 <= n -> is_i128 n ->
  parse_cpu_quantity (nat_to_string n +s+ q) = i128_checked (n * scale).
Proof.
  intros Hin Hn Hr. unfold parse_cpu_quantity.
  simpl in Hin. destruct Hin as [[= <- <-]|[[= <- <-]|[]]].
  - by apply (parse_printed []).
  - by apply (parse_printed [("n", 1); ("u", 1000)]).
Qed.

(** ** Properties *)

(** [parse_memory_quantity] inverts [format_memory_quantity]: every
    non-negative byte count of an [i128] prints as a quantity (in the largest
    binary unit that divides it) which parses back to the same count, and a
    negative count is refused. *)
Theorem memory_quantity_roundtrip b :
  b <= i128_max ->
  match format_memory_quantity b with
  | Some s => 0 <= b /\ parse_memory_quantity s = Some b
  | None => b < 0
  end.
Proof.
  intros Hb. unfold format_memory_quantity. destruct (Z.ltb_spec b 0); [done|].
  split; [done|]. apply format_memory_loop_parses; [apply incl_refl|lia].
Qed.

Lemma memory_quantity_roundtrip_witness :
  format_memory_quantity 1610612736 = Some "1536Mi" /\
  parse_memory_quantity "1536Mi" = Some 1610612736.
Proof.
  split; [vm_compute; reflexivity|].
  assert (Hb : 1610612736 <= i128_max) by z_compute.
  exact (proj2 (memory_quantity_roundtrip 1610612736 Hb)).
Defined.

(** [parse_cpu_quantity] inverts [format_cpu_quantity] on every
    non-negative [i128] number of nanocores; a negative number is refused. *)
Theorem cpu_quantity_roundtrip c :
  c <= i128_max ->
  match format_cpu_quantity c with
  | Some s => 0 <= c /\ parse_cpu_quantity s = Some c
  | None => c < 0
  end.
Proof.
  intros Hc. unfold format_cpu_quantity. destruct (Z.ltb_spec c 0); [done|].
  assert (is_i128 c) by (split; [trans 0; [z_compute|lia]|lia]).
  assert (0 <= Z.quot c 1000000) by (apply Z.quot_pos; lia).
  destruct (Z.eqb_spec (Z.rem c 1000000) 0) as [Hm|]; (split; [done|]).
  - pose proof (Z.quot_rem' c 1000000).
    assert (Z.quot c 1000000 <= c) by lia.
    rewrite int_to_string_nonneg by done.
    rewrite (parse_cpu_printed "m" 1000000); [|by right; left|done|].
    + replace (Z.quot c 1000000 * 1000000) with c by lia. by apply i128_checked_in.
    + split; [trans 0; [z_compute|done]|lia].
  - rewrite int_to_string_nonneg, (parse_cpu_printed "n" 1) by (done || by left).
    rewrite Z.mul_1_r. by apply i128_checked_in.
Qed.

Lemma cpu_quantity_roundtrip_witness :
  format_cpu_quantity 250000000 = Some "250m" /\ parse_cpu_quantity "250m" = Some 250000000.
Proof.
  split; [vm_compute; reflexivity|].
  assert (Hc : 250000000 <= i128_max) by z_compute.
  exact (proj2 (cpu_quantity_roundtrip 250000000 Hc)).
Defined.

(** A decimal number written with digits only, [W.F], is read as
    [W * scale + floor (F * scale / 10^|F|)], exactly, whenever the two
    products and the sum fit in an [i128] and the fraction has at most 38
    digits; no rounding happens on the whole part. *)
Theorem parse_decimal_value W F w f scale :
  str_all is_ascii_digit W = true -> parse_nat W = Some w ->
  str_all is_ascii_digit F = true -> parse_nat F = Some f ->
  0 <= scale -> str_len F <= 38 ->
  is_i128 w -> is_i128 f -> is_i128 (w * scale) -> is_i128 (f * scale) ->
  is_i128 (decimal_value w f (str_len F) scale) -> 0 <= f ->
  parse_decimal_scaled (W +s+ "." +s+ F) scale = Some (decimal_value w f (str_len F) scale).
Proof.
  intros HW Hw HF Hf Hs Hlen Rw Rf Rws Rfs Rv Pf. unfold parse_decimal_scaled.
  rewrite trim_visible.
  2:{ rewrite !str_all_app, (digits_visible W), (digits_visible F) by done. reflexivity. }
  assert (str_is_empty (W +s+ "." +s+ F) = false) as -> by by destruct W.
  assert (split_once "." (W +s+ "." +s+ F) = Some (W, F)) as ->.
  { clear - HW. induction W as [|a W IH]; [done|]. simpl in *. bools.
    destruct (Ascii.eqb_spec "."%char a) as [<-|]; [done|]. by rewrite IH. }
  unfold unwrap_or. cbn [default id].
  rewrite (parse_i128_digits W), Hw by done. cbn [mbind option_bind].
  rewrite (i128_checked_in w) by done. cbn [mbind option_bind].
  rewrite (i128_checked_in (w * scale)) by done. cbn [mbind option_bind].
  assert (str_is_empty F = false) as -> by by destruct F.
  rewrite (parse_i128_digits F), Hf by done. cbn [mbind option_bind].
  rewrite (i128_checked_in f) by done. cbn [mbind option_bind].
  assert (0 <= str_len F) by (unfold str_len; lia).
  rewrite Z.mod_small by lia.
  unfold checked_pow10. destruct (Z.leb_spec (str_len F) 38); [|lia]. cbn [mbind option_bind].
  rewrite (i128_checked_in (f * scale)) by done. cbn [mbind option_bind].
  rewrite Z.quot_div_nonneg by (try apply Z.pow_pos_nonneg; nia).
  by apply i128_checked_in.
Qed.

Lemma parse_decimal_value_witness :
  parse_decimal_scaled "1.25" 1000000000 = Some 1250000000.
Proof.
  assert (R : forall n, (0 <=? n) && (n <=? i128_max) = true -> is_i128 n).
  { intros n. intros [H1 H2]%andb_true_iff. apply Z.leb_le in H1, H2.
    split; [trans 0; [z_compute|exact H1]|exact H2]. }
  apply (parse_decimal_value "1" "25" 1 25 1000000000);
    first [reflexivity | apply R; reflexivity | z_compute].
Defined.

(** The sign of a negative quantity is applied to its whole part only: the
    fraction is added, so [-0.5] cores are read as half a core. *)
Example negative_fraction_sign : parse_cpu_quantity "-0.5" = Some 500000000.
Proof. vm_compute. reflexivity. Qed.

(** Exponent notation, which Kubernetes accepts, is not read. *)
Example exponent_not_read : parse_memory_quantity "1e3" = None.
Proof. vm_compute. reflexivity. Qed.
