(* ===== verification/Model.v ===== *)
(** * Data of the command channel and of the action policies (model.rs)

    Commands and their typed specs, results and their constructor, the
    [SentinellaHubActionPolicy] resource, the tables of supported actions,
    resources and YAML targets, and the staleness test.  Deserialisation by
    [#[derive(Deserialize)]] is generated code: it enters as the class
    [FromValue]; the hand-written [Deserialize] instances are defined here. *)
From S2P Require Import Prelude RustStr Json Effects Kube Quantity.
Local Open Scope Z_scope.

(** [serde_json::from_value::<T>]. *)
Class FromValue (T : Type) := from_value : json -> result string T.

(** ** Commands *)

Record Command := { cmd_id : string; cmd_kind : string; cmd_spec : json }.

Inductive ExecutionMode := Preview | Execute.
Global Instance ExecutionMode_eq_dec : EqDecision ExecutionMode.
Proof. solve_decision. Defined.
Definition execution_mode_default : ExecutionMode := Preview.

(** [ExecutionModeVisitor::visit_str]; the error is the unknown variant. *)
Definition visit_execution_mode (value : string) : result string ExecutionMode :=
  match value with
  | "preview" => Ok Preview
  | "execute" | "apply" => Ok Execute
  | other => Err other
  end.

(** [#[serde(rename_all = lowercase)]]. *)
Definition execution_mode_name (m : ExecutionMode) : string :=
  match m with Preview => "preview" | Execute => "execute" end.

Record ExecutionSpec := {
  mode : ExecutionMode;
  approval_id : option string;
  preview_resource_version : option string }.

Record WorkloadTargetRef := { tgt_kind : string; tgt_namespace : string; tgt_name : string }.

Record RolloutRestartSpec := {
  rollout_execution : ExecutionSpec;
  rollout_target : WorkloadTargetRef }.

Record DrainNodeSpec := {
  drain_node_name : string;
  timeout_seconds : option Z;
  grace_period_seconds : option Z;
  force : bool }.

Record ScaleSpec := {
  scale_execution : ExecutionSpec;
  scale_target : WorkloadTargetRef;
  scale_replicas : Z }.

Record ScaleSpecNested := {
  nested_execution : ExecutionSpec;
  nested_target : WorkloadTargetRef;
  nested_replicas : Z }.
Record ScaleSpecLegacy := {
  legacy_execution : option ExecutionSpec;
  legacy_kind : string;
  legacy_namespace : string;
  legacy_name : string;
  legacy_replicas : Z }.
Inductive ScaleRepr := Nested (spec : ScaleSpecNested) | Legacy (spec : ScaleSpecLegacy).

Definition default_execute_execution_spec : ExecutionSpec :=
  {| mode := Execute; approval_id := None; preview_resource_version := None |}.

Definition scale_of_repr (r : ScaleRepr) : ScaleSpec :=
  match r with
  | Nested spec =>
      {| scale_execution := nested_execution spec;
         scale_target := nested_target spec;
         scale_replicas := nested_replicas spec |}
  | Legacy spec =>
      {| scale_execution := unwrap_or default_execute_execution_spec (legacy_execution spec);
         scale_target := {| tgt_kind := legacy_kind spec;
                            tgt_namespace := legacy_namespace spec;
                            tgt_name := legacy_name spec |};
         scale_replicas := legacy_replicas spec |}
  end.

(** [impl Deserialize for ScaleSpec]: the untagged [Repr] is generated code. *)
Global Instance scale_spec_from_value `{FromValue ScaleRepr} : FromValue ScaleSpec :=
  fun v => r ← (from_value v : result string ScaleRepr); mret (scale_of_repr r).

Record ResourceYamlSpec := {
  yaml_api_version : string;
  yaml_kind : string;
  yaml_namespace : option string;
  yaml_name : string }.

Record PostgresqlDiagnosticSpec := {
  pg_namespace : string;
  pg_service_name : option string;
  pg_pod_selector : option string;
  pg_secret_name : option string }.

Record ResourceMap := { rm_cpu : option string; rm_memory : option string }.

Record WorkloadResourcesSpec := {
  workload_kind : string;
  wr_namespace : string;
  wr_name : string;
  wr_container : string;
  wr_requests : option ResourceMap;
  wr_limits : option ResourceMap }.

Record SelfUpdateSpec := {
  target_version : option string;
  update_reason : option string;
  strategy : option string }.

Record UpdateAgentSpec := { image : string }.

(** ** Targets of [get_resource_yaml] *)

Record ResourceYamlTarget := {
  target_api_version : string;
  target_kind : string;
  namespaced : bool }.

Definition yaml_target (v k : string) (n : bool) : ResourceYamlTarget :=
  {| target_api_version := v; target_kind := k; namespaced := n |}.

Definition RESOURCE_YAML_SUPPORTED_TARGETS : list ResourceYamlTarget :=
  [yaml_target "v1" "Pod" true;
   yaml_target "v1" "Service" true;
   yaml_target "v1" "ConfigMap" true;
   yaml_target "v1" "PersistentVolumeClaim" true;
   yaml_target "v1" "PersistentVolume" false;
   yaml_target "v1" "Namespace" false;
   yaml_target "apps/v1" "Deployment" true;
   yaml_target "apps/v1" "StatefulSet" true;
   yaml_target "apps/v1" "DaemonSet" true;
   yaml_target "apps/v1" "ReplicaSet" true;
   yaml_target "batch/v1" "Job" true;
   yaml_target "batch/v1" "CronJob" true;
   yaml_target "networking.k8s.io/v1" "Ingress" true;
   yaml_target "networking.k8s.io/v1" "NetworkPolicy" true].

Definition resource_yaml_target (api_version kind : string) : option ResourceYamlTarget :=
  find_first (fun target => String.eqb (target_api_version target) api_version
                            && String.eqb (target_kind target) kind)
    RESOURCE_YAML_SUPPORTED_TARGETS.

Record ResourceYamlMetadata := {
  res_api_version : string;
  res_kind : string;
  res_namespace : option string;
  res_name : string;
  res_resource_version : option string }.
Record ResourceYamlResult := {
  yr_cluster_id : string;
  yr_resource : ResourceYamlMetadata;
  yr_format : string;
  yr_mode : string;
  yr_content : string;
  yr_fetched_at : string;
  yr_warnings : list string }.

(** ** Action policies *)

Record SentinellaHubActionPolicyCondition := {
  type_ : string;
  cond_status : string;
  cond_reason : option string;
  cond_message : option string;
  cond_observed_generation : option Z;
  last_transition_time_ms : option Z }.

Record SentinellaHubActionPolicyLimits := {
  max_cpu_limit : option string;
  max_memory_limit : option string }.

Record SentinellaHubActionPolicySpec := {
  namespace_selector : option LabelSelector;
  allowed_actions : list string;
  allowed_resources : list string;
  approval_required : bool;
  limits : option SentinellaHubActionPolicyLimits }.

Record SentinellaHubActionPolicyStatus := {
  effective_namespaces : list string;
  conditions : list SentinellaHubActionPolicyCondition;
  observed_generation : option Z;
  last_reconciled_at_ms : option Z;
  stale : bool }.

Record SentinellaHubActionPolicy := {
  metadata : ObjectMeta;
  spec : SentinellaHubActionPolicySpec;
  status : option SentinellaHubActionPolicyStatus }.

(** [deserialize_u128_string_option] after the untagged [Repr] (generated) has
    been read: a string is trimmed and parsed, a number is a [u64]. *)
Inductive u128_repr := ReprString (text : string) | ReprNumber (n : Z).
Definition deserialize_u128_string_option (value : option u128_repr)
    : result string (option Z) :=
  match value with
  | Some (ReprString text) =>
      match parse_u128 (trim text) with
      | Some n => Ok (Some n)
      | None => Err "invalid u128"
      end
  | Some (ReprNumber number) => Ok (Some number)
  | None => Ok None
  end.
Definition serialize_u128_string_option (value : option Z) : json :=
  match value with Some v => JStr (int_to_string v) | None => JNull end.

Definition policy_status_is_stale (last : option Z) (now_ms stale_after_ms : Z) : bool :=
  match last with
  | Some last => stale_after_ms <? sat_sub now_ms last
  | None => true
  end.

Definition str_mem (s : string) (l : list string) : bool := existsb (String.eqb s) l.

Definition ACTION_POLICY_SUPPORTED_ACTIONS : list string :=
  ["diagnose_postgresql"; "get_resource_yaml"; "drain_node";
   "preview_workload_resources"; "apply_workload_resources"; "rollout_restart";
   "scale"; "self_update"; "update_agent"].
Definition ACTION_POLICY_WORKLOAD_ACTIONS : list string :=
  ["preview_workload_resources"; "apply_workload_resources"; "rollout_restart"; "scale"].
Definition ACTION_POLICY_SUPPORTED_RESOURCES : list string :=
  ["Deployment"; "StatefulSet"; "DaemonSet"].

Definition policy_action_is_supported (action : string) : bool :=
  str_mem action ACTION_POLICY_SUPPORTED_ACTIONS.
Definition policy_action_targets_workload (action : string) : bool :=
  str_mem action ACTION_POLICY_WORKLOAD_ACTIONS.
Definition policy_resource_is_supported (resource : string) : bool :=
  str_mem resource ACTION_POLICY_SUPPORTED_RESOURCES.

Definition policy_limits_are_valid (l : option SentinellaHubActionPolicyLimits) : bool :=
  match l with
  | None => true
  | Some l =>
      (match max_cpu_limit l with
       | Some value => is_some (parse_cpu_quantity value) | None => true end)
      && (match max_memory_limit l with
          | Some value => is_some (parse_memory_quantity value) | None => true end)
  end.

(** ** Results *)

Record PostgresqlMonitoringDetailItem := { dt_title : string; dt_value : string }.
Record PostgresqlMonitoringEvidenceItem := { ev_title : string; ev_value : string }.
Record PostgresqlMonitoringMissingDataItem := { md_title : string; md_value : string }.
Record PostgresqlDiagnosticFinding := {
  fd_title : string; fd_severity : string; fd_description : string;
  fd_evidence : string; fd_recommendation : string }.
Record PostgresqlDiagnosticReport := {
  rep_namespace : string;
  rep_status : string;
  rep_summary : string;
  rep_findings : list PostgresqlDiagnosticFinding;
  rep_evidence : list PostgresqlMonitoringEvidenceItem;
  rep_missing_data : list PostgresqlMonitoringMissingDataItem;
  rep_recommended_actions : list string }.

Record ActionVerification := {
  av_status : string;
  av_message : option string;
  av_observed_state : option json }.

Record CommandResult := mkResult {
  command_id : string;
  r_status : string;
  message : option string;
  finished_at_ms : Z;
  r_dry_run : option bool;
  applied_patch : option json;
  observed_before : option json;
  observed_after : option json;
  warnings : list string;
  diagnostic : option PostgresqlDiagnosticReport;
  restart_requested : option bool;
  requested_state : option json;
  verification : option ActionVerification;
  resource_yaml : option ResourceYamlResult }.

(** [CommandResult::simple]: reads the clock. *)
Definition simple (command_id status : string) (message : option string) : kprog CommandResult :=
  now ← call NowMs;
  mret (mkResult command_id status message now None None None None [] None None None None None).

(** Field updates, [result.f = v]. *)
Definition with_status v '(mkResult a b c d e f g h i j k l m n) :=
  mkResult a v c d e f g h i j k l m n.
Definition with_message v '(mkResult a b c d e f g h i j k l m n) :=
  mkResult a b v d e f g h i j k l m n.
Definition with_dry_run v '(mkResult a b c d e f g h i j k l m n) :=
  mkResult a b c d v f g h i j k l m n.
Definition with_applied_patch v '(mkResult a b c d e f g h i j k l m n) :=
  mkResult a b c d e v g h i j k l m n.
Definition with_observed_before v '(mkResult a b c d e f g h i j k l m n) :=
  mkResult a b c d e f v h i j k l m n.
Definition with_observed_after v '(mkResult a b c d e f g h i j k l m n) :=
  mkResult a b c d e f g v i j k l m n.
Definition with_warnings v '(mkResult a b c d e f g h i j k l m n) :=
  mkResult a b c d e f g h v j k l m n.
Definition with_diagnostic v '(mkResult a b c d e f g h i j k l m n) :=
  mkResult a b c d e f g h i v k l m n.
Definition with_restart_requested v '(mkResult a b c d e f g h i j k l m n) :=
  mkResult a b c d e f g h i j v l m n.
Definition with_requested_state v '(mkResult a b c d e f g h i j k l m n) :=
  mkResult a b c d e f g h i j k v m n.
Definition with_verification v '(mkResult a b c d e f g h i j k l m n) :=
  mkResult a b c d e f g h i j k l v n.
Definition with_resource_yaml v '(mkResult a b c d e f g h i j k l m n) :=
  mkResult a b c d e f g h i j k l m v.

(** ** Lemmas *)

Lemma str_mem_in s l : str_mem s l = true <-> In s l.
Proof. apply existsb_eqb_in. Qed.

Lemma resource_yaml_target_some v k t :
  resource_yaml_target v k = Some t ->
  In t RESOURCE_YAML_SUPPORTED_TARGETS /\ target_api_version t = v /\ target_kind t = k.
Proof. intros [? ?]%find_first_in. by bools. Qed.

(** No entry of the allowlist is a Secret. *)
Lemma resource_yaml_target_not_secret v k t :
  resource_yaml_target v k = Some t -> k <> "Secret".
Proof.
  intros (Hin & _ & Hk)%resource_yaml_target_some ->.
  assert (forallb (fun t => negb (String.eqb (target_kind t) "Secret"))
            RESOURCE_YAML_SUPPORTED_TARGETS = true) as Hall by reflexivity.
  rewrite forallb_forall in Hall. specialize (Hall t Hin). by rewrite Hk in Hall.
Qed.

Lemma policy_status_is_stale_fresh last now after :
  policy_status_is_stale (Some last) now after = false <-> now - last <= after /\ 0 <= after.
Proof. unfold policy_status_is_stale, sat_sub. rewrite Z.ltb_ge. lia. Qed.

(** The freshness timestamp of a status survives its string encoding: every
    [u128] is written as its decimal digits, and those read back as the same
    number. *)
Theorem u128_string_roundtrip n :
  0 <= n <= u128_max ->
  serialize_u128_string_option (Some n) = JStr (nat_to_string n) /\
  deserialize_u128_string_option (Some (ReprString (nat_to_string n))) = Ok (Some n).
Proof.
  intros Hn. unfold serialize_u128_string_option, deserialize_u128_string_option.
  rewrite int_to_string_nonneg by lia. split; [done|].
  rewrite trim_visible by (apply digits_visible, nat_to_string_all; lia).
  unfold parse_u128, parse_unsigned.
  assert (strip_prefix "+" (nat_to_string n) = None) as ->.
  { pose proof (nat_to_string_all n ltac:(lia)) as Ha. revert Ha.
    destruct (nat_to_string n) as [|a s]; [done|]. simpl.
    destruct (Ascii.eqb_spec "+"%char a) as [<-|]; done. }
  rewrite parse_nat_to_string by lia. simpl. by rewrite check_range_in.
Qed.

Lemma u128_string_roundtrip_witness :
  serialize_u128_string_option (Some 1718000000000) = JStr "1718000000000" /\
  deserialize_u128_string_option (Some (ReprString "1718000000000")) = Ok (Some 1718000000000).
Proof.
  assert (Hn : 0 <= 1718000000000 <= u128_max) by (split; z_compute).
  exact (u128_string_roundtrip 1718000000000 Hn).
Defined.

Lemma wp_simple G Q h id st msg :
  G h NowMs ->
  (forall now, Q (mkResult id st msg now None None None None [] None None None None None)
                 (h ++ [ev (R:=resp) NowMs now])) ->
  wp G Q h (simple id st msg).
Proof. intros HG HQ. unfold simple. wp_step. wp_step; [done|]. intros now. apply HQ. Qed.
