(* ===== verification/Config.v ===== *)
(** * Configuration (config.rs)

    The [Config] record.  Every duration of the configuration is a whole
    number of seconds, read as a [u64]. *)
From S2P Require Import Prelude RustStr.
Local Open Scope Z_scope.

Record Config := {
  hub_url : string;
  cluster_id : string;
  api_key : option string;
  agent_version_override : option string;
  collect_interval : Z;
  poll_wait : Z;
  actions_enabled : bool;
  action_operator_enabled : bool;
  action_operator_poll_interval : Z;
  action_operator_excluded_namespaces : list string;
  readonly_commands_enabled : bool;
  collect_secrets : bool;
  collect_dependencies_tetragon : bool;
  tetragon_endpoint_discovery_enabled : bool;
  tetragon_required_for_readiness : bool;
  tetragon_grpc_address : string;
  tetragon_grpc_port : Z;
  tetragon_service_namespace : string;
  tetragon_service_name : string;
  http_timeout : Z;
  http_debug : bool;
  http_debug_bodies : bool;
  full_debug : bool;
  agent_log : string;
  tech_detect_process : bool;
  pod_name : string;
  pod_namespace : string;
  agent_node_name : string;
  lease_name : string;
  lease_ttl : Z;
  workload_monitoring_enabled : bool;
  workload_monitoring_namespaces : list string;
  workload_monitoring_targets : list string;
  postgresql_monitoring_enabled : bool;
  postgresql_monitoring_namespaces : list string;
  postgresql_monitoring_secret_name : option string;
  postgresql_monitoring_host : option string;
  postgresql_monitoring_port : option Z;
  postgresql_monitoring_user : option string;
  postgresql_monitoring_password : option string;
  postgresql_monitoring_database : option string;
  postgresql_monitoring_sslmode : option string;
  postgresql_monitoring_sslrootcert : option string;
  app_metrics_enabled : bool;
  app_metrics_discovery_enabled : bool;
  app_metrics_namespaces : list string;
  app_metrics_allowlist : list string;
  app_metrics_timeout : Z;
  app_metrics_max_samples : Z }.

(** [Duration::checked_mul] on a whole number of seconds: overflow of the
    [u64] seconds gives [None]. *)
Definition duration_checked_mul (secs factor : Z) : option Z := u64_checked (secs * factor).

(** [Duration::as_millis]. *)
Definition as_millis (secs : Z) : Z := secs * 1000.

(** Three poll intervals, the freshness window of a policy status; written out
    at each use in executor.rs and operator.rs. *)
Definition stale_after_ms (cfg : Config) : Z :=
  as_millis (unwrap_or (action_operator_poll_interval cfg)
               (duration_checked_mul (action_operator_poll_interval cfg) 3)).
