(* ===== verification/Env.v ===== *)
(** * Reading and reporting the configuration (config.rs)

    [Config::from_env_for_mode] and the parsers of single variables, and the
    two reports of the configuration that a snapshot carries: the values the
    process runs with ([agent_runtime_env]) and the values of the ConfigMap
    ([agent_configured_env]).  The process environment is a map; a variable
    that is not valid UTF-8 reads as absent, as [env::var(..).ok()] has it. *)
From S2P Require Import Prelude RustStr Text Model Config.
Local Open Scope Z_scope.

(** serde_yaml: [from_str::<Vec<String>>] and [to_string]. *)
Class YamlList := {
  yaml_list_parse : string -> option (list string);
  yaml_list_print : list string -> option string }.

Definition AGENT_CONFIG_ENV_ALLOWLIST : list string :=
  ["ACTION_OPERATOR_ENABLED"; "ACTION_OPERATOR_POLL_INTERVAL_SECS";
   "ACTION_OPERATOR_EXCLUDED_NAMESPACES"; "AGENT_HTTP_DEBUG"; "AGENT_HTTP_DEBUG_BODIES";
   "AGENT_LOG"; "AGENT_VERSION_OVERRIDE"; "CLUSTER_ID"; "COLLECT_DEPENDENCIES_TETRAGON";
   "COLLECT_INTERVAL_SECS"; "COLLECT_SECRETS"; "FULL_DEBUG"; "HTTP_TIMEOUT_SECS"; "HUB_URL";
   "LEASE_NAME"; "LEASE_TTL_SECS"; "POLL_WAIT_SECS"; "POSTGRESQL_READONLY_COMMANDS_ENABLED";
   "POSTGRESQL_MONITORING_DATABASE"; "POSTGRESQL_MONITORING_ENABLED";
   "POSTGRESQL_MONITORING_HOST"; "POSTGRESQL_MONITORING_PORT";
   "POSTGRESQL_MONITORING_SECRET_NAME"; "POSTGRESQL_MONITORING_NAMESPACES";
   "POSTGRESQL_MONITORING_SSLMODE"; "POSTGRESQL_MONITORING_USER"; "APP_METRICS_ENABLED";
   "APP_METRICS_DISCOVERY_ENABLED"; "APP_METRICS_NAMESPACES"; "APP_METRICS_ALLOWLIST";
   "APP_METRICS_TIMEOUT_SECS"; "APP_METRICS_MAX_SAMPLES"; "TETRAGON_ENDPOINT_DISCOVERY_ENABLED";
   "TETRAGON_GRPC_ADDRESS"; "TETRAGON_GRPC_PORT"; "TETRAGON_SERVICE_NAME";
   "TETRAGON_SERVICE_NAMESPACE"; "TECH_DETECT_PROCESS"; "WORKLOAD_MONITORING_ENABLED";
   "WORKLOAD_MONITORING_NAMESPACES"; "WORKLOAD_MONITORING_TARGETS"].

Inductive RuntimeMode := Agent | Operator.

Global Instance runtime_mode_eq_dec : EqDecision RuntimeMode.
Proof. solve_decision. Defined.

Definition parse_mode (value : string) : result string RuntimeMode :=
  match value with
  | "agent" => Ok Agent
  | "operator" => Ok Operator
  | other => Err ("invalid runtime mode: " +s+ other)
  end.
Definition mode_as_str (m : RuntimeMode) : string :=
  match m with Agent => "agent" | Operator => "operator" end.

(** tetragon.rs. *)
Definition DEFAULT_GRPC_ADDRESS : string := "tetragon-grpc.tetragon.svc.cluster.local:54321".

(** ** Values *)

Definition is_true_text (v : string) : bool := String.eqb v "true" || String.eqb v "1".

Definition bool_string (value : bool) : string := if value then "true" else "false".

Definition parse_non_empty_value (value : string) : option string :=
  let trimmed := trim value in
  if str_is_empty trimmed || (128 <? str_len trimmed) then None else Some trimmed.

Definition parse_csv_values (raw : string) : list string :=
  List.filter (fun s => negb (str_is_empty s)) (map trim (str_split "," raw)).

(** ** Variables *)

Notation environment := (gmap string string).

Section env.
Context (env : environment).

Definition parse_secs (var : string) (default : Z) : Z :=
  unwrap_or default (v ← env !! var; parse_u64 v).

Definition env_flag (var : string) : bool := unwrap_or false (is_true_text <$> env !! var).

Definition env_flag_with_default (var : string) (default : bool) : bool :=
  unwrap_or default (is_true_text <$> env !! var).

Definition parse_csv_env (var : string) : list string :=
  unwrap_or [] (parse_csv_values <$> env !! var).

Definition parse_csv_env_or (var : string) (default : list string) : list string :=
  let parsed := parse_csv_env var in if is_empty parsed then default else parsed.

Definition parse_u16_env (var : string) : option Z := v ← env !! var; parse_u16 (trim v).
Definition parse_u64_env (var : string) : option Z := v ← env !! var; parse_u64 (trim v).

(** [Option::filter]. *)
Definition opt_filter {A} (p : A -> bool) (o : option A) : option A :=
  match o with Some a => if p a then Some a else None | None => None end.

Definition parse_non_empty_env (var : string) : option string :=
  opt_filter (fun value => str_len value <=? 128)
    (opt_filter (fun value => negb (str_is_empty value)) (trim <$> env !! var)).

Context `{YamlList}.

Definition parse_yaml_list_env (var : string) : list string :=
  some raw := env !! var else [] in
  let trimmed := trim raw in
  if str_is_empty trimmed then [] else
  match yaml_list_parse trimmed with Some l => l | None => parse_csv_values trimmed end.

Definition WORKLOAD_TARGETS_DEFAULT : list string := ["angular"; "spring_boot"; "oracle_database"].
Definition APP_METRICS_DEFAULT : list string :=
  ["demo_usuarios_activos"; "demo_cola_tramites_pendientes"; "demo_operaciones_negocio_total";
   "demo_lecturas_bd_total"; "demo_escrituras_bd_total"; "http_server_requests_seconds_*";
   "jvm_memory_used_bytes"; "jvm_gc_pause_seconds_*"; "process_cpu_usage"; "system_cpu_usage";
   "hikaricp_connections_*"; "jdbc_connections_*"; "tomcat_threads_*";
   "tomcat_sessions_active_current"].

Definition env_or (var default : string) : string := unwrap_or default (env !! var).

(** A variable that only the agent needs. *)
Definition required_env (mode : RuntimeMode) (var : string) : result string string :=
  match mode with
  | Agent => ok_or (env !! var) (var +s+ " not set")
  | Operator => Ok (env_or var "")
  end.

Definition from_env_for_mode (mode : RuntimeMode) : result string Config :=
  try hub := required_env mode "HUB_URL" else e => Err e in
  try cluster := required_env mode "CLUSTER_ID" else e => Err e in
  let full := env_flag "FULL_DEBUG" in
  Ok {|
    hub_url := trim_end_matches "/" hub;
    cluster_id := cluster;
    api_key := opt_filter (fun s => negb (str_is_empty s)) (env !! "HUB_API_KEY");
    agent_version_override := parse_non_empty_env "AGENT_VERSION_OVERRIDE";
    collect_interval := parse_secs "COLLECT_INTERVAL_SECS" 60;
    poll_wait := parse_secs "POLL_WAIT_SECS" 30;
    actions_enabled := env_flag "ACTION_OPERATOR_ENABLED";
    action_operator_enabled := env_flag "ACTION_OPERATOR_ENABLED";
    action_operator_poll_interval := parse_secs "ACTION_OPERATOR_POLL_INTERVAL_SECS" 60;
    action_operator_excluded_namespaces :=
      parse_yaml_list_env "ACTION_OPERATOR_EXCLUDED_NAMESPACES";
    readonly_commands_enabled := env_flag "POSTGRESQL_READONLY_COMMANDS_ENABLED";
    collect_secrets := env_flag "COLLECT_SECRETS";
    collect_dependencies_tetragon := env_flag "COLLECT_DEPENDENCIES_TETRAGON";
    tetragon_endpoint_discovery_enabled :=
      env_flag_with_default "TETRAGON_ENDPOINT_DISCOVERY_ENABLED" true;
    tetragon_required_for_readiness :=
      env_flag_with_default "TETRAGON_REQUIRED_FOR_READINESS" true;
    tetragon_grpc_address := env_or "TETRAGON_GRPC_ADDRESS" DEFAULT_GRPC_ADDRESS;
    tetragon_grpc_port := unwrap_or 54321 (parse_u16_env "TETRAGON_GRPC_PORT");
    tetragon_service_namespace := env_or "TETRAGON_SERVICE_NAMESPACE" "tetragon";
    tetragon_service_name := env_or "TETRAGON_SERVICE_NAME" "tetragon-grpc";
    http_timeout := parse_secs "HTTP_TIMEOUT_SECS" 20;
    http_debug := full || env_flag "AGENT_HTTP_DEBUG";
    http_debug_bodies := full || env_flag "AGENT_HTTP_DEBUG_BODIES";
    full_debug := full;
    agent_log := unwrap_or "info" (opt_filter (fun v => negb (str_is_empty v))
                                     (trim <$> env !! "AGENT_LOG"));
    tech_detect_process := env_flag "TECH_DETECT_PROCESS";
    pod_name := env_or "POD_NAME" "unknown";
    pod_namespace := env_or "POD_NAMESPACE" "default";
    agent_node_name := env_or "NODE_NAME" "unknown-node";
    lease_name := env_or "LEASE_NAME" "sentinella-hub-k8s-agent-leader";
    lease_ttl := parse_secs "LEASE_TTL_SECS" 30;
    workload_monitoring_enabled := env_flag "WORKLOAD_MONITORING_ENABLED";
    workload_monitoring_namespaces := parse_csv_env "WORKLOAD_MONITORING_NAMESPACES";
    workload_monitoring_targets :=
      parse_csv_env_or "WORKLOAD_MONITORING_TARGETS" WORKLOAD_TARGETS_DEFAULT;
    postgresql_monitoring_enabled := env_flag "POSTGRESQL_MONITORING_ENABLED";
    postgresql_monitoring_namespaces := parse_csv_env "POSTGRESQL_MONITORING_NAMESPACES";
    postgresql_monitoring_secret_name := parse_non_empty_env "POSTGRESQL_MONITORING_SECRET_NAME";
    postgresql_monitoring_host := parse_non_empty_env "POSTGRESQL_MONITORING_HOST";
    postgresql_monitoring_port := parse_u16_env "POSTGRESQL_MONITORING_PORT";
    postgresql_monitoring_user := parse_non_empty_env "POSTGRESQL_MONITORING_USER";
    postgresql_monitoring_password := parse_non_empty_env "POSTGRESQL_MONITORING_PASSWORD";
    postgresql_monitoring_database := parse_non_empty_env "POSTGRESQL_MONITORING_DATABASE";
    postgresql_monitoring_sslmode := parse_non_empty_env "POSTGRESQL_MONITORING_SSLMODE";
    postgresql_monitoring_sslrootcert := parse_non_empty_env "POSTGRESQL_MONITORING_SSLROOTCERT";
    app_metrics_enabled := env_flag "APP_METRICS_ENABLED";
    app_metrics_discovery_enabled := env_flag_with_default "APP_METRICS_DISCOVERY_ENABLED" true;
    app_metrics_namespaces := parse_csv_env "APP_METRICS_NAMESPACES";
    app_metrics_allowlist := parse_csv_env_or "APP_METRICS_ALLOWLIST" APP_METRICS_DEFAULT;
    app_metrics_timeout := unwrap_or 3 (parse_u64_env "APP_METRICS_TIMEOUT_SECS");
    app_metrics_max_samples := unwrap_or 500 (parse_u64_env "APP_METRICS_MAX_SAMPLES") |}.
End env.

(** ** The reports *)

(** model.rs. *)
Record KV := { kv_key : string; kv_value : string }.

Section report.
Context `{YamlList}.

Definition yaml_list_string (values : list string) : string :=
  if is_empty values then "" else
  match yaml_list_print values with Some y => trim_end y | None => join "," values end.

(** The arms of [runtime_env_value] as a table; the order of the arms does not
    matter, since their patterns are distinct literals. *)
Definition runtime_env_table (cfg : Config) : list (string * option string) :=
  [("ACTION_OPERATOR_ENABLED", Some (bool_string (action_operator_enabled cfg)));
   ("ACTION_OPERATOR_POLL_INTERVAL_SECS",
    Some (nat_to_string (action_operator_poll_interval cfg)));
   ("ACTION_OPERATOR_EXCLUDED_NAMESPACES",
    Some (yaml_list_string (action_operator_excluded_namespaces cfg)));
   ("POSTGRESQL_READONLY_COMMANDS_ENABLED", Some (bool_string (readonly_commands_enabled cfg)));
   ("AGENT_HTTP_DEBUG", Some (bool_string (http_debug cfg)));
   ("AGENT_HTTP_DEBUG_BODIES", Some (bool_string (http_debug_bodies cfg)));
   ("AGENT_LOG", Some (agent_log cfg));
   ("AGENT_VERSION_OVERRIDE", agent_version_override cfg);
   ("CLUSTER_ID", Some (cluster_id cfg));
   ("COLLECT_DEPENDENCIES_TETRAGON", Some (bool_string (collect_dependencies_tetragon cfg)));
   ("TETRAGON_ENDPOINT_DISCOVERY_ENABLED",
    Some (bool_string (tetragon_endpoint_discovery_enabled cfg)));
   ("COLLECT_INTERVAL_SECS", Some (nat_to_string (collect_interval cfg)));
   ("COLLECT_SECRETS", Some (bool_string (collect_secrets cfg)));
   ("FULL_DEBUG", Some (bool_string (full_debug cfg)));
   ("HTTP_TIMEOUT_SECS", Some (nat_to_string (http_timeout cfg)));
   ("HUB_URL", Some (hub_url cfg));
   ("LEASE_NAME", Some (lease_name cfg));
   ("LEASE_TTL_SECS", Some (nat_to_string (lease_ttl cfg)));
   ("POLL_WAIT_SECS", Some (nat_to_string (poll_wait cfg)));
   ("POSTGRESQL_MONITORING_DATABASE", postgresql_monitoring_database cfg);
   ("TETRAGON_GRPC_ADDRESS", Some (tetragon_grpc_address cfg));
   ("TETRAGON_GRPC_PORT", Some (nat_to_string (tetragon_grpc_port cfg)));
   ("TETRAGON_SERVICE_NAME", Some (tetragon_service_name cfg));
   ("TETRAGON_SERVICE_NAMESPACE", Some (tetragon_service_namespace cfg));
   ("TECH_DETECT_PROCESS", Some (bool_string (tech_detect_process cfg)));
   ("POSTGRESQL_MONITORING_HOST", postgresql_monitoring_host cfg);
   ("POSTGRESQL_MONITORING_PORT", nat_to_string <$> postgresql_monitoring_port cfg);
   ("POSTGRESQL_MONITORING_ENABLED", Some (bool_string (postgresql_monitoring_enabled cfg)));
   ("POSTGRESQL_MONITORING_SECRET_NAME", postgresql_monitoring_secret_name cfg);
   ("POSTGRESQL_MONITORING_NAMESPACES", Some (join "," (postgresql_monitoring_namespaces cfg)));
   ("POSTGRESQL_MONITORING_SSLMODE", postgresql_monitoring_sslmode cfg);
   ("POSTGRESQL_MONITORING_USER", postgresql_monitoring_user cfg);
   ("APP_METRICS_ENABLED", Some (bool_string (app_metrics_enabled cfg)));
   ("APP_METRICS_DISCOVERY_ENABLED", Some (bool_string (app_metrics_discovery_enabled cfg)));
   ("APP_METRICS_NAMESPACES", Some (join "," (app_metrics_namespaces cfg)));
   ("APP_METRICS_ALLOWLIST", Some (join "," (app_metrics_allowlist cfg)));
   ("APP_METRICS_TIMEOUT_SECS", Some (nat_to_string (app_metrics_timeout cfg)));
   ("APP_METRICS_MAX_SAMPLES", Some (nat_to_string (app_metrics_max_samples cfg)));
   ("WORKLOAD_MONITORING_ENABLED", Some (bool_string (workload_monitoring_enabled cfg)));
   ("WORKLOAD_MONITORING_NAMESPACES", Some (join "," (workload_monitoring_namespaces cfg)));
   ("WORKLOAD_MONITORING_TARGETS", Some (join "," (workload_monitoring_targets cfg)))].

Fixpoint table_find {A} (key : string) (t : list (string * A)) : option A :=
  match t with
  | [] => None
  | (k, v) :: t => if String.eqb key k then Some v else table_find key t
  end.

Definition runtime_env_value (cfg : Config) (key : string) : option string :=
  v ← table_find key (runtime_env_table cfg); v.

(** [filter_map] over the allowlist into a report. *)
Definition report (value_of : string -> option string) : list KV :=
  omap (fun key => (fun value => {| kv_key := key; kv_value := value |}) <$> value_of key)
    AGENT_CONFIG_ENV_ALLOWLIST.

Definition agent_runtime_env (cfg : Config) : list KV := report (runtime_env_value cfg).
End report.

Definition FLAG_KEYS : list string :=
  ["ACTION_OPERATOR_ENABLED"; "ACTION_OPERATOR_EXCLUDED_NAMESPACES"; "AGENT_HTTP_DEBUG";
   "AGENT_HTTP_DEBUG_BODIES"; "COLLECT_DEPENDENCIES_TETRAGON";
   "TETRAGON_ENDPOINT_DISCOVERY_ENABLED"; "COLLECT_SECRETS"; "FULL_DEBUG";
   "POSTGRESQL_READONLY_COMMANDS_ENABLED"; "POSTGRESQL_MONITORING_ENABLED";
   "APP_METRICS_ENABLED"; "APP_METRICS_DISCOVERY_ENABLED"; "TECH_DETECT_PROCESS"].
Definition LIST_KEYS : list string :=
  ["POSTGRESQL_MONITORING_NAMESPACES"; "APP_METRICS_NAMESPACES";
   "WORKLOAD_MONITORING_NAMESPACES"].
Definition U16_KEYS : list string :=
  ["COLLECT_INTERVAL_SECS"; "ACTION_OPERATOR_POLL_INTERVAL_SECS"; "HTTP_TIMEOUT_SECS";
   "LEASE_TTL_SECS"; "POLL_WAIT_SECS"; "TETRAGON_GRPC_PORT"].
Definition U64_KEYS : list string := ["APP_METRICS_TIMEOUT_SECS"; "APP_METRICS_MAX_SAMPLES"].
Definition TEXT_KEYS : list string :=
  ["POSTGRESQL_MONITORING_DATABASE"; "POSTGRESQL_MONITORING_HOST";
   "POSTGRESQL_MONITORING_SECRET_NAME"; "POSTGRESQL_MONITORING_SSLMODE";
   "POSTGRESQL_MONITORING_USER"].

Definition number_or_text (parsed : option Z) (text : string) : option string :=
  opt_or (nat_to_string <$> parsed) (Some text).

(** The arms in the order of the source. *)
Definition configured_env_value (key value : string) : option string :=
  let trimmed := trim value in
  if str_mem key FLAG_KEYS then Some (bool_string (is_true_text trimmed))
  else if String.eqb key "AGENT_LOG" then Some (if str_is_empty trimmed then "info" else trimmed)
  else if String.eqb key "AGENT_VERSION_OVERRIDE" then parse_non_empty_value trimmed
  else if str_mem key LIST_KEYS then Some trimmed
  else if str_mem key U16_KEYS then number_or_text (parse_u16 trimmed) trimmed
  else if str_mem key U64_KEYS then number_or_text (parse_u64 trimmed) trimmed
  else if String.eqb key "POSTGRESQL_MONITORING_PORT"
  then number_or_text (parse_u16 trimmed) trimmed
  else if str_mem key TEXT_KEYS then parse_non_empty_value trimmed
  else if String.eqb key "HUB_URL" then Some (trim_end_matches "/" trimmed)
  else Some trimmed.

Definition agent_configured_env (values : gmap string string) : list KV :=
  report (fun key => value ← values !! key; configured_env_value key value).

(** ** Well-formed configurations *)

(** A text of the kind that [parse_non_empty_env] lets through. *)
Definition short_text (s : string) : Prop := s <> "" /\ trimmed s /\ str_len s <= 128.
(** An entry of a comma-separated list. *)
Definition csv_entry (s : string) : Prop := s <> "" /\ trimmed s /\ free_of "," s = true.

Definition opt_all {A} (P : A -> Prop) (o : option A) : Prop :=
  match o with Some a => P a | None => True end.

Definition u16_range (n : Z) : Prop := 0 <= n <= u16_max.
Definition u64_range (n : Z) : Prop := 0 <= n <= u64_max.

(** What every configuration read from an environment satisfies. *)
Record config_wf (cfg : Config) : Prop := {
  wf_hub_url : ends_with "/" (hub_url cfg) = false;
  wf_api_key : api_key cfg <> Some "";
  wf_actions : actions_enabled cfg = action_operator_enabled cfg;
  wf_debug : full_debug cfg = true -> http_debug cfg = true /\ http_debug_bodies cfg = true;
  wf_log : agent_log cfg <> "" /\ trimmed (agent_log cfg);
  wf_secs : Forall u64_range [collect_interval cfg; poll_wait cfg; action_operator_poll_interval cfg;
              http_timeout cfg; lease_ttl cfg; app_metrics_timeout cfg;
              app_metrics_max_samples cfg];
  wf_ports : u16_range (tetragon_grpc_port cfg) /\
             opt_all u16_range (postgresql_monitoring_port cfg);
  wf_texts : Forall (opt_all short_text)
    [agent_version_override cfg; postgresql_monitoring_secret_name cfg;
     postgresql_monitoring_host cfg; postgresql_monitoring_user cfg;
     postgresql_monitoring_password cfg; postgresql_monitoring_database cfg;
     postgresql_monitoring_sslmode cfg; postgresql_monitoring_sslrootcert cfg];
  wf_lists : Forall (Forall csv_entry)
    [workload_monitoring_namespaces cfg; workload_monitoring_targets cfg;
     postgresql_monitoring_namespaces cfg; app_metrics_namespaces cfg;
     app_metrics_allowlist cfg];
  wf_defaults : workload_monitoring_targets cfg <> [] /\ app_metrics_allowlist cfg <> [] }.

(** Every arm of [parse_unsigned] is range-checked. *)
Lemma parse_unsigned_range hi s n : parse_unsigned hi s = Some n -> 0 <= n <= hi.
Proof.
  unfold parse_unsigned, check_range. intros (m & _ & H)%bind_Some.
  destruct ((0 <=? m) && (m <=? hi)) eqn:Hr; simplify_eq.
  apply andb_true_iff in Hr as [?%Z.leb_le ?%Z.leb_le]. lia.
Qed.

Lemma csv_entry_short s : str_is_empty s = false <-> s <> "".
Proof. by destruct s. Qed.

Section reading.
Context (env : environment).

Lemma parse_secs_range var d : u64_range d -> u64_range (parse_secs env var d).
Proof.
  intros Hd. unfold parse_secs. destruct (_ ≫= _) as [n|] eqn:H; [|done].
  apply bind_Some in H as (v & _ & H). exact (parse_unsigned_range _ _ _ H).
Qed.

Lemma parse_u64_env_range var n : parse_u64_env env var = Some n -> u64_range n.
Proof. intros (v & _ & H)%bind_Some. exact (parse_unsigned_range _ _ _ H). Qed.

Lemma parse_u16_env_range var n : parse_u16_env env var = Some n -> u16_range n.
Proof. intros (v & _ & H)%bind_Some. exact (parse_unsigned_range _ _ _ H). Qed.

Lemma parse_csv_values_entries raw : Forall csv_entry (parse_csv_values raw).
Proof.
  unfold parse_csv_values. apply Forall_forall. intros s Hs%list_elem_of_In.
  apply filter_In in Hs as [Hs He]. apply in_map_iff in Hs as (w & <- & Hw).
  apply negb_true_iff, csv_entry_short in He. split_and!; [done|apply trim_trimmed|].
  pose proof (str_split_free "," raw) as HF. rewrite Forall_forall in HF.
  apply trim_all, HF. by apply list_elem_of_In.
Qed.

Lemma parse_csv_env_entries var : Forall csv_entry (parse_csv_env env var).
Proof.
  unfold parse_csv_env. destruct (env !! var); simpl; [apply parse_csv_values_entries|constructor].
Qed.

Lemma parse_csv_env_or_entries var d :
  Forall csv_entry d -> Forall csv_entry (parse_csv_env_or env var d).
Proof.
  unfold parse_csv_env_or. pose proof (parse_csv_env_entries var).
  by destruct (parse_csv_env env var).
Qed.

Lemma parse_csv_env_or_nonempty var d : d <> [] -> parse_csv_env_or env var d <> [].
Proof. unfold parse_csv_env_or. by destruct (parse_csv_env env var). Qed.

Lemma parse_non_empty_env_text var : opt_all short_text (parse_non_empty_env env var).
Proof.
  unfold parse_non_empty_env. destruct (env !! var) as [v|]; simpl; [|done].
  destruct (str_is_empty (trim v)) eqn:He; simpl; [done|].
  destruct (str_len (trim v) <=? 128) eqn:Hl; simpl; [|done].
  split_and!; [by apply csv_entry_short|apply trim_trimmed|by apply Z.leb_le].
Qed.
End reading.

Lemma csv_entries_closed l :
  forallb (fun s => negb (str_is_empty s) && str_all visible s && free_of "," s) l = true ->
  Forall csv_entry l.
Proof.
  rewrite forallb_forall. intros H. apply Forall_forall. intros s Hs%list_elem_of_In.
  specialize (H s Hs). apply andb_true_iff in H as [[He Hv]%andb_true_iff Hf].
  split_and!; [by apply csv_entry_short, negb_true_iff| |done].
  rewrite <- (trim_visible s Hv). apply trim_trimmed.
Qed.

(** ** What a report tells *)

(** The environment that a report describes. *)
Definition env_of (l : list KV) : environment :=
  list_to_map (map (fun kv => (kv_key kv, kv_value kv)) l).

Lemma report_lookup_in value_of keys key :
  NoDup keys ->
  (list_to_map (map (fun kv => (kv_key kv, kv_value kv))
     (omap (fun key => (fun value => {| kv_key := key; kv_value := value |}) <$> value_of key) keys))
   : environment) !! key = if str_mem key keys then value_of key else None.
Proof.
  unfold str_mem. induction 1 as [|k keys Hk Hnd IH]; [done|]. csimpl.
  destruct (value_of k) as [v|] eqn:Hv; csimpl.
  - destruct (String.eqb_spec key k) as [->|Hne]; simpl.
    + by rewrite lookup_insert_eq.
    + by rewrite lookup_insert_ne.
  - destruct (String.eqb_spec key k) as [->|Hne]; csimpl; [|done].
    rewrite IH, Hv. by destruct (existsb _ keys).
Qed.

Lemma report_lookup value_of key :
  env_of (report value_of) !! key =
    if str_mem key AGENT_CONFIG_ENV_ALLOWLIST then value_of key else None.
Proof.
  apply report_lookup_in. apply (bool_decide_eq_true_1 (NoDup AGENT_CONFIG_ENV_ALLOWLIST)).
  by vm_compute.
Qed.

(** The variables that the configuration reads and the report leaves out. *)
Definition unreported_keys : list string :=
  ["HUB_API_KEY"; "POSTGRESQL_MONITORING_PASSWORD"; "POSTGRESQL_MONITORING_SSLROOTCERT";
   "TETRAGON_REQUIRED_FOR_READINESS"; "POD_NAME"; "POD_NAMESPACE"; "NODE_NAME"].

(** The configuration without what a report leaves out: the API key, the
    password and the root certificate of the database probe, the identity of
    the pod, and the readiness rule: TETRAGON_REQUIRED_FOR_READINESS is not in
    the allowlist either, so that it comes back as its default, true. *)
Definition reported_part (cfg : Config) : Config :=
  {| hub_url := hub_url cfg;
     cluster_id := cluster_id cfg;
     api_key := None;
     agent_version_override := agent_version_override cfg;
     collect_interval := collect_interval cfg;
     poll_wait := poll_wait cfg;
     actions_enabled := actions_enabled cfg;
     action_operator_enabled := action_operator_enabled cfg;
     action_operator_poll_interval := action_operator_poll_interval cfg;
     action_operator_excluded_namespaces := action_operator_excluded_namespaces cfg;
     readonly_commands_enabled := readonly_commands_enabled cfg;
     collect_secrets := collect_secrets cfg;
     collect_dependencies_tetragon := collect_dependencies_tetragon cfg;
     tetragon_endpoint_discovery_enabled := tetragon_endpoint_discovery_enabled cfg;
     tetragon_required_for_readiness := true;
     tetragon_grpc_address := tetragon_grpc_address cfg;
     tetragon_grpc_port := tetragon_grpc_port cfg;
     tetragon_service_namespace := tetragon_service_namespace cfg;
     tetragon_service_name := tetragon_service_name cfg;
     http_timeout := http_timeout cfg;
     http_debug := http_debug cfg;
     http_debug_bodies := http_debug_bodies cfg;
     full_debug := full_debug cfg;
     agent_log := agent_log cfg;
     tech_detect_process := tech_detect_process cfg;
     pod_name := "unknown";
     pod_namespace := "default";
     agent_node_name := "unknown-node";
     lease_name := lease_name cfg;
     lease_ttl := lease_ttl cfg;
     workload_monitoring_enabled := workload_monitoring_enabled cfg;
     workload_monitoring_namespaces := workload_monitoring_namespaces cfg;
     workload_monitoring_targets := workload_monitoring_targets cfg;
     postgresql_monitoring_enabled := postgresql_monitoring_enabled cfg;
     postgresql_monitoring_namespaces := postgresql_monitoring_namespaces cfg;
     postgresql_monitoring_secret_name := postgresql_monitoring_secret_name cfg;
     postgresql_monitoring_host := postgresql_monitoring_host cfg;
     postgresql_monitoring_port := postgresql_monitoring_port cfg;
     postgresql_monitoring_user := postgresql_monitoring_user cfg;
     postgresql_monitoring_password := None;
     postgresql_monitoring_database := postgresql_monitoring_database cfg;
     postgresql_monitoring_sslmode := postgresql_monitoring_sslmode cfg;
     postgresql_monitoring_sslrootcert := None;
     app_metrics_enabled := app_metrics_enabled cfg;
     app_metrics_discovery_enabled := app_metrics_discovery_enabled cfg;
     app_metrics_namespaces := app_metrics_namespaces cfg;
     app_metrics_allowlist := app_metrics_allowlist cfg;
     app_metrics_timeout := app_metrics_timeout cfg;
     app_metrics_max_samples := app_metrics_max_samples cfg |}.

Section reread.
Context (env : environment) (key : string).

Lemma reread_flag b : env !! key = Some (bool_string b) -> env_flag env key = b.
Proof. unfold env_flag. intros ->. by destruct b. Qed.

Lemma reread_flag_default b d :
  env !! key = Some (bool_string b) -> env_flag_with_default env key d = b.
Proof. unfold env_flag_with_default. intros ->. by destruct b. Qed.

Lemma parse_unsigned_print hi n : 0 <= n <= hi -> parse_unsigned hi (nat_to_string n) = Some n.
Proof.
  intros Hn. unfold parse_unsigned.
  assert (strip_prefix "+" (nat_to_string n) = None) as ->.
  { pose proof (nat_to_string_all n ltac:(lia)) as Hall.
    destruct (nat_to_string n) as [|a s]; [done|]. simpl in *.
    destruct (Ascii.eqb_spec "+" a) as [<-|]; [by vm_compute in Hall|done]. }
  rewrite parse_nat_to_string by lia. simpl. unfold check_range.
  by rewrite (proj2 (andb_true_iff _ _)) by (split; apply Z.leb_le; lia).
Qed.

Lemma trim_nat_to_string n : 0 <= n -> trim (nat_to_string n) = nat_to_string n.
Proof.
  intros Hn. apply trim_visible. eapply str_all_impl; [apply digit_visible|].
  by apply nat_to_string_all.
Qed.

Lemma reread_secs n d : u64_range n -> env !! key = Some (nat_to_string n) -> parse_secs env key d = n.
Proof. unfold parse_secs. intros Hn ->. simpl. unfold parse_u64. by rewrite parse_unsigned_print. Qed.

Lemma reread_u64 n : u64_range n -> env !! key = Some (nat_to_string n) -> parse_u64_env env key = Some n.
Proof.
  unfold parse_u64_env. intros Hn ->. simpl. rewrite trim_nat_to_string by apply Hn.
  by apply parse_unsigned_print.
Qed.

Lemma reread_u16 o :
  opt_all u16_range o -> env !! key = nat_to_string <$> o -> parse_u16_env env key = o.
Proof.
  unfold parse_u16_env. intros Hn ->. destruct o as [n|]; simpl in *; [|done].
  rewrite trim_nat_to_string by apply Hn. by apply parse_unsigned_print.
Qed.

Lemma reread_text o : opt_all short_text o -> env !! key = o -> parse_non_empty_env env key = o.
Proof.
  unfold parse_non_empty_env. intros Ho ->. destruct o as [s|]; [|done].
  destruct Ho as (Hne & Ht & Hl). simpl. rewrite (trimmed_trim s Ht).
  apply csv_entry_short in Hne. rewrite Hne. simpl. by rewrite (proj2 (Z.leb_le _ _) Hl).
Qed.

Lemma parse_csv_values_join l : Forall csv_entry l -> parse_csv_values (join "," l) = l.
Proof.
  intros Hl. unfold parse_csv_values. destruct l as [|s l]; [done|].
  rewrite str_split_join; [|done|].
  2:{ eapply Forall_impl; [exact Hl|]. by intros w (_ & _ & ?). }
  induction Hl as [|w ws (Hne & Ht & _) _ IH]; simpl; [done|].
  rewrite (trimmed_trim w Ht). apply csv_entry_short in Hne. rewrite Hne. simpl. by rewrite IH.
Qed.

Lemma reread_csv l : Forall csv_entry l -> env !! key = Some (join "," l) -> parse_csv_env env key = l.
Proof. unfold parse_csv_env. intros Hl ->. by apply parse_csv_values_join. Qed.

Lemma reread_log v : v <> "" -> trimmed v -> env !! key = Some v ->
  unwrap_or "info" (opt_filter (fun v => negb (str_is_empty v)) (trim <$> env !! key)) = v.
Proof.
  intros Hne%csv_entry_short Ht ->. simpl. rewrite (trimmed_trim v Ht). by rewrite Hne.
Qed.

Lemma reread_csv_or l d :
  Forall csv_entry l -> l <> [] -> env !! key = Some (join "," l) -> parse_csv_env_or env key d = l.
Proof.
  unfold parse_csv_env_or. intros Hl Hne Hk. rewrite (reread_csv l Hl Hk). by destruct l.
Qed.
End reread.

Lemma from_env_wf `{YamlList} env mode cfg :
  from_env_for_mode env mode = Ok cfg -> config_wf cfg.
Proof.
  unfold from_env_for_mode. intros Hcfg.
  destruct (required_env env mode "HUB_URL") as [hub|]; [|done].
  destruct (required_env env mode "CLUSTER_ID") as [cluster|]; [|done].
  injection Hcfg as <-. split; cbn -[env_flag parse_non_empty_env parse_csv_env parse_csv_env_or
    parse_secs trim_end_matches opt_filter].
  - by apply trim_end_matches_spec.
  - destruct (env !! "HUB_API_KEY") as [[]|]; done.
  - done.
  - by intros ->.
  - destruct (env !! "AGENT_LOG") as [v|]; simpl.
    + destruct (str_is_empty (trim v)) eqn:He; simpl.
      * split; [done|]. by split; vm_compute.
      * split; [by apply csv_entry_short|apply trim_trimmed].
    + split; [done|]. by split; vm_compute.
  - repeat (apply Forall_cons; split); [..|constructor];
      try (apply parse_secs_range; split; z_compute).
    + destruct (parse_u64_env _ _) eqn:Hp; [by apply parse_u64_env_range in Hp|split; z_compute].
    + destruct (parse_u64_env _ _) eqn:Hp; [by apply parse_u64_env_range in Hp|split; z_compute].
  - split.
    + destruct (parse_u16_env _ _) eqn:Hp; [by apply parse_u16_env_range in Hp|split; z_compute].
    + destruct (parse_u16_env env "POSTGRESQL_MONITORING_PORT") eqn:Hp; [|done].
      by apply parse_u16_env_range in Hp.
  - repeat (apply Forall_cons; split); [..|constructor]; apply parse_non_empty_env_text.
  - repeat (apply Forall_cons; split); [..|constructor]; try apply parse_csv_env_entries;
      apply parse_csv_env_or_entries, csv_entries_closed; by vm_compute.
  - split; by apply parse_csv_env_or_nonempty.
Qed.

(** A namespace name or pattern. *)
Definition name_like (s : string) : Prop :=
  s <> "" /\ str_all visible s = true /\ free_of "," s = true.

(** serde_yaml reads back a list of names that it printed, also without the
    final line break. *)
Definition yaml_list_law `{YamlList} : Prop :=
  forall l, l <> [] -> Forall name_like l ->
  exists y, yaml_list_print l = Some y /\ trim (trim_end y) <> "" /\
            yaml_list_parse (trim (trim_end y)) = Some l.

Section report_env.
Context `{YamlList} (cfg : Config).

Lemma runtime_report_at key v :
  str_mem key AGENT_CONFIG_ENV_ALLOWLIST = true -> runtime_env_value cfg key = v ->
  env_of (agent_runtime_env cfg) !! key = v.
Proof. intros Hk <-. unfold agent_runtime_env. by rewrite report_lookup, Hk. Qed.

Lemma runtime_report_absent key :
  str_mem key AGENT_CONFIG_ENV_ALLOWLIST = false -> env_of (agent_runtime_env cfg) !! key = None.
Proof. intros Hk. unfold agent_runtime_env. by rewrite report_lookup, Hk. Qed.

Lemma unreported_absent key :
  In key unreported_keys -> env_of (agent_runtime_env cfg) !! key = None.
Proof.
  intros Hk. apply runtime_report_absent. revert key Hk. apply List.Forall_forall.
  repeat constructor.
Qed.

(** Nothing is lost exactly when what the report leaves out has its default. *)
Lemma reported_part_whole :
  reported_part cfg = cfg <->
    api_key cfg = None /\ postgresql_monitoring_password cfg = None /\
    postgresql_monitoring_sslrootcert cfg = None /\
    tetragon_required_for_readiness cfg = true /\
    pod_name cfg = "unknown" /\ pod_namespace cfg = "default" /\
    agent_node_name cfg = "unknown-node".
Proof using Type.
  destruct cfg. unfold reported_part. simpl. split.
  - intros E. injection E. intros. subst. done.
  - intros (-> & -> & -> & -> & -> & -> & ->). done.
Qed.

Lemma reread_excluded env key :
  yaml_list_law -> Forall name_like (action_operator_excluded_namespaces cfg) ->
  env !! key = Some (yaml_list_string (action_operator_excluded_namespaces cfg)) ->
  parse_yaml_list_env env key = action_operator_excluded_namespaces cfg.
Proof.
  intros Hlaw Hn Hk. unfold parse_yaml_list_env. rewrite Hk. unfold yaml_list_string.
  destruct (action_operator_excluded_namespaces cfg) as [|n l] eqn:Hl; [done|].
  destruct (Hlaw (n :: l) ltac:(done) Hn) as (y & Hy & Hne & Hp).
  cbn [is_empty]. rewrite Hy. cbv zeta. apply csv_entry_short in Hne. by rewrite Hne, Hp.
Qed.
End report_env.

(** Read one field of a configuration back from the environment of its report,
    by [Hat] and [Hno], the values of reported and of other variables. *)
Ltac reread Hat Hno :=
  lazymatch goal with
  | |- trim_end_matches _ _ = _ => by apply trim_end_matches_id
  | |- opt_filter _ (_ !! _) = None => rewrite Hno by reflexivity; reflexivity
  | |- parse_yaml_list_env _ _ = _ => apply reread_excluded; [done|done|apply Hat; reflexivity]
  | |- unwrap_or "info" _ = _ => apply reread_log; [done|done|apply Hat; reflexivity]
  | |- unwrap_or _ (parse_u16_env _ _) = ?n =>
      rewrite (reread_u16 _ _ (Some n)); [done|done|apply Hat; reflexivity]
  | |- unwrap_or _ (parse_u64_env _ _) = ?n =>
      rewrite (reread_u64 _ _ n); [done|done|apply Hat; reflexivity]
  | |- env_flag _ ?k || env_flag _ ?k' = ?b =>
      rewrite (reread_flag _ k (full_debug _)), (reread_flag _ k' b) by (apply Hat; reflexivity)
  | |- env_flag _ _ = _ => apply reread_flag, Hat; reflexivity
  | |- env_flag_with_default _ _ _ = _ =>
      first [unfold env_flag_with_default; rewrite Hno by reflexivity; reflexivity
            |apply reread_flag_default, Hat; reflexivity]
  | |- parse_secs _ _ _ = _ => apply reread_secs; [done|apply Hat; reflexivity]
  | |- parse_csv_env _ _ = _ => apply reread_csv; [done|apply Hat; reflexivity]
  | |- parse_csv_env_or _ _ _ = _ => apply reread_csv_or; [done|done|apply Hat; reflexivity]
  | |- env_or _ ?k _ = _ =>
      unfold env_or;
      first [rewrite Hno by reflexivity|rewrite (Hat k _ eq_refl eq_refl)]; reflexivity
  | |- parse_non_empty_env _ _ = None =>
      unfold parse_non_empty_env; rewrite Hno by reflexivity; reflexivity
  | |- parse_non_empty_env _ _ = _ => apply reread_text; [done|apply Hat; reflexivity]
  | |- parse_u16_env _ _ = _ => apply reread_u16; [done|apply Hat; reflexivity]
  end.

(** ** Properties *)

(** C39: Reading the configuration fails only for the agent, and exactly when
    the hub URL or else the cluster id is not set, with a message that names
    the first that is missing; the operator needs neither, and no malformed
    value makes it fail.  What is read is well formed: numbers are within their
    machine types, the hub URL has no trailing slash, texts and list entries
    are non-empty and trimmed, optional texts are at most 128 bytes long, the
    lists with defaults are not empty, and actions are enabled exactly when the
    action operator is. *)
Theorem from_env_exact `{YamlList} env mode :
  match from_env_for_mode env mode with
  | Err e => mode = Agent /\
      ((env !! "HUB_URL" = None /\ e = "HUB_URL not set") \/
       (is_Some (env !! "HUB_URL") /\ env !! "CLUSTER_ID" = None /\ e = "CLUSTER_ID not set"))
  | Ok cfg => config_wf cfg /\
      (mode = Operator \/
       (is_Some (env !! "HUB_URL") /\ env !! "CLUSTER_ID" = Some (cluster_id cfg)))
  end.
Proof.
  destruct (from_env_for_mode env mode) as [cfg|e] eqn:Hread.
  - split; [exact (from_env_wf _ _ _ Hread)|]. revert Hread.
    unfold from_env_for_mode, required_env. destruct mode; [|by left].
    destruct (env !! "HUB_URL") as [hub|], (env !! "CLUSTER_ID") as [c|]; simpl; try done.
    intros [= <-]. right. split; [by eexists|done].
  - revert Hread. unfold from_env_for_mode, required_env. destruct mode; [|done].
    destruct (env !! "HUB_URL") as [hub|], (env !! "CLUSTER_ID") as [c|]; simpl; try done;
      intros [= <-]; split; try done; [right|left|left]; auto; by split; [eexists|].
Qed.

(** C31: Starting the program in the environment that the environment report
    of the running agent describes gives back the reported part of its
    configuration: everything but what seven variables set, which the report
    never holds.  These are the API key, the password and the root certificate
    of the database probe, the name, namespace and node of the pod, and
    TETRAGON_REQUIRED_FOR_READINESS, and each is back at its default.  So the
    restarted configuration is the running one exactly when those seven had
    their defaults; with TETRAGON_REQUIRED_FOR_READINESS=false, say, it is not.
    Two agents that differ only there send the same report. *)
Theorem runtime_report_roundtrip `{YamlList} env mode cfg :
  yaml_list_law -> from_env_for_mode env mode = Ok cfg ->
  Forall name_like (action_operator_excluded_namespaces cfg) ->
  from_env_for_mode (env_of (agent_runtime_env cfg)) mode = Ok (reported_part cfg) /\
  agent_runtime_env (reported_part cfg) = agent_runtime_env cfg /\
  (forall key, In key unreported_keys -> env_of (agent_runtime_env cfg) !! key = None) /\
  (reported_part cfg = cfg <->
     api_key cfg = None /\ postgresql_monitoring_password cfg = None /\
     postgresql_monitoring_sslrootcert cfg = None /\
     tetragon_required_for_readiness cfg = true /\
     pod_name cfg = "unknown" /\ pod_namespace cfg = "default" /\
     agent_node_name cfg = "unknown-node").
Proof.
  intros Hlaw Hread Hn. split; [|split_and!; [|apply unreported_absent|apply reported_part_whole]].
  2:{ assert (Ht : runtime_env_table (reported_part cfg) = runtime_env_table cfg)
        by (unfold runtime_env_table, reported_part; reflexivity).
      unfold agent_runtime_env, runtime_env_value. by rewrite Ht. }
  pose proof (from_env_wf _ _ _ Hread) as Hwf.
  set (env' := env_of (agent_runtime_env cfg)).
  assert (Hreq : forall key v, env' !! key = Some v -> required_env env' mode key = Ok v).
  { intros key v Hk. unfold required_env, env_or. rewrite Hk. by destruct mode. }
  destruct Hwf as [Hurl _ Hact Hdbg [Hlog Hlogt] Hsecs Hports Htexts Hlists [Htg Hal]].
  rewrite !Forall_cons in Hsecs. rewrite !Forall_cons in Htexts. rewrite !Forall_cons in Hlists.
  destruct_and!.
  assert (Hat : forall key v, str_mem key AGENT_CONFIG_ENV_ALLOWLIST = true ->
    runtime_env_value cfg key = v -> env' !! key = v) by (intros; by apply runtime_report_at).
  assert (Hno : forall key, str_mem key AGENT_CONFIG_ENV_ALLOWLIST = false -> env' !! key = None)
    by (intros; by apply runtime_report_absent).
  unfold from_env_for_mode.
  rewrite (Hreq "HUB_URL" (hub_url cfg)), (Hreq "CLUSTER_ID" (cluster_id cfg))
    by (by apply Hat).
  unfold reported_part. rewrite Hact. f_equal. f_equal.
  all: try by reread Hat Hno.
  all: match goal with |- (_ || ?b)%bool = _ => idtac end; reread Hat Hno.
  all: destruct (full_debug cfg); [|done]; symmetry; by apply Hdbg.
Qed.

(** ** A concrete environment *)

Definition demo_yaml : YamlList :=
  {| yaml_list_parse := fun s => Some (str_split "," s);
     yaml_list_print := fun l => Some (join "," l) |}.

Lemma join_visible l : Forall name_like l -> str_all visible (join "," l) = true.
Proof.
  induction 1 as [|w l (_ & Hw & _) HF IH]; [done|].
  destruct l as [|v l]; [done|].
  change (join "," (w :: v :: l)) with (w +s+ "," +s+ join "," (v :: l)).
  by rewrite !str_all_app, Hw, IH.
Qed.

Lemma demo_yaml_law : @yaml_list_law demo_yaml.
Proof.
  intros l Hne Hl. exists (join "," l). split; [done|].
  assert (Ht : trim (trim_end (join "," l)) = join "," l).
  { assert (He : trim_end (join "," l) = join "," l).
    { pose proof (trim_visible _ (join_visible l Hl)) as Ht. unfold trim in Ht.
      unfold trim_start in Ht. rewrite trim_start_visible in Ht; [done|by repeat constructor|].
      by apply join_visible. }
    rewrite He. by apply trim_visible, join_visible. }
  rewrite Ht. split.
  - destruct Hl as [|w l (Hw & _) HF]; [done|]. by destruct w, l.
  - simpl. f_equal. apply str_split_join; [done|].
    eapply Forall_impl; [exact Hl|]. by intros w (_ & _ & ?).
Qed.

Definition demo_environment : environment :=
  list_to_map [("HUB_URL", "https://hub.example//"); ("CLUSTER_ID", "c-1");
    ("HUB_API_KEY", "shub_1"); ("POSTGRESQL_MONITORING_PASSWORD", "secret");
    ("ACTION_OPERATOR_ENABLED", "true"); ("ACTION_OPERATOR_EXCLUDED_NAMESPACES", "kube-*,shop");
    ("COLLECT_INTERVAL_SECS", "15"); ("POSTGRESQL_MONITORING_NAMESPACES", " a, b ,")].

Lemma runtime_report_roundtrip_witness :
  exists cfg, @from_env_for_mode demo_environment demo_yaml Agent = Ok cfg /\
    postgresql_monitoring_password cfg = Some "secret" /\
    @from_env_for_mode (env_of (@agent_runtime_env demo_yaml cfg)) demo_yaml Agent
      = Ok (reported_part cfg).
Proof.
  destruct (@from_env_for_mode demo_environment demo_yaml Agent) as [cfg|] eqn:Hr; [|discriminate Hr].
  exists cfg. split; [reflexivity|].
  assert (Hex : action_operator_excluded_namespaces cfg = ["kube-*"; "shop"] /\
                postgresql_monitoring_password cfg = Some "secret").
  { injection Hr as <-. split; vm_compute; reflexivity. }
  destruct Hex as [Hex Hpw]. split; [exact Hpw|].
  refine (proj1 (@runtime_report_roundtrip demo_yaml demo_environment Agent cfg demo_yaml_law Hr _)).
  rewrite Hex. repeat constructor; discriminate.
Defined.

(** The readiness rule does not survive the report. *)
Definition relaxed_environment : environment :=
  <["TETRAGON_REQUIRED_FOR_READINESS" := "false"]> demo_environment.

Example readiness_not_reported :
  match @from_env_for_mode relaxed_environment demo_yaml Agent with
  | Ok cfg => tetragon_required_for_readiness cfg = false /\
      match @from_env_for_mode (env_of (@agent_runtime_env demo_yaml cfg)) demo_yaml Agent with
      | Ok cfg' => tetragon_required_for_readiness cfg' = true
      | Err _ => False
      end
  | Err _ => False
  end.
Proof. vm_compute. split; reflexivity. Qed.
