(* ===== verification/Leader.v ===== *)
(** * Leader election and health (leader.rs, the collector loop of main.rs)

    The election loop asks the lease library for the lease and keeps the answer
    in a flag that the other tasks read; the gauge of health.rs follows the
    flag.  The library is outside the repository: the loop is a function of the
    answers it gives. *)
From S2P Require Import Prelude.
Local Open Scope Z_scope.

(** [LeaseLockResult], of which the code asks whether it is [Acquired]; an
    error is an answer too. *)
Inductive LeaseAnswer := Acquired | NotAcquired | LeaseError.

(** The flag of [LeaderState] and the gauge [health::IS_LEADER]. *)
Record LeaderState := { is_leader : bool; is_leader_gauge : Z }.
Definition leader_new : LeaderState := {| is_leader := false; is_leader_gauge := 0 |}.

Definition leader_set (value : bool) (st : LeaderState) : LeaderState :=
  {| is_leader := value;
     is_leader_gauge := if Bool.eqb (is_leader st) value then is_leader_gauge st
                        else if value then 1 else 0 |}.

Definition SECOND : Z := 1000000000.
Definition LEASE_RETRY_SECS : Z := 2.

(** [lease_ttl / 3], in nanoseconds. *)
Definition renew_interval (lease_ttl : Z) : Z := lease_ttl * SECOND / 3.

(** One turn of the loop of [run_leader_loop]: the new state and the length of
    the sleep. *)
Definition leader_turn (lease_ttl : Z) (st : LeaderState) (answer : LeaseAnswer)
    : LeaderState * Z :=
  match answer with
  | LeaseError => (st, LEASE_RETRY_SECS * SECOND)
  | Acquired => (leader_set true st, renew_interval lease_ttl)
  | NotAcquired => (leader_set false st, renew_interval lease_ttl)
  end.

(** The loop over a sequence of answers: the state, and the time slept. *)
Fixpoint leader_loop (lease_ttl : Z) (st : LeaderState) (slept : Z) (answers : list LeaseAnswer)
    : LeaderState * Z :=
  match answers with
  | [] => (st, slept)
  | a :: answers =>
      let '(st', pause) := leader_turn lease_ttl st a in
      leader_loop lease_ttl st' (slept + pause) answers
  end.

(** ** The collector loop

    A tick of [collector_loop] with the flag as it is then and the outcome that
    [build_and_send] would have: what is counted, and whether a snapshot is
    built. *)
Inductive TickOutcome := SkippedNotLeader | TickOk | TickError.
Definition collector_tick (leader : bool) (build_and_send : bool) : TickOutcome :=
  if negb leader then SkippedNotLeader else if build_and_send then TickOk else TickError.

(** ** Properties *)

(** The last answer of the library that is not an error. *)
Fixpoint last_answer (answers : list LeaseAnswer) : option LeaseAnswer :=
  match answers with
  | [] => None
  | a :: answers =>
      match last_answer answers with
      | Some b => Some b
      | None => match a with LeaseError => None | _ => Some a end
      end
  end.

Definition acquired (o : option LeaseAnswer) : bool :=
  match o with Some Acquired => true | _ => false end.

Definition gauge_of (b : bool) : Z := if b then 1 else 0.

Lemma leader_loop_flag ttl st slept answers :
  is_leader_gauge st = gauge_of (is_leader st) ->
  let st' := fst (leader_loop ttl st slept answers) in
  is_leader st' = match last_answer answers with
                  | Some a => acquired (Some a) | None => is_leader st end /\
  is_leader_gauge st' = gauge_of (is_leader st').
Proof.
  revert st slept. induction answers as [|a answers IH]; intros st slept Hg; [done|].
  cbn [leader_loop last_answer].
  destruct a; cbn [leader_turn].
  - destruct (IH (leader_set true st) (slept + renew_interval ttl)) as [H1 H2].
    { simpl. rewrite Hg. by destruct (is_leader st). }
    split; [|exact H2]. rewrite H1. by destruct (last_answer answers).
  - destruct (IH (leader_set false st) (slept + renew_interval ttl)) as [H1 H2].
    { simpl. rewrite Hg. by destruct (is_leader st). }
    split; [|exact H2]. rewrite H1. by destruct (last_answer answers).
  - destruct (IH st (slept + LEASE_RETRY_SECS * SECOND) Hg) as [H1 H2].
    split; [|exact H2]. rewrite H1. by destruct (last_answer answers).
Qed.

Lemma leader_loop_errors ttl st slept n :
  leader_loop ttl st slept (repeat LeaseError n) =
    (st, slept + Z.of_nat n * (LEASE_RETRY_SECS * SECOND)).
Proof.
  revert slept. induction n as [|n IH]; intros slept; [simpl; f_equal; lia|].
  cbn [repeat leader_loop leader_turn]. rewrite IH. f_equal.
  unfold LEASE_RETRY_SECS, SECOND. lia.
Qed.

(** The flag says what the lease library answered last, errors apart, and
    is down before the first answer; the gauge shows the flag.  An error never
    takes the flag down, so that a leader that can no longer reach the lease
    remains one however long that lasts, past the validity of the lease as
    well: [n] failed renewals keep it up over [2 * n] seconds. *)
Theorem leader_flag_exact ttl answers n :
  let st := fst (leader_loop ttl leader_new 0 answers) in
  is_leader st = acquired (last_answer answers) /\
  is_leader_gauge st = gauge_of (is_leader st) /\
  leader_loop ttl st 0 (repeat LeaseError n) = (st, Z.of_nat n * 2 * SECOND).
Proof.
  cbv zeta. destruct (leader_loop_flag ttl leader_new 0 answers eq_refl) as [H1 H2].
  split_and!; [|done|].
  - rewrite H1. by destruct (last_answer answers).
  - rewrite leader_loop_errors. f_equal. unfold LEASE_RETRY_SECS. lia.
Qed.

(** A snapshot is built on a tick exactly when the flag is up. *)
Lemma collector_tick_leader leader ok :
  collector_tick leader ok = SkippedNotLeader <-> leader = false.
Proof. by destruct leader, ok. Qed.
