(* ===== verification/Startup.v ===== *)
(** * Process start and log suppression (main.rs)

    The command line, the check for a second agent with the same cluster id,
    and the table that keeps repeated warnings out of the log. *)
From S2P Require Import Prelude RustStr Config Env.
Local Open Scope Z_scope.

(** ** The command line *)

(** The loop of [parse_runtime_mode]; [mode] is the value so far. *)
Fixpoint parse_args (mode : RuntimeMode) (args : list string) : result string RuntimeMode :=
  match args with
  | [] => Ok mode
  | arg :: args =>
      if String.eqb arg "--mode" then
        match args with
        | [] => Err "--mode requires a value: agent or operator"
        | value :: args =>
            match parse_mode value with Ok mode => parse_args mode args | Err e => Err e end
        end
      else match strip_prefix "--mode=" arg with
           | Some value =>
               match parse_mode value with Ok mode => parse_args mode args | Err e => Err e end
           | None => Err ("unknown argument: " +s+ arg)
           end
  end.
Definition parse_runtime_mode (args : list string) : result string RuntimeMode :=
  parse_args Agent args.

(** [package] is the version the crate was built as. *)
Definition reported_agent_version (package : string) (cfg : Config) : string :=
  unwrap_or package (agent_version_override cfg).

(** ** The duplicate check *)

Definition ACTIVE_CLUSTER_WARN_THRESHOLD_SECS : Z := 300.

Inductive DuplicateCheck := CheckFailed | NoLastSeen | InvalidLastSeen | Quiet | WarnDuplicate.

(** [startup_duplicate_cluster_check]: the hub's answer, and the age of its
    timestamp as [last_seen_age_seconds] gives it. *)
Definition duplicate_check (status : result string (option string))
    (last_seen_age_seconds : string -> option Z) : DuplicateCheck :=
  match status with
  | Err _ => CheckFailed
  | Ok None => NoLastSeen
  | Ok (Some last_seen_at) =>
      match last_seen_age_seconds last_seen_at with
      | None => InvalidLastSeen
      | Some age =>
          if (0 <=? age) && (age <? ACTIVE_CLUSTER_WARN_THRESHOLD_SECS)
          then WarnDuplicate else Quiet
      end
  end.

(** ** Suppression of repeated warnings *)

(** Instants are nanoseconds; the counter is a [u64] and wraps. *)
Record SuppressionState := { last_emitted_at : Z; suppressed_count : Z }.
Notation suppressions := (gmap string SuppressionState).

Definition SECS : Z := 1000000000.
Definition WARN_SUPPRESSION_WINDOW : Z := 60 * SECS.
Definition METRICS_WARN_SUPPRESSION_WINDOW : Z := 300 * SECS.

(** What is written to the log: the message, or the summary of what was left
    out before it. *)
Inductive LogLine := Warn (message : string) | SuppressedSimilar (count : Z).

(** The body that [warn_with_suppression], [warn_metrics_status_change] and
    [warn_snapshot_api_status_change] share. *)
Definition suppress (window : Z) (key message : string) (now : Z) (m : suppressions)
    : list LogLine * suppressions :=
  match m !! key with
  | None => ([Warn message], <[key := {| last_emitted_at := now; suppressed_count := 0 |}]> m)
  | Some st =>
      if window <=? sat_sub now (last_emitted_at st) then
        ((if 0 <? suppressed_count st then [SuppressedSimilar (suppressed_count st)] else [])
           ++ [Warn message],
         <[key := {| last_emitted_at := now; suppressed_count := 0 |}]> m)
      else ([], <[key := {| last_emitted_at := last_emitted_at st;
                           suppressed_count := (suppressed_count st + 1) mod (u64_max + 1) |}]> m)
  end.

Definition warn_with_suppression (key message : string) (now : Z) (m : suppressions)
    : list LogLine * suppressions :=
  suppress WARN_SUPPRESSION_WINDOW key message now m.

(** model.rs. *)
Record MetricsStatus := {
  ms_state : string; ms_reason : option string; ms_source : string; pod_metrics_count : Z;
  ms_last_attempt_at_ms : Z }.
Record SnapshotApiStatus := {
  ss_state : string; ss_reason : option string; ss_source : string;
  volumesnapshotclasses_count : Z; volumesnapshots_count : Z; ss_last_attempt_at_ms : Z }.

Definition reason_text (reason : option string) : string :=
  match reason with Some r => " reason=" +s+ r | None => "" end.

Definition warn_metrics_status_change (status : MetricsStatus) (now : Z) (m : suppressions)
    : list LogLine * suppressions :=
  if String.eqb (ms_state status) "ok" then ([], m) else
  suppress METRICS_WARN_SUPPRESSION_WINDOW "metrics_status"
    ("pod-metrics unavailable: state=" +s+ ms_state status +s+ reason_text (ms_reason status)
     +s+ " source=" +s+ ms_source status +s+ " pod_metrics_count="
     +s+ nat_to_string (pod_metrics_count status)) now m.

Definition warn_snapshot_api_status_change (status : SnapshotApiStatus) (now : Z)
    (m : suppressions) : list LogLine * suppressions :=
  if String.eqb (ss_state status) "ok" then ([], m) else
  suppress METRICS_WARN_SUPPRESSION_WINDOW "snapshot_api_status"
    ("snapshot API unavailable: state=" +s+ ss_state status +s+ reason_text (ss_reason status)
     +s+ " source=" +s+ ss_source status +s+ " classes="
     +s+ nat_to_string (volumesnapshotclasses_count status) +s+ " snapshots="
     +s+ nat_to_string (volumesnapshots_count status)) now m.

(** ** The calls of one key

    A key is used with one window.  The table restricted to a key is a function
    of the calls with that key, so the calls below all have it. *)

(** Serve the calls of a key, given as message and instant; the log with the
    instants of the lines. *)
Fixpoint serve (window : Z) (key : string) (calls : list (string * Z)) (m : suppressions)
    : list (Z * LogLine) * suppressions :=
  match calls with
  | [] => ([], m)
  | (message, now) :: calls =>
      let '(lines, m') := suppress window key message now m in
      let '(log, m'') := serve window key calls m' in
      (map (fun l => (now, l)) lines ++ log, m'')
  end.

(** The instants at which a message of the key was written. *)
Definition emissions (log : list (Z * LogLine)) : list Z :=
  omap (fun p => match snd p with Warn _ => Some (fst p) | _ => None end) log.

(** Consecutive members are at least [d] apart. *)
Fixpoint spaced (d : Z) (l : list Z) : Prop :=
  match l with
  | x :: (y :: _) as l' => x + d <= y /\ spaced d l'
  | _ => True
  end.

(** The calls that the summaries of a log account for. *)
Definition summarised (log : list (Z * LogLine)) : Z :=
  fold_right (fun p n => match snd p with SuppressedSimilar c => c + n | _ => n end) 0 log.

Definition pending (key : string) (m : suppressions) : Z :=
  match m !! key with Some st => suppressed_count st | None => 0 end.

Definition last_emission (key : string) (m : suppressions) : list Z :=
  match m !! key with Some st => [last_emitted_at st] | None => [] end.

Lemma suppress_other window key key' message now m :
  key <> key' -> snd (suppress window key message now m) !! key' = m !! key'.
Proof.
  intros Hne. unfold suppress. repeat case_match; simpl; by rewrite lookup_insert_ne.
Qed.

Lemma emissions_app l1 l2 : emissions (l1 ++ l2) = emissions l1 ++ emissions l2.
Proof. unfold emissions. by rewrite omap_app. Qed.
Lemma summarised_app l1 l2 : summarised (l1 ++ l2) = summarised l1 + summarised l2.
Proof.
  unfold summarised. induction l1 as [|[t [|c]] l1 IH]; simpl; [done|done|]. rewrite IH. lia.
Qed.

Section rate.
Context (window : Z) (key : string) (Hw : 0 < window).

Lemma serve_spaced calls m :
  spaced window (last_emission key m ++ emissions (fst (serve window key calls m))).
Proof using Hw.
  revert m. induction calls as [|[message now] calls IH]; intros m.
  { simpl. rewrite app_nil_r. unfold last_emission. by destruct (m !! key). }
  cbn [serve]. destruct (suppress window key message now m) as [lines m'] eqn:Hs.
  specialize (IH m'). destruct (serve window key calls m') as [log m''] eqn:Hserve.
  simpl in *. rewrite emissions_app. revert Hs IH. unfold suppress, last_emission.
  destruct (m !! key) as [st|] eqn:Hm.
  - destruct (window <=? sat_sub now (last_emitted_at st)) eqn:Hd; intros [= <- <-];
      rewrite lookup_insert_eq; simpl.
    + apply Z.leb_le in Hd. unfold sat_sub in Hd. intros Hsp.
      destruct (0 <? suppressed_count st); simpl; (split; [lia|exact Hsp]).
    + done.
  - intros [= <- <-]. rewrite lookup_insert_eq. done.
Qed.

Lemma pending_insert st m : pending key (<[key := st]> m) = suppressed_count st.
Proof using Type. unfold pending. by rewrite lookup_insert_eq. Qed.
Lemma pending_lookup m :
  pending key m = match m !! key with Some st => suppressed_count st | None => 0 end.
Proof using Type. done. Qed.

(** Every call is written, summarised or still counted. *)
Lemma serve_counted calls m :
  0 <= pending key m -> pending key m + Z.of_nat (length calls) <= u64_max ->
  let '(log, m') := serve window key calls m in
  Z.of_nat (length calls) + pending key m =
    Z.of_nat (length (emissions log)) + summarised log + pending key m'.
Proof using Type.
  revert m. induction calls as [|[message now] calls IH]; intros m H0 Hmax; [simpl; lia|].
  cbn [serve]. destruct (suppress window key message now m) as [lines m'] eqn:Hs.
  specialize (IH m'). destruct (serve window key calls m') as [log m''] eqn:Hserve.
  rewrite emissions_app, summarised_app, length_app. cbn [length] in *.
  revert Hs IH H0 Hmax. unfold suppress. rewrite (pending_lookup m).
  destruct (m !! key) as [st|] eqn:Hm.
  - destruct (window <=? sat_sub now (last_emitted_at st)) eqn:Hd; intros [= <- <-];
      rewrite pending_insert; cbn [suppressed_count].
    + intros IH H0 Hmax. specialize (IH ltac:(lia) ltac:(lia)).
      destruct (0 <? suppressed_count st) eqn:Hc; cbn; [lia|].
      apply Z.ltb_ge in Hc. lia.
    + intros IH H0 Hmax. rewrite Z.mod_small in IH by lia. specialize (IH ltac:(lia) ltac:(lia)). cbn. lia.
  - intros [= <- <-]. rewrite pending_insert. cbn [suppressed_count].
    intros IH H0 Hmax. specialize (IH ltac:(lia) ltac:(lia)). cbn. lia.
Qed.
End rate.

Lemma serve_other window key key' calls m :
  key <> key' -> snd (serve window key calls m) !! key' = m !! key'.
Proof.
  intros Hne. revert m. induction calls as [|[message now] calls IH]; intros m; [done|].
  cbn [serve]. pose proof (suppress_other window key key' message now m Hne) as Hs.
  destruct (suppress window key message now m) as [lines m'].
  specialize (IH m'). destruct (serve window key calls m') as [log m'']. simpl in *.
  by rewrite IH.
Qed.

(** The texts that [parse_runtime_mode] accepts, with the modes they name. *)
Inductive mode_args : list string -> list RuntimeMode -> Prop :=
  | ArgsNil : mode_args [] []
  | ArgsSeparate m args ms :
      mode_args args ms -> mode_args ("--mode" :: mode_as_str m :: args) (m :: ms)
  | ArgsJoined m args ms :
      mode_args args ms -> mode_args (("--mode=" +s+ mode_as_str m) :: args) (m :: ms).

Lemma parse_mode_spec value m : parse_mode value = Ok m <-> value = mode_as_str m.
Proof.
  split; [|by intros ->; destruct m].
  unfold parse_mode.
  repeat match goal with
  | |- (match ?x with _ => _ end) = _ -> _ => destruct x; try discriminate
  end; by intros [= <-].
Qed.

Lemma parse_args_ok args mode ms :
  mode_args args ms -> parse_args mode args = Ok (List.last ms mode).
Proof.
  intros Hargs. revert mode.
  assert (Hlast : forall (m mode : RuntimeMode) l, List.last (m :: l) mode = List.last l m).
  { intros m mode l. revert m mode. induction l as [|x l IH]; intros m mode; [done|].
    change (List.last (m :: x :: l) mode) with (List.last (x :: l) mode).
    by rewrite (IH x mode), (IH x m). }
  induction Hargs as [|m args ms _ IH|m args ms _ IH]; intros mode; [done| |].
  - cbn [parse_args]. rewrite String.eqb_refl, (proj2 (parse_mode_spec _ m)) by done.
    by rewrite IH, Hlast.
  - cbn [parse_args].
    replace (String.eqb ("--mode=" +s+ mode_as_str m) "--mode") with false by (by destruct m).
    rewrite strip_prefix_app, (proj2 (parse_mode_spec _ m)) by done. by rewrite IH, Hlast.
Qed.

Lemma parse_args_inv args mode m :
  parse_args mode args = Ok m -> exists ms, mode_args args ms /\ m = List.last ms mode.
Proof.
  assert (Hex : forall n args mode, (length args <= n)%nat -> parse_args mode args = Ok m ->
    exists ms, mode_args args ms).
  { clear args mode. induction n as [|n IH]; intros [|arg args] mode Hn; simpl in Hn; try lia;
      try by (intros _; exists []; constructor).
    cbn [parse_args]. destruct (String.eqb_spec arg "--mode") as [->|_].
    - destruct args as [|value args]; [done|]. destruct (parse_mode value) as [v|] eqn:Hv; [|done].
      intros Hp. apply parse_mode_spec in Hv as ->.
      destruct (IH args v ltac:(simpl in Hn; lia) Hp) as [ms ?]. exists (v :: ms). by constructor.
    - destruct (strip_prefix "--mode=" arg) as [value|] eqn:Hs; [|done].
      apply strip_prefix_some in Hs as ->.
      destruct (parse_mode value) as [v|] eqn:Hv; [|done].
      intros Hp. apply parse_mode_spec in Hv as ->.
      destruct (IH args v ltac:(lia) Hp) as [ms ?]. exists (v :: ms). by constructor. }
  intros Hp. destruct (Hex (length args) args mode ltac:(done) Hp) as [ms Hms].
  exists ms. split; [done|]. rewrite (parse_args_ok _ mode _ Hms) in Hp. by injection Hp.
Qed.

(** A change of state within the window is not logged: the key is the same for
    every state. *)
Lemma metrics_state_change_suppressed st now status m :
  m !! "metrics_status" = Some st ->
  sat_sub now (last_emitted_at st) < METRICS_WARN_SUPPRESSION_WINDOW ->
  fst (warn_metrics_status_change status now m) = [].
Proof.
  intros Hm Hn. unfold warn_metrics_status_change, suppress.
  destruct (ms_state status =? "ok")%string; [done|]. rewrite Hm.
  by apply Z.leb_gt in Hn as ->.
Qed.

(** ** Properties *)

(** The command line is accepted exactly when it is a sequence of
    "--mode m" and "--mode=m" with m one of "agent" and "operator"; the last
    one counts, and the agent is the default. *)
Theorem parse_runtime_mode_exact args m :
  parse_runtime_mode args = Ok m <-> exists ms, mode_args args ms /\ m = List.last ms Agent.
Proof.
  split; [apply parse_args_inv|]. intros (ms & Hms & ->). by apply parse_args_ok.
Qed.

(** ** The calls of the program

    All warnings that go through the table, in the order in which the lock is
    taken, each with its instant. *)
Inductive warning :=
  | Warning (key message : string)
  | MetricsWarning (status : MetricsStatus)
  | SnapshotApiWarning (status : SnapshotApiStatus).
Definition warned (w : warning) (now : Z) (m : suppressions) : list LogLine * suppressions :=
  match w with
  | Warning key message => warn_with_suppression key message now m
  | MetricsWarning status => warn_metrics_status_change status now m
  | SnapshotApiWarning status => warn_snapshot_api_status_change status now m
  end.
(** The log, with the call and the instant of each line. *)
Fixpoint warn_all (calls : list (warning * Z)) (m : suppressions)
    : list (warning * (Z * LogLine)) * suppressions :=
  match calls with
  | [] => ([], m)
  | (w, now) :: calls =>
      let '(lines, m') := warned w now m in
      let '(log, m'') := warn_all calls m' in
      (map (fun l => (w, (now, l))) lines ++ log, m'')
  end.

(** What a call is about: its key, or for an API that is not ok, one of two. *)
Definition about (w : warning) : option string :=
  match w with
  | Warning key _ => Some key
  | MetricsWarning status => if decide (ms_state status = "ok") then None else Some "metrics_status"
  | SnapshotApiWarning status => if decide (ss_state status = "ok") then None else Some "snapshot_api_status"
  end.
Definition STATUS_KEYS : list string := ["metrics_status"; "snapshot_api_status"].
Definition window_of (key : string) : Z :=
  if decide (In key STATUS_KEYS) then 300 * SECS else 60 * SECS.
(** The other warnings have keys of their own. *)
Definition ordinary (w : warning) : Prop :=
  match w with Warning key _ => ~ In key STATUS_KEYS | _ => True end.
(** What a written message says. *)
Definition says (w : warning) (text : string) : Prop :=
  match w with
  | Warning _ message => text = message
  | MetricsWarning status => occurs ("state=" +s+ ms_state status) text
  | SnapshotApiWarning status => occurs ("state=" +s+ ss_state status) text
  end.

Definition about_key {A} (key : string) (l : list (warning * A)) : list (warning * A) :=
  List.filter (fun p => bool_decide (about (fst p) = Some key)) l.

(** A call is [suppress] with its key and a text that says what it is about. *)
Lemma warned_suppress w now m :
  ordinary w ->
  match about w with
  | Some key => exists text, says w text /\ warned w now m = suppress (window_of key) key text now m
  | None => warned w now m = ([], m)
  end.
Proof.
  destruct w as [key message|status|status]; cbn [ordinary about warned says].
  - intros Hk. exists message. unfold window_of. by rewrite decide_False.
  - intros _. unfold warn_metrics_status_change. destruct (String.eqb_spec (ms_state status) "ok") as [He|He].
    { by rewrite decide_True. }
    rewrite decide_False by done. eexists. split; [|reflexivity].
    exists "pod-metrics unavailable: ". eexists. by rewrite !append_assoc.
  - intros _. unfold warn_snapshot_api_status_change.
    destruct (String.eqb_spec (ss_state status) "ok") as [He|He]; [by rewrite decide_True|].
    rewrite decide_False by done. eexists. split; [|reflexivity].
    exists "snapshot API unavailable: ". eexists. by rewrite !append_assoc.
Qed.

(** [suppress] looks at the entry of its key alone. *)
Lemma suppress_entry window key text now m m0 :
  m !! key = m0 !! key ->
  fst (suppress window key text now m) = fst (suppress window key text now m0) /\
  snd (suppress window key text now m) !! key = snd (suppress window key text now m0) !! key.
Proof.
  intros Hm. unfold suppress. rewrite Hm. destruct (m0 !! key); [case_match|]; cbn [fst snd];
    by rewrite !lookup_insert_eq.
Qed.

Lemma filter_mapped {A B} (p : A -> bool) (f : B -> A) l :
  List.filter p (map f l) = map f (List.filter (fun x => p (f x)) l).
Proof. induction l as [|x l IH]; [done|]. simpl. rewrite IH. by destruct (p (f x)). Qed.

(** Of one key, the program's calls are those of [serve]. *)
Lemma warn_all_serve key calls m m0 :
  Forall ordinary (map fst calls) -> m !! key = m0 !! key ->
  exists served : list (string * Z), length served = length (about_key key calls) /\
    map snd (about_key key (fst (warn_all calls m))) = fst (serve (window_of key) key served m0) /\
    snd (warn_all calls m) !! key = snd (serve (window_of key) key served m0) !! key.
Proof.
  revert m m0. induction calls as [|[w now] calls IH]; intros m m0 Hall Hm; [by exists []|].
  cbn [map] in Hall. apply Forall_cons in Hall as [Hw Hall]. pose proof (warned_suppress w now m Hw) as Hs.
  cbn [warn_all]. unfold about_key at 1. cbn [List.filter fst].
  destruct (decide (about w = Some key)) as [Ha|Ha].
  - rewrite Ha in Hs. destruct Hs as (text & _ & Hs). rewrite Hs.
    destruct (suppress_entry (window_of key) key text now m m0 Hm) as [Hf Hsnd].
    destruct (suppress _ _ _ _ m) as [lines m'], (suppress _ _ _ _ m0) as [lines0 m0'] eqn:Hs0.
    cbn [fst snd] in Hf, Hsnd. subst lines0. destruct (IH m' m0' Hall Hsnd) as (served & Hl & Hlog & Hend).
    exists ((text, now) :: served). rewrite bool_decide_eq_true_2 by done. cbn [length serve]. rewrite Hs0.
    destruct (warn_all calls m') as [log m''], (serve _ _ served m0') as [log0 m0'']. cbn [fst snd] in *.
    split; [by rewrite Hl|]. split; [|done]. rewrite <- Hlog. unfold about_key.
    rewrite List.filter_app, filter_mapped, map_app, map_map. f_equal.
    cbn [fst snd]. rewrite bool_decide_eq_true_2 by done.
    clear. induction lines as [|l lines IH]; [done|]. simpl. by f_equal.
  - rewrite bool_decide_eq_false_2 by done.
    assert (Hkeep : snd (warned w now m) !! key = m !! key /\
      about_key key (map (fun l => (w, (now, l))) (fst (warned w now m))) = []).
    { split.
      - destruct (about w) as [key'|]; [|by rewrite Hs]. destruct Hs as (text & _ & ->).
        apply suppress_other. congruence.
      - unfold about_key. rewrite filter_mapped. cbn [fst].
        rewrite bool_decide_eq_false_2 by done. by induction (fst (warned w now m)). }
    destruct (warned w now m) as [lines m']. cbn [fst snd] in Hkeep. destruct Hkeep as [Hk Hnone].
    destruct (IH m' m0 Hall (eq_trans Hk Hm)) as (served & Hl & Hlog & Hend).
    exists served. destruct (warn_all calls m') as [log m'']. cbn [fst snd] in *. split; [done|]. split; [|done].
    rewrite <- Hlog. unfold about_key in *. by rewrite List.filter_app, Hnone.
Qed.

(** Every message that is written is that of a call. *)
Lemma warn_all_says calls m :
  Forall ordinary (map fst calls) ->
  Forall (fun p => (exists now, In (fst p, now) calls) /\
    match snd (snd p) with Warn text => says (fst p) text | _ => True end) (fst (warn_all calls m)).
Proof.
  revert m. induction calls as [|[w now] calls IH]; intros m Hall; [constructor|].
  cbn [map] in Hall. apply Forall_cons in Hall as [Hw Hall]. pose proof (warned_suppress w now m Hw) as Hs.
  cbn [warn_all].
  assert (Hl : Forall (fun l => match l with Warn text => says w text | _ => True end) (fst (warned w now m))).
  { destruct (about w); [|by rewrite Hs]. destruct Hs as (text & Hsay & ->). unfold suppress.
    destruct (m !! _); [|by repeat constructor]. case_match; [|constructor].
    apply Forall_app. split; [|by repeat constructor]. case_match; by repeat constructor. }
  destruct (warned w now m) as [lines m']. specialize (IH m' Hall). destruct (warn_all calls m') as [log m''].
  cbn [fst snd] in *. apply Forall_app. split.
  - apply Forall_fmap. eapply Forall_impl; [exact Hl|]. intros l H. split; [by exists now; left|exact H].
  - eapply Forall_impl; [exact IH|]. intros p [(t & Ht) ?]. split; [|done]. exists t. by right.
Qed.

(** C34: the warnings of the program are rate limited and none is lost from
    sight, in any sequence of calls of [warn_with_suppression] and of the two
    reports of API states: of one key (one of the two APIs, or the key that is
    given), the messages that are written are at least 60 seconds apart, 300 for
    the APIs, also from the last one before; every call that is not about an
    API in the state ok has its message written, is counted in a summary that
    was written, or is still counted in the table, as long as the counter does
    not overflow; a key of which there was no call keeps its entry; and a
    message that is written is that of a call, with the state.  For an API, that
    holds whatever its states are: a change of state is suppressed like a
    repetition, against the comment in main.rs. *)
Theorem suppression_bounded calls m key :
  Forall ordinary (map fst calls) ->
  let n := Z.of_nat (length (about_key key calls)) in
  0 <= pending key m -> pending key m + n <= u64_max ->
  let '(log, m') := warn_all calls m in
  let lines := map snd (about_key key log) in
  spaced (window_of key) (last_emission key m ++ emissions lines) /\
  n + pending key m = Z.of_nat (length (emissions lines)) + summarised lines + pending key m' /\
  (n = 0 -> m' !! key = m !! key) /\
  Forall (fun p => (exists now, In (fst p, now) calls) /\
    match snd (snd p) with Warn text => says (fst p) text | _ => True end) log.
Proof.
  intros Hord n H0 Hmax. destruct (warn_all_serve key calls m m Hord eq_refl) as (served & Hl & Hlog & Hend).
  assert (Hw : 0 < window_of key) by (unfold window_of, SECS; case_decide; lia).
  pose proof (serve_spaced (window_of key) key Hw served m) as Hsp.
  pose proof (serve_counted (window_of key) key served m H0) as Hc. rewrite Hl in Hc. specialize (Hc Hmax).
  pose proof (warn_all_says calls m Hord) as Hsays.
  destruct (warn_all calls m) as [log m'], (serve (window_of key) key served m) as [log0 m0] eqn:Hs.
  cbn [fst snd] in *. rewrite Hlog.
  assert (Hp : pending key m' = pending key m0) by (unfold pending; by rewrite Hend). rewrite Hp, Hend.
  split_and!; [done|exact Hc| |done]. intros Hn. fold n in Hl. destruct served; [|cbn in Hl; lia].
  cbn in Hs. by injection Hs as _ <-.
Qed.

Definition demo_warnings : list (warning * Z) :=
  let missing state := {| ms_state := state; ms_reason := None; ms_source := "metrics.k8s.io/v1";
    pod_metrics_count := 0; ms_last_attempt_at_ms := 0 |} in
  [(Warning "k" "down", 0); (MetricsWarning (missing "missing"), 10 * SECS); (Warning "k" "down", 20 * SECS);
   (Warning "k" "slow", 30 * SECS); (MetricsWarning (missing "forbidden"), 40 * SECS);
   (MetricsWarning (missing "ok"), 50 * SECS); (Warning "k" "down", 75 * SECS)].

Lemma suppression_bounded_witness :
  let '(log, m') := warn_all demo_warnings ∅ in
  let lines key := map snd (about_key key log) in
  emissions (lines "k") = [0; 75 * SECS] /\ emissions (lines "metrics_status") = [10 * SECS] /\
  4 = Z.of_nat (length (emissions (lines "k"))) + summarised (lines "k") + pending "k" m' /\
  2 = Z.of_nat (length (emissions (lines "metrics_status"))) + summarised (lines "metrics_status")
        + pending "metrics_status" m'.
Proof.
  assert (Hord : Forall ordinary (map fst demo_warnings)).
  { repeat constructor; intros [H|[H|[]]]; discriminate H. }
  pose proof (suppression_bounded demo_warnings ∅ "k" Hord ltac:(z_compute) ltac:(z_compute)) as H1.
  pose proof (suppression_bounded demo_warnings ∅ "metrics_status" Hord ltac:(z_compute) ltac:(z_compute)) as H2.
  assert (Hk : emissions (map snd (about_key "k" (fst (warn_all demo_warnings ∅)))) = [0; 75 * SECS] /\
    emissions (map snd (about_key "metrics_status" (fst (warn_all demo_warnings ∅)))) = [10 * SECS])
    by (vm_compute; auto).
  destruct (warn_all demo_warnings ∅) as [log m']. cbn [fst] in Hk.
  destruct H1 as (_ & H1 & _), H2 as (_ & H2 & _), Hk as [Hk1 Hk2].
  split; [exact Hk1|]. split; [exact Hk2|]. split; [exact H1|exact H2].
Defined.
