(* ===== verification/Hub.v ===== *)
(** * The hub client (hub.rs)

    The routes of the hub and the four calls of the client as programs over
    HTTP requests, sleeps and the counters of health.rs.  reqwest is the
    environment: a request is answered by a response or by a transport error.
    Response texts are sequences of code points, since the client measures them
    in [chars]. *)
From S2P Require Import Prelude RustStr Text Effects Model Config Env.
Local Open Scope Z_scope.

(** ** Routes *)

Record HubRoutes := { legacy_base : string; api_base : string; prefer_api : bool }.

Definition hub_routes_new (cfg : Config) : HubRoutes :=
  if ends_with "/api" (hub_url cfg)
  then {| legacy_base := trim_end_matches "/api" (hub_url cfg);
          api_base := hub_url cfg; prefer_api := true |}
  else {| legacy_base := hub_url cfg;
          api_base := hub_url cfg +s+ "/api"; prefer_api := false |}.

Fixpoint dedupe_loop (urls out : list string) : list string :=
  match urls with
  | [] => out
  | url :: urls =>
      dedupe_loop urls (if forallb (fun u => negb (String.eqb u url)) out then out ++ [url] else out)
  end.
Definition dedupe_urls (urls : list string) : list string := dedupe_loop urls [].

Definition ordered (r : HubRoutes) (legacy api : string) : list string :=
  if prefer_api r then dedupe_urls [api; legacy] else dedupe_urls [legacy; api].

Definition inventory_urls (r : HubRoutes) (cluster : string) : list string :=
  ordered r (legacy_base r +s+ "/v1/clusters/" +s+ cluster +s+ "/inventory")
    (api_base r +s+ "/v1/agent/ingest").
Definition poll_url (base cluster : string) (wait : Z) : string :=
  base +s+ "/v1/clusters/" +s+ cluster +s+ "/commands/poll?wait=" +s+ nat_to_string wait +s+ "s".
Definition poll_urls (r : HubRoutes) (cluster : string) (wait : Z) : list string :=
  ordered r (poll_url (legacy_base r) cluster wait) (poll_url (api_base r) cluster wait).
Definition cluster_status_urls (r : HubRoutes) (cluster : string) : list string :=
  ordered r (legacy_base r +s+ "/v1/clusters/" +s+ cluster)
    (api_base r +s+ "/v1/clusters/" +s+ cluster).
Definition ack_url (base cluster command : string) : string :=
  base +s+ "/v1/clusters/" +s+ cluster +s+ "/commands/" +s+ command +s+ "/ack".
Definition ack_urls (r : HubRoutes) (cluster command : string) : list string :=
  ordered r (ack_url (legacy_base r) cluster command) (ack_url (api_base r) cluster command).

(** ** The client *)

Record HubClient := { hc_cfg : Config; hc_routes : HubRoutes }.
Inductive KeyWarning := UnexpectedPrefix | Unauthenticated.

(** [HubClient::new], with what is logged about the key; [built] is the answer
    of the HTTP client's builder for a timeout in seconds. *)
Definition hub_client_new (built : Z -> result string unit) (cfg : Config)
    : list KeyWarning * result string HubClient :=
  let warned :=
    match api_key cfg with
    | Some key => if starts_with "shub_" key then [] else [UnexpectedPrefix]
    | None => [Unauthenticated]
    end in
  (warned,
   match built (http_timeout cfg) with
   | Ok _ => Ok {| hc_cfg := cfg; hc_routes := hub_routes_new cfg |}
   | Err e => Err e
   end).

(** The Authorization header that [auth] adds to a request. *)
Definition auth_header (c : HubClient) : option string :=
  (fun key => "Bearer " +s+ key) <$> api_key (hc_cfg c).

(** ** Texts in logs and errors *)

(** A [str] as the sequence of its [chars]. *)
Notation text := (list Z).

Definition MAX_PREVIEW_CHARS : nat := 200.

(** [char::is_control] and [char::is_whitespace]. *)
Definition is_control (c : Z) : bool :=
  ((0 <=? c) && (c <=? 31)) || ((127 <=? c) && (c <=? 159)).
Definition is_whitespace (c : Z) : bool :=
  ((9 <=? c) && (c <=? 13)) || ((8192 <=? c) && (c <=? 8202))
  || existsb (Z.eqb c) [32; 133; 160; 5760; 8232; 8233; 8239; 8287; 12288].

Definition trim_text (t : text) : text :=
  rev (skip_while is_whitespace (rev (skip_while is_whitespace t))).

Definition sanitize_for_log (input : text) : text :=
  map (fun c => if is_control c then 32 else c) input.

Definition dots : text := [46; 46; 46].

Definition body_preview (body : text) : text :=
  let trimmed := trim_text (sanitize_for_log body) in
  take MAX_PREVIEW_CHARS trimmed
    ++ (if (MAX_PREVIEW_CHARS <? length trimmed)%nat then dots else []).

Definition body_full (body : text) : text := trim_text (sanitize_for_log body).

(** An ASCII literal. *)
Fixpoint ascii_text (s : string) : text :=
  match s with
  | EmptyString => []
  | String a s => Z.of_nat (Ascii.nat_of_ascii a) :: ascii_text s
  end.

Definition body_for_log (body : option text) (full_debug : bool) : text :=
  match body with
  | Some b => if full_debug then body_full b else body_preview b
  | None => ascii_text "<disabled>"
  end.

(** [error_body_for_log] and [error_body_for_log_opt], which are the same. *)
Definition error_body_for_log (body : option text) (full_debug bodies_enabled : bool) : text :=
  if negb bodies_enabled then ascii_text "<body logging disabled>" else body_for_log body full_debug.

(** ** Requests *)

Record Response := { http_status : Z; content_type : string; body_read : option text }.
Inductive TransportError := Timeout | OtherTransport (display : string).

(** The body that [r.text().await.unwrap_or_default()] gives. *)
Definition response_text (r : Response) : text := unwrap_or [] (body_read r).

Inductive counter :=
  | SNAPSHOT_SEND_SUCCESS | SNAPSHOT_SEND_FAILURE
  | COMMAND_POLL_SUCCESS | COMMAND_POLL_EMPTY | COMMAND_POLL_FAILURE
  | COMMAND_ACK_SUCCESS | COMMAND_ACK_FAILURE.
Global Instance counter_eq_dec : EqDecision counter.
Proof. solve_decision. Defined.

(** [Post] sends a JSON body, the same one for all requests of a call. *)
Inductive hop :=
  | Post (url : string)
  | GetUrl (url : string) (timeout_secs : Z)
  | HubSleep (secs : Z)
  | Count (c : counter).

Definition hresp (o : hop) : Type :=
  match o with
  | Post _ | GetUrl _ _ => result TransportError Response
  | HubSleep _ | Count _ => unit
  end.
Notation hprog := (prog hresp).
Notation hevent := (event hresp).

(** serde_json on the bodies of responses. *)
Class HubCodec := {
  decode_created : text -> result string bool;
  decode_batch : text -> result string (list Command);
  ClusterStatus : Type;
  cluster_status_default : ClusterStatus;
  decode_status : text -> result string ClusterStatus }.

Inductive HubError :=
  | DecodeError (e : string) (status : Z) (content : string) (shown : text)
  | StatusError (status : Z) (content : string) (shown : text)
  | AttemptStatus (attempt : nat) (status : Z)
  | AttemptError (attempt : nat) (e : TransportError)
  | Transport (e : TransportError)
  | Exhausted.

Definition is_success (s : Z) : bool := (200 <=? s) && (s <=? 299).
Definition is_client_error (s : Z) : bool := (400 <=? s) && (s <=? 499).
Definition NO_CONTENT : Z := 204.
Definition NOT_FOUND : Z := 404.
Definition REQUEST_TIMEOUT : Z := 408.
Definition TOO_MANY_REQUESTS : Z := 429.

(** [body.filter(|v| !v.trim().is_empty())]. *)
Definition blank (t : text) : bool := is_empty (trim_text t).
Definition nonblank (o : option text) : option text :=
  match o with Some b => if blank b then None else Some b | None => None end.

Section client.
Context `{HubCodec} (cfg : Config).

Let shown (body : option text) : text :=
  error_body_for_log body (full_debug cfg) (http_debug_bodies cfg).

(** *** send_snapshot *)

(** How one pass over the URLs ends. *)
Inductive pass := Return (r : result HubError unit) | Continue (last_err : option HubError).

(** The inner loop of [send_snapshot] at attempt [i]. *)
Fixpoint send_urls (i : nat) (urls : list string) (last_err : option HubError) : hprog pass :=
  match urls with
  | [] => mret (Continue last_err)
  | url :: urls =>
      sent ← call (Post url);
      match sent with
      | Ok r =>
          let s := http_status r in
          let body_text := if is_success s || http_debug_bodies cfg
                           then Some (response_text r) else None in
          if is_success s then
            match nonblank body_text with
            | Some b =>
                match decode_created b with
                | Err e => mret (Return (Err (DecodeError e s (content_type r) (shown (Some b)))))
                | Ok _already_existed =>
                    _ ← call (Count SNAPSHOT_SEND_SUCCESS); mret (Return (Ok tt))
                end
            | None => _ ← call (Count SNAPSHOT_SEND_SUCCESS); mret (Return (Ok tt))
            end
          else if (s =? NOT_FOUND) && negb (is_empty urls) then send_urls i urls last_err
          else if is_client_error s && negb (s =? REQUEST_TIMEOUT) && negb (s =? TOO_MANY_REQUESTS)
          then _ ← call (Count SNAPSHOT_SEND_FAILURE);
               mret (Return (Err (StatusError s (content_type r) (shown body_text))))
          else send_urls i urls (Some (AttemptStatus (i + 1) s))
      | Err e => send_urls i urls (Some (AttemptError (i + 1) e))
      end
  end.

Definition BACKOFFS : list Z := [0; 2; 5].

(** The outer loop, from attempt [i]. *)
Fixpoint send_attempts (i : nat) (delays : list Z) (urls : list string)
    (last_err : option HubError) : hprog (result HubError unit) :=
  match delays with
  | [] => _ ← call (Count SNAPSHOT_SEND_FAILURE);
          mret (Err (unwrap_or Exhausted last_err))
  | delay :: delays =>
      _ ← (if delay =? 0 then mret tt else call (HubSleep delay));
      p ← send_urls i urls last_err;
      match p with
      | Return r => mret r
      | Continue last_err => send_attempts (S i) delays urls last_err
      end
  end.

Definition send_snapshot (urls : list string) : hprog (result HubError unit) :=
  send_attempts 0 BACKOFFS urls None.

(** *** get_cluster_status *)

Fixpoint status_urls_loop (urls : list string) : hprog (result HubError ClusterStatus) :=
  match urls with
  | [] => mret (Ok cluster_status_default)
  | url :: urls =>
      sent ← call (GetUrl url (http_timeout cfg));
      try r := sent else e => mret (Err (Transport e)) in
      let s := http_status r in
      let body := response_text r in
      if s =? NOT_FOUND then
        if is_empty urls then mret (Ok cluster_status_default) else status_urls_loop urls
      else if negb (is_success s)
      then mret (Err (StatusError s (content_type r) (shown (Some body))))
      else if blank body then mret (Ok cluster_status_default)
      else mret (map_err (fun e => DecodeError e s (content_type r) (shown (Some body)))
                   (decode_status body))
  end.
Definition get_cluster_status (urls : list string) : hprog (result HubError ClusterStatus) :=
  status_urls_loop urls.

(** *** poll_commands *)

Definition counted {A} (c : counter) (a : A) : hprog A := _ ← call (Count c); mret a.

Fixpoint poll_loop (timeout : Z) (urls : list string) : hprog (result HubError (list Command)) :=
  match urls with
  | [] => counted COMMAND_POLL_FAILURE (Err (StatusError NOT_FOUND "" []))
  | url :: urls =>
      sent ← call (GetUrl url timeout);
      match sent with
      | Err Timeout => counted COMMAND_POLL_EMPTY (Ok [])
      | Err e => counted COMMAND_POLL_FAILURE (Err (Transport e))
      | Ok r =>
          let s := http_status r in
          if s =? NO_CONTENT then counted COMMAND_POLL_EMPTY (Ok []) else
          let body := response_text r in
          if (s =? NOT_FOUND) && negb (is_empty urls) then poll_loop timeout urls
          else if negb (is_success s)
          then counted COMMAND_POLL_FAILURE (Err (StatusError s (content_type r) (shown (Some body))))
          else if blank body then counted COMMAND_POLL_EMPTY (Ok [])
          else match decode_batch body with
               | Ok commands =>
                   counted (if is_empty commands then COMMAND_POLL_EMPTY else COMMAND_POLL_SUCCESS)
                     (Ok commands)
               | Err e => counted COMMAND_POLL_FAILURE
                            (Err (DecodeError e s (content_type r) (shown (Some body))))
               end
      end
  end.
(** The timeout of a request is ten seconds longer than the hub's wait. *)
Definition poll_commands (urls : list string) : hprog (result HubError (list Command)) :=
  poll_loop (poll_wait cfg + 10) urls.

(** *** ack_command *)

Fixpoint ack_command (urls : list string) : hprog (result HubError unit) :=
  match urls with
  | [] => mret (Ok tt)
  | url :: urls =>
      sent ← call (Post url);
      match sent with
      | Err e => counted COMMAND_ACK_FAILURE (Err (Transport e))
      | Ok r =>
          if (http_status r =? NOT_FOUND) && negb (is_empty urls) then ack_command urls
          else counted (if is_success (http_status r) then COMMAND_ACK_SUCCESS
                        else COMMAND_ACK_FAILURE) (Ok tt)
      end
  end.
End client.

(** ** The schedule of a snapshot

    [send_snapshot] as one pass over a list of pauses and tries, which is what
    "retries after 0, 2 and 5 seconds, each time over the routes" means. *)

Inductive verdict :=
  | Delivered
  | Undecodable (e : HubError)
  | Rejected (e : HubError)
  | Fallback
  | Retry (e : HubError).

Inductive item := Pause (secs : Z) | Try (attempt : nat) (more : bool) (url : string).

Section reference.
Context `{HubCodec} (cfg : Config).

(** What an answer means; [more] says whether the pass has another route. *)
Definition judge (attempt : nat) (more : bool) (sent : result TransportError Response) : verdict :=
  match sent with
  | Err e => Retry (AttemptError attempt e)
  | Ok r =>
      let s := http_status r in
      let shown := fun b => error_body_for_log b (full_debug cfg) (http_debug_bodies cfg) in
      if is_success s then
        if blank (response_text r) then Delivered else
        match decode_created (response_text r) with
        | Ok _ => Delivered
        | Err e => Undecodable (DecodeError e s (content_type r) (shown (Some (response_text r))))
        end
      else if (s =? NOT_FOUND) && more then Fallback
      else if is_client_error s && negb (s =? REQUEST_TIMEOUT) && negb (s =? TOO_MANY_REQUESTS)
      then Rejected (StatusError s (content_type r)
             (shown (if http_debug_bodies cfg then Some (response_text r) else None)))
      else Retry (AttemptStatus attempt s)
  end.

Fixpoint send_flat (items : list item) (last_err : option HubError)
    : hprog (result HubError unit) :=
  match items with
  | [] => counted SNAPSHOT_SEND_FAILURE (Err (unwrap_or Exhausted last_err))
  | Pause secs :: items => _ ← call (HubSleep secs); send_flat items last_err
  | Try i more url :: items =>
      sent ← call (Post url);
      match judge i more sent with
      | Delivered => counted SNAPSHOT_SEND_SUCCESS (Ok tt)
      | Undecodable e => mret (Err e)
      | Rejected e => counted SNAPSHOT_SEND_FAILURE (Err e)
      | Fallback => send_flat items last_err
      | Retry e => send_flat items (Some e)
      end
  end.

Fixpoint tries (attempt : nat) (urls : list string) : list item :=
  match urls with
  | [] => []
  | url :: urls => Try attempt (negb (is_empty urls)) url :: tries attempt urls
  end.

Fixpoint schedule (i : nat) (delays : list Z) (urls : list string) : list item :=
  match delays with
  | [] => []
  | d :: delays =>
      (if d =? 0 then [] else [Pause d]) ++ tries (i + 1) urls ++ schedule (S i) delays urls
  end.

Lemma send_urls_flat i urls last rest (k : option HubError -> hprog (result HubError unit)) :
  (forall l, k l ≡ send_flat rest l) ->
  (p ← send_urls cfg i urls last;
   match p with Return r => mret r | Continue l => k l end)
  ≡ send_flat (tries (i + 1) urls ++ rest) last.
Proof.
  intros Hk. revert last. induction urls as [|url urls IH]; intros last.
  { cbn [send_urls tries app]. rewrite bind_ret_l. apply Hk. }
  cbn [send_urls tries app send_flat]. rewrite bind_assoc.
  apply bind_proper; [|done]. intros sent. unfold judge.
  destruct sent as [r|e]; [|apply IH]. cbv zeta.
  destruct (is_success (http_status r)) eqn:Hs; cbn [orb].
  - unfold nonblank. destruct (blank (response_text r)).
    + rewrite bind_assoc. done.
    + destruct (decode_created _); [rewrite bind_assoc|]; done.
  - destruct ((http_status r =? NOT_FOUND) && negb (is_empty urls)); [apply IH|].
    destruct (_ && _); [rewrite bind_assoc; done|apply IH].
Qed.

Lemma send_attempts_flat i delays urls last :
  send_attempts cfg i delays urls last ≡ send_flat (schedule i delays urls) last.
Proof.
  revert i last. induction delays as [|d delays IH]; intros i last; [done|].
  cbn [send_attempts schedule]. destruct (d =? 0); cbn [app].
  - rewrite bind_ret_l. apply send_urls_flat. intros l. apply IH.
  - cbn [send_flat]. apply bind_proper; [|done]. intros _. apply send_urls_flat.
    intros l. apply IH.
Qed.
End reference.

(** ** What a run did *)

Definition posted (t : list hevent) : list string :=
  omap (fun e => match op_of e with Post u => Some u | GetUrl u _ => Some u | _ => None end) t.
Definition slept (t : list hevent) : list Z :=
  omap (fun e => match op_of e with HubSleep s => Some s | _ => None end) t.
Definition counts (t : list hevent) : list counter :=
  omap (fun e => match op_of e with Count c => Some c | _ => None end) t.

Definition item_urls (items : list item) : list string :=
  omap (fun x => match x with Try _ _ u => Some u | _ => None end) items.
Definition item_pauses (items : list item) : list Z :=
  omap (fun x => match x with Pause s => Some s | _ => None end) items.

(** Some response in the trace was a success that could be read. *)
Definition delivered `{HubCodec} (t : list hevent) : Prop :=
  exists u r, In (ev (R:=hresp) (Post u) (Ok r)) t /\ is_success (http_status r) = true /\
    (blank (response_text r) = true \/ is_ok (decode_created (response_text r)) = true).

Definition is_decode_error (e : HubError) : bool :=
  match e with DecodeError _ _ _ _ => true | _ => false end.

Section flat.
Context `{HubCodec} (cfg : Config).

Lemma delivered_cons e t : delivered t -> delivered (e :: t).
Proof. intros (u & r & ? & ?). exists u, r. split; [by right|done]. Qed.

(** A pass over a schedule posts and sleeps along it, and counts its result,
    except for an answer that could not be decoded. *)
Lemma send_flat_runs items last t r :
  opt_all (fun e => is_decode_error e = false) last ->
  runs (send_flat cfg items last) t r ->
  (posted t `prefix_of` item_urls items) /\ (slept t `prefix_of` item_pauses items) /\
  match r with
  | Ok _ => counts t = [SNAPSHOT_SEND_SUCCESS] /\ delivered t
  | Err e => counts t = if is_decode_error e then [] else [SNAPSHOT_SEND_FAILURE]
  end.
Proof.
  revert last t. induction items as [|[secs|i more url] items IH]; intros last t Hl Hr;
    cbn [send_flat] in Hr.
  - unfold counted in Hr. run_call Hr as u t1. destruct Hr as [-> ->].
    split_and!; [by apply prefix_nil..|]. destruct last as [e|]; simpl in *; by rewrite ?Hl.
  - run_call Hr as u t1. destruct (IH _ _ Hl Hr) as (Hp & Hs & Hc). csimpl.
    split_and!; [done|by apply prefix_cons|]. destruct r; [|done].
    destruct Hc. split; [done|by apply delivered_cons].
  - run_call Hr as sent t1. csimpl.
    destruct (judge cfg i more sent) as [|e|e| |e] eqn:Hj.
    + unfold counted in Hr. run_call Hr as u t2. destruct Hr as [-> ->]. csimpl.
      split_and!; [by apply prefix_cons, prefix_nil|by apply prefix_nil|done|].
      revert Hj. unfold judge. destruct sent as [x|]; [|done]. cbv zeta. intros Hj.
      exists url, x. split; [by left|].
      destruct (is_success (http_status x)); [|by repeat case_match].
      split; [done|]. destruct (blank _); [by left|]. right. by destruct (decode_created _).
    + destruct Hr as [-> ->].
      split_and!; [by apply prefix_cons, prefix_nil|by apply prefix_nil|].
      revert Hj. unfold judge. destruct sent as [x|]; [|done]. cbv zeta.
      by repeat case_match; intros; simplify_eq.
    + unfold counted in Hr. run_call Hr as u t2. destruct Hr as [-> ->]. csimpl.
      split_and!; [by apply prefix_cons, prefix_nil|by apply prefix_nil|].
      revert Hj. unfold judge. destruct sent as [x|]; [|done]. cbv zeta.
      by repeat case_match; intros; simplify_eq.
    + destruct (IH _ _ Hl Hr) as (Hp & Hs & Hc).
      split_and!; [by apply prefix_cons|done|]. destruct r; [|done].
      destruct Hc. split; [done|by apply delivered_cons].
    + assert (Hl' : opt_all (fun e => is_decode_error e = false) (Some e)).
      { revert Hj. unfold judge. destruct sent as [x|]; [|by intros [= <-]]. cbv zeta.
        by repeat case_match; intros; simplify_eq. }
      destruct (IH _ _ Hl' Hr) as (Hp & Hs & Hc).
      split_and!; [by apply prefix_cons|done|]. destruct r; [|done].
      destruct Hc. split; [done|by apply delivered_cons].
Qed.
End flat.

Section calls.
Context `{HubCodec} (cfg : Config).

(** A body of white space only: nothing to decode. *)
Definition blank_body (body : text) : Prop := Forall (fun c => is_whitespace c = true) body.

Lemma skip_while_rev_nil {A} (p : A -> bool) l :
  skip_while p (rev (skip_while p l)) = [] <-> skip_while p l = [].
Proof using Type.
  rewrite skip_while_nil, !List.Forall_forall. setoid_rewrite <- in_rev.
  rewrite <- List.Forall_forall. induction l as [|x l IH]; cbn [skip_while]; [by split|].
  destruct (p x) eqn:Hp; [done|]. split; [|done]. intros Hf. inversion Hf. congruence.
Qed.

Lemma blank_spec body : blank body = true <-> blank_body body.
Proof using Type.
  unfold blank, blank_body, trim_text. rewrite <- skip_while_nil, <- skip_while_rev_nil.
  destruct (skip_while _ (rev _)) as [|x l]; [done|]. cbn [rev]. by destruct (rev l).
Qed.

(** What a poll makes of the answer of the last route it asks: a timeout or no
    content is an empty batch; a success is the batch in its body, empty for
    a blank one; everything else is an error that says what went wrong. *)
Definition poll_answer (sent : result TransportError Response)
    (r : result HubError (list Command)) : Prop :=
  match sent with
  | Err Timeout => r = Ok []
  | Err e => r = Err (Transport e)
  | Ok x =>
      let s := http_status x in
      (s = 204 -> r = Ok []) /\
      (200 <= s <= 299 -> s <> 204 ->
         (blank_body (response_text x) -> r = Ok []) /\
         (~ blank_body (response_text x) ->
            match decode_batch (response_text x) with
            | Ok commands => r = Ok commands
            | Err e => exists shown, r = Err (DecodeError e s (content_type x) shown)
            end)) /\
      (s < 200 \/ 299 < s -> exists shown, r = Err (StatusError s (content_type x) shown))
  end.

Definition poll_counter (r : result HubError (list Command)) : counter :=
  match r with
  | Ok [] => COMMAND_POLL_EMPTY
  | Ok _ => COMMAND_POLL_SUCCESS
  | Err _ => COMMAND_POLL_FAILURE
  end.

(** A poll in full: [missed] are the routes that answered 404 while another one
    was left, then [url] gave the answer [sent], and the result [r] was
    counted. *)
Definition polled (secs : Z) (urls : list string) (t : list hevent)
    (r : result HubError (list Command)) : Prop :=
  exists missed url sent,
    t = map (fun m => ev (R:=hresp) (GetUrl (fst m) secs) (Ok (snd m))) missed ++
          [ev (R:=hresp) (GetUrl url secs) sent; ev (R:=hresp) (Count (poll_counter r)) tt] /\
    (map fst missed ++ [url] `prefix_of` urls) /\
    Forall (fun m => http_status (snd m) = 404) missed /\
    (forall x, sent = Ok x -> http_status x = 404 -> map fst missed ++ [url] = urls) /\
    poll_answer sent r.

Lemma counted_runs {A} c (a : A) t r :
  runs (counted c a) t r -> t = [ev (R:=hresp) (Count c) tt] /\ r = a.
Proof. unfold counted. intros Hr. run_call Hr as u t1. destruct Hr as [-> ->]. by destruct u. Qed.

Lemma polled_summary secs urls t r :
  polled secs urls t r -> (posted t `prefix_of` urls) /\ counts t = [poll_counter r].
Proof using Type.
  intros (missed & url & sent & -> & Hp & _).
  assert (Hu : posted (map (fun m => ev (R:=hresp) (GetUrl (fst m) secs) (Ok (snd m))) missed ++
    [ev (R:=hresp) (GetUrl url secs) sent; ev (R:=hresp) (Count (poll_counter r)) tt]) =
    map fst missed ++ [url])
    by (clear; induction missed as [|m missed IH]; csimpl; [done|by f_equal]).
  rewrite Hu. split; [done|]. clear.
  induction missed as [|m missed IH]; csimpl; [done|exact IH].
Qed.

(** The last answer: what the loop makes of it when it goes on no further. *)
Lemma polled_here secs url urls sent c x t r :
  runs (counted c x) t r -> c = poll_counter x -> poll_answer sent x ->
  (forall y, sent = Ok y -> http_status y = 404 -> urls = []) ->
  polled secs (url :: urls) (ev (GetUrl url secs) sent :: t) r.
Proof using Type.
  intros Hc -> Ha Hm. apply counted_runs in Hc as [-> ->]. exists [], url, sent.
  split_and!; [done|apply prefix_cons, prefix_nil|constructor| |done].
  intros y Hy Hs. by rewrite (Hm y Hy Hs).
Qed.

Lemma poll_loop_runs secs urls t r :
  urls <> [] -> runs (poll_loop cfg secs urls) t r -> polled secs urls t r.
Proof.
  revert t. induction urls as [|url urls IH]; intros t Hne Hr; [done|].
  cbn [poll_loop] in Hr. run_call Hr as sent t1.
  destruct sent as [x|[|d]];
    [|by eapply polled_here; [exact Hr|done|done|]|by eapply polled_here; [exact Hr|done|done|]].
  cbv zeta in Hr. unfold NO_CONTENT, NOT_FOUND, is_success in Hr.
  destruct (Z.eqb_spec (http_status x) 204) as [H204|H204].
  { eapply polled_here; [exact Hr|done| |intros y [= <-]; lia].
    simpl. split_and!; [done|lia|lia]. }
  destruct ((http_status x =? 404) && negb (is_empty urls)) eqn:H404.
  { apply andb_true_iff in H404 as [Hs%Z.eqb_eq Hu].
    destruct (IH t1) as (missed & u & sent & -> & Hp & Hm & Hl & Ha); [by destruct urls|done|].
    exists ((url, x) :: missed), u, sent. cbn [map fst snd app].
    split_and!; [done|by apply prefix_cons|by constructor| |done].
    intros y Hy Hs'. by rewrite (Hl y Hy Hs'). }
  assert (Hlast : forall y : Response, Ok x = Ok y :> result TransportError _ ->
    http_status y = 404 -> urls = []).
  { intros y [= <-] Hs. rewrite (proj2 (Z.eqb_eq _ _) Hs) in H404. by destruct urls. }
  destruct ((200 <=? http_status x) && (http_status x <=? 299)) eqn:Hs; cbn [negb] in Hr.
  2:{ apply andb_false_iff in Hs. eapply polled_here; [exact Hr|done| |done].
      simpl. split_and!; [lia|lia|eauto]. }
  apply andb_true_iff in Hs.
  destruct (blank (response_text x)) eqn:Hb.
  { apply blank_spec in Hb. eapply polled_here; [exact Hr|done| |done].
    simpl. split_and!; [done|by split|lia]. }
  assert (Hb' : ~ blank_body (response_text x)) by (rewrite <- blank_spec, Hb; done).
  destruct (decode_batch (response_text x)) as [commands|e] eqn:Hd;
    (eapply polled_here; [exact Hr|by try destruct commands| |done]);
    simpl; (split_and!; [done|split; [done|rewrite Hd; eauto]|lia]).
Qed.

Lemma ack_runs urls t r :
  urls <> [] -> runs (ack_command urls) t r ->
  (posted t `prefix_of` urls) /\
  (counts t = [COMMAND_ACK_SUCCESS] \/ counts t = [COMMAND_ACK_FAILURE]) /\
  (is_ok r = false -> counts t = [COMMAND_ACK_FAILURE]).
Proof using Type.
  revert t. induction urls as [|url urls IH]; intros t Hne Hr; [done|].
  cbn [ack_command] in Hr. run_call Hr as sent t1. csimpl.
  destruct sent as [x|e].
  - destruct ((http_status x =? NOT_FOUND) && negb (is_empty urls)) eqn:Hm.
    + apply andb_true_iff in Hm as [_ Hm]. destruct (IH t1) as (? & ? & ?); [by destruct urls|done|].
      split_and!; [by apply prefix_cons|done|done].
    + apply counted_runs in Hr as [-> ->]. csimpl.
      split_and!; [apply prefix_cons, prefix_nil|destruct (is_success _); auto|done].
  - apply counted_runs in Hr as [-> ->]. csimpl.
    split_and!; [apply prefix_cons, prefix_nil|by right|done].
Qed.
End calls.

Lemma item_urls_app l1 l2 : item_urls (l1 ++ l2) = item_urls l1 ++ item_urls l2.
Proof. apply omap_app. Qed.
Lemma item_pauses_app l1 l2 : item_pauses (l1 ++ l2) = item_pauses l1 ++ item_pauses l2.
Proof. apply omap_app. Qed.

Lemma tries_urls i l : item_urls (tries i l) = l.
Proof. unfold item_urls. induction l as [|u l IH]; csimpl; by rewrite ?IH. Qed.
Lemma tries_pauses i l : item_pauses (tries i l) = [].
Proof. unfold item_pauses. induction l as [|u l IH]; csimpl; by rewrite ?IH. Qed.

Lemma schedule_urls i delays urls :
  item_urls (schedule i delays urls) = concat (map (fun _ => urls) delays).
Proof.
  revert i. induction delays as [|d delays IH]; intros i; [done|]. cbn [schedule map concat].
  rewrite !item_urls_app, tries_urls, IH. by destruct (d =? 0).
Qed.
Lemma schedule_pauses i delays urls :
  item_pauses (schedule i delays urls) = List.filter (fun d => negb (d =? 0)) delays.
Proof.
  revert i. induction delays as [|d delays IH]; intros i; [done|]. cbn [schedule List.filter].
  rewrite !item_pauses_app, tries_pauses, IH. by destruct (d =? 0).
Qed.

(** The routes of a call: one or two, without repetition, the preferred base
    first. *)
Lemma ordered_spec r legacy api :
  ordered r legacy api =
    (if prefer_api r then api else legacy)
      :: (if decide (legacy = api) then [] else [if prefer_api r then legacy else api]).
Proof.
  unfold ordered, dedupe_urls. destruct (prefer_api r); cbn [dedupe_loop forallb app].
  - destruct (String.eqb_spec api legacy) as [->|Hne]; cbn [negb andb]; destruct (decide _); naive_solver.
  - destruct (String.eqb_spec legacy api) as [->|Hne]; cbn [negb andb]; destruct (decide _); naive_solver.
Qed.

Lemma ordered_length r legacy api : (1 <= length (ordered r legacy api) <= 2)%nat.
Proof. rewrite ordered_spec. destruct (decide _); simpl; lia. Qed.

Lemma trim_text_incl t x : In x (trim_text t) -> In x t.
Proof.
  unfold trim_text. rewrite <- in_rev. intros H. apply skip_while_incl in H.
  rewrite <- in_rev in H. by apply skip_while_incl in H.
Qed.

Lemma sanitize_no_control t x : In x (sanitize_for_log t) -> is_control x = false.
Proof.
  unfold sanitize_for_log. intros (c & <- & _)%in_map_iff. by destruct (is_control c) eqn:Hc.
Qed.

(** A preview is one line of at most 203 characters, without control
    characters. *)
Lemma body_preview_bounded t :
  (length (body_preview t) <= 203)%nat /\ Forall (fun c => is_control c = false) (body_preview t).
Proof.
  unfold body_preview. set (s := trim_text (sanitize_for_log t)).
  assert (Hs : Forall (fun c => is_control c = false) s).
  { apply Forall_forall. intros c Hc%list_elem_of_In. apply (sanitize_no_control t).
    by apply trim_text_incl. }
  split.
  - rewrite length_app, length_take.
    assert (length (if (MAX_PREVIEW_CHARS <? length s)%nat then dots else []) <= 3)%nat
      by (destruct (_ <? _)%nat; simpl; lia).
    unfold MAX_PREVIEW_CHARS in *. lia.
  - apply Forall_app. split; [by apply Forall_take|]. destruct (_ <? _)%nat; by repeat constructor.
Qed.

(** ** Properties *)

(** Sending a snapshot is equivalent to one pass over its schedule, the
    routes at once, again after two seconds and again after five: the pass
    ends at the first answer that is a readable success, an unreadable one or
    a rejection; a missing route moves on to the next, and every other answer
    is the error that is reported if the schedule runs out. *)
Theorem send_snapshot_equiv `{HubCodec} cfg urls :
  send_snapshot cfg urls ≡ send_flat cfg (schedule 0 BACKOFFS urls) None.
Proof. apply send_attempts_flat. Qed.

(** C30: Whatever the hub answers, sending a snapshot posts at most six times,
    along the routes, pauses at most two and then five seconds, and succeeds
    only after a readable success response.  It counts one success or one
    failure, except that an answer that cannot be decoded is reported as an
    error and counted as neither. *)
Theorem send_snapshot_bounded `{HubCodec} cfg cluster t r :
  let urls := inventory_urls (hub_routes_new cfg) cluster in
  runs (send_snapshot cfg urls) t r ->
  (posted t `prefix_of` urls ++ urls ++ urls) /\ (length (posted t) <= 6)%nat /\
  (slept t `prefix_of` [2; 5]) /\
  match r with
  | Ok _ => counts t = [SNAPSHOT_SEND_SUCCESS] /\ delivered t
  | Err e => counts t = if is_decode_error e then [] else [SNAPSHOT_SEND_FAILURE]
  end.
Proof.
  cbv zeta. set (urls := inventory_urls _ _). intros Hr.
  unfold send_snapshot in Hr. rewrite (send_attempts_flat cfg 0 BACKOFFS urls None t r) in Hr.
  apply send_flat_runs in Hr as (Hp & Hs & Hc); [|done].
  rewrite schedule_urls in Hp. rewrite schedule_pauses in Hs. simpl in Hp, Hs.
  rewrite app_nil_r in Hp. split_and!; [exact Hp| |exact Hs|exact Hc].
  apply prefix_length in Hp. rewrite !length_app in Hp.
  pose proof (ordered_length (hub_routes_new cfg)
    (legacy_base (hub_routes_new cfg) +s+ "/v1/clusters/" +s+ cluster +s+ "/inventory")
    (api_base (hub_routes_new cfg) +s+ "/v1/agent/ingest")).
  unfold urls, inventory_urls in *. lia.
Qed.

(** C40: A poll tries the routes in order, each with a timeout ten seconds
    longer than the hub's wait.  A route that answers 404 while another is left
    is passed over; the answer of the one after that decides.  A timeout, the
    status 204 and a blank success are an empty batch; a success with a body
    gives the commands decoded from it; a body that cannot be decoded, any
    status outside 200 to 299 and any other transport error are errors.  The
    poll counts once, and the counter tells the result: commands, no command,
    an error. *)
Theorem poll_commands_exact `{HubCodec} cfg cluster t r :
  let urls := poll_urls (hub_routes_new cfg) cluster (poll_wait cfg) in
  runs (poll_commands cfg urls) t r ->
  polled (poll_wait cfg + 10) urls t r /\
  (posted t `prefix_of` urls) /\ (length (posted t) <= 2)%nat /\ counts t = [poll_counter r].
Proof.
  cbv zeta. intros Hr.
  pose proof (ordered_length (hub_routes_new cfg)
    (poll_url (legacy_base (hub_routes_new cfg)) cluster (poll_wait cfg))
    (poll_url (api_base (hub_routes_new cfg)) cluster (poll_wait cfg))) as Hl.
  apply poll_loop_runs in Hr;
    [|intros E; unfold poll_urls in E; rewrite E in Hl; simpl in Hl; lia].
  split; [done|]. destruct (polled_summary _ _ _ _ Hr) as [Hp Hc]. split_and!; [done| |done].
  apply prefix_length in Hp. unfold poll_urls in Hp. lia.
Qed.

(** ** A concrete hub *)

Definition demo_hub_codec : HubCodec :=
  {| decode_created := fun _ => Ok false;
     decode_batch := fun b =>
       match b with [] => Err "EOF" | _ => Ok [{| cmd_id := "c-1"; cmd_kind := "scale";
                                                  cmd_spec := Json.JNull |}] end;
     ClusterStatus := unit; cluster_status_default := tt; decode_status := fun _ => Ok tt |}.

Definition answer (s : Z) (b : string) : result TransportError Response :=
  Ok {| http_status := s; content_type := "application/json"; body_read := Some (ascii_text b) |}.

(** The first route is missing and the hub is unavailable for one request. *)
Definition demo_answer (n : nat) : result TransportError Response :=
  match n with
  | O | S (S O) => answer 404 ""
  | S O => answer 503 "busy"
  | _ => answer 200 "{}"
  end.
Definition demo_hub (o : hop) : nat -> hresp o * nat :=
  match o return nat -> hresp o * nat with
  | Post _ => fun n => (demo_answer n, S n)
  | GetUrl _ _ => fun n => (demo_answer n, S n)
  | HubSleep _ => fun n => (tt, n)
  | Count _ => fun n => (tt, n)
  end.

Definition demo_hub_environment : environment :=
  list_to_map [("HUB_URL", "https://hub.example"); ("CLUSTER_ID", "c-1")].

Lemma send_snapshot_bounded_witness :
  exists cfg t, @from_env_for_mode demo_hub_environment demo_yaml Agent = Ok cfg /\
    length (posted t) = 4%nat /\ slept t = [2] /\ counts t = [SNAPSHOT_SEND_SUCCESS] /\
    @delivered demo_hub_codec t.
Proof.
  destruct (@from_env_for_mode demo_hub_environment demo_yaml Agent) as [cfg|] eqn:Hr; [|discriminate Hr].
  pose (urls := inventory_urls (hub_routes_new cfg) "c-1").
  pose (p := @send_snapshot demo_hub_codec cfg urls).
  assert (Hf : (length (posted (interp_trace demo_hub p 0%nat)) = 4%nat /\
                slept (interp_trace demo_hub p 0%nat) = [2]) /\
               fst (interp demo_hub p 0%nat) = Ok tt)
    by (injection Hr as <-; vm_compute; repeat split).
  destruct Hf as [[Hl Hs] Hok].
  exists cfg, (interp_trace demo_hub p 0%nat). split; [reflexivity|].
  pose proof (@send_snapshot_bounded demo_hub_codec cfg "c-1" _ _ (interp_runs _ demo_hub p 0%nat))
    as (_ & _ & _ & Hc).
  rewrite Hok in Hc. destruct Hc as [Hc Hd]. exact (conj Hl (conj Hs (conj Hc Hd))).
Defined.

(** Commands from the fallback route, after a 404 of the first one. *)
Lemma poll_commands_exact_witness :
  exists cfg t, @from_env_for_mode demo_hub_environment demo_yaml Agent = Ok cfg /\
    counts t = [COMMAND_POLL_SUCCESS] /\
    exists c, @polled demo_hub_codec (poll_wait cfg + 10)
      (poll_urls (hub_routes_new cfg) "c-1" (poll_wait cfg)) t (Ok [c]).
Proof.
  destruct (@from_env_for_mode demo_hub_environment demo_yaml Agent) as [cfg|] eqn:Hr; [|discriminate Hr].
  pose (urls := poll_urls (hub_routes_new cfg) "c-1" (poll_wait cfg)).
  pose (p := @poll_commands demo_hub_codec cfg urls).
  assert (Hf : exists c, fst (interp demo_hub p 2%nat) = Ok [c])
    by (injection Hr as <-; vm_compute; eexists; reflexivity).
  destruct Hf as [c Hok].
  exists cfg, (interp_trace demo_hub p 2%nat). split; [reflexivity|].
  pose proof (@poll_commands_exact demo_hub_codec cfg "c-1" _ _ (interp_runs _ demo_hub p 2%nat))
    as (Hd & _ & _ & Hc).
  rewrite Hok in Hc, Hd. split; [exact Hc|]. exists c. exact Hd.
Defined.

(** An error status is no empty poll. *)
Example unavailable_is_an_error `{HubCodec} x r :
  http_status x = 503 -> poll_answer (Ok x) r -> is_ok r = false.
Proof. intros Hs (_ & _ & He). destruct He as [shown ->]; [lia|done]. Qed.
