(* ===== verification/Policy.v ===== *)
(** * Policy evaluation (executor.rs)

    Which [SentinellaHubActionPolicy] authorises a command: the per-policy
    rejection reasons, the limits on requested resources, and the three loops
    that pick the first policy that authorises an action. *)
From S2P Require Import Prelude RustStr Json Effects Kube Quantity Model Config.
Local Open Scope Z_scope.

Definition UPDATE_AGENT_NAMESPACE : string := "sentinella".

Definition condition_true (conditions : list SentinellaHubActionPolicyCondition)
    (condition_type : string) : bool :=
  existsb (fun c => String.eqb (type_ c) condition_type
                    && eq_ignore_ascii_case (cond_status c) "true") conditions.

Definition quantity_exceeds_limit (label quantity limit : string)
    (parse : string -> option Z) : option string :=
  quantity_value ← opt_or (parse quantity) (Some i128_min);
  limit_value ← opt_or (parse limit) (Some i128_min);
  if quantity_value =? i128_min then
    Some (label +s+ " " +s+ quantity +s+ " is not a valid quantity")
  else if limit_value =? i128_min then
    Some ("policy limit " +s+ limit +s+ " is not a valid quantity")
  else if limit_value <? quantity_value then
    Some (label +s+ " " +s+ quantity +s+ " exceeds max " +s+ limit)
  else None.

(** One of the four guarded checks of [policy_limits_violation_reason]: the
    limit, the side ([requests] or [limits]) and the resource are optional. *)
Definition limit_violation (label : string) (limit : option string)
    (side : option ResourceMap) (field : ResourceMap -> option string)
    (parse : string -> option Z) : list string :=
  match limit with
  | None => []
  | Some limit =>
      match side with
      | None => []
      | Some m =>
          match field m with
          | None => []
          | Some quantity =>
              match quantity_exceeds_limit label quantity limit parse with
              | Some reason => [reason]
              | None => []
              end
          end
      end
  end.

Definition policy_limits_violation_reason (limits : option SentinellaHubActionPolicyLimits)
    (spec : WorkloadResourcesSpec) : option string :=
  limits ← limits;
  let violations :=
    limit_violation "cpu request" (max_cpu_limit limits) (wr_requests spec) rm_cpu
      parse_cpu_quantity
    ++ limit_violation "cpu limit" (max_cpu_limit limits) (wr_limits spec) rm_cpu
         parse_cpu_quantity
    ++ limit_violation "memory request" (max_memory_limit limits) (wr_requests spec) rm_memory
         parse_memory_quantity
    ++ limit_violation "memory limit" (max_memory_limit limits) (wr_limits spec) rm_memory
         parse_memory_quantity in
  if is_empty violations then None
  else Some ("limits exceeded: " +s+ join ", " violations).

Definition is_resource_command (command_kind : string) : bool :=
  String.eqb command_kind "preview_workload_resources"
  || String.eqb command_kind "apply_workload_resources".

(** The last block of [policy_rejection_reason_for_command]. *)
Definition resource_spec_rejection (policy : SentinellaHubActionPolicy) (command_kind : string)
    (resource_spec : option WorkloadResourcesSpec) : option string :=
  if is_resource_command command_kind then
    some rs := resource_spec else Some "is missing a workload resources spec" in
    policy_limits_violation_reason (limits (spec policy)) rs
  else None.

Definition policy_rejection_reason_for_command (policy : SentinellaHubActionPolicy)
    (command_kind : string) (target_kind : option string)
    (resource_spec : option WorkloadResourcesSpec) : option string :=
  let actions := allowed_actions (spec policy) in
  let resources := allowed_resources (spec policy) in
  if negb (forallb policy_action_is_supported actions) || is_empty actions then
    Some "does not declare any supported actions"
  else if negb (existsb (fun action => String.eqb action command_kind) actions) then
    Some ("does not allow action " +s+ command_kind)
  else if policy_action_targets_workload command_kind then
    some kind := target_kind else Some "is missing a workload target kind" in
    if negb (forallb policy_resource_is_supported resources) || is_empty resources then
      Some "does not declare any supported workload resources"
    else if negb (existsb (fun resource => String.eqb resource kind) resources) then
      Some ("does not allow resource " +s+ kind)
    else resource_spec_rejection policy command_kind resource_spec
  else resource_spec_rejection policy command_kind resource_spec.

Definition policy_status_rejection_reason (policy_name : string)
    (status : SentinellaHubActionPolicyStatus) (now_ms stale_after_ms : Z) : option string :=
  if stale status then Some ("policy " +s+ policy_name +s+ " status is stale")
  else match last_reconciled_at_ms status with
  | None => Some ("policy " +s+ policy_name +s+ " status has no freshness timestamp")
  | Some last =>
      if policy_status_is_stale (Some last) now_ms stale_after_ms
      then Some ("policy " +s+ policy_name +s+ " status is stale")
      else None
  end.

Definition namespace_is_effective_for_command (namespace command_kind : string)
    (effective_namespaces : list string) : bool :=
  existsb (fun candidate => String.eqb candidate namespace) effective_namespaces
  || (String.eqb command_kind "update_agent" && String.eqb namespace UPDATE_AGENT_NAMESPACE).

Record EffectivePolicy := {
  ep_name : string;
  ep_policy : SentinellaHubActionPolicy;
  ep_status : SentinellaHubActionPolicyStatus }.

(** What one iteration of a selection loop does with a policy: pass over it
    silently, record a reason, or return it. *)
Inductive verdict := Skip | Reject (reason : string) | Accept (p : EffectivePolicy).

(** The loop shared by the three [ensure_*] functions. *)
Fixpoint select_policy (judge : SentinellaHubActionPolicy -> verdict)
    (policies : list SentinellaHubActionPolicy) (reasons : list string)
    : result (list string) EffectivePolicy :=
  match policies with
  | [] => Err reasons
  | policy :: policies =>
      match judge policy with
      | Skip => select_policy judge policies reasons
      | Reject reason => select_policy judge policies (reasons ++ [reason])
      | Accept p => Ok p
      end
  end.

Definition reasons_text (none : string) (reasons : list string) : string :=
  if is_empty reasons then none else join "; " reasons.

(** Name, status and freshness: the head of each iteration of
    [ensure_effective_policy_allows] and of [select_cluster_action_policy]. *)
Definition judge_status (now stale_after_ms : Z) (policy : SentinellaHubActionPolicy)
    (k : string -> SentinellaHubActionPolicyStatus -> verdict) : verdict :=
  some policy_name := name (metadata policy) else Skip in
  some status := status policy
    else Reject ("policy " +s+ policy_name +s+ " has no status") in
  some last := last_reconciled_at_ms status
    else Reject ("policy " +s+ policy_name +s+ " status has no freshness timestamp") in
  if policy_status_is_stale (Some last) now stale_after_ms
  then Reject ("policy " +s+ policy_name +s+ " status is stale")
  else if negb (condition_true (conditions status) "Ready")
  then Reject ("policy " +s+ policy_name +s+ " is not Ready")
  else k policy_name status.

Definition judge_allows (now stale_after_ms : Z) (namespace command_kind : string)
    (target_kind : option string) (resource_spec : option WorkloadResourcesSpec)
    (policy : SentinellaHubActionPolicy) : verdict :=
  judge_status now stale_after_ms policy (fun policy_name status =>
    if negb (namespace_is_effective_for_command namespace command_kind
               (effective_namespaces status))
    then Skip
    else match policy_rejection_reason_for_command policy command_kind target_kind
                 resource_spec with
    | Some reason => Reject ("policy " +s+ policy_name +s+ " " +s+ reason)
    | None => Accept {| ep_name := policy_name; ep_policy := policy; ep_status := status |}
    end).

Definition judge_cluster (now stale_after_ms : Z) (command_kind : string)
    (policy : SentinellaHubActionPolicy) : verdict :=
  judge_status now stale_after_ms policy (fun policy_name status =>
    match policy_rejection_reason_for_command policy command_kind None None with
    | Some reason => Reject ("policy " +s+ policy_name +s+ " " +s+ reason)
    | None => Accept {| ep_name := policy_name; ep_policy := policy; ep_status := status |}
    end).

(** [ensure_effective_policy_ready], which checks the recorded [stale] flag
    too; no command handler calls it. *)
Definition judge_ready (now stale_after_ms : Z) (namespace : string)
    (policy : SentinellaHubActionPolicy) : verdict :=
  some policy_name := name (metadata policy) else Skip in
  some st := status policy
    else Reject ("policy " +s+ policy_name +s+ " has no status") in
  match policy_status_rejection_reason policy_name st now stale_after_ms with
  | Some reason => Reject reason
  | None =>
      if negb (condition_true (conditions st) "Ready")
      then Reject ("policy " +s+ policy_name +s+ " is not Ready")
      else if negb (existsb (fun candidate => String.eqb candidate namespace)
                      (effective_namespaces st))
      then Skip
      else Accept {| ep_name := policy_name; ep_policy := policy; ep_status := st |}
  end.

Definition namespace_not_eligible (namespace : string) (reasons : list string) : string :=
  "namespace " +s+ namespace +s+ " is not eligible for action: "
  +s+ reasons_text "no Ready policy matched the namespace" reasons.

Definition select_effective_policy (policies : list SentinellaHubActionPolicy)
    (now stale_after_ms : Z) (namespace command_kind : string)
    (target_kind : option string) (resource_spec : option WorkloadResourcesSpec)
    : result string EffectivePolicy :=
  map_err (namespace_not_eligible namespace)
    (select_policy (judge_allows now stale_after_ms namespace command_kind target_kind
                      resource_spec) policies []).

Definition select_cluster_action_policy (policies : list SentinellaHubActionPolicy)
    (command_kind : string) (now stale_after_ms : Z) : result string EffectivePolicy :=
  map_err (fun reasons =>
      "cluster action " +s+ command_kind +s+ " is not eligible: "
      +s+ reasons_text "no Ready policy matched the cluster action" reasons)
    (select_policy (judge_cluster now stale_after_ms command_kind) policies []).

Definition select_ready_policy (policies : list SentinellaHubActionPolicy)
    (now stale_after_ms : Z) (namespace : string) : result string EffectivePolicy :=
  map_err (namespace_not_eligible namespace)
    (select_policy (judge_ready now stale_after_ms namespace) policies []).

(** ** What authorises a command *)

Definition quantity_within (parse : string -> option Z) (quantity limit : string) : Prop :=
  exists q l, parse quantity = Some q /\ parse limit = Some l /\
              i128_min < q <= l.

Definition side_within (parse : string -> option Z) (limit : option string)
    (side : option ResourceMap) (field : ResourceMap -> option string) : Prop :=
  forall l m q, limit = Some l -> side = Some m -> field m = Some q -> quantity_within parse q l.

(** Every quantity of the spec that a limit governs is readable and at most
    that limit. *)
Definition within_limits (limits : option SentinellaHubActionPolicyLimits)
    (spec : WorkloadResourcesSpec) : Prop :=
  forall lim, limits = Some lim ->
    side_within parse_cpu_quantity (max_cpu_limit lim) (wr_requests spec) rm_cpu /\
    side_within parse_cpu_quantity (max_cpu_limit lim) (wr_limits spec) rm_cpu /\
    side_within parse_memory_quantity (max_memory_limit lim) (wr_requests spec) rm_memory /\
    side_within parse_memory_quantity (max_memory_limit lim) (wr_limits spec) rm_memory.

(** The policy's spec lists the action, for workload actions the target's
    kind, and its limits admit the requested resources. *)
Record grants (policy : SentinellaHubActionPolicy) (command_kind : string)
    (target_kind : option string) (resource_spec : option WorkloadResourcesSpec) : Prop := {
  grants_supported : Forall (fun a => policy_action_is_supported a = true)
                       (allowed_actions (spec policy));
  grants_action : In command_kind (allowed_actions (spec policy));
  grants_resource : policy_action_targets_workload command_kind = true ->
    exists kind, target_kind = Some kind /\ In kind (allowed_resources (spec policy)) /\
      Forall (fun r => policy_resource_is_supported r = true) (allowed_resources (spec policy));
  grants_limits : is_resource_command command_kind = true ->
    exists rs, resource_spec = Some rs /\ within_limits (limits (spec policy)) rs }.

(** The policy has a name and a status that is fresh and Ready. *)
Record live (policy : SentinellaHubActionPolicy) (now stale_after_ms : Z)
    (policy_name : string) (st : SentinellaHubActionPolicyStatus) : Prop := {
  live_name : name (metadata policy) = Some policy_name;
  live_status : status policy = Some st;
  live_fresh : exists last, last_reconciled_at_ms st = Some last /\
    now - last <= stale_after_ms /\ 0 <= stale_after_ms;
  live_ready : exists c, In c (conditions st) /\ type_ c = "Ready" /\
    eq_ignore_ascii_case (cond_status c) "true" = true }.

Definition namespace_governed (namespace command_kind : string)
    (effective : list string) : Prop :=
  In namespace effective \/ (command_kind = "update_agent" /\ namespace = UPDATE_AGENT_NAMESPACE).

(** The policy authorises the command in the namespace at time [now]. *)
Definition authorises (now stale_after_ms : Z) (namespace command_kind : string)
    (target_kind : option string) (resource_spec : option WorkloadResourcesSpec)
    (policy : SentinellaHubActionPolicy) : Prop :=
  exists policy_name st,
    live policy now stale_after_ms policy_name st /\
    namespace_governed namespace command_kind (effective_namespaces st) /\
    grants policy command_kind target_kind resource_spec.

(** The same for an action on the cluster: no namespace and no target. *)
Definition authorises_cluster (now stale_after_ms : Z) (command_kind : string)
    (policy : SentinellaHubActionPolicy) : Prop :=
  exists policy_name st,
    live policy now stale_after_ms policy_name st /\ grants policy command_kind None None.

(** ** Lemmas *)

Lemma existsb_eqb_r (k : string) l : existsb (fun a => String.eqb a k) l = true <-> In k l.
Proof.
  rewrite existsb_exists. split; [by intros (x & Hx & ->%String.eqb_eq)|].
  intros H. exists k. by rewrite String.eqb_refl.
Qed.

Lemma forallb_Forall_true {A} (f : A -> bool) l :
  forallb f l = true <-> Forall (fun x => f x = true) l.
Proof.
  rewrite forallb_forall, Forall_forall. by setoid_rewrite list_elem_of_In.
Qed.

Lemma condition_true_spec cs t :
  condition_true cs t = true <->
  exists c, In c cs /\ type_ c = t /\ eq_ignore_ascii_case (cond_status c) "true" = true.
Proof.
  unfold condition_true. rewrite existsb_exists.
  by setoid_rewrite andb_true_iff; setoid_rewrite String.eqb_eq.
Qed.

Lemma namespace_is_effective_spec ns kind eff :
  namespace_is_effective_for_command ns kind eff = true <-> namespace_governed ns kind eff.
Proof.
  unfold namespace_is_effective_for_command, namespace_governed.
  by rewrite orb_true_iff, andb_true_iff, !String.eqb_eq, existsb_eqb_r.
Qed.

Lemma quantity_exceeds_limit_none label q l parse :
  (forall s v, parse s = Some v -> i128_min <= v) ->
  quantity_exceeds_limit label q l parse = None <-> quantity_within parse q l.
Proof.
  intros Hmin. unfold quantity_exceeds_limit, quantity_within, opt_or; simpl.
  destruct (parse q) as [qv|] eqn:Hq, (parse l) as [lv|] eqn:Hl; simpl; try naive_solver.
  - pose proof (Hmin _ _ Hq). pose proof (Hmin _ _ Hl).
    destruct (Z.eqb_spec qv i128_min) as [->|?];
      [split; [done|]; intros (? & ? & ? & ? & ?); simplify_eq; lia|].
    destruct (Z.eqb_spec lv i128_min) as [->|?];
      [split; [done|]; intros (? & ? & ? & ? & ?); simplify_eq; lia|].
    destruct (Z.ltb_spec lv qv); split; try done.
    + intros (? & ? & ? & ? & ?); simplify_eq; lia.
    + intros _. exists qv, lv. split_and!; try done; lia.
  - destruct (qv =? i128_min); split; try done; naive_solver.
Qed.

Lemma limit_violation_nil label limit side field parse :
  (forall s v, parse s = Some v -> i128_min <= v) ->
  limit_violation label limit side field parse = [] <->
  side_within parse limit side field.
Proof.
  intros Hmin. unfold limit_violation, side_within.
  destruct limit as [l|]; [|naive_solver].
  destruct side as [m|]; [|naive_solver].
  destruct (field m) as [q|] eqn:Hf; [|naive_solver].
  destruct (quantity_exceeds_limit label q l parse) eqn:He.
  - split; [done|]. intros H. specialize (H _ _ _ eq_refl eq_refl Hf).
    apply (quantity_exceeds_limit_none label) in H; [congruence|done].
  - apply quantity_exceeds_limit_none in He; [|done]. split; [|done].
    intros _ ? ? ? ? ? ?. by simplify_eq.
Qed.

Lemma parse_cpu_min s v : parse_cpu_quantity s = Some v -> i128_min <= v.
Proof. by intros [? _]%parse_scaled_decimal_range. Qed.
Lemma parse_memory_min s v : parse_memory_quantity s = Some v -> i128_min <= v.
Proof. by intros [? _]%parse_scaled_decimal_range. Qed.
#[export] Hint Resolve parse_cpu_min parse_memory_min : agent.

Lemma policy_limits_violation_reason_none lim rs :
  policy_limits_violation_reason lim rs = None <-> within_limits lim rs.
Proof.
  unfold policy_limits_violation_reason, within_limits.
  destruct lim as [lim|]; simpl; [|naive_solver].
  set (L := _ ++ _). transitivity (L = []).
  - destruct L; by split.
  - unfold L. rewrite !app_nil.
    rewrite (limit_violation_nil _ _ _ _ _ parse_cpu_min).
    rewrite (limit_violation_nil _ _ _ _ _ parse_cpu_min).
    rewrite (limit_violation_nil _ _ _ _ _ parse_memory_min).
    rewrite (limit_violation_nil _ _ _ _ _ parse_memory_min). naive_solver.
Qed.

Lemma resource_spec_rejection_none p kind rs :
  resource_spec_rejection p kind rs = None <->
  (is_resource_command kind = true ->
   exists r, rs = Some r /\ within_limits (limits (spec p)) r).
Proof.
  unfold resource_spec_rejection. destruct (is_resource_command kind); [|by split].
  destruct rs as [r|].
  - rewrite policy_limits_violation_reason_none. naive_solver.
  - split; [done|]. intros H. destruct (H eq_refl) as (r & [=] & _).
Qed.

(** A list of supported names that holds the wanted one. *)
Lemma supported_list_guard (sup : string -> bool) l k :
  (negb (forallb sup l) || is_empty l) = false /\
  existsb (fun a => String.eqb a k) l = true <->
  Forall (fun a => sup a = true) l /\ In k l.
Proof.
  rewrite orb_false_iff, negb_false_iff, forallb_Forall_true, existsb_eqb_r.
  destruct l; naive_solver.
Qed.

Lemma policy_rejection_reason_none p kind target rs :
  policy_rejection_reason_for_command p kind target rs = None <-> grants p kind target rs.
Proof.
  unfold policy_rejection_reason_for_command.
  pose proof (supported_list_guard policy_action_is_supported (allowed_actions (spec p)) kind)
    as Ha.
  destruct (negb _ || _) eqn:H1.
  { split; [done|]. intros [Hs Hk _ _]. naive_solver. }
  destruct (existsb _ _) eqn:H2; simpl.
  2:{ split; [done|]. intros [Hs Hk _ _]. naive_solver. }
  destruct Ha as [Ha _]. destruct (Ha (conj eq_refl eq_refl)) as [Hs Hk].
  destruct (policy_action_targets_workload kind) eqn:Hw.
  - destruct target as [tk|].
    + pose proof (supported_list_guard policy_resource_is_supported
        (allowed_resources (spec p)) tk) as Hr.
      destruct (negb (forallb policy_resource_is_supported _) || _) eqn:H3.
      { split; [done|]. intros [_ _ Hres _]. naive_solver. }
      destruct (existsb (fun r => String.eqb r tk) _) eqn:H4; simpl.
      2:{ split; [done|]. intros [_ _ Hres _]. naive_solver. }
      rewrite resource_spec_rejection_none. split; [|by intros []].
      intros Hl. split; try done. intros _. exists tk. naive_solver.
    + split; [done|]. intros [_ _ Hres _]. naive_solver.
  - rewrite resource_spec_rejection_none. split; [|by intros []].
    intros Hl. split; try done. by rewrite Hw.
Qed.

(** The head shared by the two judgements. *)
Lemma judge_status_accept now after p k ep :
  judge_status now after p k = Accept ep <->
  exists n st, live p now after n st /\ k n st = Accept ep.
Proof.
  unfold judge_status.
  destruct (name (metadata p)) as [n|] eqn:Hn.
  2:{ split; [done|]. intros (? & ? & [] & _). congruence. }
  destruct (status p) as [st|] eqn:Hst.
  2:{ split; [done|]. intros (? & ? & [] & _). congruence. }
  destruct (last_reconciled_at_ms st) as [last|] eqn:Hl.
  2:{ split; [done|]. intros (? & ? & [? ? (? & ? & ?) ?] & _). congruence. }
  destruct (policy_status_is_stale (Some last) now after) eqn:Hf.
  { split; [done|]. intros (n2 & st2 & [Hn2 Hst2 (l2 & Hl2 & Hfr) _] & _).
    assert (st2 = st) as -> by congruence. assert (l2 = last) as -> by congruence.
    apply policy_status_is_stale_fresh in Hfr. congruence. }
  destruct (condition_true (conditions st) "Ready") eqn:Hc; simpl.
  2:{ split; [done|]. intros (n2 & st2 & [Hn2 Hst2 _ Hr] & _).
      assert (st2 = st) as -> by congruence.
      apply condition_true_spec in Hr. congruence. }
  apply policy_status_is_stale_fresh in Hf. apply condition_true_spec in Hc.
  split.
  - intros Hk. exists n, st. split; [|done]. split; try done. by exists last.
  - intros (n' & st' & [? ? _ _] & Hk). congruence.
Qed.

Lemma judge_allows_accept now after ns kind target rs p ep :
  judge_allows now after ns kind target rs p = Accept ep <->
  ep_policy ep = p /\ live p now after (ep_name ep) (ep_status ep) /\
  namespace_governed ns kind (effective_namespaces (ep_status ep)) /\ grants p kind target rs.
Proof.
  unfold judge_allows. rewrite judge_status_accept. split.
  - intros (n & st & Hl & Hk).
    destruct (namespace_is_effective_for_command _ _ _) eqn:He; simplify_eq/=.
    destruct (policy_rejection_reason_for_command _ _ _ _) eqn:Hr; simplify_eq/=.
    split_and!; [done|done|by apply namespace_is_effective_spec
                |by apply policy_rejection_reason_none].
  - intros (<- & Hl & Hns & Hg). exists (ep_name ep), (ep_status ep). split; [done|].
    apply namespace_is_effective_spec in Hns as ->. simpl.
    apply policy_rejection_reason_none in Hg as ->. by destruct ep.
Qed.

Lemma judge_cluster_accept now after kind p ep :
  judge_cluster now after kind p = Accept ep <->
  ep_policy ep = p /\ live p now after (ep_name ep) (ep_status ep) /\ grants p kind None None.
Proof.
  unfold judge_cluster. rewrite judge_status_accept. split.
  - intros (n & st & Hl & Hk).
    destruct (policy_rejection_reason_for_command _ _ _ _) eqn:Hr; simplify_eq/=.
    split_and!; [done|done|by apply policy_rejection_reason_none].
  - intros (<- & Hl & Hg). exists (ep_name ep), (ep_status ep). split; [done|].
    apply policy_rejection_reason_none in Hg as ->. by destruct ep.
Qed.

(** The loop returns the first policy that its judgement accepts. *)
Lemma select_policy_ok judge ps rs ep :
  select_policy judge ps rs = Ok ep <->
  exists l1 p l2, ps = l1 ++ p :: l2 /\ judge p = Accept ep /\
    Forall (fun q => forall e, judge q <> Accept e) l1.
Proof.
  revert rs; induction ps as [|q ps IH]; intros rs; simpl.
  { split; [done|]. by intros ([|] & ? & ? & ? & _). }
  assert (Hskip : (forall e, judge q <> Accept e) ->
    (exists l1 p l2, ps = l1 ++ p :: l2 /\ judge p = Accept ep /\
       Forall (fun q => forall e, judge q <> Accept e) l1) <->
    (exists l1 p l2, q :: ps = l1 ++ p :: l2 /\ judge p = Accept ep /\
       Forall (fun q => forall e, judge q <> Accept e) l1)).
  { intros Hq. split.
    - intros (l1 & p & l2 & -> & ? & ?). exists (q :: l1), p, l2. naive_solver.
    - intros (l1 & p & l2 & He & Hp & Hl). destruct l1 as [|? l1]; simplify_eq/=; [naive_solver|].
      inversion Hl. naive_solver. }
  destruct (judge q) as [|reason|e] eqn:Hj; rewrite ?IH; try (apply Hskip; congruence).
  split.
  - intros [= ->]. exists [], q, ps. auto.
  - intros (l1 & p & l2 & He & Hp & Hl). destruct l1 as [|? l1]; simplify_eq/=; [congruence|].
    inversion Hl; naive_solver.
Qed.

Lemma select_policy_err judge ps rs :
  (exists rs', select_policy judge ps rs = Err rs') <->
  Forall (fun q => forall e, judge q <> Accept e) ps.
Proof.
  revert rs; induction ps as [|q ps IH]; intros rs; simpl; [naive_solver|].
  rewrite Forall_cons. destruct (judge q) eqn:Hj; rewrite ?IH; [naive_solver..|].
  split; [by intros [? ?]|]. intros [H _]. by destruct (H p).
Qed.

Lemma judge_allows_authorises now after ns kind target rs p :
  authorises now after ns kind target rs p <->
  exists ep, judge_allows now after ns kind target rs p = Accept ep.
Proof.
  setoid_rewrite judge_allows_accept. unfold authorises. split.
  - intros (n & st & ? & ? & ?). by exists {| ep_name := n; ep_policy := p; ep_status := st |}.
  - intros (ep & <- & ? & ? & ?). eauto.
Qed.

Lemma judge_cluster_authorises now after kind p :
  authorises_cluster now after kind p <->
  exists ep, judge_cluster now after kind p = Accept ep.
Proof.
  setoid_rewrite judge_cluster_accept. unfold authorises_cluster. split.
  - intros (n & st & ? & ?). by exists {| ep_name := n; ep_policy := p; ep_status := st |}.
  - intros (ep & <- & ? & ?). eauto.
Qed.

(** A selection loop refines "the first policy of the list with property [P]"
    when its judgement accepts exactly the policies with [P]. *)
Section selection.
Context (judge : SentinellaHubActionPolicy -> verdict)
  (P : SentinellaHubActionPolicy -> Prop)
  (HP : forall p, P p <-> exists ep, judge p = Accept ep)
  (Hep : forall p ep, judge p = Accept ep -> ep_policy ep = p).

Definition first_with (ps : list SentinellaHubActionPolicy) (ep : EffectivePolicy) : Prop :=
  exists l1 l2, ps = l1 ++ ep_policy ep :: l2 /\ P (ep_policy ep) /\
    Forall (fun q => ~ P q) l1 /\ judge (ep_policy ep) = Accept ep.

Lemma not_accept p : ~ P p <-> forall e, judge p <> Accept e.
Proof using HP. rewrite HP. naive_solver. Qed.

Lemma select_policy_refines ps :
  match select_policy judge ps [] with
  | Ok ep => first_with ps ep
  | Err _ => Forall (fun q => ~ P q) ps
  end.
Proof using HP Hep.
  destruct (select_policy judge ps []) as [ep|rs] eqn:Hs.
  - apply select_policy_ok in Hs as (l1 & p & l2 & -> & Hj & Hl).
    rewrite <- (Hep _ _ Hj). exists l1, l2. split_and!; [done| | |].
    + apply HP. rewrite (Hep _ _ Hj). eauto.
    + eapply Forall_impl; [exact Hl|]. intros q. apply not_accept.
    + by rewrite (Hep _ _ Hj).
  - assert (Hex : exists rs', select_policy judge ps [] = Err rs') by eauto.
    apply select_policy_err in Hex.
    eapply Forall_impl; [exact Hex|]. intros q. apply not_accept.
Qed.
End selection.

Lemma select_effective_policy_ok ps now after ns kind target rs ep :
  select_effective_policy ps now after ns kind target rs = Ok ep ->
  exists p, In p ps /\ authorises now after ns kind target rs p.
Proof.
  unfold select_effective_policy. destruct (select_policy _ ps []) eqn:Hs; [|done].
  intros _. apply select_policy_ok in Hs as (l1 & p & l2 & -> & Hj & _).
  exists p. split; [apply in_app_iff; right; by left|].
  apply judge_allows_authorises. eauto.
Qed.

Lemma select_effective_policy_is_ok ps now after ns kind target rs p :
  In p ps -> authorises now after ns kind target rs p ->
  exists ep, select_effective_policy ps now after ns kind target rs = Ok ep.
Proof.
  intros Hin Ha. unfold select_effective_policy.
  destruct (select_policy _ ps []) as [ep|rs'] eqn:Hs; [by exists ep|].
  assert (Hex : exists rs', select_policy (judge_allows now after ns kind target rs) ps []
                            = Err rs') by eauto.
  apply select_policy_err in Hex. rewrite Forall_forall in Hex.
  apply judge_allows_authorises in Ha as [ep Hep].
  apply list_elem_of_In in Hin. by destruct (Hex p Hin ep).
Qed.

Lemma select_cluster_action_policy_ok ps kind now after ep :
  select_cluster_action_policy ps kind now after = Ok ep ->
  exists p, In p ps /\ authorises_cluster now after kind p.
Proof.
  unfold select_cluster_action_policy. destruct (select_policy _ ps []) eqn:Hs; [|done].
  intros _. apply select_policy_ok in Hs as (l1 & p & l2 & -> & Hj & _).
  exists p. split; [apply in_app_iff; right; by left|].
  apply judge_cluster_authorises. eauto.
Qed.

(** ** Properties *)

(** C6: Policy selection for a namespaced command returns the first policy of
    the list that authorises it: named, with a fresh and Ready status whose
    effective namespaces hold the namespace, with every declared action
    supported, the action and (for workload actions) the target kind allowed,
    and every requested quantity within the limits.  It fails, with an error
    that names the namespace, exactly when no policy of the list authorises
    the command. *)
Theorem select_effective_policy_refines ps now after ns kind target rs :
  match select_effective_policy ps now after ns kind target rs with
  | Ok ep =>
      first_with (judge_allows now after ns kind target rs)
        (authorises now after ns kind target rs) ps ep /\
      live (ep_policy ep) now after (ep_name ep) (ep_status ep)
  | Err e =>
      Forall (fun p => ~ authorises now after ns kind target rs p) ps /\
      starts_with ("namespace " +s+ ns +s+ " is not eligible for action: ") e = true
  end.
Proof.
  pose proof (select_policy_refines _ _
    (judge_allows_authorises now after ns kind target rs)
    (fun p ep H => proj1 (proj1 (judge_allows_accept _ _ _ _ _ _ p ep) H)) ps) as Hs.
  unfold select_effective_policy. destruct (select_policy _ ps []) as [ep|reasons]; cbn [map_err].
  - split; [done|]. destruct Hs as (? & ? & _ & _ & _ & Hj).
    apply judge_allows_accept in Hj. naive_solver.
  - split; [done|]. apply starts_with_spec. unfold namespace_not_eligible.
    eexists. by rewrite !append_assoc.
Qed.

(** Selection for a cluster action returns the first policy whose status is
    fresh and Ready and whose spec grants the action, whatever its effective
    namespaces, and fails exactly when there is none; an action that targets
    workloads is never granted this way. *)
Theorem select_cluster_action_policy_refines ps kind now after :
  match select_cluster_action_policy ps kind now after with
  | Ok ep =>
      first_with (judge_cluster now after kind) (authorises_cluster now after kind) ps ep /\
      policy_action_targets_workload kind = false
  | Err e =>
      Forall (fun p => ~ authorises_cluster now after kind p) ps /\
      starts_with ("cluster action " +s+ kind +s+ " is not eligible: ") e = true
  end.
Proof.
  pose proof (select_policy_refines _ _ (judge_cluster_authorises now after kind)
    (fun p ep H => proj1 (proj1 (judge_cluster_accept _ _ _ p ep) H)) ps) as Hs.
  unfold select_cluster_action_policy. destruct (select_policy _ ps []) as [ep|reasons]; cbn [map_err].
  - split; [done|]. destruct Hs as (? & ? & _ & _ & _ & Hj).
    apply judge_cluster_accept in Hj as (_ & _ & Hg).
    destruct (policy_action_targets_workload kind) eqn:Hw; [|done].
    by destruct (grants_resource _ _ _ _ Hg Hw) as (? & [=] & _).
  - split; [done|]. apply starts_with_spec. eexists. by rewrite !append_assoc.
Qed.

(** The limits check lets a resource spec through exactly when every
    quantity it declares that a limit governs can be read and is at most that
    limit; any other spec is rejected with a message that starts with "limits
    exceeded". *)
Theorem policy_limits_exact lim rs :
  (policy_limits_violation_reason lim rs = None <-> within_limits lim rs) /\
  (forall reason, policy_limits_violation_reason lim rs = Some reason ->
     starts_with "limits exceeded: " reason = true).
Proof.
  split; [apply policy_limits_violation_reason_none|].
  unfold policy_limits_violation_reason. intros reason (l & -> & H)%bind_Some.
  destruct (is_empty _); simplify_eq. apply starts_with_spec. by eexists.
Qed.
