(* ===== verification/Workload.v ===== *)
(** * Workload manifests (the free functions of executor.rs)

    Patches that the executor sends, readers of the pod templates of the three
    workload controllers, the image check of [update_agent], and the
    sanitising of a manifest for [get_resource_yaml]. *)
From S2P Require Import Prelude RustStr Json Effects Kube Model.
Local Open Scope Z_scope.

Definition UPDATE_AGENT_ALLOWED_PREFIX : string :=
  "us-east1-docker.pkg.dev/sentinella-hub/kubernetes-agent/".
Definition UPDATE_AGENT_DAEMONSET : string := "sentinella-hub-k8s-agent".
Definition UPDATE_AGENT_CONTAINER : string := "agent".
Definition RESOURCE_YAML_FORMAT : string := "yaml".
Definition RESOURCE_YAML_MODE : string := "manifest".
Definition RESOURCE_YAML_MAX_BYTES : Z := 512 * 1024.
Definition ACTION_MODE_NAMESPACE_LABEL : string := "sentinella.io/action-mode".
Definition ACTION_MODE_NAMESPACE_LABEL_ENABLED : string := "true".

(** ** Patches *)

Definition resource_map_to_value (resources : ResourceMap) : json :=
  if is_none (rm_cpu resources) && is_none (rm_memory resources) then JNull
  else
    let out := [] in
    let out := match rm_cpu resources with
               | Some cpu => obj_insert "cpu" (JStr cpu) out | None => out end in
    let out := match rm_memory resources with
               | Some memory => obj_insert "memory" (JStr memory) out | None => out end in
    JObj out.

Definition containers_patch (container : json) : json :=
  jobj [("spec", jobj [("template", jobj [("spec", jobj [("containers", JArr [container])])])])].

Definition build_workload_resources_patch (spec : WorkloadResourcesSpec) : result string json :=
  if is_none (wr_requests spec) && is_none (wr_limits spec)
  then Err "at least one of requests or limits must be provided"
  else
    let resources := [] in
    let resources := match wr_requests spec with
      | Some requests => obj_insert "requests" (resource_map_to_value requests) resources
      | None => resources end in
    let resources := match wr_limits spec with
      | Some limits => obj_insert "limits" (resource_map_to_value limits) resources
      | None => resources end in
    Ok (containers_patch
          (jobj [("name", JStr (wr_container spec)); ("resources", JObj resources)])).

Definition RESTARTED_AT : string := "kubectl.kubernetes.io/restartedAt".

Definition rollout_restart_patch (_target : WorkloadTargetRef) (restart_at : string) : json :=
  jobj [("spec", jobj [("template", jobj [("metadata",
    jobj [("annotations", jobj [(RESTARTED_AT, JStr restart_at)])])])])].

Definition update_agent_patch (image : string) : json :=
  containers_patch (jobj [("name", JStr UPDATE_AGENT_CONTAINER); ("image", JStr image)]).

(** ** Pod templates *)

(** What the handlers use of each controller: its API resource, its kind and
    its pod template. *)
Record Controller := {
  ctl_resource : resource;
  ctl_kind : string;
  ctl_template : obj ctl_resource -> option PodTemplateSpec;
  ctl_metadata : obj ctl_resource -> ObjectMeta }.

Definition deployment_controller : Controller :=
  {| ctl_resource := RDeployment; ctl_kind := "Deployment";
     ctl_template := fun w => dp_template <$> dp_spec w; ctl_metadata := dp_metadata |}.
Definition statefulset_controller : Controller :=
  {| ctl_resource := RStatefulSet; ctl_kind := "StatefulSet";
     ctl_template := fun w => st_template <$> st_spec w; ctl_metadata := st_metadata |}.
Definition daemonset_controller : Controller :=
  {| ctl_resource := RDaemonSet; ctl_kind := "DaemonSet";
     ctl_template := fun w => ds_template <$> ds_spec w; ctl_metadata := ds_metadata |}.

(** The [match] on the kind name that heads each of the generic handlers. *)
Definition controller_of (kind : string) : option Controller :=
  match kind with
  | "Deployment" => Some deployment_controller
  | "StatefulSet" => Some statefulset_controller
  | "DaemonSet" => Some daemonset_controller
  | _ => None
  end.

Definition quantity_map_to_value (resources : gmap string string) : json :=
  jobj (map (fun p => (fst p, JStr (snd p))) (btree_iter resources)).

Definition resource_requirements_to_value (resources : option ResourceRequirements) : json :=
  let out := [] in
  match resources with
  | None => JObj out
  | Some resources =>
      let out := match rr_requests resources with
        | Some requests => obj_insert "requests" (quantity_map_to_value requests) out
        | None => out end in
      let out := match rr_limits resources with
        | Some limits => obj_insert "limits" (quantity_map_to_value limits) out
        | None => out end in
      JObj out
  end.

Definition container_resources (containers : list Container) (container : string)
    : result string json :=
  found ← ok_or (find_first (fun candidate => String.eqb (c_name candidate) container) containers)
            ("container not found in workload pod template: " +s+ container);
  mret (resource_requirements_to_value (c_resources found)).

Definition template_containers (t : option PodTemplateSpec) : option (list Container) :=
  t ← t; containers <$> tpl_spec t.

(** [{deployment,statefulset,daemonset}_container_resources]. *)
Definition workload_container_resources (c : Controller) (workload : obj (ctl_resource c))
    (container : string) : result string json :=
  containers ← ok_or (template_containers (ctl_template c workload))
                 (ctl_kind c +s+ " has no pod template spec: " +s+ container);
  container_resources containers container.

(** [{deployment,statefulset,daemonset}_pod_labels]. *)
Definition workload_pod_labels (c : Controller) (workload : obj (ctl_resource c))
    : gmap string string :=
  unwrap_or ∅ (t ← ctl_template c workload; m ← tpl_metadata t; labels m).

Definition daemonset_container_image (workload : DaemonSet) (container : string)
    : result string string :=
  containers ← ok_or (template_containers (ds_template <$> ds_spec workload))
    ("target DaemonSet has no pod template spec for container " +s+ container);
  matched ← ok_or (find_first (fun candidate => String.eqb (c_name candidate) container) containers)
    ("target DaemonSet missing expected container " +s+ container);
  ok_or (c_image matched)
    ("target DaemonSet container " +s+ container +s+ " has no image field").

(** The [restartedAt] annotation of the pod template. *)
Definition restarted_at (t : option PodTemplateSpec) : option string :=
  t ← t; m ← tpl_metadata t; ann ← annotations m; ann !! RESTARTED_AT.

Definition vpa_mode_is_conflicting (mode : option string) : bool :=
  let m := unwrap_or "Auto" mode in String.eqb m "Auto" || String.eqb m "Recreate".

Definition namespace_action_mode_enabled (ns : Namespace) : result string unit :=
  let nm := unwrap_or "<unknown>" (name (ns_metadata ns)) in
  let value := ls ← labels (ns_metadata ns); ls !! ACTION_MODE_NAMESPACE_LABEL in
  if bool_decide (value = Some ACTION_MODE_NAMESPACE_LABEL_ENABLED) then Ok tt else
  match value with
  | Some found =>
      Err ("namespace " +s+ nm +s+ " is not enabled for Sentinella action mode: label "
           +s+ ACTION_MODE_NAMESPACE_LABEL +s+ "=" +s+ found +s+ " is required")
  | None =>
      Err ("namespace " +s+ nm +s+ " is not enabled for Sentinella action mode: add label "
           +s+ ACTION_MODE_NAMESPACE_LABEL +s+ "=" +s+ ACTION_MODE_NAMESPACE_LABEL_ENABLED)
  end.

(** ** The image of [update_agent] *)

Definition validate_update_agent_image (image : string) : result string string :=
  let image := trim image in
  if str_is_empty image then Err "update_agent image must be non-empty" else
  some suffix := strip_prefix UPDATE_AGENT_ALLOWED_PREFIX image
    else Err ("update_agent image must start with allowed prefix "
              +s+ UPDATE_AGENT_ALLOWED_PREFIX) in
  if str_is_empty suffix || String.eqb suffix "/"
  then Err "update_agent image must include an image name after allowed prefix" else
  match rsplit_once "@sha256:" suffix with
  | Some (_, digest) =>
      if (str_len digest =? 64) && str_all is_ascii_hexdigit digest then Ok image
      else Err "update_agent image has invalid sha256 digest format"
  | None =>
      match rsplit_once ":" suffix with
      | Some (nm, tag) =>
          if str_is_empty nm || str_is_empty tag
          then Err "update_agent image must include non-empty image name and tag"
          else Ok image
      | None => Err "update_agent image must include either :<tag> or @sha256:<digest>"
      end
  end.

(** ** Manifests *)

Definition split_api_version (api_version : string) : option (string * string) :=
  match split_once "/" api_version with
  | Some (group, version) =>
      if str_is_empty group || str_is_empty version then None else Some (group, version)
  | None => if str_is_empty api_version then None else Some ("", api_version)
  end.

Definition SERVER_FIELDS : list string :=
  ["managedFields"; "resourceVersion"; "uid"; "creationTimestamp"; "generation"; "selfLink"].

Definition sanitize_manifest_like_yaml (value : json) : result string json :=
  match value with
  | JObj o =>
      match obj_get "metadata" o with
      | Some (JObj metadata) =>
          let metadata := fold_left (fun m field => obj_remove field m) SERVER_FIELDS metadata in
          Ok (JObj (obj_remove "status" (obj_update "metadata" (JObj metadata) o)))
      | Some _ => Err "expected Kubernetes metadata object"
      | None => Ok (JObj (obj_remove "status" o))
      end
  | _ => Err "expected Kubernetes object payload"
  end.

Definition resource_yaml_read_error (kind namespace name : string) (err : KubeError) : string :=
  let scope := if str_is_empty namespace then kind +s+ " " +s+ name
               else kind +s+ " " +s+ namespace +s+ "/" +s+ name in
  match err with
  | ApiError code reason _ =>
      if code =? 403 then "forbidden to read " +s+ scope
      else if code =? 404 then "resource " +s+ scope +s+ " not found"
      else "failed to read " +s+ scope +s+ ": kube API error " +s+ int_to_string code
           +s+ " " +s+ reason
  | _ => "failed to read " +s+ scope +s+ ": " +s+ kube_display err
  end.

(** ** Lemmas *)

Lemma containers_patch_pointer c :
  json_pointer ["spec"; "template"; "spec"; "containers"] (containers_patch c) = Some (JArr [c]).
Proof. reflexivity. Qed.

(** What an image must look like to be accepted: a reference under the allowed
    prefix, by digest, or by a non-empty name and tag. *)
Definition digest_reference (suffix : string) : Prop :=
  exists nm digest, suffix = nm +s+ "@sha256:" +s+ digest /\
    str_len digest = 64 /\ str_all is_ascii_hexdigit digest = true.
Definition tag_reference (suffix : string) : Prop :=
  exists nm tag, suffix = nm +s+ ":" +s+ tag /\ nm <> "" /\ tag <> "" /\
    free_of ":" tag = true /\ ~ occurs "@sha256:" suffix.
Definition agent_image (image : string) : Prop :=
  exists suffix, image = UPDATE_AGENT_ALLOWED_PREFIX +s+ suffix /\
    (digest_reference suffix \/ tag_reference suffix).

Lemma str_all_mono (p q : ascii -> bool) s :
  (forall a, p a = true -> q a = true) -> str_all p s = true -> str_all q s = true.
Proof.
  intros H. induction s as [|a s IH]; simpl; [done|].
  intros [? ?]%andb_true_iff. apply andb_true_iff. auto.
Qed.

Lemma hexdigit_free s : str_all is_ascii_hexdigit s = true -> free_of "@" s = true.
Proof.
  apply str_all_mono. intros a Ha. destruct (Ascii.eqb_spec "@" a) as [<-|]; [|done].
  by vm_compute in Ha.
Qed.

Lemma rsplit_digest nm digest :
  str_all is_ascii_hexdigit digest = true ->
  rsplit_once "@sha256:" (nm +s+ "@sha256:" +s+ digest) = Some (nm, digest).
Proof. intros H%hexdigit_free. apply rsplit_once_last. exact H. Qed.

Lemma reference_not_slash suffix :
  digest_reference suffix \/ tag_reference suffix ->
  str_is_empty suffix || String.eqb suffix "/" = false.
Proof.
  intros H. apply orb_false_iff. split.
  - destruct suffix; [|done].
    destruct H as [(nm & d & H & _)|(nm & t & H & _)]; by destruct nm.
  - apply String.eqb_neq. intros ->.
    destruct H as [(nm & d & H & _)|(nm & t & H & _)]; destruct nm as [|? [|]]; by simplify_eq/=.
Qed.

Lemma image_reference_spec suffix :
  match rsplit_once "@sha256:" suffix with
  | Some (_, digest) => (str_len digest =? 64) && str_all is_ascii_hexdigit digest
  | None => match rsplit_once ":" suffix with
            | Some (nm, tag) => negb (str_is_empty nm || str_is_empty tag)
            | None => false
            end
  end = true <-> digest_reference suffix \/ tag_reference suffix.
Proof.
  destruct (rsplit_once "@sha256:" suffix) as [[nm digest]|] eqn:Hd.
  - rewrite andb_true_iff, Z.eqb_eq. split.
    + intros [? ?]. left. exists nm, digest. split; [by apply rsplit_once_some|done].
    + intros [(nm' & d' & -> & Hl & Hh)|(? & ? & _ & _ & _ & _ & Hno)].
      * rewrite rsplit_digest in Hd by done. by simplify_eq.
      * destruct Hno. apply rsplit_once_some in Hd. by exists nm, digest.
  - pose proof Hd as Hno. apply rsplit_once_none in Hno.
    destruct (rsplit_once ":" suffix) as [[nm tag]|] eqn:Ht.
    + rewrite negb_true_iff, orb_false_iff. split.
      * intros [Hn Htg]. right. exists nm, tag. split_and!; [by apply rsplit_once_some| | | |done].
        -- by destruct nm.
        -- by destruct tag.
        -- by eapply rsplit_once_rest_free.
      * intros [(nm' & d' & -> & _ & Hh)|(nm' & t' & -> & Hn & Htg & Hf & _)].
        -- by rewrite rsplit_digest in Hd.
        -- assert (rsplit_once ":" (nm' +s+ ":" +s+ t') = Some (nm', t')) as He
             by (apply (rsplit_once_last ":" ""); exact Hf).
           rewrite He in Ht. simplify_eq. by destruct nm, tag.
    + split; [done|]. apply rsplit_once_none in Ht.
      intros [(nm' & d' & -> & _ & Hh)|(nm' & t' & -> & _)].
      * by rewrite rsplit_digest in Hd.
      * destruct Ht. by exists nm', t'.
Qed.

Lemma validate_image_ok image image' :
  validate_update_agent_image image = Ok image' <-> image' = trim image /\ agent_image (trim image).
Proof.
  unfold validate_update_agent_image, agent_image. set (i := trim image).
  destruct (str_is_empty i) eqn:He.
  { apply str_is_empty_spec in He. rewrite He. split; [done|].
    intros (_ & suffix & H & _). discriminate H. }
  destruct (strip_prefix _ i) as [suffix|] eqn:Hp.
  2:{ split; [done|]. intros (_ & suffix & H & _).
      by rewrite H, strip_prefix_app in Hp. }
  apply strip_prefix_some in Hp.
  assert (Huniq : forall s, i = UPDATE_AGENT_ALLOWED_PREFIX +s+ s -> s = suffix).
  { intros s H. pose proof (strip_prefix_app UPDATE_AGENT_ALLOWED_PREFIX s) as H1.
    rewrite <- H, Hp, strip_prefix_app in H1. by simplify_eq. }
  pose proof (image_reference_spec suffix) as Hspec.
  transitivity (image' = i /\ (digest_reference suffix \/ tag_reference suffix)).
  2:{ split; [intros [-> ?]; split; [done|]; by exists suffix|].
      intros [-> (s & Hs & ?)]. split; [done|]. by rewrite <- (Huniq s Hs). }
  destruct (str_is_empty suffix || String.eqb suffix "/") eqn:Hs.
  { split; [done|]. intros [_ H]. apply reference_not_slash in H. congruence. }
  rewrite <- Hspec. clear. crush_match; naive_solver.
Qed.

(** ** Properties *)

(** The image check accepts exactly the references, after trimming, that
    lie under the allowed registry prefix and are pinned by a digest of 64
    hexadecimal digits, or by a non-empty name and a non-empty tag; the
    accepted value is the trimmed image. *)
Theorem validate_update_agent_image_exact image :
  match validate_update_agent_image image with
  | Ok image' => image' = trim image /\ agent_image image'
  | Err _ => ~ agent_image (trim image)
  end.
Proof.
  destruct (validate_update_agent_image image) as [image'|e] eqn:H.
  - by apply validate_image_ok in H as [-> ?].
  - intros Ha. pose proof (proj2 (validate_image_ok image _) (conj eq_refl Ha)). congruence.
Qed.

(** A digest makes an empty image name acceptable, which the tag form
    refuses. *)
Example digest_without_name :
  validate_update_agent_image (UPDATE_AGENT_ALLOWED_PREFIX +s+ "@sha256:"
    +s+ "0123456789abcdef0123456789abcdef0123456789abcdef0123456789abcdef")
  = Ok (UPDATE_AGENT_ALLOWED_PREFIX +s+ "@sha256:"
    +s+ "0123456789abcdef0123456789abcdef0123456789abcdef0123456789abcdef").
Proof. vm_compute. reflexivity. Qed.

(** The quantities that a container patch [c] asks for. *)
Definition patched_quantity (side field : string) (c : json) : option json :=
  json_pointer ["resources"; side; field] c.

Lemma resource_map_get m k :
  json_get k (resource_map_to_value m) =
    if String.eqb k "cpu" then JStr <$> rm_cpu m
    else if String.eqb k "memory" then JStr <$> rm_memory m else None.
Proof.
  destruct m as [[c|] [mem|]]; unfold resource_map_to_value; simpl;
    (destruct (String.eqb_spec k "cpu") as [->|];
     [|destruct (String.eqb_spec k "memory") as [->|]]); try done;
    rewrite ?obj_get_insert_eq, ?obj_get_insert_ne by done; done.
Qed.

Lemma build_patch_ok spec p :
  build_workload_resources_patch spec = Ok p ->
  exists c, p = containers_patch c /\
    json_get "name" c = Some (JStr (wr_container spec)) /\
    (forall k, k <> "name" -> k <> "resources" -> json_get k c = None) /\
    (forall side, json_pointer ["resources"; side] c =
       if String.eqb side "requests" then resource_map_to_value <$> wr_requests spec
       else if String.eqb side "limits" then resource_map_to_value <$> wr_limits spec else None).
Proof.
  unfold build_workload_resources_patch.
  destruct (is_none (wr_requests spec) && is_none (wr_limits spec)); [done|].
  intros [= <-]. eexists. split_and!; [reflexivity|reflexivity| |].
  - intros k H1%String.eqb_neq H2%String.eqb_neq. simpl. by rewrite H1, H2.
  - intros side. destruct (wr_requests spec) as [r|], (wr_limits spec) as [l|]; simpl;
      (destruct (String.eqb_spec side "requests") as [->|];
       [|destruct (String.eqb_spec side "limits") as [->|]]); try done;
      rewrite ?obj_get_insert_eq, ?obj_get_insert_ne by done; done.
Qed.

(** The patch of a resource change is a strategic-merge patch of one
    container, the one the spec names, and asks for exactly the quantities of
    the spec: reading cpu and memory of requests and limits back from the
    patch gives the spec's values, and no other field of the container is
    mentioned.  Without requests and limits there is no patch. *)
Theorem build_workload_resources_patch_exact spec :
  match build_workload_resources_patch spec with
  | Ok p => exists c, p = containers_patch c /\
      json_get "name" c = Some (JStr (wr_container spec)) /\
      (forall k, k <> "name" -> k <> "resources" -> json_get k c = None) /\
      patched_quantity "requests" "cpu" c = JStr <$> (m ← wr_requests spec; rm_cpu m) /\
      patched_quantity "requests" "memory" c = JStr <$> (m ← wr_requests spec; rm_memory m) /\
      patched_quantity "limits" "cpu" c = JStr <$> (m ← wr_limits spec; rm_cpu m) /\
      patched_quantity "limits" "memory" c = JStr <$> (m ← wr_limits spec; rm_memory m) /\
      (forall side field,
         ~ In side ["requests"; "limits"] \/ ~ In field ["cpu"; "memory"] ->
         patched_quantity side field c = None)
  | Err _ => wr_requests spec = None /\ wr_limits spec = None
  end.
Proof.
  destruct (build_workload_resources_patch spec) as [p|e] eqn:Hb.
  - apply build_patch_ok in Hb as (c & -> & Hn & Hk & Hs). exists c.
    assert (Hq : forall side field, patched_quantity side field c =
      (v ← (if String.eqb side "requests" then resource_map_to_value <$> wr_requests spec
            else if String.eqb side "limits" then resource_map_to_value <$> wr_limits spec
            else None); json_get field v)).
    { intros side field. unfold patched_quantity. rewrite <- (Hs side). simpl.
      destruct (json_get "resources" c); simpl; [|done].
      destruct (json_get side _); simpl; [|done]. by destruct (json_get field _). }
    split_and!; try done; rewrite ?Hq; simpl.
    1-4: repeat case_match; simplify_eq/=; rewrite ?resource_map_get; try done;
      by destruct (wr_requests spec), (wr_limits spec); simpl; rewrite ?resource_map_get.
    intros side field Hor. rewrite Hq.
    destruct (String.eqb_spec side "requests") as [->|]; [|
      destruct (String.eqb_spec side "limits") as [->|]; [|done]].
    + destruct (wr_requests spec); simpl; [|done]. rewrite resource_map_get.
      destruct (String.eqb_spec field "cpu"), (String.eqb_spec field "memory");
        try done; subst; destruct Hor as [[]|[]]; simpl; auto.
    + destruct (wr_limits spec); simpl; [|done]. rewrite resource_map_get.
      destruct (String.eqb_spec field "cpu"), (String.eqb_spec field "memory");
        try done; subst; destruct Hor as [[]|[]]; simpl; auto.
  - unfold build_workload_resources_patch in Hb.
    by destruct (wr_requests spec), (wr_limits spec).
Qed.

(** Removing a list of keys one after the other. *)
Definition remove_all (fields : list string) (l : list (string * json)) : list (string * json) :=
  fold_left (fun m field => obj_remove field m) fields l.
#[global] Arguments remove_all : simpl never.

Lemma remove_all_cons f fs l : remove_all (f :: fs) l = remove_all fs (obj_remove f l).
Proof. reflexivity. Qed.

Lemma remove_all_comm fs k l : remove_all fs (obj_remove k l) = obj_remove k (remove_all fs l).
Proof.
  revert l; induction fs as [|f fs IH]; intros l; rewrite ?remove_all_cons; [done|].
  by rewrite obj_remove_comm, IH.
Qed.

Lemma remove_all_idem fs l : remove_all fs (remove_all fs l) = remove_all fs l.
Proof.
  revert l; induction fs as [|f fs IH]; intros l; rewrite ?remove_all_cons; [done|].
  by rewrite !remove_all_comm, obj_remove_idem, IH.
Qed.

Lemma remove_all_get fs k l :
  obj_get k (remove_all fs l) = if str_mem k fs then None else obj_get k l.
Proof.
  revert l; induction fs as [|f fs IH]; intros l; rewrite ?remove_all_cons; [done|].
  rewrite IH. unfold str_mem; simpl. destruct (String.eqb_spec k f) as [->|Hne]; simpl.
  - rewrite obj_get_remove_eq. by destruct (existsb _ fs).
  - by rewrite obj_get_remove_ne.
Qed.

Lemma sanitize_ok v v' :
  sanitize_manifest_like_yaml v = Ok v' ->
  exists o, v = JObj o /\
    ((exists m, obj_get "metadata" o = Some (JObj m) /\
        v' = JObj (obj_remove "status" (obj_update "metadata" (JObj (remove_all SERVER_FIELDS m)) o)))
     \/ (obj_get "metadata" o = None /\ v' = JObj (obj_remove "status" o))).
Proof.
  unfold sanitize_manifest_like_yaml. destruct v as [| | | | | |o]; try done.
  destruct (obj_get "metadata" o) as [[| | | | | |m]|] eqn:Hm; try done;
    intros [= <-]; exists o; split; try done; [left; by exists m|by right].
Qed.

Lemma sanitize_idem v v' :
  sanitize_manifest_like_yaml v = Ok v' -> sanitize_manifest_like_yaml v' = Ok v'.
Proof.
  intros (o & -> & [(m & Hm & ->)|(Hm & ->)])%sanitize_ok; unfold sanitize_manifest_like_yaml.
  - rewrite obj_get_remove_ne, (obj_get_update_eq _ _ _ _ Hm) by done.
    change (fold_left _ SERVER_FIELDS ?l) with (remove_all SERVER_FIELDS l).
    by rewrite remove_all_idem, <- obj_update_remove, obj_remove_idem, obj_update_idem.
  - rewrite obj_get_remove_ne, Hm by done. by rewrite obj_remove_idem.
Qed.

(** Sanitising a manifest removes the status and the six server-managed
    metadata fields and nothing else, and a second pass changes nothing.  It
    fails exactly on a value that is no object or whose metadata is no
    object. *)
Theorem sanitize_manifest_exact v :
  match sanitize_manifest_like_yaml v with
  | Ok v' =>
      json_get "status" v' = None /\
      (forall k, k <> "status" -> k <> "metadata" -> json_get k v' = json_get k v) /\
      (forall f, json_pointer ["metadata"; f] v' =
         if str_mem f SERVER_FIELDS then None else json_pointer ["metadata"; f] v) /\
      sanitize_manifest_like_yaml v' = Ok v'
  | Err _ => (forall o, v <> JObj o) \/
      (exists x, json_get "metadata" v = Some x /\ forall m, x <> JObj m)
  end.
Proof.
  destruct (sanitize_manifest_like_yaml v) as [v'|e] eqn:Hs.
  - pose proof (sanitize_idem _ _ Hs) as Hi.
    apply sanitize_ok in Hs as (o & -> & Hc).
    destruct Hc as [(m & Hm & Heq)|(Hm & Heq)]; rewrite Heq in Hi |- *; cbn [json_get];
      (split_and!; [apply obj_get_remove_eq| | |exact Hi]).
    + intros k H1 H2. by rewrite obj_get_remove_ne, obj_get_update_ne.
    + intros f. cbn [json_pointer json_get].
      rewrite obj_get_remove_ne, (obj_get_update_eq _ _ _ _ Hm), Hm by done. simpl.
      rewrite remove_all_get. simpl. case_match; [done|]. by destruct (obj_get f m).
    + intros k H1 H2. by rewrite obj_get_remove_ne.
    + intros f. cbn [json_pointer json_get].
      rewrite obj_get_remove_ne, Hm by done. simpl. by case_match.
  - unfold sanitize_manifest_like_yaml in Hs. destruct v as [| | | | | |o]; try (left; congruence).
    right. simpl. destruct (obj_get "metadata" o) as [[| | | | | |m]|] eqn:Hm; try done;
      eexists; split; try reflexivity; congruence.
Qed.
