(* ===== verification/Access.v ===== *)
(** * Access to the action policies (executor.rs)

    The executor lists the policies from the API server, decodes them and asks
    Policy.v for one that authorises the command.  The encoders and decoders
    that serde derives are the class [Codec]; nothing is assumed about them.
    [consulted] is the evidence, in a history of operations, that a policy
    authorised a command; the handlers' theorems are stated with it. *)
From S2P Require Import Prelude RustStr Json Effects Kube Model Config Policy.
Local Open Scope Z_scope.

(** Generated code: [#[derive(Serialize, Deserialize)]] and [serde_yaml]. *)
Class Codec := {
  dyn_to_value : DynamicObject -> result string json;
  yaml_to_string : json -> result string string;
  #[global] policy_from_value :: FromValue SentinellaHubActionPolicy;
  #[global] resource_yaml_spec_from_value :: FromValue ResourceYamlSpec;
  #[global] postgresql_spec_from_value :: FromValue PostgresqlDiagnosticSpec;
  #[global] workload_resources_spec_from_value :: FromValue WorkloadResourcesSpec;
  #[global] rollout_restart_spec_from_value :: FromValue RolloutRestartSpec;
  #[global] scale_repr_from_value :: FromValue ScaleRepr;
  #[global] drain_node_spec_from_value :: FromValue DrainNodeSpec;
  #[global] self_update_spec_from_value :: FromValue SelfUpdateSpec;
  #[global] update_agent_spec_from_value :: FromValue UpdateAgentSpec }.

Definition ACTION_POLICY_GROUP : string := "sentinella.io".
Definition ACTION_POLICY_VERSION : string := "v1alpha1".
Definition ACTION_POLICY_KIND : string := "SentinellaHubActionPolicy".
Definition RPolicy : resource :=
  RDynamic ACTION_POLICY_GROUP ACTION_POLICY_VERSION ACTION_POLICY_KIND.

Section access.
Context `{Codec} (cfg : Config).

(** The decoding loop of [list_action_policies]. *)
Fixpoint decode_policies (items : list DynamicObject)
    : result string (list SentinellaHubActionPolicy) :=
  match items with
  | [] => Ok []
  | policy :: items =>
      value ← dyn_to_value policy;
      policy ← map_err (fun e => "failed to deserialize " +s+ ACTION_POLICY_KIND +s+ ": " +s+ e)
                 (from_value value : result string SentinellaHubActionPolicy);
      out ← decode_policies items;
      mret (policy :: out)
  end.

Definition list_action_policies : kprog (result string (list SentinellaHubActionPolicy)) :=
  listed ← call (ListObjs RPolicy None None);
  mret (items ← map_err (fun e => "failed to list " +s+ ACTION_POLICY_KIND +s+ ": "
                                 +s+ kube_display e) listed;
        decode_policies items).

Definition ensure_effective_policy_allows (namespace command_kind : string)
    (target_kind : option string) (resource_spec : option WorkloadResourcesSpec)
    : kprog (result string EffectivePolicy) :=
  policies ← list_action_policies;
  try policies := policies else message => mret (Err message) in
  now ← call NowMs;
  mret (select_effective_policy policies now (stale_after_ms cfg) namespace command_kind
          target_kind resource_spec).

Definition ensure_cluster_action_allowed (command_kind : string)
    : kprog (result string EffectivePolicy) :=
  policies ← list_action_policies;
  try policies := policies else message => mret (Err message) in
  now ← call NowMs;
  mret (select_cluster_action_policy policies command_kind now (stale_after_ms cfg)).

Definition ensure_effective_policy_ready (namespace : string)
    : kprog (result string EffectivePolicy) :=
  policies ← list_action_policies;
  try policies := policies else message => mret (Err message) in
  now ← call NowMs;
  mret (select_ready_policy policies now (stale_after_ms cfg) namespace).

(** ** Evidence of an authorisation *)

(** What a policy must authorise: a command in a namespace, or on the
    cluster. *)
Inductive permit :=
  | NamespacePermit (namespace command_kind : string) (target_kind : option string)
      (resource_spec : option WorkloadResourcesSpec)
  | ClusterPermit (command_kind : string).

Definition permitted (a : permit) (now : Z) (p : SentinellaHubActionPolicy) : Prop :=
  match a with
  | NamespacePermit ns kind target rs => authorises now (stale_after_ms cfg) ns kind target rs p
  | ClusterPermit kind => authorises_cluster now (stale_after_ms cfg) kind p
  end.

(** In the history the policies were listed, then the clock was read, and
    one of the listed policies authorised the command at that time. *)
Definition consulted (a : permit) (h : list kevent) : Prop :=
  exists h1 listed now h2 policies p,
    h = h1 ++ [ev (R:=resp) (ListObjs RPolicy None None) (Ok listed); ev NowMs now] ++ h2 /\
    decode_policies listed = Ok policies /\ In p policies /\ permitted a now p.

Lemma consulted_app a h t : consulted a h -> consulted a (h ++ t).
Proof.
  intros (h1 & l & now & h2 & ps & p & -> & ? & ? & ?).
  exists h1, l, now, (h2 ++ t), ps, p. by rewrite <- !app_assoc.
Qed.

(** ** The program logic of the two guards *)

Section logic.
Context (G : list kevent -> op -> Prop) (Hread : forall h o, mutating o = false -> G h o).

Lemma wp_list_action_policies Q h :
  (forall (x : result KubeError (list DynamicObject)) r,
     (forall ps, r = Ok ps -> exists l, x = Ok l /\ decode_policies l = Ok ps) ->
     Q r (h ++ [ev (R:=resp) (ListObjs RPolicy None None) x])) ->
  wp G Q h list_action_policies.
Proof using Hread.
  intros HQ. unfold list_action_policies. wp_step. wp_step; [by apply Hread|].
  intros x. wp_step. apply (HQ x). intros ps Hps.
  destruct x as [l|e]; simpl in Hps; [|done]. by exists l.
Qed.

Lemma wp_ensure_effective_policy_allows Q h ns kind target rs :
  (forall r t, (forall ep, r = Ok ep -> consulted (NamespacePermit ns kind target rs) (h ++ t)) ->
     Q r (h ++ t)) ->
  wp G Q h (ensure_effective_policy_allows ns kind target rs).
Proof using Hread.
  intros HQ. unfold ensure_effective_policy_allows. wp_step.
  apply wp_list_action_policies. intros x r Hr.
  destruct r as [ps|m]; [|wp_step; by apply HQ].
  destruct (Hr ps eq_refl) as (l & -> & Hd).
  wp_step. wp_step; [by apply Hread|]. intros now. wp_step.
  rewrite <- app_assoc. apply HQ. intros ep Hep.
  apply select_effective_policy_ok in Hep as (p & Hin & Ha).
  exists h, l, now, [], ps, p. by rewrite app_nil_r.
Qed.

Lemma wp_ensure_cluster_action_allowed Q h kind :
  (forall r t, (forall ep, r = Ok ep -> consulted (ClusterPermit kind) (h ++ t)) -> Q r (h ++ t)) ->
  wp G Q h (ensure_cluster_action_allowed kind).
Proof using Hread.
  intros HQ. unfold ensure_cluster_action_allowed. wp_step.
  apply wp_list_action_policies. intros x r Hr.
  destruct r as [ps|m]; [|wp_step; by apply HQ].
  destruct (Hr ps eq_refl) as (l & -> & Hd).
  wp_step. wp_step; [by apply Hread|]. intros now. wp_step.
  rewrite <- app_assoc. apply HQ. intros ep Hep.
  apply select_cluster_action_policy_ok in Hep as (p & Hin & Ha).
  exists h, l, now, [], ps, p. by rewrite app_nil_r.
Qed.
End logic.
End access.

(** ** What a handler may do *)

(** The same operation succeeded as a server-side dry run. *)
Definition rehearsed (o : op) (h : list kevent) : Prop :=
  match o with
  | PatchObj r ns nm _ p =>
      exists x, In (ev (R:=resp) (PatchObj r ns nm {| dry_run := true |} p) (Ok x)) h
  | PatchScale ns nm _ p =>
      exists x, In (ev (R:=resp) (PatchScale ns nm {| dry_run := true |} p) (Ok x)) h
  | _ => False
  end.

Section guards.
Context `{Codec} (cfg : Config).

(** An operation that changes the cluster happens only in a live run, after a
    policy authorised [a], after its own dry run if [rehearse], and it is one
    of the operations [P]. *)
Definition handler_guard (a : permit) (live rehearse : bool) (P : op -> Prop)
    (h : list kevent) (o : op) : Prop :=
  mutating o = true ->
  live = true /\ consulted cfg a h /\ (rehearse = true -> rehearsed o h) /\ P o.

Lemma handler_guard_read a live rehearse P h o :
  mutating o = false -> handler_guard a live rehearse P h o.
Proof. intros Hm Hm'. congruence. Qed.

(** The result of a handler: the command's id and one of two statuses. *)
Definition basic_result (id : string) (r : CommandResult) : Prop :=
  command_id r = id /\ (r_status r = "ok" \/ r_status r = "error").

Lemma wp_simple_basic G Q h id st msg f :
  (forall h o, mutating o = false -> G h o) ->
  (st = "ok" \/ st = "error") ->
  (forall r, basic_result id r -> basic_result id (f r)) ->
  (forall r t, basic_result id r -> Q r (h ++ t)) ->
  wp G Q h (r ← simple id st msg; mret (f r)).
Proof.
  intros HG Hst Hf HQ. wp_step. apply wp_simple; [by apply HG|]. intros now. wp_step.
  apply HQ, Hf. by split.
Qed.
End guards.

#[export] Hint Resolve handler_guard_read : agent.

(** Setting any other field keeps the id and the status. *)
Lemma basic_set_fields id r :
  basic_result id r ->
  (forall v, basic_result id (with_message v r)) /\
  (forall v, basic_result id (with_dry_run v r)) /\
  (forall v, basic_result id (with_applied_patch v r)) /\
  (forall v, basic_result id (with_observed_before v r)) /\
  (forall v, basic_result id (with_observed_after v r)) /\
  (forall v, basic_result id (with_warnings v r)) /\
  (forall v, basic_result id (with_diagnostic v r)) /\
  (forall v, basic_result id (with_restart_requested v r)) /\
  (forall v, basic_result id (with_requested_state v r)) /\
  (forall v, basic_result id (with_verification v r)) /\
  (forall v, basic_result id (with_resource_yaml v r)).
Proof. intros Hb. by destruct r. Qed.

(** Sets of fields on a basic result. *)
Ltac basic :=
  repeat match goal with
  | |- basic_result _ (_ _ ?r) => refine ((fun Hb => _) (basic_set_fields _ r _));
      [destruct_and!; by auto|]
  | |- basic_result _ (mkResult _ _ _ _ _ _ _ _ _ _ _ _ _ _) => split; [done|auto]
  end; try done.

(** A returning branch: an error or a success that ends the handler. *)
Ltac wp_done :=
  rewrite <- ?app_assoc;
  first
    [ wp_step; wp_done
    | apply wp_simple; [by auto with agent|]; intros ?; wp_done
    | match goal with |- wp _ _ _ (?f _) => unfold f; wp_done end
    | basic ].
