(* ===== verification/Demo.v ===== *)
(** * A sample cluster

    A small environment that answers every operation, used by the witnesses:
    a codec that decodes every policy object to one given policy, a policy
    that allows everything, a configuration, and an API server with a clock,
    one Deployment, one DaemonSet and a list of pods.  It is no part of the
    model of the agent. *)
From S2P Require Import Prelude RustStr Json Effects Kube Model Config Policy Access.
Local Open Scope Z_scope.

Definition demo_codec (policy : SentinellaHubActionPolicy) : Codec :=
  {| dyn_to_value := fun d => Ok (dyn_data d);
     yaml_to_string := fun _ => Ok "kind: Demo";
     policy_from_value := fun _ => Ok policy;
     resource_yaml_spec_from_value := fun _ =>
       Ok {| yaml_api_version := "v1"; yaml_kind := "ConfigMap";
             yaml_namespace := Some "shop"; yaml_name := "settings" |};
     postgresql_spec_from_value := fun _ =>
       Ok {| pg_namespace := "shop"; pg_service_name := None; pg_pod_selector := None;
             pg_secret_name := None |};
     workload_resources_spec_from_value := fun _ =>
       Ok {| workload_kind := "Deployment"; wr_namespace := "shop"; wr_name := "web";
             wr_container := "app";
             wr_requests := Some {| rm_cpu := Some "250m"; rm_memory := None |};
             wr_limits := None |};
     rollout_restart_spec_from_value := fun _ =>
       Ok {| rollout_execution := default_execute_execution_spec;
             rollout_target := {| tgt_kind := "Deployment"; tgt_namespace := "shop";
                                  tgt_name := "web" |} |};
     scale_repr_from_value := fun _ =>
       Ok (Legacy {| legacy_execution := None; legacy_kind := "Deployment";
                     legacy_namespace := "shop"; legacy_name := "web"; legacy_replicas := 3 |});
     drain_node_spec_from_value := fun _ =>
       Ok {| drain_node_name := " node-a "; timeout_seconds := None;
             grace_period_seconds := Some 30; force := false |};
     self_update_spec_from_value := fun _ =>
       Ok {| target_version := None; update_reason := None; strategy := None |};
     update_agent_spec_from_value := fun _ =>
       Ok {| image := "us-east1-docker.pkg.dev/sentinella-hub/kubernetes-agent/agent:1.2.3" |} |}.

Definition demo_conditions : list SentinellaHubActionPolicyCondition :=
  [{| type_ := "Ready"; cond_status := "True"; cond_reason := None; cond_message := None;
      cond_observed_generation := None; last_transition_time_ms := None |}].

(** Reconciled at time 0; fresh for three poll intervals. *)
Definition demo_policy : SentinellaHubActionPolicy :=
  {| metadata := meta_named "allow-all";
     spec := {| namespace_selector := None;
                allowed_actions := ACTION_POLICY_SUPPORTED_ACTIONS;
                allowed_resources := ACTION_POLICY_SUPPORTED_RESOURCES;
                approval_required := false;
                limits := Some {| max_cpu_limit := Some "1"; max_memory_limit := Some "1Gi" |} |};
     status := Some {| effective_namespaces := ["shop"]; conditions := demo_conditions;
                       observed_generation := Some 1; last_reconciled_at_ms := Some 0;
                       stale := false |} |}.

Definition demo_dyn : DynamicObject := {| dyn_metadata := meta_named "allow-all"; dyn_data := JObj [("kind", JStr "Demo")] |}.

(** The fields that matter to the executor; the rest is empty. *)
Definition demo_config (actions : bool) : Config :=
  {| hub_url := "https://hub"; cluster_id := "c1"; api_key := None;
     agent_version_override := None; collect_interval := 60; poll_wait := 20;
     actions_enabled := actions; action_operator_enabled := actions;
     action_operator_poll_interval := 30; action_operator_excluded_namespaces := [];
     readonly_commands_enabled := true; collect_secrets := false;
     collect_dependencies_tetragon := false; tetragon_endpoint_discovery_enabled := false;
     tetragon_required_for_readiness := false; tetragon_grpc_address := "";
     tetragon_grpc_port := 0; tetragon_service_namespace := ""; tetragon_service_name := "";
     http_timeout := 30; http_debug := false; http_debug_bodies := false; full_debug := false;
     agent_log := "info"; tech_detect_process := false; pod_name := ""; pod_namespace := "";
     agent_node_name := ""; lease_name := ""; lease_ttl := 30;
     workload_monitoring_enabled := false; workload_monitoring_namespaces := [];
     workload_monitoring_targets := []; postgresql_monitoring_enabled := false;
     postgresql_monitoring_namespaces := []; postgresql_monitoring_secret_name := None;
     postgresql_monitoring_host := None; postgresql_monitoring_port := None;
     postgresql_monitoring_user := None; postgresql_monitoring_password := None;
     postgresql_monitoring_database := None; postgresql_monitoring_sslmode := None;
     postgresql_monitoring_sslrootcert := None; app_metrics_enabled := false;
     app_metrics_discovery_enabled := false; app_metrics_namespaces := [];
     app_metrics_allowlist := []; app_metrics_timeout := 5; app_metrics_max_samples := 100 |}.

Record DemoCluster := { clock_ns : Z; demo_pods : list Pod }.

Definition demo_pod (ns nm owner : string) : Pod :=
  {| pod_metadata :=
       {| name := Some nm; namespace := Some ns; labels := None; annotations := None;
          generation := None; resource_version := None;
          owner_references := Some [{| owner_kind := owner; owner_name := "o" |}];
          creation_timestamp := None |};
     pod_spec := Some {| containers := []; node_name := Some "node-a" |}; pod_status := None |}.

Definition demo_template : PodTemplateSpec :=
  {| tpl_metadata := None;
     tpl_spec := Some {| containers := [
       container "app" (Some "app:1");
       container "agent" (Some "agent:1")];
       node_name := None |} |}.
Definition demo_deployment : Deployment :=
  {| dp_metadata := meta_named "web";
     dp_spec := Some {| dp_replicas := Some 1; dp_template := demo_template;
                        dp_selector := {| match_labels := None; match_expressions := None |} |};
     dp_status := Some {| dps_replicas := Some 1; dps_updated := Some 1; dps_available := Some 1;
                          dps_ready := Some 1; dps_observed_generation := None |} |}.
Definition demo_daemonset : DaemonSet :=
  {| ds_metadata := meta_named "sentinella-hub-k8s-agent";
     ds_spec := Some {| ds_template := demo_template |}; ds_status := None |}.
Definition demo_scale (n : Z) : Scale :=
  {| sc_spec := Some {| sc_replicas := Some n |}; sc_status := None |}.

Definition demo_get (r : resource) : result KubeError (obj r) :=
  match r return result KubeError (obj r) with
  | RNode => Ok {| nd_metadata := meta_named "node-a"; nd_spec := None; nd_status := None |}
  | RDeployment => Ok demo_deployment
  | RDaemonSet => Ok demo_daemonset
  | RDynamic _ _ _ => Ok demo_dyn
  | _ => Err (ApiError 404 "NotFound" "not found")
  end.

Definition demo_namespace (nm mode : string) : Namespace :=
  {| ns_metadata :=
       {| name := Some nm; namespace := None; labels := Some {["sentinella.io/action-mode" := mode]};
          annotations := None; generation := None; resource_version := None;
          owner_references := None; creation_timestamp := None |}; ns_status := None |}.

Definition demo_list (r : resource) (s : DemoCluster) : result KubeError (list (obj r)) :=
  match r return result KubeError (list (obj r)) with
  | RPod => Ok (demo_pods s)
  | RNamespace => Ok [demo_namespace "shop" "true"; demo_namespace "kube-system" "true"]
  | RDynamic "sentinella.io" _ _ => Ok [demo_dyn]
  | RDynamic _ _ _ => Ok []
  | _ => Ok []
  end.

Definition demo_handler (o : op) (s : DemoCluster) : resp o * DemoCluster :=
  match o return resp o * DemoCluster with
  | Get r _ _ => (demo_get r, s)
  | GetOpt r _ _ => (Ok None, s)
  | ListObjs r _ _ => (demo_list r s, s)
  | Create _ _ _ | PatchStatus _ _ _ _ | DeleteObj _ _ _ => (Ok tt, s)
  | PatchObj r _ _ _ _ => (demo_get r, s)
  | GetScale _ _ => (Ok (demo_scale 1), s)
  | PatchScale _ _ _ _ => (Ok (demo_scale 3), s)
  | Evict _ nm _ =>
      (Ok JNull, {| clock_ns := clock_ns s;
                    demo_pods := List.filter (fun p => negb (bool_decide
                      (name (pod_metadata p) = Some nm))) (demo_pods s) |})
  | NowMs => (clock_ns s / 1000000, s)
  | NowRfc3339 => ("2024-01-01T00:00:00Z", s)
  | GetUid _ _ => (Ok (Some "uid-1"), s)
  | ServerVersion => (Some "v1.29.0", s)
  | HttpGet _ => (SendError "no route", s)
  | InstantNow => (clock_ns s, s)
  | SystemNow => (clock_ns s, s)
  | Sleep secs => (tt, {| clock_ns := clock_ns s + secs * 1000000000; demo_pods := demo_pods s |})
  | PgConnect _ _ | PgQuery _ => (Some (Ok tt), s)
  end.

Definition demo_start : DemoCluster :=
  {| clock_ns := 1000000000;
     demo_pods := [demo_pod "shop" "web-1" "ReplicaSet"; demo_pod "kube-system" "cni" "DaemonSet"] |}.

(** Splits the trace at its [n]th event. *)
Lemma split_at {A} (l : list A) n x :
  l !! n = Some x -> l = take n l ++ x :: drop (S n) l.
Proof. intros Hx. symmetry. by apply take_drop_middle. Qed.
