(* ===== verification/Clock.v ===== *)
(** * Clock laws

    What the loops with a deadline rely on: the readings of a clock never go
    back, and a sleep of [s] seconds advances it by at least [s] seconds.
    [Instant] promises this (std::time::Instant is monotonic and
    tokio::time::sleep does not return early); for [SystemTime] it is an
    assumption on the host.  Readings are nanoseconds. *)
From S2P Require Import Prelude Effects Kube.
Local Open Scope Z_scope.

Definition secs_ns (secs : Z) : Z := secs * 1000000000.

(** The reading of the monotonic clock that an event carries. *)
Definition instant_of (e : kevent) : option Z :=
  let 'existT o x := e in
  match o return resp o -> option Z with InstantNow => fun t => Some t | _ => fun _ => None end x.

Definition system_of (e : kevent) : option Z :=
  let 'existT o x := e in
  match o return resp o -> option Z with SystemNow => fun t => Some t | _ => fun _ => None end x.

Definition slept (o : op) : Z := match o with Sleep secs => Z.max 0 (secs_ns secs) | _ => 0 end.

(** The clock read by [reading] obeys the law on the trace, from a time no
    earlier than [lb]. *)
Fixpoint clock_ok (reading : kevent -> option Z) (lb : Z) (t : list kevent) : Prop :=
  match t with
  | [] => True
  | e :: t =>
      match reading e with
      | Some now => lb <= now /\ clock_ok reading now t
      | None => clock_ok reading (lb + slept (op_of e)) t
      end
  end.

Lemma clock_ok_weaken reading lb lb' t : lb' <= lb -> clock_ok reading lb t -> clock_ok reading lb' t.
Proof.
  revert lb lb'. induction t as [|e t IH]; intros lb lb' Hle; simpl; [done|].
  destruct (reading e); [intros [? ?]; split; [lia|done]|]. apply IH. lia.
Qed.

Lemma slept_nonneg o : 0 <= slept o.
Proof. destruct o; simpl; lia. Qed.

Lemma clock_ok_app reading lb t1 t2 :
  clock_ok reading lb (t1 ++ t2) -> exists lb', lb <= lb' /\ clock_ok reading lb' t2.
Proof.
  revert lb. induction t1 as [|e t1 IH]; intros lb; simpl; [intros H; by exists lb|].
  destruct (reading e) as [now|].
  - intros [? H]. destruct (IH _ H) as (lb' & ? & ?). exists lb'. split; [lia|done].
  - intros H. destruct (IH _ H) as (lb' & ? & ?). exists lb'.
    pose proof (slept_nonneg (op_of e)). split; [lia|done].
Qed.

Lemma clock_ok_prefix reading lb t1 t2 : clock_ok reading lb (t1 ++ t2) -> clock_ok reading lb t1.
Proof.
  revert lb. induction t1 as [|e t1 IH]; intros lb; simpl; [done|].
  destruct (reading e); naive_solver.
Qed.
