(* ===== verification/Drain.v ===== *)
(** * Draining a node (executor.rs)

    The options of [drain_node], the classification of the pods of a node, and
    the handler: authorise, list and classify, refuse unmanaged pods unless
    forced, cordon, evict, and poll until the node is empty or the deadline
    passes.  The poll loop runs on fuel; [DRAIN_POLL_SECONDS] and the deadline
    bound the number of rounds ([drain_poll_fuel]). *)
From S2P Require Import Prelude RustStr Json Effects Kube Model Config Policy Access Demo Clock.
Local Open Scope Z_scope.

Definition DRAIN_NODE_DEFAULT_TIMEOUT_SECONDS : Z := 300.
Definition DRAIN_NODE_MAX_TIMEOUT_SECONDS : Z := 3600.

(** [Duration::from_secs]: seconds. *)
Definition drain_timeout_duration (spec : DrainNodeSpec) : result string Z :=
  let timeout_seconds := unwrap_or DRAIN_NODE_DEFAULT_TIMEOUT_SECONDS (timeout_seconds spec) in
  if timeout_seconds =? 0 then Err "timeout_seconds must be greater than 0"
  else if DRAIN_NODE_MAX_TIMEOUT_SECONDS <? timeout_seconds
  then Err ("timeout_seconds must be less than or equal to "
            +s+ int_to_string DRAIN_NODE_MAX_TIMEOUT_SECONDS)
  else Ok timeout_seconds.

Definition drain_delete_options (spec : DrainNodeSpec) : result string (option DeleteOptions) :=
  match grace_period_seconds spec with
  | None => Ok None
  | Some grace =>
      if grace =? 0 then Err "grace_period_seconds must be greater than 0"
      else if i64_max <? grace then Err "grace_period_seconds is too large"
      else Ok (Some {| grace_period := Some grace |})
  end.

Definition MIRROR_ANNOTATION : string := "kubernetes.io/config.mirror".

Definition pod_is_mirror (pod : Pod) : bool :=
  is_some (ann ← annotations (pod_metadata pod); ann !! MIRROR_ANNOTATION).

Definition pod_owner_kinds (pod : Pod) : list string :=
  unwrap_or [] (map owner_kind <$> owner_references (pod_metadata pod)).

Definition pod_namespace_or_empty (pod : Pod) : string :=
  unwrap_or "" (namespace (pod_metadata pod)).
Definition pod_name_or_empty (pod : Pod) : string := unwrap_or "" (name (pod_metadata pod)).
Definition pod_display (p : string * string) : string := fst p +s+ "/" +s+ snd p.

Definition pod_on_node (node : string) (pod : Pod) : bool :=
  bool_decide ((s ← pod_spec pod; node_name s) = Some node).

(** The three vectors of [classify_pods_on_node]. *)
Record Classified := {
  daemonset_pods : list string;
  unmanaged_pods : list string;
  drainable_pods : list (string * string) }.
Definition no_pods : Classified :=
  {| daemonset_pods := []; unmanaged_pods := []; drainable_pods := [] |}.
Definition push_daemonset s c : Classified :=
  {| daemonset_pods := daemonset_pods c ++ [s]; unmanaged_pods := unmanaged_pods c;
     drainable_pods := drainable_pods c |}.
Definition push_unmanaged s c : Classified :=
  {| daemonset_pods := daemonset_pods c; unmanaged_pods := unmanaged_pods c ++ [s];
     drainable_pods := drainable_pods c |}.
Definition push_drainable p c : Classified :=
  {| daemonset_pods := daemonset_pods c; unmanaged_pods := unmanaged_pods c;
     drainable_pods := drainable_pods c ++ [p] |}.

(** One iteration of the loop over the pods. *)
Definition classify_pod (node : string) (force : bool) (c : Classified) (pod : Pod) : Classified :=
  if negb (pod_on_node node pod) then c else
  let id := (pod_namespace_or_empty pod, pod_name_or_empty pod) in
  let display_name := pod_display id in
  if pod_is_mirror pod then push_daemonset ("ignored mirror pod " +s+ display_name) c else
  let owner_kinds := pod_owner_kinds pod in
  if str_mem "DaemonSet" owner_kinds
  then push_daemonset ("ignored DaemonSet pod " +s+ display_name) c
  else if is_empty owner_kinds then
    let c := push_unmanaged display_name c in
    if force then push_drainable id c else c
  else push_drainable id c.

Definition classify_pods_on_node (node : string) (pods : list Pod) (force : bool) : Classified :=
  fold_left (classify_pod node force) pods no_pods.

Definition forced_warnings (unmanaged : list string) : list string :=
  map (fun pod => "forced unmanaged pod " +s+ pod) unmanaged.

Definition field_selector (node : string) : string := "spec.nodeName=" +s+ node.

Definition cordon_patch : patch := Merge (jobj [("spec", jobj [("unschedulable", JBool true)])]).

Definition eviction_of (delete_options : option DeleteOptions) (p : string * string) : Eviction :=
  {| delete_options := delete_options;
     ev_metadata := {| name := Some (snd p); namespace := Some (fst p); labels := None;
                       annotations := None; generation := None; resource_version := None;
                       owner_references := None; creation_timestamp := None |} |}.

Definition DRAIN_POLL_SECONDS : Z := 5.

Section drain.
Context `{Codec} (cfg : Config).

(** The eviction loop; the error is the message of the result. *)
Fixpoint evict_pods (node : string) (opts : option DeleteOptions)
    (pods : list (string * string)) (evicted : list string)
    : kprog (result string (list string)) :=
  match pods with
  | [] => mret (Ok evicted)
  | p :: pods =>
      r ← call (Evict (fst p) (snd p) (eviction_of opts p));
      try _ok := r else err =>
        mret (Err ("failed to evict Pod " +s+ fst p +s+ "/" +s+ snd p
                   +s+ " while draining Node " +s+ node +s+ ": " +s+ kube_display err)) in
      evict_pods node opts pods (evicted ++ [pod_display p])
  end.

(** The poll loop: [None] when the fuel runs out. *)
Fixpoint drain_poll (fuel : nat) (node : string) (force : bool) (deadline : Z)
    (warnings remaining : list string)
    : kprog (option (result string (list string * list string))) :=
  match fuel with
  | O => mret None
  | S fuel =>
      listed ← call (ListObjs RPod None (Some (field_selector node)));
      try items := listed else err =>
        mret (Some (Err ("failed to poll Pods while draining Node " +s+ node +s+ ": "
                         +s+ kube_display err))) in
      let c := classify_pods_on_node node items force in
      let unmanaged := unmanaged_pods c in
      if negb (is_empty unmanaged) && negb force then
        mret (Some (Err ("Node " +s+ node +s+ " gained unmanaged Pods during drain: "
                         +s+ join ", " unmanaged)))
      else
      let warnings := if negb (is_empty unmanaged)
                      then warnings ++ forced_warnings unmanaged else warnings in
      if is_empty (drainable_pods c) then mret (Some (Ok (warnings, remaining))) else
      let remaining := map pod_display (drainable_pods c) in
      now ← call InstantNow;
      if deadline <=? now then
        mret (Some (Err ("timed out waiting for Node " +s+ node
                         +s+ " to drain; remaining Pods: " +s+ join ", " remaining)))
      else
      _ ← call (Sleep DRAIN_POLL_SECONDS);
      drain_poll fuel node force deadline warnings remaining
  end.

(** A round per poll interval until the deadline, and the round that finds
    it passed. *)
Definition drain_poll_fuel (timeout : Z) : nat := S (S (Z.to_nat (timeout / DRAIN_POLL_SECONDS))).

Definition drain_result (node : string) (before_unschedulable : bool)
    (evicted warnings remaining : list string) (r : CommandResult) : CommandResult :=
  let r := with_dry_run (Some false) r in
  let r := with_requested_state (Some (jobj [("nodeName", JStr node)])) r in
  let r := with_observed_before (Some (jobj
    [("unschedulable", JBool before_unschedulable);
     ("drainablePods", JNum (Z.of_nat (length evicted)))])) r in
  let after := jobj [("unschedulable", JBool true); ("evictedPods", jstrs evicted);
                     ("remainingPods", jstrs remaining); ("warnings", jstrs warnings)] in
  let r := with_observed_after (Some after) r in
  let r := if negb (is_empty warnings) then with_warnings warnings r else r in
  with_verification (Some
    {| av_status := "accepted";
       av_message := Some "node cordoned and pod eviction completed";
       av_observed_state := Some (jobj
         [("unschedulable", JBool true);
          ("evictedPods", unwrap_or JNull
             (v ← observed_after r; json_get "evictedPods" v))]) |}) r.

(** From the cordon on; [before_unschedulable] and the classification come
    from the reads before it. *)
Definition drain_cordoned (command_id node : string) (spec : DrainNodeSpec)
    (timeout : Z) (opts : option DeleteOptions) (before_unschedulable : bool) (c : Classified)
    : kprog (option CommandResult) :=
  let error := fun message => r ← simple command_id "error" (Some message); mret (Some r) in
  let warnings := daemonset_pods c ++
    (if force spec && negb (is_empty (unmanaged_pods c))
     then forced_warnings (unmanaged_pods c) else []) in
  if negb (force spec) && negb (is_empty (unmanaged_pods c)) then
    error ("refusing to drain Node " +s+ node
           +s+ " because unmanaged Pods require an explicit force path: "
           +s+ join ", " (unmanaged_pods c))
  else
  cordoned ← call (PatchObj RNode None node {| dry_run := false |} cordon_patch);
  try _ok := cordoned else err =>
    error ("failed to cordon Node " +s+ node +s+ ": " +s+ kube_display err) in
  evicted ← evict_pods node opts (drainable_pods c) [];
  try evicted := evicted else message => error message in
  start ← call InstantNow;
  polled ← drain_poll (drain_poll_fuel timeout) node (force spec) (start + secs_ns timeout)
             warnings [];
  match polled with
  | None => mret None
  | Some (Err message) => error message
  | Some (Ok (warnings, remaining)) =>
      r ← simple command_id "ok" None;
      mret (Some (drain_result node before_unschedulable evicted warnings remaining r))
  end.

Definition drain_node (command_id : string) (spec : DrainNodeSpec)
    : kprog (option CommandResult) :=
  let error := fun message => r ← simple command_id "error" (Some message); mret (Some r) in
  let node := trim (drain_node_name spec) in
  if str_is_empty node then error "node_name is required" else
  allowed ← ensure_cluster_action_allowed cfg "drain_node";
  try _policy := allowed else message => error message in
  try timeout := drain_timeout_duration spec else message => error message in
  try opts := drain_delete_options spec else message => error message in
  got ← call (Get RNode None node);
  try nd := got else err =>
    error ("failed to get Node " +s+ node +s+ ": " +s+ kube_display err) in
  let before_unschedulable := unwrap_or false (s ← nd_spec nd; unschedulable s) in
  listed ← call (ListObjs RPod None (Some (field_selector node)));
  try items := listed else err =>
    error ("failed to list Pods for drain " +s+ node +s+ ": " +s+ kube_display err) in
  drain_cordoned command_id node spec timeout opts before_unschedulable
    (classify_pods_on_node node items (force spec)).
End drain.

(** ** Classification *)

Definition pod_id (pod : Pod) : string * string :=
  (pod_namespace_or_empty pod, pod_name_or_empty pod).

Definition owned_by_daemonset (pod : Pod) : Prop := In "DaemonSet" (pod_owner_kinds pod).

(** The pods that a drain of [node] must leave alone, must not touch without
    [force], and evicts. *)
Definition ignored (node : string) (pod : Pod) : Prop :=
  pod_on_node node pod = true /\ (pod_is_mirror pod = true \/ owned_by_daemonset pod).
Definition unmanaged (node : string) (pod : Pod) : Prop :=
  pod_on_node node pod = true /\ pod_is_mirror pod = false /\ pod_owner_kinds pod = [].
Definition evictable (node : string) (force : bool) (pod : Pod) : Prop :=
  pod_on_node node pod = true /\ pod_is_mirror pod = false /\ ~ owned_by_daemonset pod /\
  (force = true \/ pod_owner_kinds pod <> []).

Global Instance in_string_dec (s : string) l : Decision (In s l).
Proof. apply in_dec, String.string_dec. Defined.
Global Instance owned_by_daemonset_dec pod : Decision (owned_by_daemonset pod).
Proof. unfold owned_by_daemonset. apply _. Defined.
Global Instance ignored_dec node pod : Decision (ignored node pod).
Proof. unfold ignored. apply _. Defined.
Global Instance unmanaged_dec node pod : Decision (unmanaged node pod).
Proof. unfold unmanaged. apply _. Defined.
Global Instance evictable_dec node force pod : Decision (evictable node force pod).
Proof. unfold evictable. apply _. Defined.

Definition ignored_text (pod : Pod) : string :=
  (if pod_is_mirror pod then "ignored mirror pod " else "ignored DaemonSet pod ")
  +s+ pod_display (pod_id pod).

(** The three decisions as booleans. *)
Section decisions.
Context (node : string) (force : bool) (pod : Pod).
Let on := pod_on_node node pod.
Let mirror := pod_is_mirror pod.
Let ds := str_mem "DaemonSet" (pod_owner_kinds pod).
Let orphan := is_empty (pod_owner_kinds pod).

Lemma decide_ignored : bool_decide (ignored node pod) = on && (mirror || ds).
Proof.
  apply eq_true_iff_eq. rewrite bool_decide_eq_true, andb_true_iff, orb_true_iff.
  unfold ds. by rewrite str_mem_in.
Qed.

Lemma decide_unmanaged : bool_decide (unmanaged node pod) = on && negb mirror && orphan.
Proof.
  apply eq_true_iff_eq. rewrite bool_decide_eq_true, !andb_true_iff, negb_true_iff.
  unfold orphan. rewrite is_empty_nil. unfold unmanaged. tauto.
Qed.

Lemma decide_evictable :
  bool_decide (evictable node force pod) = on && negb mirror && negb ds && (force || negb orphan).
Proof.
  apply eq_true_iff_eq.
  rewrite bool_decide_eq_true, !andb_true_iff, orb_true_iff, !negb_true_iff.
  unfold ds, orphan. rewrite <- !not_true_iff_false, str_mem_in, is_empty_nil.
  unfold evictable, on, mirror. rewrite not_true_iff_false. tauto.
Qed.
End decisions.

Lemma filter_one {A} (P : A -> Prop) `{forall x, Decision (P x)} (x : A) :
  filter P [x] = if bool_decide (P x) then [x] else [].
Proof.
  unfold bool_decide. rewrite filter_cons, filter_nil. unfold decide. by destruct (H x).
Qed.

(** One step of the loop appends the pod to the classes it belongs to. *)
Lemma classify_pod_step node force c pod :
  classify_pod node force c pod =
  {| daemonset_pods := daemonset_pods c ++ map ignored_text (filter (ignored node) [pod]);
     unmanaged_pods := unmanaged_pods c
       ++ map (fun p => pod_display (pod_id p)) (filter (unmanaged node) [pod]);
     drainable_pods := drainable_pods c ++ map pod_id (filter (evictable node force) [pod]) |}.
Proof.
  rewrite !filter_one, decide_ignored, decide_unmanaged, decide_evictable.
  unfold classify_pod.
  assert (Hds : str_mem "DaemonSet" (pod_owner_kinds pod) = true ->
                is_empty (pod_owner_kinds pod) = false).
  { destruct (pod_owner_kinds pod); [discriminate|done]. }
  destruct c as [d u e]; destruct (pod_on_node node pod), (pod_is_mirror pod) eqn:Hm,
    (str_mem "DaemonSet" (pod_owner_kinds pod)); simpl; rewrite ?Hds, ?app_nil_r by done;
    destruct (is_empty (pod_owner_kinds pod)), force; simpl; unfold ignored_text;
    rewrite ?Hm, ?app_nil_r; try done.
Qed.

Lemma classify_fold node force pods c :
  fold_left (classify_pod node force) pods c =
  {| daemonset_pods := daemonset_pods c ++ map ignored_text (filter (ignored node) pods);
     unmanaged_pods := unmanaged_pods c
       ++ map (fun p => pod_display (pod_id p)) (filter (unmanaged node) pods);
     drainable_pods := drainable_pods c ++ map pod_id (filter (evictable node force) pods) |}.
Proof.
  revert c. induction pods as [|pod pods IH]; intros c; simpl.
  - destruct c; simpl. by rewrite !app_nil_r.
  - rewrite IH, classify_pod_step. simpl.
    assert (Hc : forall (P : Pod -> Prop) `{forall x, Decision (P x)},
      filter P (pod :: pods) = filter P [pod] ++ filter P pods).
    { intros P ?. change (pod :: pods) with ([pod] ++ pods). apply filter_app. }
    rewrite !(Hc _ _). by rewrite !map_app, !app_assoc.
Qed.

Lemma classify_spec node force pods :
  classify_pods_on_node node pods force =
  {| daemonset_pods := map ignored_text (filter (ignored node) pods);
     unmanaged_pods := map (fun p => pod_display (pod_id p)) (filter (unmanaged node) pods);
     drainable_pods := map pod_id (filter (evictable node force) pods) |}.
Proof. apply (classify_fold node force pods no_pods). Qed.

(** ** Safety of a drain *)

Section safety.
Context `{Codec} (cfg : Config).

Definition list_pods_of (node : string) : op := ListObjs RPod None (Some (field_selector node)).
Definition cordon_of (node : string) : op :=
  PatchObj RNode None node {| dry_run := false |} cordon_patch.

Definition pods_listed (node : string) (items : list Pod) (h : list kevent) : Prop :=
  In (ev (R:=resp) (list_pods_of node) (Ok items)) h.
Definition cordoned (node : string) (h : list kevent) : Prop :=
  exists x, In (ev (R:=resp) (cordon_of node) (Ok x)) h.
Definition evicted (opts : option DeleteOptions) (p : string * string) (h : list kevent) : Prop :=
  exists x, In (ev (R:=resp) (Evict (fst p) (snd p) (eviction_of opts p)) (Ok x)) h.

(** [p] is an evictable pod of a listing of the node, and that listing held
    no unmanaged pod unless the drain is forced. *)
Definition listed_evictable (node : string) (force : bool) (p : string * string)
    (h : list kevent) : Prop :=
  exists items pod, pods_listed node items h /\ In pod items /\ pod_id pod = p /\
    evictable node force pod /\ (force = true \/ Forall (fun q => ~ unmanaged node q) items).

(** What a drain may do to the cluster at a history [h]. *)
Definition drain_guard (spec : DrainNodeSpec) (h : list kevent) (o : op) : Prop :=
  let node := trim (drain_node_name spec) in
  mutating o = true ->
  consulted cfg (ClusterPermit "drain_node") h /\
  (o = cordon_of node \/
   exists opts p, drain_delete_options spec = Ok opts /\
     o = Evict (fst p) (snd p) (eviction_of opts p) /\
     cordoned node h /\ listed_evictable node (force spec) p h).

(** The node was empty of evictable pods when last listed, and nothing was
    changed after that. *)
Definition drained (node : string) (force : bool) (h : list kevent) : Prop :=
  exists h1 items h2, h = h1 ++ ev (R:=resp) (list_pods_of node) (Ok items) :: h2 /\
    Forall (fun pod => ~ evictable node force pod) items /\
    Forall (fun e => mutating (op_of e) = false) h2.

(** Every pod that the result reports as evicted was an evictable pod of one
    listing, all of them are reported, and their evictions succeeded. *)
Definition reports_evictions (spec : DrainNodeSpec) (r : CommandResult) (h : list kevent) : Prop :=
  let node := trim (drain_node_name spec) in
  exists items opts, pods_listed node items h /\ drain_delete_options spec = Ok opts /\
    (v ← observed_after r; json_get "evictedPods" v) =
      Some (jstrs (map (fun pod => pod_display (pod_id pod))
                    (filter (evictable node (force spec)) items))) /\
    Forall (fun pod => evicted opts (pod_id pod) h)
      (filter (evictable node (force spec)) items).

Definition drain_post (id : string) (spec : DrainNodeSpec) (r : option CommandResult)
    (h : list kevent) : Prop :=
  let node := trim (drain_node_name spec) in
  forall res, r = Some res ->
    command_id res = id /\
    (r_status res = "error" \/
     (r_status res = "ok" /\ drained node (force spec) h /\ reports_evictions spec res h)).

Lemma drain_guard_read spec h o : mutating o = false -> drain_guard spec h o.
Proof. intros Hm Hm'. congruence. Qed.

Lemma pods_listed_app node items h t : pods_listed node items h -> pods_listed node items (h ++ t).
Proof. unfold pods_listed. rewrite in_app_iff. auto. Qed.
Lemma cordoned_app node h t : cordoned node h -> cordoned node (h ++ t).
Proof. intros [x Hx]. exists x. apply in_app_iff. auto. Qed.
Lemma evicted_app opts p h t : evicted opts p h -> evicted opts p (h ++ t).
Proof. intros [x Hx]. exists x. apply in_app_iff. auto. Qed.
Lemma listed_evictable_app node f p h t :
  listed_evictable node f p h -> listed_evictable node f p (h ++ t).
Proof.
  intros (items & pod & ? & ?). exists items, pod. split; [|done]. by apply pods_listed_app.
Qed.

Lemma drain_error_post spec id h t msg :
  wp (drain_guard spec) (drain_post id spec) (h ++ t)
    (r ← simple id "error" (Some msg); mret (Some r)).
Proof.
  wp_step. apply wp_simple; [by apply drain_guard_read|]. intros now. wp_step.
  intros res [= <-]. split; [done|by left].
Qed.

(** The eviction loop evicts its pods, or stops at the first error. *)
Lemma wp_evict_pods spec node opts pods acc Q h :
  (forall p t, In p pods -> drain_guard spec (h ++ t) (Evict (fst p) (snd p) (eviction_of opts p))) ->
  (forall t, Forall (fun p => evicted opts p (h ++ t)) pods ->
     Q (Ok (acc ++ map pod_display pods)) (h ++ t)) ->
  (forall t m, Q (Err m) (h ++ t)) ->
  wp (drain_guard spec) Q h (evict_pods node opts pods acc).
Proof.
  revert h acc. induction pods as [|p pods IH]; intros h acc HG HOk HErr; cbn [evict_pods].
  - wp_step. specialize (HOk [] ltac:(constructor)). simpl in HOk. by rewrite !app_nil_r in HOk.
  - wp_step. wp_step.
    { specialize (HG p []). rewrite app_nil_r in HG. apply HG. by left. }
    intros [j|e].
    + apply IH.
      * intros q t Hq. rewrite <- app_assoc. apply HG. by right.
      * intros t Ht. rewrite <- app_assoc in Ht |- *.
        rewrite <- app_assoc. apply HOk. constructor; [|done].
        exists j. rewrite !in_app_iff. right. left. by left.
      * intros t m. rewrite <- app_assoc. apply HErr.
    + wp_step. apply HErr.
Qed.

(** The poll loop only reads, and ends with an empty node or an error. *)
Lemma wp_drain_poll spec node f Q fuel deadline ws rem h :
  (forall t, Q None (h ++ t)) ->
  (forall t m, Q (Some (Err m)) (h ++ t)) ->
  (forall t ws' rem', drained node f (h ++ t) -> Q (Some (Ok (ws', rem'))) (h ++ t)) ->
  wp (drain_guard spec) Q h (drain_poll fuel node f deadline ws rem).
Proof.
  revert ws rem h. induction fuel as [|fuel IH]; intros ws rem h HN HE HO; cbn [drain_poll].
  { wp_step. specialize (HN []). by rewrite app_nil_r in HN. }
  wp_step. wp_step; [by apply drain_guard_read|]. intros [items|e]; [|wp_step; apply HE].
  simpl in items.
  set (c := classify_pods_on_node node items f).
  destruct (negb (is_empty (unmanaged_pods c)) && negb f); [wp_step; apply HE|].
  destruct (is_empty (drainable_pods c)) eqn:Hd.
  - wp_step. apply HO. exists h, items, []. split_and!; [done| |constructor].
    apply is_empty_nil in Hd. unfold c in Hd. rewrite classify_spec in Hd.
    cbn [drainable_pods] in Hd. apply map_eq_nil in Hd. apply Forall_forall. intros pod Hin He.
    assert (Hf : pod ∈ filter (evictable node f) items) by (by apply list_elem_of_filter).
    rewrite Hd in Hf. by apply not_elem_of_nil in Hf.
  - wp_step. wp_step; [by apply drain_guard_read|]. intros now.
    destruct (deadline <=? now); [wp_step; rewrite <- app_assoc; apply HE|].
    wp_step. wp_step; [by apply drain_guard_read|]. intros [].
    apply IH; intros; rewrite <- !app_assoc; auto.
    apply HO. by rewrite <- !app_assoc in *.
Qed.

Lemma unmanaged_none node f items :
  is_empty (unmanaged_pods (classify_pods_on_node node items f)) = true ->
  Forall (fun q => ~ unmanaged node q) items.
Proof.
  rewrite is_empty_nil, classify_spec. cbn [unmanaged_pods]. intros Hn%map_eq_nil.
  apply Forall_forall. intros pod Hin Hu.
  assert (Hf : pod ∈ filter (unmanaged node) items) by (by apply list_elem_of_filter).
  rewrite Hn in Hf. by apply not_elem_of_nil in Hf.
Qed.

Lemma drain_result_fields node before ev ws rem r :
  let res := drain_result node before ev ws rem r in
  command_id res = command_id r /\ r_status res = r_status r /\
  (v ← observed_after res; json_get "evictedPods" v) = Some (jstrs ev).
Proof. destruct r, ws; done. Qed.

(** From the cordon on. *)
Lemma wp_drain_cordoned spec id timeout opts before items h :
  let node := trim (drain_node_name spec) in
  consulted cfg (ClusterPermit "drain_node") h ->
  drain_delete_options spec = Ok opts ->
  pods_listed node items h ->
  wp (drain_guard spec) (drain_post id spec) h
    (drain_cordoned id node spec timeout opts before
       (classify_pods_on_node node items (force spec))).
Proof.
  intros node Hcon Hopts Hlist. unfold drain_cordoned.
  destruct (negb (force spec) && _) eqn:Hun.
  { pose proof (drain_error_post spec id h []) as He. rewrite app_nil_r in He. apply He. }
  wp_step. wp_step.
  { intros _. split; [done|]. by left. }
  intros [nd|e]; [|apply drain_error_post].
  set (h1 := h ++ _).
  assert (Hc1 : cordoned node h1).
  { exists nd. apply in_app_iff. right. by left. }
  wp_step. rewrite classify_spec. cbn [drainable_pods].
  apply wp_evict_pods.
  - intros p t Hp _. split; [unfold h1; rewrite <- app_assoc; by apply consulted_app|].
    right. exists opts, p. split_and!; [done|done|by apply cordoned_app|].
    apply in_map_iff in Hp as (pod & <- & Hp%list_elem_of_In).
    apply list_elem_of_filter in Hp as [Hev Hp].
    exists items, pod. split_and!; [|by apply list_elem_of_In|done|done|].
    + unfold h1. rewrite <- app_assoc. by apply pods_listed_app.
    + destruct (force spec) eqn:Hf; [by left|right].
      apply (unmanaged_none node (force spec)). rewrite Hf.
      apply andb_false_iff in Hun as [Hun|Hun]; [done|].
      by apply negb_false_iff in Hun.
  - intros t Hev. wp_step. wp_step; [by apply drain_guard_read|]. intros start.
    wp_step. rewrite <- app_assoc. apply wp_drain_poll.
    + intros t' res. by intros [=].
    + intros t' m. apply drain_error_post.
    + intros t' ws' rem' Hdr. wp_step. apply wp_simple; [by apply drain_guard_read|].
      intros now. wp_step. intros res [= <-].
      match goal with |- context [drain_result ?a ?b ?c ?d ?e ?f] =>
        destruct (drain_result_fields a b c d e f) as (Hid & Hst & Hev'); rewrite Hid, Hst
      end.
      assert (Hgoal : drained node (force spec)
        (((h1 ++ t ++ [ev (R:=resp) InstantNow start]) ++ t') ++ [ev (R:=resp) NowMs now])).
      { destruct Hdr as (g1 & its & g2 & -> & ? & ?). exists g1, its, (g2 ++ [ev (R:=resp) NowMs now]).
        rewrite <- app_assoc. split_and!; [done|done|].
        apply Forall_app. split; [done|]. by repeat constructor. }
      split; [done|]. right. split; [done|]. split; [exact Hgoal|].
      exists items, opts. split_and!; [|done| |].
      * unfold h1. rewrite <- !app_assoc. by apply pods_listed_app.
      * rewrite <- (map_map pod_id pod_display). exact Hev'.
      * apply Forall_forall. intros pod Hpod. rewrite !app_assoc.
        do 3 apply evicted_app. rewrite Forall_forall in Hev. apply Hev.
        apply list_elem_of_In, in_map, list_elem_of_In, Hpod.
  - intros t m. apply drain_error_post.
Qed.

Lemma wp_drain_node spec id h :
  wp (drain_guard spec) (drain_post id spec) h (drain_node cfg id spec).
Proof.
  pose proof (drain_error_post spec id h []) as He. rewrite app_nil_r in He.
  unfold drain_node. destruct (str_is_empty (trim (drain_node_name spec))); [apply He|].
  wp_step. apply (wp_ensure_cluster_action_allowed cfg (drain_guard spec)
                    (drain_guard_read spec)).
  intros [ep|m] t Hc; [|apply drain_error_post].
  specialize (Hc ep eq_refl).
  destruct (drain_timeout_duration spec) as [timeout|m]; [|apply drain_error_post].
  destruct (drain_delete_options spec) as [opts|m] eqn:Hopts; [|apply drain_error_post].
  wp_step. wp_step; [by apply drain_guard_read|].
  intros [nd|e]; [|rewrite <- app_assoc; apply drain_error_post].
  wp_step. wp_step; [by apply drain_guard_read|].
  intros [items|e]; [|rewrite <- !app_assoc; apply drain_error_post].
  apply wp_drain_cordoned; [|done|].
  - do 2 apply consulted_app. exact Hc.
  - apply in_app_iff. right. by left.
Qed.
End safety.

(** ** Termination *)

(** With a round of fuel per poll interval to the deadline, the clock ends the
    loop before the fuel does. *)
Lemma drain_poll_terminates node f fuel deadline ws rem t r lb :
  runs (drain_poll (S fuel) node f deadline ws rem) t r ->
  clock_ok instant_of lb t ->
  deadline <= lb + secs_ns DRAIN_POLL_SECONDS * Z.of_nat fuel ->
  r <> None.
Proof.
  revert ws rem t lb. induction fuel as [|fuel IH]; intros ws rem t lb Hr Hc Hd;
    cbn [drain_poll] in Hr; run_call Hr as x t2; simpl in Hc; rewrite Z.add_0_r in Hc;
    (destruct x as [items|e]; [|by destruct Hr as [_ ->]]);
    (destruct (negb _ && negb f); [by destruct Hr as [_ ->]|]);
    (destruct (is_empty (drainable_pods _)); [by destruct Hr as [_ ->]|]);
    run_call Hr as now t4; simpl in Hc; destruct Hc as [Hlb Hc];
    (destruct (Z.leb_spec deadline now); [by destruct Hr as [_ ->]|]).
  - lia.
  - run_call Hr as u t6. cbn [app clock_ok instant_of ev op_of projT1] in Hc.
    eapply IH; [exact Hr|exact Hc|].
    assert (slept (Sleep DRAIN_POLL_SECONDS) = secs_ns DRAIN_POLL_SECONDS) as -> by reflexivity.
    rewrite Nat2Z.inj_succ in Hd. lia.
Qed.

Lemma drain_poll_fuel_enough start timeout :
  start + secs_ns timeout <=
  start + secs_ns DRAIN_POLL_SECONDS * Z.of_nat (S (Z.to_nat (timeout / DRAIN_POLL_SECONDS))).
Proof.
  unfold secs_ns, DRAIN_POLL_SECONDS. rewrite Nat2Z.inj_succ.
  pose proof (Z.div_mod timeout 5 ltac:(lia)). pose proof (Z.mod_pos_bound timeout 5). lia.
Qed.

Section termination.
Context `{Codec} (cfg : Config).

Lemma evict_pods_clock node opts pods acc t r lb t' :
  runs (evict_pods node opts pods acc) t r ->
  clock_ok instant_of lb (t ++ t') -> clock_ok instant_of lb t'.
Proof.
  revert acc t. induction pods as [|p pods IH]; intros acc t Hr Hc; cbn [evict_pods] in Hr.
  - by destruct Hr as [-> _].
  - run_call Hr as x t2.
    simpl in Hc. rewrite Z.add_0_r in Hc.
    destruct x as [j|e]; [by eapply IH|by destruct Hr as [-> _]].
Qed.

Lemma simple_some_runs id st msg t r :
  runs (r ← simple id st msg; mret (Some r)) t r -> r <> None.
Proof. by intros (? & ? & ? & _ & _ & [_ ->])%runs_bind. Qed.

Lemma drain_cordoned_terminates id node spec timeout opts before c t r lb :
  runs (drain_cordoned id node spec timeout opts before c) t r ->
  clock_ok instant_of lb t -> r <> None.
Proof.
  intros Hr Hc. unfold drain_cordoned in Hr.
  destruct (negb (force spec) && _); [by eapply simple_some_runs|].
  run_call Hr as x t2. destruct x as [nd|e]; [|by eapply simple_some_runs].
  simpl in Hc. rewrite Z.add_0_r in Hc.
  run_bind Hr as x t3 t4 He.
  destruct x as [ev|m]; [|by eapply simple_some_runs].
  eapply evict_pods_clock in Hc; [|exact He].
  run_call Hr as start t6. simpl in Hc. destruct Hc as [_ Hc].
  run_bind Hr as polled t7 t8 Hp.
  assert (polled <> None) as Hne.
  { pose proof (drain_poll_fuel_enough start timeout) as Hf.
    eapply drain_poll_terminates; [exact Hp| |exact Hf].
    by eapply clock_ok_prefix. }
  destruct polled as [[[ws rem]|m]|]; [|by eapply simple_some_runs|done].
  run_bind Hr as res t9 t10 Hs. by destruct Hr as [_ ->].
Qed.

Lemma drain_node_some id spec t r lb :
  runs (drain_node cfg id spec) t r -> clock_ok instant_of lb t -> r <> None.
Proof.
  intros Hr Hc. unfold drain_node in Hr.
  destruct (str_is_empty _); [by eapply simple_some_runs|].
  run_bind Hr as x t1 t2 He. destruct x as [ep|m]; [|by eapply simple_some_runs].
  destruct (drain_timeout_duration spec) as [timeout|m]; [|by eapply simple_some_runs].
  destruct (drain_delete_options spec) as [opts|m]; [|by eapply simple_some_runs].
  apply clock_ok_app in Hc as (lb' & _ & Hc).
  run_call Hr as x t3. destruct x as [nd|e]; [|by eapply simple_some_runs].
  run_call Hr as x t4. destruct x as [items|e]; [|by eapply simple_some_runs].
  eapply drain_cordoned_terminates; [exact Hr|]. simpl in Hc. by rewrite !Z.add_0_r in Hc.
Qed.
End termination.

(** ** Properties *)

(** The classification of the pods of a node is exact: the ignored pods
    are the mirror pods and the pods owned by a DaemonSet, the unmanaged pods
    those without an owner, the drainable pods the evictable ones, each class
    in listing order and restricted to the node; a pod of the node is ignored,
    evictable or, without [force], unmanaged, and never both ignored and
    evictable. *)
Theorem classify_pods_on_node_exact node pods force :
  classify_pods_on_node node pods force =
  {| daemonset_pods := map ignored_text (filter (ignored node) pods);
     unmanaged_pods := map (fun p => pod_display (pod_id p)) (filter (unmanaged node) pods);
     drainable_pods := map pod_id (filter (evictable node force) pods) |} /\
  Forall (fun pod => pod_on_node node pod = true ->
    (ignored node pod \/ evictable node force pod \/ (unmanaged node pod /\ force = false)) /\
    ~ (ignored node pod /\ evictable node force pod)) pods.
Proof.
  split; [apply classify_spec|]. apply Forall_forall. intros pod _ Hn.
  unfold ignored, unmanaged, evictable.
  split; [|by intros [[_ [Hm|Hd]] (_ & Hm' & Hd' & _)]; [congruence|]].
  destruct (pod_is_mirror pod) eqn:Hm; [left; auto|].
  destruct (decide (owned_by_daemonset pod)); [left; auto|]. right.
  destruct force; [left; auto|].
  destruct (pod_owner_kinds pod) eqn:Hk; [right; auto|left; auto].
Qed.

(** C5: Whatever the API server answers, a drain changes the cluster only by
    cordoning the requested node or by evicting a pod, and only after a policy
    listed and found fresh and Ready has granted [drain_node]; it evicts only
    after the cordon has succeeded, with the requested grace period, and only a
    pod of the node that is neither a mirror pod nor owned by a DaemonSet, from
    a listing without unmanaged pods unless the drain is forced. *)
Theorem drain_node_safe `{Codec} cfg id spec t r t1 e t2 :
  runs (drain_node cfg id spec) t r -> t = t1 ++ e :: t2 ->
  drain_guard cfg spec t1 (op_of e).
Proof.
  intros Hr Ht. destruct (wp_sound _ _ _ _ _ _ _ (wp_drain_node cfg spec id []) Hr) as [_ HG].
  exact (HG t1 e t2 Ht).
Qed.

(** C17: The result of a drain carries the command id; it is an error, or it
    says ok and then the last listing of the node, after which nothing was
    changed, held no evictable pod, and the reported evictions are exactly the
    evictable pods of one listing, each of which was evicted successfully. *)
Theorem drain_node_result `{Codec} cfg id spec t r :
  runs (drain_node cfg id spec) t r -> drain_post id spec r t.
Proof.
  intros Hr. by destruct (wp_sound _ _ _ _ _ _ _ (wp_drain_node cfg spec id []) Hr).
Qed.

(** A drain ends: against every environment whose monotonic clock does not
    go back and advances over a sleep, the handler returns a result; the poll
    loop never runs out of its rounds, one per five seconds of the timeout and
    two more. *)
Theorem drain_node_terminates `{Codec} {S} cfg id spec (env : forall o, S -> resp o * S) s lb :
  clock_ok instant_of lb (interp_trace env (drain_node cfg id spec) s) ->
  exists res, fst (interp env (drain_node cfg id spec) s) = Some res.
Proof.
  intros Hc. pose proof (drain_node_some cfg id spec _ _ lb
    (interp_runs _ env (drain_node cfg id spec) s) Hc) as Hn.
  destruct (fst _) as [res|]; [by exists res|done].
Qed.

(** The pods that the last non-empty poll still saw are reported as remaining
    even though the node is empty when the drain succeeds. *)
Example remaining_after_drain :
  runs (drain_poll 2 "node-a" false 100 [] [])
    [ev (list_pods_of "node-a") (Ok [demo_pod "shop" "web-1" "ReplicaSet"]);
     ev InstantNow 0; ev (Sleep 5) tt; ev (list_pods_of "node-a") (Ok [])]
    (Some (Ok ([], ["shop/web-1"]))).
Proof. repeat (eexists; eexists; split; [reflexivity|]). by vm_compute. Qed.

(** A drain of the sample cluster. *)
Definition demo_drain_spec : DrainNodeSpec :=
  {| drain_node_name := " node-a "; timeout_seconds := None;
     grace_period_seconds := Some 30; force := false |}.
Definition demo_drain : kprog (option CommandResult) :=
  @drain_node (demo_codec demo_policy) (demo_config true) "c-1" demo_drain_spec.
Definition demo_drain_trace : list kevent := interp_trace demo_handler demo_drain demo_start.

Lemma drain_node_safe_witness :
  exists t1 e t2, demo_drain_trace = t1 ++ e :: t2 /\ mutating (op_of e) = true /\
    @drain_guard (demo_codec demo_policy) (demo_config true) demo_drain_spec t1 (op_of e).
Proof.
  exists (take 5 demo_drain_trace).
  assert (Hmut : (fun e => mutating (op_of e)) <$> demo_drain_trace !! 5%nat = Some true)
    by (vm_compute; reflexivity).
  destruct (demo_drain_trace !! 5%nat) as [e|] eqn:He; [|discriminate Hmut].
  exists e, (drop 6 demo_drain_trace).
  pose proof (split_at _ _ _ He) as Hs.
  split; [exact Hs|]. split; [by injection Hmut|].
  exact (@drain_node_safe (demo_codec demo_policy) _ _ _ _ _ _ _ _
    (interp_runs _ demo_handler demo_drain demo_start) Hs).
Defined.

Lemma drain_node_result_witness :
  option_map r_status (fst (interp demo_handler demo_drain demo_start)) = Some "ok" /\
  drain_post "c-1" demo_drain_spec (fst (interp demo_handler demo_drain demo_start))
    demo_drain_trace.
Proof.
  split; [vm_compute; reflexivity|].
  exact (@drain_node_result (demo_codec demo_policy) _ _ _ _ _
    (interp_runs _ demo_handler demo_drain demo_start)).
Defined.

Lemma drain_node_terminates_witness :
  exists res, fst (interp demo_handler demo_drain demo_start) = Some res.
Proof.
  apply (@drain_node_terminates (demo_codec demo_policy) _ _ _ _ demo_handler demo_start 0).
  vm_compute. repeat split; discriminate.
Defined.
