(* ===== verification/Preflight.v ===== *)
(** * Preflight checks (executor.rs)

    The five read-only checks that collect warnings before a workload is
    changed.  A check that cannot read its objects becomes a warning itself. *)
From S2P Require Import Prelude RustStr Json Effects Kube Model Config Workload Access.
Local Open Scope Z_scope.

Definition merge_check (warnings : list string) (check_name : string)
    (r : result string (list string)) : list string :=
  match r with
  | Ok check_warnings => warnings ++ check_warnings
  | Err reason =>
      warnings ++ ["preflight.check.unavailable: " +s+ check_name +s+ " unavailable: " +s+ reason]
  end.

(** [Iterator::filter_map]. *)
Definition filter_map {A B} (f : A -> option B) (l : list A) : list B := omap f l.

Definition hpa_target_name (spec : WorkloadResourcesSpec) (hpa : HorizontalPodAutoscaler)
    : option string :=
  target ← hpa_target hpa;
  if String.eqb (ref_kind target) (workload_kind spec) && String.eqb (ref_name target) (wr_name spec)
  then Some (unwrap_or "<unknown>" (name (hpa_metadata hpa))) else None.

Definition hpa_warning (spec : WorkloadResourcesSpec) (nm : string) : string :=
  "preflight.hpa.targeted: HPA " +s+ nm +s+ " targets " +s+ workload_kind spec +s+ "/"
  +s+ wr_name spec +s+ "; resource changes may affect autoscaling behavior".

Definition pdb_match_name (pod_labels : gmap string string) (pdb : PodDisruptionBudget)
    : option string :=
  let selector := s ← pdb_spec pdb; s in
  if label_selector_matches selector pod_labels
  then Some (unwrap_or "<unknown>" (name (pdb_metadata pdb))) else None.

Definition pdb_warning (spec : WorkloadResourcesSpec) (nm : string) : string :=
  "preflight.pdb.selector_overlap: PDB " +s+ nm +s+ " selector matches " +s+ workload_kind spec
  +s+ "/" +s+ wr_name spec +s+ " pod labels; rollout may be constrained".

Definition vpa_warning (spec : WorkloadResourcesSpec) (nm mode : string) : string :=
  "preflight.vpa.auto_mode: VPA " +s+ nm +s+ " targets " +s+ workload_kind spec +s+ "/"
  +s+ wr_name spec +s+ " with updateMode=" +s+ mode +s+ "; manual resources may be overwritten".

Definition pointer_str (path : list string) (v : json) : option string :=
  x ← json_pointer path v; as_str x.

(** The warning of one VPA object, if any. *)
Definition vpa_object_warning (spec : WorkloadResourcesSpec) (nm : string) (as_value : json)
    : option string :=
  let target_kind := unwrap_or "" (pointer_str ["spec"; "targetRef"; "kind"] as_value) in
  let target_name := unwrap_or "" (pointer_str ["spec"; "targetRef"; "name"] as_value) in
  if negb (String.eqb target_kind (workload_kind spec))
     || negb (String.eqb target_name (wr_name spec)) then None
  else
    let mode := pointer_str ["spec"; "updatePolicy"; "updateMode"] as_value in
    if vpa_mode_is_conflicting mode
    then Some (vpa_warning spec nm (unwrap_or "Auto" mode)) else None.

Definition presence_warning (check_name object ns constraint : string) (count : nat) : string :=
  "preflight." +s+ check_name +s+ ".present: namespace " +s+ ns +s+ " has "
  +s+ int_to_string (Z.of_nat count) +s+ " " +s+ object +s+ " object(s); requested values may "
  +s+ constraint.

Section preflight.
Context `{Codec}.

Definition preflight_check_hpa (spec : WorkloadResourcesSpec)
    : kprog (result string (list string)) :=
  listed ← call (ListObjs RHpa (Some (wr_namespace spec)) None);
  try items := listed else e => mret (Err (kube_display e)) in
  let names := sort_strings (filter_map (hpa_target_name spec) items) in
  mret (Ok (map (hpa_warning spec) names)).

Fixpoint vpa_warnings (spec : WorkloadResourcesSpec) (items : list DynamicObject)
    (warnings : list string) : result string (list string) :=
  match items with
  | [] => Ok (sort_strings warnings)
  | vpa :: items =>
      let nm := unwrap_or "<unknown>" (name (dyn_metadata vpa)) in
      as_value ← dyn_to_value vpa;
      match vpa_object_warning spec nm as_value with
      | Some w => vpa_warnings spec items (warnings ++ [w])
      | None => vpa_warnings spec items warnings
      end
  end.

Definition RVpa : resource := RDynamic "autoscaling.k8s.io" "v1" "VerticalPodAutoscaler".

Definition preflight_check_vpa (spec : WorkloadResourcesSpec)
    : kprog (result string (list string)) :=
  listed ← call (ListObjs RVpa (Some (wr_namespace spec)) None);
  try items := listed else e => mret (Err (kube_display e)) in
  mret (vpa_warnings spec items []).

Definition preflight_check_limitrange (spec : WorkloadResourcesSpec)
    : kprog (result string (list string)) :=
  listed ← call (ListObjs RLimitRange (Some (wr_namespace spec)) None);
  try items := listed else e => mret (Err (kube_display e)) in
  if is_empty items then mret (Ok [])
  else mret (Ok [presence_warning "limitrange" "LimitRange" (wr_namespace spec)
                   "be constrained" (length items)]).

Definition preflight_check_resourcequota (spec : WorkloadResourcesSpec)
    : kprog (result string (list string)) :=
  listed ← call (ListObjs RResourceQuota (Some (wr_namespace spec)) None);
  try items := listed else e => mret (Err (kube_display e)) in
  if is_empty items then mret (Ok [])
  else mret (Ok [presence_warning "resourcequota" "ResourceQuota" (wr_namespace spec)
                   "exceed quota" (length items)]).

Definition preflight_check_pdb (spec : WorkloadResourcesSpec)
    (pod_labels : gmap string string) : kprog (result string (list string)) :=
  listed ← call (ListObjs RPdb (Some (wr_namespace spec)) None);
  try items := listed else e => mret (Err (kube_display e)) in
  let names := sort_strings (filter_map (pdb_match_name pod_labels) items) in
  mret (Ok (map (pdb_warning spec) names)).

Definition collect_preflight_warnings (spec : WorkloadResourcesSpec)
    (pod_labels : gmap string string) : kprog (list string) :=
  hpa ← preflight_check_hpa spec;
  let warnings := merge_check [] "hpa" hpa in
  vpa ← preflight_check_vpa spec;
  let warnings := merge_check warnings "vpa" vpa in
  limitrange ← preflight_check_limitrange spec;
  let warnings := merge_check warnings "limitrange" limitrange in
  resourcequota ← preflight_check_resourcequota spec;
  let warnings := merge_check warnings "resourcequota" resourcequota in
  pdb ← preflight_check_pdb spec pod_labels;
  mret (merge_check warnings "pdb" pdb).
End preflight.

(** ** The checks only read *)

Section logic.
Context `{Codec} (G : list kevent -> op -> Prop)
  (Hread : forall h o, mutating o = false -> G h o).

(** The shape shared by the checks. *)
Lemma wp_list_check {A} r ns fields (f : result KubeError (list (obj r)) -> kprog A) Q h :
  (forall x, exists a, f x = mret a) ->
  (forall a t, Q a (h ++ t)) ->
  wp G Q h (x ← call (ListObjs r ns fields); f x).
Proof using Hread.
  intros Hf HQ. wp_step. wp_step; [by apply Hread|]. intros x.
  destruct (Hf x) as (a & ->). wp_step. apply HQ.
Qed.

Lemma wp_preflight spec labels Q h :
  (forall a t, Q a (h ++ t)) -> wp G Q h (collect_preflight_warnings spec labels).
Proof using Hread.
  intros HQ. unfold collect_preflight_warnings.
  do 5 (wp_step; apply wp_list_check;
    [intros [?|?]; try (destruct (is_empty _)); by eexists|];
    intros ? ?).
  wp_step. rewrite <- !app_assoc. apply HQ.
Qed.
End logic.
