(* ===== verification/Actions.v ===== *)
(** * Handlers of namespaced commands (executor.rs)

    [get_resource_yaml], the preview and the application of workload
    resources, [scale], [self_update], [update_agent] and
    [diagnose_postgresql].  Every [return] of a Rust handler is a branch here;
    the operations come in the order of the calls. *)
From S2P Require Import Prelude RustStr Json Effects Kube Model Config Policy Workload Access Preflight Demo.
Local Open Scope Z_scope.

(** ** Errors *)

Definition command_error (command_id : string) (m : ExecutionMode) (message : string)
    : kprog CommandResult :=
  result ← simple command_id "error" (Some message);
  mret (with_dry_run (Some (bool_decide (m = Preview))) result).

Definition update_agent_error (command_id message : string) : kprog CommandResult :=
  result ← simple command_id "error" (Some message);
  mret (with_dry_run (Some false) result).

Definition resource_yaml_error (command_id message : string) : kprog CommandResult :=
  simple command_id "error" (Some message).

(** The diagnosis of the PostgreSQL plugin (plugins/mod.rs), as the executor
    uses it: it produces a report and changes nothing. *)
Class Diagnostics := {
  diagnose : Config -> PostgresqlDiagnosticSpec -> kprog PostgresqlDiagnosticReport;
  diagnose_reads cfg spec h :
    wp (fun _ o => mutating o = false) (fun _ _ => True) h (diagnose cfg spec) }.

Record ResourcePreview := {
  rp_patch : json;
  rp_observed_before : json;
  rp_observed_after : json;
  rp_warnings : list string }.

Definition execution_json (m : ExecutionMode) : json :=
  jobj [("mode", JStr (execution_mode_name m))].
Definition target_json (t : WorkloadTargetRef) : json :=
  jobj [("kind", JStr (tgt_kind t)); ("namespace", JStr (tgt_namespace t));
        ("name", JStr (tgt_name t))].

Section actions.
Context `{Codec} (cfg : Config).

(** ** get_resource_yaml *)

(** The object is read; the rest is local. *)
Definition resource_yaml_result (command_id : string)
    (api_version kind namespace nm : string) (requested : json) (object : DynamicObject)
    : kprog CommandResult :=
  let error := resource_yaml_error command_id in
  let resource_version := resource_version (dyn_metadata object) in
  try json_value := dyn_to_value object else err =>
    error ("failed to serialize " +s+ kind +s+ " " +s+ nm +s+ " to JSON: " +s+ err) in
  try json_value := sanitize_manifest_like_yaml json_value else err => error err in
  try yaml := yaml_to_string json_value else err =>
    error ("failed to serialize " +s+ kind +s+ " " +s+ nm +s+ " to YAML: " +s+ err) in
  if RESOURCE_YAML_MAX_BYTES <? str_len yaml then
    error ("resource YAML exceeds maximum size of " +s+ int_to_string RESOURCE_YAML_MAX_BYTES
           +s+ " bytes (got " +s+ int_to_string (str_len yaml) +s+ ")")
  else
  result ← simple command_id "ok" None;
  fetched_at ← call NowRfc3339;
  mret (with_resource_yaml (Some
    {| yr_cluster_id := cluster_id cfg;
       yr_resource := {| res_api_version := api_version; res_kind := kind;
         res_namespace := if str_is_empty namespace then None else Some namespace;
         res_name := nm; res_resource_version := resource_version |};
       yr_format := RESOURCE_YAML_FORMAT; yr_mode := RESOURCE_YAML_MODE;
       yr_content := yaml; yr_fetched_at := fetched_at; yr_warnings := [] |})
    (with_requested_state (Some requested) result)).

Definition get_resource_yaml (command_id : string) (spec : ResourceYamlSpec)
    : kprog CommandResult :=
  let error := resource_yaml_error command_id in
  let api_version := trim (yaml_api_version spec) in
  let kind := trim (yaml_kind spec) in
  let nm := trim (yaml_name spec) in
  let namespace := n ← yaml_namespace spec;
                   if str_is_empty (trim n) then None else Some (trim n) in
  if str_is_empty api_version then error "apiVersion is required"
  else if str_is_empty kind then error "kind is required"
  else if str_is_empty nm then error "name is required"
  else if String.eqb kind "Secret" then error "Secret retrieval is disabled" else
  some target := resource_yaml_target api_version kind else
    error ("unsupported resource kind " +s+ kind +s+ " with apiVersion " +s+ api_version) in
  let scoped :=
    match namespaced target, namespace with
    | true, Some namespace => Ok namespace
    | true, None => Err ("namespace is required for namespaced resource kind " +s+ kind)
    | false, Some _ => Err ("namespace must be omitted for cluster-scoped resource kind " +s+ kind)
    | false, None => Ok ""
    end in
  try namespace := scoped else message => error message in
  let requested := jobj
    [("apiVersion", JStr api_version); ("kind", JStr kind);
     ("namespace", if str_is_empty namespace then JNull else JStr namespace);
     ("name", JStr nm)] in
  some gv := split_api_version api_version else
    error ("unsupported apiVersion format " +s+ api_version) in
  got ← call (Get (RDynamic (fst gv) (snd gv) kind)
                  (if namespaced target then Some namespace else None) nm);
  try object := got else err =>
    error (resource_yaml_read_error kind namespace nm err) in
  resource_yaml_result command_id api_version kind namespace nm requested object.

(** ** Workload resources *)

(** The branch of one controller in [execute_workload_resources_inner]. *)
Definition patch_workload (c : Controller) (spec : WorkloadResourcesSpec) (dry_run : bool)
    (patch : json) : kprog (result string ResourcePreview) :=
  let op_name := if dry_run then "dry-run patch" else "apply patch" in
  got ← call (Get (ctl_resource c) (Some (wr_namespace spec)) (wr_name spec));
  try before := got else e =>
    mret (Err ("failed to get " +s+ ctl_kind c +s+ " " +s+ wr_name spec +s+ ": "
               +s+ kube_display e)) in
  try observed_before := workload_container_resources c before (wr_container spec)
    else e => mret (Err e) in
  warnings ← collect_preflight_warnings spec (workload_pod_labels c before);
  patched ← call (PatchObj (ctl_resource c) (Some (wr_namespace spec)) (wr_name spec)
                    {| dry_run := dry_run |} (Strategic patch));
  try after := patched else e =>
    mret (Err (op_name +s+ " failed for " +s+ ctl_kind c +s+ " " +s+ wr_name spec +s+ ": "
               +s+ kube_display e)) in
  try observed_after := workload_container_resources c after (wr_container spec)
    else e => mret (Err e) in
  mret (Ok {| rp_patch := patch; rp_observed_before := observed_before;
              rp_observed_after := observed_after; rp_warnings := warnings |}).

Definition workload_resources_kind (dry_run : bool) : string :=
  if dry_run then "preview_workload_resources" else "apply_workload_resources".

Definition execute_workload_resources_inner (spec : WorkloadResourcesSpec) (dry_run : bool)
    : kprog (result string ResourcePreview) :=
  allowed ← ensure_effective_policy_allows cfg (wr_namespace spec)
              (workload_resources_kind dry_run) (Some (workload_kind spec)) (Some spec);
  try _policy := allowed else e => mret (Err e) in
  try patch := build_workload_resources_patch spec else e => mret (Err e) in
  match controller_of (workload_kind spec) with
  | Some c => patch_workload c spec dry_run patch
  | None => mret (Err ("unsupported workload_kind " +s+ workload_kind spec
                       +s+ "; expected Deployment, StatefulSet, or DaemonSet"))
  end.

(** [preview_workload_resources] and [apply_workload_resources] differ in the
    flag only. *)
Definition workload_resources (dry_run : bool) (command_id : string)
    (spec : WorkloadResourcesSpec) : kprog CommandResult :=
  done ← execute_workload_resources_inner spec dry_run;
  match done with
  | Ok p =>
      r ← simple command_id "ok" None;
      let r := with_dry_run (Some dry_run) r in
      let r := with_applied_patch (Some (rp_patch p)) r in
      let r := with_observed_before (Some (rp_observed_before p)) r in
      let r := with_observed_after (Some (rp_observed_after p)) r in
      mret (with_warnings (rp_warnings p) r)
  | Err message =>
      r ← simple command_id "error" (Some message);
      mret (with_dry_run (Some dry_run) r)
  end.
Definition preview_workload_resources := workload_resources true.
Definition apply_workload_resources := workload_resources false.

(** ** scale *)

Definition scale_patch (spec : ScaleSpec) : json :=
  jobj [("spec", jobj [("replicas", JNum (scale_replicas spec))])].

Definition scale_observed (s : Scale) : json :=
  jobj [("desired_replicas", JNum (unwrap_or 0 (sp ← sc_spec s; sc_replicas sp)));
        ("current_replicas", JNum (unwrap_or 0 (sc_status_replicas <$> sc_status s)))].

Definition scale_before (before : Deployment) (before_scale : Scale) : json :=
  jobj [("replicas", jopt JNum (sp ← sc_spec before_scale; sc_replicas sp));
        ("ready_replicas", jopt JNum (s ← dp_status before; dps_ready s));
        ("available_replicas", jopt JNum (s ← dp_status before; dps_available s))].

Definition scale_workload (command_id : string) (spec : ScaleSpec) : kprog CommandResult :=
  let target := scale_target spec in
  let m := mode (scale_execution spec) in
  let error := command_error command_id m in
  allowed ← ensure_effective_policy_allows cfg (tgt_namespace target) "scale"
              (Some (tgt_kind target)) None;
  try _policy := allowed else message => error message in
  if scale_replicas spec <? 0 then
    error "scale replicas must be greater than or equal to 0"
  else if negb (String.eqb (tgt_kind target) "Deployment") then
    error ("unsupported scale target kind " +s+ tgt_kind target +s+ "; expected Deployment")
  else
  got ← call (Get RDeployment (Some (tgt_namespace target)) (tgt_name target));
  try before := got else e =>
    error ("failed to get Deployment " +s+ tgt_name target +s+ ": " +s+ kube_display e) in
  got ← call (GetScale (tgt_namespace target) (tgt_name target));
  try before_scale := got else e =>
    error ("failed to get scale for Deployment " +s+ tgt_name target +s+ ": "
           +s+ kube_display e) in
  r ← simple command_id "ok" None;
  let r := with_requested_state (Some (jobj
    [("execution", execution_json m); ("target", target_json target);
     ("replicas", JNum (scale_replicas spec))])) r in
  let r := with_dry_run (Some (bool_decide (m = Preview))) r in
  let r := with_observed_before (Some (scale_before before before_scale)) r in
  rehearsed ← call (PatchScale (tgt_namespace target) (tgt_name target)
                      {| dry_run := true |} (Merge (scale_patch spec)));
  try rehearsed := rehearsed else e =>
    error ("scale dry-run failed for Deployment " +s+ tgt_name target +s+ ": "
           +s+ kube_display e) in
  let r := with_applied_patch (Some (scale_patch spec)) r in
  let r := with_observed_after (Some (scale_observed rehearsed)) r in
  if bool_decide (m = Preview) then mret r else
  applied ← call (PatchScale (tgt_namespace target) (tgt_name target)
                    {| dry_run := false |} (Merge (scale_patch spec)));
  try applied := applied else e =>
    error ("scale apply failed for Deployment " +s+ tgt_name target +s+ ": "
           +s+ kube_display e) in
  let r := with_dry_run (Some false) r in
  let r := with_observed_after (Some (scale_observed applied)) r in
  mret (with_verification (Some
    {| av_status := "accepted";
       av_message := Some "scale request applied; stabilization is tracked separately";
       av_observed_state := Some (scale_observed applied) |}) r).

(** ** self_update *)

Definition self_update (command_id : string) (spec : SelfUpdateSpec) : kprog CommandResult :=
  allowed ← ensure_effective_policy_allows cfg UPDATE_AGENT_NAMESPACE "self_update" None None;
  try _policy := allowed else message => command_error command_id Execute message in
  r ← simple command_id "ok" (Some
    ("self_update accepted: strategy=" +s+ unwrap_or "restart_pod" (strategy spec)
     +s+ ", target_version=" +s+ unwrap_or "<unspecified>" (target_version spec)
     +s+ ", reason=" +s+ unwrap_or "<none>" (update_reason spec)));
  mret (with_restart_requested (Some true) r).

(** ** update_agent *)

Definition agent_preflight_spec : WorkloadResourcesSpec :=
  {| workload_kind := "DaemonSet"; wr_namespace := UPDATE_AGENT_NAMESPACE;
     wr_name := UPDATE_AGENT_DAEMONSET; wr_container := UPDATE_AGENT_CONTAINER;
     wr_requests := None; wr_limits := None |}.

Definition agent_target : string := UPDATE_AGENT_NAMESPACE +s+ "/" +s+ UPDATE_AGENT_DAEMONSET.

Definition patch_agent (pp : PatchParams) (image : string) : op :=
  PatchObj RDaemonSet (Some UPDATE_AGENT_NAMESPACE) UPDATE_AGENT_DAEMONSET pp
    (Strategic (update_agent_patch image)).

Definition update_agent (command_id : string) (spec : UpdateAgentSpec) : kprog CommandResult :=
  let error := update_agent_error command_id in
  allowed ← ensure_effective_policy_allows cfg UPDATE_AGENT_NAMESPACE "update_agent" None None;
  try _policy := allowed else message => error message in
  try image := validate_update_agent_image (image spec) else message => error message in
  got ← call (Get RDaemonSet (Some UPDATE_AGENT_NAMESPACE) UPDATE_AGENT_DAEMONSET);
  try before := got else e =>
    error ("failed to get target DaemonSet " +s+ agent_target +s+ ": " +s+ kube_display e) in
  try before_image := daemonset_container_image before UPDATE_AGENT_CONTAINER
    else message => error message in
  warnings ← collect_preflight_warnings agent_preflight_spec
               (workload_pod_labels daemonset_controller before);
  rehearsed ← call (patch_agent {| dry_run := true |} image);
  try _rehearsed := rehearsed else e =>
    error ("update_agent dry-run failed for target DaemonSet " +s+ agent_target +s+ ": "
           +s+ kube_display e) in
  patched ← call (patch_agent {| dry_run := false |} image);
  try after := patched else e =>
    error ("failed to patch target DaemonSet " +s+ agent_target +s+ ": " +s+ kube_display e) in
  try after_image := daemonset_container_image after UPDATE_AGENT_CONTAINER
    else message => error message in
  r ← simple command_id "ok" (Some
    ("update_agent applied on " +s+ agent_target +s+ " container " +s+ UPDATE_AGENT_CONTAINER
     +s+ ": " +s+ before_image +s+ " -> " +s+ after_image));
  let r := with_dry_run (Some false) r in
  let r := with_applied_patch (Some (update_agent_patch image)) r in
  let r := with_observed_before (Some (jobj [("image", JStr before_image)])) r in
  let r := with_observed_after (Some (jobj [("image", JStr after_image)])) r in
  mret (with_warnings warnings r).

(** ** diagnose_postgresql *)

Definition diagnose_postgresql `{Diagnostics} (command_id : string)
    (spec : PostgresqlDiagnosticSpec) : kprog CommandResult :=
  allowed ← ensure_effective_policy_allows cfg (pg_namespace spec) "diagnose_postgresql" None None;
  try _policy := allowed else message => command_error command_id Execute message in
  report ← diagnose cfg spec;
  r ← simple command_id "ok" None;
  mret (with_diagnostic (Some report) r).
End actions.

(** ** Each handler under its guard *)

Section logic.
Context `{Codec} (cfg : Config).

Definition nothing : op -> Prop := fun _ => False.

Lemma wp_command_error G id id' m msg h :
  (forall h o, mutating o = false -> G h o) -> id' = id ->
  wp G (fun r _ => basic_result id r) h (command_error id' m msg).
Proof.
  intros HG ->. unfold command_error.
  apply wp_simple_basic; [done|by right| |done]. intros r Hr. by apply basic_set_fields.
Qed.

Lemma wp_error G id msg h :
  (forall h o, mutating o = false -> G h o) ->
  wp G (fun r _ => basic_result id r) h (resource_yaml_error id msg).
Proof.
  intros HG. apply wp_simple; [by apply HG|]. intros now. split; [done|by right].
Qed.

(** [get_resource_yaml] only reads, and reads one object at most. *)
Lemma wp_get_resource_yaml id spec h :
  wp (fun _ o => mutating o = false) (fun r _ => basic_result id r) h
    (get_resource_yaml cfg id spec).
Proof.
  assert (HG : forall h o, mutating o = false -> (fun _ o => mutating o = false) (h : list kevent) o)
    by done.
  unfold get_resource_yaml.
  do 4 (wp_case; [apply wp_error; done|]).
  do 3 (wp_case; [|apply wp_error; done]).
  wp_step. wp_step; [done|]. intros [object|e]; [|apply wp_error; done].
  unfold resource_yaml_result.
  do 3 (wp_case; [|apply wp_error; done]).
  wp_case; [apply wp_error; done|].
  wp_step. apply wp_simple; [done|]. intros now.
  wp_step. wp_step; [done|]. intros at'. wp_step. split; [done|by left].
Qed.

(** The operation that changes the cluster in each handler. *)
Definition resources_change (spec : WorkloadResourcesSpec) (o : op) : Prop :=
  exists c patch, controller_of (workload_kind spec) = Some c /\
    build_workload_resources_patch spec = Ok patch /\
    o = PatchObj (ctl_resource c) (Some (wr_namespace spec)) (wr_name spec)
          {| dry_run := false |} (Strategic patch).

Definition scale_change (spec : ScaleSpec) (o : op) : Prop :=
  tgt_kind (scale_target spec) = "Deployment" /\ 0 <= scale_replicas spec /\
  o = PatchScale (tgt_namespace (scale_target spec)) (tgt_name (scale_target spec))
        {| dry_run := false |} (Merge (scale_patch spec)).

Definition agent_change (spec : UpdateAgentSpec) (o : op) : Prop :=
  agent_image (trim (image spec)) /\ o = patch_agent {| dry_run := false |} (trim (image spec)).

(** The permits of the handlers. *)
Definition resources_permit (dry : bool) (spec : WorkloadResourcesSpec) : permit :=
  NamespacePermit (wr_namespace spec) (workload_resources_kind dry)
    (Some (workload_kind spec)) (Some spec).
Definition workload_permit (kind : string) (target : WorkloadTargetRef) : permit :=
  NamespacePermit (tgt_namespace target) kind (Some (tgt_kind target)) None.
Definition agent_permit (kind : string) : permit :=
  NamespacePermit UPDATE_AGENT_NAMESPACE kind None None.

Definition resources_guard (dry : bool) (spec : WorkloadResourcesSpec) :=
  handler_guard cfg (resources_permit dry spec) (negb dry) false (resources_change spec).

Lemma wp_execute_workload_resources_inner dry spec h :
  wp (resources_guard dry spec) (fun _ _ => True) h
    (execute_workload_resources_inner cfg spec dry).
Proof.
  assert (HG : forall h o, mutating o = false -> resources_guard dry spec h o)
    by (intros; by apply handler_guard_read).
  unfold execute_workload_resources_inner. wp_step.
  apply (wp_ensure_effective_policy_allows _ _ HG). intros [ep|m] t Hc; [|by wp_step].
  specialize (Hc ep eq_refl).
  wp_case; [|by wp_step]. wp_case; [|by wp_step].
  unfold patch_workload. wp_step. wp_step; [by apply HG|].
  intros [before|e]; [|by wp_step]. wp_case; [|by wp_step].
  wp_step. apply (wp_preflight _ HG). intros ws t'.
  wp_step. wp_step.
  - intros Hm. simpl in Hm. split_and!; [done| |done|].
    + do 2 apply consulted_app. exact Hc.
    + eexists _, _. split_and!; [done|done|]. by rewrite (proj1 (negb_true_iff dry) Hm).
  - intros [after|e]; [|by wp_step]. wp_case; by wp_step.
Qed.

Lemma wp_workload_resources dry id spec h :
  wp (resources_guard dry spec) (fun r _ => basic_result id r /\ r_dry_run r = Some dry) h
    (workload_resources cfg dry id spec).
Proof.
  unfold workload_resources. wp_step.
  eapply wp_mono; [apply wp_execute_workload_resources_inner|].
  intros [p|m] h' _; wp_step; (apply wp_simple; [by apply handler_guard_read|]); intros now;
    wp_step; (split; [split|]); auto.
Qed.

Definition scale_guard (spec : ScaleSpec) :=
  handler_guard cfg (workload_permit "scale" (scale_target spec))
    (bool_decide (mode (scale_execution spec) = Execute)) true (scale_change spec).

Lemma wp_scale_workload id spec h :
  wp (scale_guard spec) (fun r _ => basic_result id r) h (scale_workload cfg id spec).
Proof.
  assert (HG : forall h o, mutating o = false -> scale_guard spec h o)
    by (intros; by apply handler_guard_read).
  unfold scale_workload. wp_step.
  apply (wp_ensure_effective_policy_allows _ _ HG).
  intros [ep|m] t Hc; [|by apply wp_command_error]. specialize (Hc ep eq_refl).
  wp_case; [by apply wp_command_error|]. wp_case; [by apply wp_command_error|].
  apply Z.ltb_ge in E. apply negb_false_iff, String.eqb_eq in E0.
  wp_step. wp_step; [by apply HG|]. intros [before|e]; [|by apply wp_command_error].
  wp_step. wp_step; [by apply HG|]. intros [bs|e]; [|by apply wp_command_error].
  wp_step. apply wp_simple; [by apply HG|]. intros now.
  wp_step. wp_step; [by apply HG|]. intros [dr|e]; [|by apply wp_command_error].
  wp_case; [wp_step; split; auto|]. apply bool_decide_eq_false in E1.
  wp_step. wp_step.
  - intros _. split_and!.
    + apply bool_decide_eq_true. by destruct (mode (scale_execution spec)).
    + do 4 apply consulted_app. exact Hc.
    + intros _. exists dr. apply in_app_iff. right. by left.
    + by split_and!.
  - intros [ap|e]; [|by apply wp_command_error]. wp_step. split; auto.
Qed.

Lemma wp_self_update id spec h :
  wp (fun _ o => mutating o = false) (fun r _ => basic_result id r) h (self_update cfg id spec).
Proof.
  unfold self_update. wp_step. apply wp_ensure_effective_policy_allows; [done|].
  intros [ep|m] t _; [|by apply wp_command_error].
  wp_step. apply wp_simple; [done|]. intros now. wp_step. split; auto.
Qed.

Definition agent_guard (spec : UpdateAgentSpec) :=
  handler_guard cfg (agent_permit "update_agent") true true (agent_change spec).

Lemma wp_update_agent_error G id msg h :
  (forall h o, mutating o = false -> G h o) ->
  wp G (fun r _ => basic_result id r) h (update_agent_error id msg).
Proof.
  intros HG. unfold update_agent_error. wp_step. apply wp_simple; [by apply HG|].
  intros now. wp_step. split; auto.
Qed.

Lemma wp_update_agent id spec h :
  wp (agent_guard spec) (fun r _ => basic_result id r) h (update_agent cfg id spec).
Proof.
  assert (HG : forall h o, mutating o = false -> agent_guard spec h o)
    by (intros; by apply handler_guard_read).
  unfold update_agent. wp_step. apply (wp_ensure_effective_policy_allows _ _ HG).
  intros [ep|m] t Hc; [|by apply wp_update_agent_error]. specialize (Hc ep eq_refl).
  wp_case; [|by apply wp_update_agent_error].
  apply validate_image_ok in E as [-> Himg].
  wp_step. wp_step; [by apply HG|]. intros [before|e]; [|by apply wp_update_agent_error].
  wp_case; [|by apply wp_update_agent_error].
  wp_step. apply (wp_preflight _ HG). intros ws t'.
  wp_step. wp_step; [by apply HG|]. intros [dr|e]; [|by apply wp_update_agent_error].
  wp_step. wp_step.
  - intros _. split_and!; [done| | |by split].
    + do 3 apply consulted_app. exact Hc.
    + intros _. exists dr. apply in_app_iff. right. by left.
  - intros [after|e]; [|by apply wp_update_agent_error].
    wp_case; [|by apply wp_update_agent_error].
    wp_step. apply wp_simple; [by apply HG|]. intros now. wp_step. split; auto.
Qed.

Lemma wp_diagnose_postgresql `{Diagnostics} id spec h :
  wp (fun _ o => mutating o = false) (fun r _ => basic_result id r) h
    (diagnose_postgresql cfg id spec).
Proof.
  unfold diagnose_postgresql. wp_step. apply wp_ensure_effective_policy_allows; [done|].
  intros [ep|m] t _; [|by apply wp_command_error].
  wp_step. eapply wp_mono; [apply diagnose_reads|]. intros rep h' _.
  wp_step. apply wp_simple; [done|]. intros now. wp_step. split; auto.
Qed.
End logic.

(** ** What [get_resource_yaml] may read *)

Section yaml.
Context `{Codec} (cfg : Config).

(** The read that a request asks for: of an allowlisted kind, under the trimmed
    name that it gives, and in the trimmed namespace that it gives exactly if
    the kind is namespaced; a blank namespace is none. *)
Definition requested_namespace (spec : ResourceYamlSpec) (namespaced : bool) (ns : option string) : Prop :=
  let given := trim (unwrap_or "" (yaml_namespace spec)) in
  if namespaced then ns = Some given /\ given <> "" else ns = None /\ given = "".
Definition requested_read (spec : ResourceYamlSpec) (o : op) : Prop :=
  exists target group version ns, In target RESOURCE_YAML_SUPPORTED_TARGETS /\
    target_api_version target = trim (yaml_api_version spec) /\
    target_kind target = trim (yaml_kind spec) /\
    split_api_version (target_api_version target) = Some (group, version) /\
    trim (yaml_name spec) <> "" /\ requested_namespace spec (namespaced target) ns /\
    o = Get (RDynamic group version (trim (yaml_kind spec))) ns (trim (yaml_name spec)).

Definition is_clock (o : op) : bool := match o with NowMs | NowRfc3339 => true | _ => false end.

(** The clock, or that read, once. *)
Definition yaml_guard (spec : ResourceYamlSpec) (h : list kevent) (o : op) : Prop :=
  is_clock o = true \/
  (requested_read spec o /\ Forall (fun e => is_clock (op_of e) = true) h).

(** An ok result holds the YAML of the sanitised object that was read, under
    the size limit, with the object's coordinates. *)
Definition yaml_result (r : CommandResult) (h : list kevent) : Prop :=
  r_status r = "ok" ->
  exists y group version object sanitized,
    resource_yaml r = Some y /\ yr_cluster_id y = cluster_id cfg /\
    res_resource_version (yr_resource y) = resource_version (dyn_metadata object) /\
    split_api_version (res_api_version (yr_resource y)) = Some (group, version) /\
    In (ev (R:=resp) (Get (RDynamic group version (res_kind (yr_resource y)))
          (res_namespace (yr_resource y)) (res_name (yr_resource y))) (Ok object)) h /\
    (v ← dyn_to_value object; sanitize_manifest_like_yaml v) = Ok sanitized /\
    yaml_to_string sanitized = Ok (yr_content y) /\
    str_len (yr_content y) <= RESOURCE_YAML_MAX_BYTES.

Lemma wp_yaml_error spec id msg h :
  wp (yaml_guard spec) yaml_result h (resource_yaml_error id msg).
Proof. apply wp_simple; [by left|]. by intros now [=]. Qed.

(** The namespace that scopes the read. *)
Lemma scope_namespace spec (t : ResourceYamlTarget) kind s :
  match namespaced t, (n ← yaml_namespace spec; if str_is_empty (trim n) then None else Some (trim n)) with
  | true, Some ns => Ok ns
  | true, None => Err ("namespace is required for namespaced resource kind " +s+ kind)
  | false, Some _ =>
      Err ("namespace must be omitted for cluster-scoped resource kind " +s+ kind)
  | false, None => Ok ""
  end = Ok s ->
  (if namespaced t then Some s else None) = (if str_is_empty s then None else Some s) /\
  requested_namespace spec (namespaced t) (if namespaced t then Some s else None).
Proof.
  unfold requested_namespace. intros Hs.
  destruct (namespaced t), (yaml_namespace spec) as [n|]; cbn [mbind option_bind unwrap_or] in *;
    try (destruct (trim n) as [|a n'] eqn:Hn; cbn [str_is_empty] in Hs); simplify_eq/=; repeat split; try done. all: by rewrite Hn.
Qed.

Lemma wp_get_resource_yaml_reads id spec :
  wp (yaml_guard spec) yaml_result [] (get_resource_yaml cfg id spec).
Proof.
  unfold get_resource_yaml. cbv zeta.
  do 4 (wp_case; [apply wp_yaml_error|]).
  wp_case; [|apply wp_yaml_error]. rename r into target.
  wp_case; [|apply wp_yaml_error]. rename a into s.
  apply scope_namespace in E4 as [Hsc Hns].
  wp_case; [|apply wp_yaml_error]. destruct p as [group version].
  apply resource_yaml_target_some in E3 as (Hin & Hv & Hk).
  wp_step. wp_step.
  { right. split; [|constructor]. exists target, group, version. eexists. rewrite Hv.
    split_and!; try done. by destruct (trim (yaml_name spec)). }
  intros [object|e]; [|apply wp_yaml_error]. simpl in object.
  unfold resource_yaml_result.
  wp_case; [|apply wp_yaml_error]. wp_case; [|apply wp_yaml_error].
  wp_case; [|apply wp_yaml_error]. wp_case; [apply wp_yaml_error|].
  match goal with HL : (_ <? _) = false |- _ => apply Z.ltb_ge in HL end.
  wp_step. apply wp_simple; [by left|]. intros now.
  wp_step. wp_step; [by left|]. intros at'. wp_step. intros _.
  eexists _, group, version, object, _. split_and!; try reflexivity; simpl; try eassumption.
  - left. by rewrite Hsc.
  - match goal with HD : dyn_to_value object = _ |- _ => by rewrite HD end.
Qed.
End yaml.

(** ** Properties *)

(** C19: [get_resource_yaml] reads at most one object, and nothing else but the
    clock: the one that the request names, by the trimmed apiVersion, kind and
    name, in the trimmed namespace exactly if the kind is namespaced.  The kind
    is allowlisted and never a Secret.  An ok result carries the YAML of that
    object, which was read under the coordinates that the result gives, after
    sanitising and of at most 512 KiB. *)
Theorem get_resource_yaml_safe `{Codec} cfg id spec t r :
  runs (get_resource_yaml cfg id spec) t r ->
  (Forall (fun e => is_clock (op_of e) = true) t \/
   exists t1 e t2, t = t1 ++ e :: t2 /\ requested_read spec (op_of e) /\
     Forall (fun e => is_clock (op_of e) = true) (t1 ++ t2)) /\
  (forall o, requested_read spec o -> forall group version ns nm, o <> Get (RDynamic group version "Secret") ns nm) /\
  yaml_result cfg r t.
Proof.
  intros Hr.
  destruct (wp_sound _ _ _ _ _ _ _ (wp_get_resource_yaml_reads cfg id spec) Hr) as [HQ HG].
  split; [|split; [|done]].
  - clear HQ Hr. induction t as [|e t IH] using rev_ind; [by left|].
    destruct (HG t e [] eq_refl) as [He|[He Hc]].
    + destruct IH as [Hall|(t1 & e' & t2 & -> & He' & Hall)].
      * intros t1 e' t2 ->. apply (HG t1 e' (t2 ++ [e])). by rewrite <- app_assoc.
      * left. apply Forall_app. split; [done|by constructor].
      * right. exists t1, e', (t2 ++ [e]). rewrite <- app_assoc. split_and!; [done|done|].
        rewrite app_assoc. apply Forall_app. split; [done|by constructor].
    + right. exists t, e, []. by rewrite app_nil_r.
  - intros o (target & g & v & ns & Hin & _ & Hk & _ & _ & _ & ->) g' v' ns' nm' Heq.
    injection Heq as _ _ Hs _ _. rewrite Hs in Hk.
    apply (resource_yaml_target_not_secret (target_api_version target) (target_kind target) target); [|done].
    unfold RESOURCE_YAML_SUPPORTED_TARGETS in Hin. simpl in Hin.
    by destruct_or!; subst target.
Qed.

(** A preview of workload resources changes nothing in the cluster.
    Applying them changes it only by the strategic-merge patch built from the
    spec, sent to the workload that the spec names, and only after a listed
    policy authorised exactly this spec in its namespace. *)
Theorem workload_resources_safe `{Codec} cfg dry id spec t r t1 e t2 :
  runs (workload_resources cfg dry id spec) t r -> t = t1 ++ e :: t2 ->
  resources_guard cfg dry spec t1 (op_of e) /\ r_dry_run r = Some dry.
Proof.
  intros Hr Ht.
  destruct (wp_sound _ _ _ _ _ _ _ (wp_workload_resources cfg dry id spec []) Hr) as [[_ Hd] HG].
  split; [exact (HG t1 e t2 Ht)|done].
Qed.

(** [scale] changes the cluster only by setting the replicas of the target
    Deployment to the requested, non-negative number; only when the command's
    mode is execute, after a listed policy authorised it in the namespace, and
    after the same patch succeeded as a dry run. *)
Theorem scale_workload_safe `{Codec} cfg id spec t r t1 e t2 :
  runs (scale_workload cfg id spec) t r -> t = t1 ++ e :: t2 ->
  scale_guard cfg spec t1 (op_of e).
Proof.
  intros Hr Ht.
  destruct (wp_sound _ _ _ _ _ _ _ (wp_scale_workload cfg id spec []) Hr) as [_ HG].
  exact (HG t1 e t2 Ht).
Qed.

(** C20: [update_agent] changes the cluster only by setting the image of the
    agent container of the agent's own DaemonSet, to an image that passed the
    check, after a listed policy authorised the command and after the same
    patch succeeded as a dry run. *)
Theorem update_agent_safe `{Codec} cfg id spec t r t1 e t2 :
  runs (update_agent cfg id spec) t r -> t = t1 ++ e :: t2 ->
  agent_guard cfg spec t1 (op_of e).
Proof.
  intros Hr Ht.
  destruct (wp_sound _ _ _ _ _ _ _ (wp_update_agent cfg id spec []) Hr) as [_ HG].
  exact (HG t1 e t2 Ht).
Qed.

(** ** The handlers in the sample cluster *)

Definition demo_yaml_spec : ResourceYamlSpec :=
  {| yaml_api_version := " v1 "; yaml_kind := "ConfigMap"; yaml_namespace := Some "shop";
     yaml_name := "settings" |}.
Definition demo_resources_spec : WorkloadResourcesSpec :=
  {| workload_kind := "Deployment"; wr_namespace := "shop"; wr_name := "web"; wr_container := "app";
     wr_requests := Some {| rm_cpu := Some "250m"; rm_memory := None |}; wr_limits := None |}.
Definition demo_scale_spec : ScaleSpec :=
  {| scale_execution := default_execute_execution_spec;
     scale_target := {| tgt_kind := "Deployment"; tgt_namespace := "shop"; tgt_name := "web" |};
     scale_replicas := 3 |}.
Definition demo_agent_spec : UpdateAgentSpec :=
  {| image := " us-east1-docker.pkg.dev/sentinella-hub/kubernetes-agent/agent:1.2.3 " |}.

Definition demo_yaml : kprog CommandResult :=
  @get_resource_yaml (demo_codec demo_policy) (demo_config true) "c-3" demo_yaml_spec.
Definition demo_apply : kprog CommandResult :=
  @workload_resources (demo_codec demo_policy) (demo_config true) false "c-4" demo_resources_spec.
Definition demo_scaling : kprog CommandResult :=
  @scale_workload (demo_codec demo_policy) (demo_config true) "c-5" demo_scale_spec.
Definition demo_update : kprog CommandResult :=
  @update_agent (demo_codec demo_policy) (demo_config true) "c-6" demo_agent_spec.

(** The [n]th event of a run in the sample cluster, with what surrounds it. *)
Definition demo_trace {A} (p : kprog A) : list kevent := interp_trace demo_handler p demo_start.

Lemma get_resource_yaml_safe_witness :
  r_status (fst (interp demo_handler demo_yaml demo_start)) = "ok" /\
  exists t1 e t2, demo_trace demo_yaml = t1 ++ e :: t2 /\ requested_read demo_yaml_spec (op_of e) /\
    Forall (fun e => is_clock (op_of e) = true) (t1 ++ t2).
Proof.
  split; [vm_compute; reflexivity|].
  destruct (@get_resource_yaml_safe (demo_codec demo_policy) _ _ _ _ _
    (interp_runs _ demo_handler demo_yaml demo_start)) as [[Hall|H] _]; [|exact H].
  exfalso. assert (Hno : forallb (fun e => is_clock (op_of e)) (demo_trace demo_yaml) = false)
    by (vm_compute; reflexivity).
  apply Bool.not_true_iff_false in Hno. apply Hno, List.forallb_forall.
  intros e He. rewrite List.Forall_forall in Hall. exact (Hall e He).
Defined.

Lemma workload_resources_safe_witness :
  exists t1 e t2, demo_trace demo_apply = t1 ++ e :: t2 /\ mutating (op_of e) = true /\
    @resources_guard (demo_codec demo_policy) (demo_config true) false demo_resources_spec t1
      (op_of e).
Proof.
  assert (Hmut : (fun e => mutating (op_of e)) <$> demo_trace demo_apply !! 8%nat = Some true)
    by (vm_compute; reflexivity).
  destruct (demo_trace demo_apply !! 8%nat) as [e|] eqn:He; [|discriminate Hmut].
  pose proof (split_at _ _ _ He) as Hs. eexists _, e, _.
  split; [exact Hs|]. split; [by injection Hmut|].
  exact (proj1 (@workload_resources_safe (demo_codec demo_policy) _ _ _ _ _ _ _ _ _
    (interp_runs _ demo_handler demo_apply demo_start) Hs)).
Defined.

Lemma scale_workload_safe_witness :
  exists t1 e t2, demo_trace demo_scaling = t1 ++ e :: t2 /\ mutating (op_of e) = true /\
    @scale_guard (demo_codec demo_policy) (demo_config true) demo_scale_spec t1 (op_of e).
Proof.
  assert (Hmut : (fun e => mutating (op_of e)) <$> demo_trace demo_scaling !! 6%nat = Some true)
    by (vm_compute; reflexivity).
  destruct (demo_trace demo_scaling !! 6%nat) as [e|] eqn:He; [|discriminate Hmut].
  pose proof (split_at _ _ _ He) as Hs. eexists _, e, _.
  split; [exact Hs|]. split; [by injection Hmut|].
  exact (@scale_workload_safe (demo_codec demo_policy) _ _ _ _ _ _ _ _
    (interp_runs _ demo_handler demo_scaling demo_start) Hs).
Defined.

Lemma update_agent_safe_witness :
  exists t1 e t2, demo_trace demo_update = t1 ++ e :: t2 /\ mutating (op_of e) = true /\
    @agent_guard (demo_codec demo_policy) (demo_config true) demo_agent_spec t1 (op_of e).
Proof.
  assert (Hmut : (fun e => mutating (op_of e)) <$> demo_trace demo_update !! 9%nat = Some true)
    by (vm_compute; reflexivity).
  destruct (demo_trace demo_update !! 9%nat) as [e|] eqn:He; [|discriminate Hmut].
  pose proof (split_at _ _ _ He) as Hs. eexists _, e, _.
  split; [exact Hs|]. split; [by injection Hmut|].
  exact (@update_agent_safe (demo_codec demo_policy) _ _ demo_agent_spec _ _ _ _ _
    (interp_runs _ demo_handler demo_update demo_start) Hs).
Defined.
