(* ===== verification/Rollout.v ===== *)
(** * Rolling restarts (executor.rs)

    [rollout_restart] stamps the pod template with the time, first as a dry
    run and then for real, and waits until the controller reports the rollout
    complete or 120 seconds of the system clock have passed. *)
From S2P Require Import Prelude RustStr Json Effects Kube Model Config Policy Workload Access Demo Clock Actions.
Local Open Scope Z_scope.

Definition ROLLOUT_TIMEOUT_SECONDS : Z := 120.
Definition ROLLOUT_POLL_SECONDS : Z := 2.

(** ** Completion of a rollout *)

Definition zdef (o : option Z) : Z := unwrap_or 0 o.

(** [verify_deployment_rollout] after the read. *)
Definition deployment_observed (w : Deployment) : json :=
  let spec_replicas := unwrap_or 1 (s ← dp_spec w; dp_replicas s) in
  let status := dp_status w in
  let ready :=
    (spec_replicas <=? zdef (s ← status; dps_updated s))
    && (spec_replicas <=? zdef (s ← status; dps_available s))
    && (zdef (generation (dp_metadata w)) <=? zdef (s ← status; dps_observed_generation s)) in
  jobj [("ready", JBool ready);
        ("replicas", jopt JNum (s ← status; dps_replicas s));
        ("updated_replicas", JNum (zdef (s ← status; dps_updated s)));
        ("available_replicas", JNum (zdef (s ← status; dps_available s)));
        ("ready_replicas", JNum (zdef (s ← status; dps_ready s)));
        ("observed_generation", JNum (zdef (s ← status; dps_observed_generation s)))].

Definition statefulset_observed (w : StatefulSet) : json :=
  let spec_replicas := unwrap_or 1 (s ← st_spec w; st_replicas s) in
  let status := st_status w in
  let ready :=
    (spec_replicas <=? zdef (s ← status; sts_updated s))
    && (spec_replicas <=? zdef (s ← status; sts_ready s))
    && (zdef (generation (st_metadata w)) <=? zdef (s ← status; sts_observed_generation s)) in
  jobj [("ready", JBool ready);
        ("replicas", JNum (zdef (sts_replicas <$> status)));
        ("updated_replicas", JNum (zdef (s ← status; sts_updated s)));
        ("ready_replicas", JNum (zdef (s ← status; sts_ready s)));
        ("current_replicas", JNum (zdef (s ← status; sts_current s)));
        ("observed_generation", JNum (zdef (s ← status; sts_observed_generation s)))].

Definition daemonset_observed (w : DaemonSet) : json :=
  let status := ds_status w in
  let desired := zdef (dss_desired <$> status) in
  let ready :=
    (0 <? desired)
    && (desired <=? zdef (s ← status; dss_updated s))
    && (desired <=? zdef (s ← status; dss_available s))
    && (zdef (generation (ds_metadata w)) <=? zdef (s ← status; dss_observed_generation s)) in
  jobj [("ready", JBool ready);
        ("desired_number_scheduled", JNum desired);
        ("current_number_scheduled", JNum (zdef (dss_current <$> status)));
        ("number_ready", JNum (zdef (dss_number_ready <$> status)));
        ("updated_number_scheduled", JNum (zdef (s ← status; dss_updated s)));
        ("number_available", JNum (zdef (s ← status; dss_available s)));
        ("observed_generation", jopt JNum (s ← status; dss_observed_generation s))].

(** [verify_{deployment,statefulset,daemonset}_rollout]. *)
Definition verify_rollout (r : resource) (kind : string) (observed : obj r -> json)
    (namespace nm : string) : kprog (result string json) :=
  got ← call (Get r (Some namespace) nm);
  try workload := got else e =>
    mret (Err ("failed to read " +s+ kind +s+ " " +s+ nm +s+ " for rollout verification: "
               +s+ kube_display e)) in
  mret (Ok (observed workload)).

Definition verify_deployment_rollout := verify_rollout RDeployment "Deployment" deployment_observed.
Definition verify_statefulset_rollout :=
  verify_rollout RStatefulSet "StatefulSet" statefulset_observed.
Definition verify_daemonset_rollout := verify_rollout RDaemonSet "DaemonSet" daemonset_observed.

Definition verify_kind (kind namespace nm : string) : kprog (result string json) :=
  match kind with
  | "Deployment" => verify_deployment_rollout namespace nm
  | "StatefulSet" => verify_statefulset_rollout namespace nm
  | "DaemonSet" => verify_daemonset_rollout namespace nm
  | other =>
      mret (Err ("unsupported rollout verification target kind " +s+ other
                 +s+ "; expected Deployment, StatefulSet, or DaemonSet"))
  end.

Lemma verify_kind_cases kind ns nm :
  (kind = "Deployment" /\
   verify_kind kind ns nm = verify_rollout RDeployment "Deployment" deployment_observed ns nm) \/
  (kind = "StatefulSet" /\
   verify_kind kind ns nm = verify_rollout RStatefulSet "StatefulSet" statefulset_observed ns nm) \/
  (kind = "DaemonSet" /\
   verify_kind kind ns nm = verify_rollout RDaemonSet "DaemonSet" daemonset_observed ns nm) \/
  exists m, verify_kind kind ns nm = mret (Err m).
Proof.
  destruct (decide (kind = "Deployment")) as [->|H1]; [by left|].
  destruct (decide (kind = "StatefulSet")) as [->|H2]; [by right; left|].
  destruct (decide (kind = "DaemonSet")) as [->|H3]; [by right; right; left|].
  do 3 right. eexists. unfold verify_kind.
  repeat match goal with |- (match ?x with _ => _ end) = _ => destruct x; try reflexivity end;
    by exfalso.
Qed.

(** [SystemTime::checked_add]: the seconds of a [SystemTime] are an [i64]. *)
Definition system_checked_add (now secs : Z) : option Z :=
  let t := now + secs_ns secs in
  if t / 1000000000 <=? i64_max then Some t else None.

(** The loop of [wait_for_rollout_completion]: [None] when the fuel runs out. *)
Fixpoint rollout_poll (fuel : nat) (deadline : Z) (kind namespace nm : string)
    : kprog (option (result string ActionVerification)) :=
  match fuel with
  | O => mret None
  | S fuel =>
      now ← call SystemNow;
      if deadline <? now then
        mret (Some (Err ("rollout verification timed out for " +s+ namespace +s+ "/" +s+ kind
                         +s+ " " +s+ nm)))
      else
      verified ← verify_kind kind namespace nm;
      try observed := verified else e => mret (Some (Err e)) in
      if unwrap_or false (v ← json_get "ready" observed; as_bool v) then
        mret (Some (Ok {| av_status := "ready";
                          av_message := Some "workload rollout completed successfully";
                          av_observed_state := Some observed |}))
      else
      _ ← call (Sleep ROLLOUT_POLL_SECONDS);
      rollout_poll fuel deadline kind namespace nm
  end.

Definition ROLLOUT_POLL_FUEL : nat := 62.

Definition wait_for_rollout_completion (kind namespace nm : string)
    : kprog (option (result string ActionVerification)) :=
  now ← call SystemNow;
  some deadline := system_checked_add now ROLLOUT_TIMEOUT_SECONDS
    else mret (Some (Err "failed to compute rollout deadline")) in
  rollout_poll ROLLOUT_POLL_FUEL deadline kind namespace nm.

(** ** The restart *)

(** The branch of one controller in [apply_rollout_restart_patch]. *)
Definition restart_workload (c : Controller) (namespace nm : string) (patch : json)
    (dry_run : bool) : kprog (result string json) :=
  got ← call (Get (ctl_resource c) (Some namespace) nm);
  try before := got else e =>
    mret (Err ("failed to get " +s+ ctl_kind c +s+ " " +s+ nm +s+ ": " +s+ kube_display e)) in
  let observed_before :=
    jobj [("restartedAt", jopt JStr (restarted_at (ctl_template c before)))] in
  patched ← call (PatchObj (ctl_resource c) (Some namespace) nm {| dry_run := dry_run |}
                    (Strategic patch));
  try _patched := patched else e =>
    mret (Err ((if dry_run then "dry-run" else "apply") +s+ " patch failed for "
               +s+ ctl_kind c +s+ " " +s+ nm +s+ ": " +s+ kube_display e)) in
  mret (Ok observed_before).

Definition apply_rollout_restart_patch (kind namespace nm : string) (patch : json)
    (dry_run : bool) : kprog (result string json) :=
  match controller_of kind with
  | Some c => restart_workload c namespace nm patch dry_run
  | None => mret (Err ("unsupported rollout_restart target kind " +s+ kind
                       +s+ "; expected Deployment, StatefulSet, or DaemonSet"))
  end.

Section rollout.
Context `{Codec} (cfg : Config).

(** The live half: from the second patch on. *)
Definition rollout_live (command_id : string) (spec : RolloutRestartSpec) (patch : json)
    (result : CommandResult) : kprog (option CommandResult) :=
  let target := rollout_target spec in
  let error := fun message =>
    r ← command_error command_id (mode (rollout_execution spec)) message; mret (Some r) in
  applied ← apply_rollout_restart_patch (tgt_kind target) (tgt_namespace target)
              (tgt_name target) patch false;
  try applied := applied else message => error message in
  let result := with_dry_run (Some false) result in
  let result := with_observed_after (Some applied) result in
  waited ← wait_for_rollout_completion (tgt_kind target) (tgt_namespace target)
             (tgt_name target);
  match waited with
  | None => mret None
  | Some (Ok verification) => mret (Some (with_verification (Some verification) result))
  | Some (Err message) =>
      let result := with_status "error" result in
      let result := with_message (Some message) result in
      mret (Some (with_verification (Some
        {| av_status := "failed"; av_message := Some "rollout verification failed";
           av_observed_state := None |}) result))
  end.

Definition rollout_restart (command_id : string) (spec : RolloutRestartSpec)
    : kprog (option CommandResult) :=
  let target := rollout_target spec in
  let m := mode (rollout_execution spec) in
  let error := fun message => r ← command_error command_id m message; mret (Some r) in
  allowed ← ensure_effective_policy_allows cfg (tgt_namespace target) "rollout_restart"
              (Some (tgt_kind target)) None;
  try _policy := allowed else message => error message in
  restart_at ← call NowRfc3339;
  let patch := rollout_restart_patch target restart_at in
  result ← simple command_id "ok" None;
  let result := with_requested_state (Some (jobj
    [("execution", execution_json m); ("target", target_json target);
     ("restartedAt", JStr restart_at)])) result in
  rehearsed ← apply_rollout_restart_patch (tgt_kind target) (tgt_namespace target)
                (tgt_name target) patch true;
  try observed_before := rehearsed else message => error message in
  let result := with_dry_run (Some true) result in
  let result := with_applied_patch (Some patch) result in
  let result := with_observed_before (Some observed_before) result in
  let result := with_observed_after (Some observed_before) result in
  if bool_decide (m = Preview) then mret (Some result)
  else rollout_live command_id spec patch result.
End rollout.

(** ** Each part under its guard *)

Section logic.
Context `{Codec} (cfg : Config).

Definition restart_change (spec : RolloutRestartSpec) (o : op) : Prop :=
  exists c restart_at, controller_of (tgt_kind (rollout_target spec)) = Some c /\
    o = PatchObj (ctl_resource c) (Some (tgt_namespace (rollout_target spec)))
          (tgt_name (rollout_target spec)) {| dry_run := false |}
          (Strategic (rollout_restart_patch (rollout_target spec) restart_at)).

Definition rollout_guard (spec : RolloutRestartSpec) :=
  handler_guard cfg (workload_permit "rollout_restart" (rollout_target spec))
    (bool_decide (mode (rollout_execution spec) = Execute)) true (restart_change spec).

Definition optional_result (id : string) (r : option CommandResult) (_ : list kevent) : Prop :=
  forall res, r = Some res -> basic_result id res.

Lemma wp_command_error_some G id m msg h :
  (forall h o, mutating o = false -> G h o) ->
  wp G (optional_result id) h (r ← command_error id m msg; mret (Some r)).
Proof.
  intros HG. wp_step. eapply wp_mono; [by apply wp_command_error|].
  intros r h' Hr. wp_step. by intros ? [= <-].
Qed.

Section reads.
Context (G : list kevent -> op -> Prop) (Hread : forall h o, mutating o = false -> G h o).

Lemma wp_verify_kind kind ns nm Q h :
  (forall r t, Q r (h ++ t)) -> wp G Q h (verify_kind kind ns nm).
Proof using Hread.
  intros HQ.
  assert (Hv : forall r k obs, wp G Q h (verify_rollout r k obs ns nm)).
  { intros r k obs. unfold verify_rollout. wp_step. wp_step; [by apply Hread|].
    intros [w|e]; wp_step; apply HQ. }
  destruct (verify_kind_cases kind ns nm) as [[_ ->]|[[_ ->]|[[_ ->]|[m ->]]]]; try apply Hv.
  wp_step. specialize (HQ (Err m) []). by rewrite app_nil_r in HQ.
Qed.

Lemma wp_rollout_poll fuel deadline kind ns nm Q h :
  (forall r t, Q r (h ++ t)) -> wp G Q h (rollout_poll fuel deadline kind ns nm).
Proof using Hread.
  revert h. induction fuel as [|fuel IH]; intros h HQ; cbn [rollout_poll].
  { wp_step. specialize (HQ None []). by rewrite app_nil_r in HQ. }
  wp_step. wp_step; [by apply Hread|]. intros now. wp_case; [wp_step; apply HQ|].
  wp_step. apply wp_verify_kind. intros r t.
  wp_case; [|wp_step; rewrite <- app_assoc; apply HQ].
  wp_case; [wp_step; rewrite <- app_assoc; apply HQ|].
  wp_step. wp_step; [by apply Hread|]. intros []. apply IH.
  intros r' t'. rewrite <- !app_assoc. apply HQ.
Qed.

Lemma wp_wait_for_rollout kind ns nm Q h :
  (forall r t, Q r (h ++ t)) -> wp G Q h (wait_for_rollout_completion kind ns nm).
Proof using Hread.
  intros HQ. unfold wait_for_rollout_completion. wp_step. wp_step; [by apply Hread|].
  intros now. wp_case; [|wp_step; apply HQ]. apply wp_rollout_poll.
  intros r t. rewrite <- app_assoc. apply HQ.
Qed.
End reads.

(** The restart of one workload: a read and the patch. *)
Lemma wp_apply_restart G kind ns nm patch dry Q h :
  (forall h o, mutating o = false -> G h o) ->
  let patch_of c := PatchObj (ctl_resource c) (Some ns) nm {| dry_run := dry |} (Strategic patch) in
  (forall c t, controller_of kind = Some c -> G (h ++ t) (patch_of c)) ->
  (forall t m, Q (Err m) (h ++ t)) ->
  (forall c x b t, controller_of kind = Some c ->
     In (ev (R:=resp) (patch_of c) (Ok x)) (h ++ t) -> Q (Ok b) (h ++ t)) ->
  wp G Q h (apply_rollout_restart_patch kind ns nm patch dry).
Proof.
  intros HG patch_of HP HE HO. unfold apply_rollout_restart_patch.
  destruct (controller_of kind) as [c|] eqn:Hk.
  2:{ wp_step. pose proof (HE []) as HE'. rewrite app_nil_r in HE'. apply HE'. }
  unfold restart_workload. wp_step. wp_step; [by apply HG|].
  intros [before|e]; [|wp_step; apply HE]. cbv zeta.
  wp_step. wp_step; [by apply HP|].
  intros [x|e]; wp_step; rewrite <- app_assoc; [|apply HE].
  apply (HO c x); [done|]. rewrite !in_app_iff. right. right. by left.
Qed.

(** A controller is determined by its API resource's kind. *)
Lemma wp_rollout_restart id spec h :
  wp (rollout_guard spec) (optional_result id) h (rollout_restart cfg id spec).
Proof.
  assert (HG : forall h o, mutating o = false -> rollout_guard spec h o)
    by (intros; by apply handler_guard_read).
  unfold rollout_restart. wp_step. apply (wp_ensure_effective_policy_allows _ _ HG).
  intros [ep|m] t Hc; [|by apply wp_command_error_some]. specialize (Hc ep eq_refl).
  wp_step. wp_step; [by apply HG|]. intros restart_at.
  wp_step. apply wp_simple; [by apply HG|]. intros now.
  wp_step. apply wp_apply_restart; [done| | |].
  - intros c t' _. by apply HG.
  - intros t' m. by apply wp_command_error_some.
  - intros c x b t' Hk Hin. wp_case; [wp_step; intros res [= <-]; split; auto|].
    apply bool_decide_eq_false in E.
    assert (Hlive : bool_decide (mode (rollout_execution spec) = Execute) = true).
    { apply bool_decide_eq_true. by destruct (mode (rollout_execution spec)). }
    unfold rollout_live. wp_step. apply wp_apply_restart; [done| | |].
    + intros c' t'' Hk' _. assert (c' = c) as -> by congruence. split_and!; [done| | |].
      * do 4 apply consulted_app. exact Hc.
      * intros _. exists x. apply in_app_iff. by left.
      * by exists c, restart_at.
    + intros t'' m. by apply wp_command_error_some.
    + intros c' x' b' t'' _ _. wp_step. apply (wp_wait_for_rollout _ HG).
      intros [[v|m]|] t3; wp_step; intros res [= <-]; split; auto.
Qed.
End logic.

(** ** Termination *)

Lemma verify_kind_clock kind ns nm t r lb t' :
  runs (verify_kind kind ns nm) t r -> clock_ok system_of lb (t ++ t') -> clock_ok system_of lb t'.
Proof.
  assert (Hv : forall r k obs t x, runs (verify_rollout r k obs ns nm) t x ->
    clock_ok system_of lb (t ++ t') -> clock_ok system_of lb t').
  { intros r0 k obs t0 x Hr Hc. unfold verify_rollout in Hr. run_call Hr as y t1.
    simpl in Hc. rewrite Z.add_0_r in Hc. by destruct y; destruct Hr as [-> _]. }
  destruct (verify_kind_cases kind ns nm) as [[_ ->]|[[_ ->]|[[_ ->]|[m ->]]]]; eauto.
  by intros [-> _].
Qed.

(** A round per two seconds of the timeout and two more: the clock ends the
    loop before the fuel does. *)
Lemma rollout_poll_terminates fuel deadline kind ns nm t r lb :
  runs (rollout_poll (S fuel) deadline kind ns nm) t r ->
  clock_ok system_of lb t ->
  deadline < lb + secs_ns ROLLOUT_POLL_SECONDS * Z.of_nat fuel ->
  r <> None.
Proof.
  revert t lb. induction fuel as [|fuel IH]; intros t lb Hr Hc Hd;
    cbn [rollout_poll] in Hr; run_call Hr as now t2; simpl in Hc; destruct Hc as [Hlb Hc];
    (destruct (Z.ltb_spec deadline now); [by destruct Hr as [_ ->]|]).
  - simpl in Hd. lia.
  - run_bind Hr as x t3 t4 Hv. eapply verify_kind_clock in Hc; [|exact Hv].
    destruct x as [observed|e]; [|by destruct Hr as [_ ->]].
    destruct (unwrap_or false _); [by destruct Hr as [_ ->]|].
    run_call Hr as u t5. cbn [app clock_ok system_of ev op_of projT1] in Hc.
    eapply IH; [exact Hr|exact Hc|].
    assert (slept (Sleep ROLLOUT_POLL_SECONDS) = secs_ns ROLLOUT_POLL_SECONDS) as -> by reflexivity.
    rewrite Nat2Z.inj_succ in Hd. lia.
Qed.

Lemma wait_for_rollout_some kind ns nm t r lb :
  runs (wait_for_rollout_completion kind ns nm) t r -> clock_ok system_of lb t -> r <> None.
Proof.
  intros Hr Hc. unfold wait_for_rollout_completion in Hr. run_call Hr as now t2.
  simpl in Hc. destruct Hc as [_ Hc].
  destruct (system_checked_add now ROLLOUT_TIMEOUT_SECONDS) as [deadline|] eqn:Hd;
    [|by destruct Hr as [_ ->]].
  assert (deadline = now + secs_ns ROLLOUT_TIMEOUT_SECONDS) as ->.
  { unfold system_checked_add in Hd. by case_match; simplify_eq. }
  eapply (rollout_poll_terminates 61); [exact Hr|exact Hc|].
  unfold secs_ns, ROLLOUT_TIMEOUT_SECONDS, ROLLOUT_POLL_SECONDS. lia.
Qed.

Lemma command_error_some_runs id m msg t r :
  runs (r ← command_error id m msg; mret (Some r)) t r -> r <> None.
Proof. by intros (? & ? & ? & _ & _ & [_ ->])%runs_bind. Qed.

Lemma rollout_restart_some `{Codec} cfg id spec t r lb :
  runs (rollout_restart cfg id spec) t r -> clock_ok system_of lb t -> r <> None.
Proof.
  intros Hr Hc. unfold rollout_restart in Hr.
  run_bind Hr as x t1 t2 Ha. destruct x as [ep|m]; [|by eapply command_error_some_runs].
  run_call Hr as restart_at t3. run_bind Hr as result t4 t5 Hs.
  run_bind Hr as y t6 t7 Hp. destruct y as [b|m]; [|by eapply command_error_some_runs].
  cbv zeta in Hr. destruct (bool_decide _); [by destruct Hr as [_ ->]|].
  unfold rollout_live in Hr. run_bind Hr as z t8 t9 Hq.
  destruct z as [a|m]; [|by eapply command_error_some_runs].
  cbv zeta in Hr. run_bind Hr as w t10 t11 Hw.
  assert (w <> None).
  { apply clock_ok_app in Hc as (l1 & _ & Hc). apply (clock_ok_app _ _ [_]) in Hc as (l2 & _ & Hc).
    apply clock_ok_app in Hc as (l3 & _ & Hc). apply clock_ok_app in Hc as (l4 & _ & Hc).
    apply clock_ok_app in Hc as (l5 & _ & Hc). apply clock_ok_prefix in Hc.
    by eapply wait_for_rollout_some. }
  by destruct w as [[v|m]|]; [destruct Hr as [_ ->]|destruct Hr as [_ ->]|].
Qed.

(** ** What a verification means *)

Definition deployment_complete (w : Deployment) : Prop :=
  let desired := unwrap_or 1 (s ← dp_spec w; dp_replicas s) in
  desired <= zdef (s ← dp_status w; dps_updated s) /\
  desired <= zdef (s ← dp_status w; dps_available s) /\
  zdef (generation (dp_metadata w)) <= zdef (s ← dp_status w; dps_observed_generation s).
Definition statefulset_complete (w : StatefulSet) : Prop :=
  let desired := unwrap_or 1 (s ← st_spec w; st_replicas s) in
  desired <= zdef (s ← st_status w; sts_updated s) /\
  desired <= zdef (s ← st_status w; sts_ready s) /\
  zdef (generation (st_metadata w)) <= zdef (s ← st_status w; sts_observed_generation s).
Definition daemonset_complete (w : DaemonSet) : Prop :=
  let desired := zdef (dss_desired <$> ds_status w) in
  0 < desired /\ desired <= zdef (s ← ds_status w; dss_updated s) /\
  desired <= zdef (s ← ds_status w; dss_available s) /\
  zdef (generation (ds_metadata w)) <= zdef (s ← ds_status w; dss_observed_generation s).

(** In the history, the workload was read in a state that completes its
    rollout, and [observed] is the report of that state. *)
Definition read_complete (kind ns nm : string) (observed : json) (h : list kevent) : Prop :=
  (kind = "Deployment" /\ exists w, In (ev (R:=resp) (Get RDeployment (Some ns) nm) (Ok w)) h /\
     deployment_complete w /\ observed = deployment_observed w) \/
  (kind = "StatefulSet" /\ exists w, In (ev (R:=resp) (Get RStatefulSet (Some ns) nm) (Ok w)) h /\
     statefulset_complete w /\ observed = statefulset_observed w) \/
  (kind = "DaemonSet" /\ exists w, In (ev (R:=resp) (Get RDaemonSet (Some ns) nm) (Ok w)) h /\
     daemonset_complete w /\ observed = daemonset_observed w).

Definition is_ready (observed : json) : bool :=
  unwrap_or false (v ← json_get "ready" observed; as_bool v).

Lemma deployment_ready w : is_ready (deployment_observed w) = true <-> deployment_complete w.
Proof.
  change (is_ready _) with
    ((unwrap_or 1 (s ← dp_spec w; dp_replicas s) <=? zdef (s ← dp_status w; dps_updated s))
     && (unwrap_or 1 (s ← dp_spec w; dp_replicas s) <=? zdef (s ← dp_status w; dps_available s))
     && (zdef (generation (dp_metadata w)) <=? zdef (s ← dp_status w; dps_observed_generation s))).
  rewrite !andb_true_iff, !Z.leb_le. unfold deployment_complete. tauto.
Qed.
Lemma statefulset_ready w : is_ready (statefulset_observed w) = true <-> statefulset_complete w.
Proof.
  change (is_ready _) with
    ((unwrap_or 1 (s ← st_spec w; st_replicas s) <=? zdef (s ← st_status w; sts_updated s))
     && (unwrap_or 1 (s ← st_spec w; st_replicas s) <=? zdef (s ← st_status w; sts_ready s))
     && (zdef (generation (st_metadata w)) <=? zdef (s ← st_status w; sts_observed_generation s))).
  rewrite !andb_true_iff, !Z.leb_le. unfold statefulset_complete. tauto.
Qed.
Lemma daemonset_ready w : is_ready (daemonset_observed w) = true <-> daemonset_complete w.
Proof.
  change (is_ready _) with
    ((0 <? zdef (dss_desired <$> ds_status w))
     && (zdef (dss_desired <$> ds_status w) <=? zdef (s ← ds_status w; dss_updated s))
     && (zdef (dss_desired <$> ds_status w) <=? zdef (s ← ds_status w; dss_available s))
     && (zdef (generation (ds_metadata w)) <=? zdef (s ← ds_status w; dss_observed_generation s))).
  rewrite !andb_true_iff, !Z.leb_le, Z.ltb_lt. unfold daemonset_complete. tauto.
Qed.

Lemma read_complete_mono kind ns nm obs h h' :
  (forall e, In e h -> In e h') -> read_complete kind ns nm obs h -> read_complete kind ns nm obs h'.
Proof. unfold read_complete. naive_solver. Qed.

Lemma verify_kind_ready kind ns nm t observed :
  runs (verify_kind kind ns nm) t (Ok observed) -> is_ready observed = true ->
  read_complete kind ns nm observed t.
Proof.
  unfold read_complete.
  destruct (verify_kind_cases kind ns nm) as [[-> ->]|[[-> ->]|[[-> ->]|[m ->]]]];
    intros Hr Hrd; [..|by destruct Hr]; unfold verify_rollout in Hr;
    run_call Hr as y t1; destruct y as [w|]; simplify_eq;
    destruct Hr as [-> Heq]; simplify_eq;
    first [left; (split; [reflexivity|])|right; left; (split; [reflexivity|])
          |right; right; (split; [reflexivity|])]; exists w;
    (split; [by left|]); (split; [|done]);
    by first [apply deployment_ready|apply statefulset_ready|apply daemonset_ready].
Qed.

Lemma rollout_poll_verified fuel deadline kind ns nm t v :
  runs (rollout_poll fuel deadline kind ns nm) t (Some (Ok v)) ->
  exists observed, av_observed_state v = Some observed /\ av_status v = "ready" /\
    read_complete kind ns nm observed t.
Proof.
  revert t. induction fuel as [|fuel IH]; intros t Hr; cbn [rollout_poll] in Hr; [by destruct Hr|].
  run_call Hr as now t2. destruct (deadline <? now); [by destruct Hr|].
  run_bind Hr as x t3 t4 Hv. destruct x as [observed|e]; [|by destruct Hr].
  destruct (unwrap_or false _) eqn:Hrd.
  - destruct Hr as [-> Heq]. simplify_eq. exists observed. split_and!; [done..|].
    eapply read_complete_mono; [|by eapply verify_kind_ready].
    intros e He. right. apply in_app_iff. by left.
  - run_call Hr as u t5. destruct (IH _ Hr) as (obs & ? & ? & Hrc).
    exists obs. split_and!; [done..|]. eapply read_complete_mono; [|exact Hrc].
    intros e He. right. apply in_app_iff. right. by right.
Qed.

(** ** Properties *)

(** A patch of one controller that succeeds: the workload is read, then patched. *)
Lemma patch_runs kind ns nm patch dry t before :
  runs (apply_rollout_restart_patch kind ns nm patch dry) t (Ok before) ->
  exists c w x, controller_of kind = Some c /\
    t = [ev (R:=resp) (Get (ctl_resource c) (Some ns) nm) (Ok w);
         ev (R:=resp) (PatchObj (ctl_resource c) (Some ns) nm {| dry_run := dry |} (Strategic patch)) (Ok x)].
Proof.
  unfold apply_rollout_restart_patch. destruct (controller_of kind) as [c|]; [|by intros [_ ?]].
  unfold restart_workload. intros Hr. run_call Hr as got t1. destruct got as [w|]; [|by destruct Hr].
  cbv zeta in Hr. run_call Hr as patched t2. destruct patched as [x|]; [|by destruct Hr].
  destruct Hr as [-> _]. by exists c, w, x.
Qed.

Notation reads := (only (fun o : op => mutating o = false)).

Lemma reads_verify kind ns nm : reads (verify_kind kind ns nm).
Proof.
  destruct (verify_kind_cases kind ns nm) as [[_ ->]|[[_ ->]|[[_ ->]|[m ->]]]]; try apply only_ret;
    (apply only_bind; [by apply only_op|intros; case_match; apply only_ret]).
Qed.
Lemma reads_wait kind ns nm : reads (wait_for_rollout_completion kind ns nm).
Proof.
  apply only_bind; [by apply only_op|]. intros now.
  destruct (system_checked_add now ROLLOUT_TIMEOUT_SECONDS) as [deadline|]; [|apply only_ret].
  induction ROLLOUT_POLL_FUEL as [|fuel IH]; [apply only_ret|]. cbn [rollout_poll].
  apply only_bind; [by apply only_op|]. intros now'. case_match; [apply only_ret|].
  apply only_bind; [apply reads_verify|]. intros []; [|apply only_ret]. case_match; [apply only_ret|].
  apply only_bind; [by apply only_op|intros; exact IH].
Qed.
Lemma reads_allowed `{Codec} cfg ns kind target rs :
  reads (ensure_effective_policy_allows cfg ns kind target rs).
Proof. intros h. by apply wp_ensure_effective_policy_allows. Qed.

Lemma command_error_status id m msg t r :
  runs (r ← command_error id m msg; mret (Some r)) t (Some r) -> r_status r = "error".
Proof.
  intros Hr. run_bind Hr as x t1 t2 Hx. destruct Hr as [_ [= ->]].
  unfold command_error in Hx. run_bind Hx as y t3 t4 Hy. destruct Hx as [_ ->].
  unfold simple in Hy. run_call Hy as now t5. by destruct Hy as [_ ->].
Qed.

(** C18: A rollout restart that is executed and answers ok has restarted the
    workload and verified it afterwards: the patch that stamps the pod template
    of the requested workload with a time that was read in the run succeeded as
    a dry run and then for real, which is the only change; the verification is
    "ready" and reports a state of that workload, read after the live patch,
    in which the controller has observed the current generation and as many
    replicas as desired are updated and available (ready, for a StatefulSet;
    with at least one desired pod, for a DaemonSet). *)
Theorem rollout_restart_verified `{Codec} cfg id spec t r :
  runs (rollout_restart cfg id spec) t (Some r) ->
  mode (rollout_execution spec) = Execute -> r_status r = "ok" ->
  let target := rollout_target spec in
  exists c restart_at t1 x t2 v observed,
    let stamp dry := PatchObj (ctl_resource c) (Some (tgt_namespace target)) (tgt_name target)
                       {| dry_run := dry |} (Strategic (rollout_restart_patch target restart_at)) in
    controller_of (tgt_kind target) = Some c /\
    json_pointer ["spec"; "template"; "metadata"; "annotations"; "kubectl.kubernetes.io/restartedAt"]
      (rollout_restart_patch target restart_at) = Some (JStr restart_at) /\
    t = t1 ++ ev (R:=resp) (stamp false) (Ok x) :: t2 /\
    Forall (fun e => mutating (op_of e) = false) (t1 ++ t2) /\
    In (ev (R:=resp) NowRfc3339 restart_at) t1 /\
    (exists y, In (ev (R:=resp) (stamp true) (Ok y)) t1) /\
    applied_patch r = Some (rollout_restart_patch target restart_at) /\
    verification r = Some v /\ av_status v = "ready" /\ av_observed_state v = Some observed /\
    read_complete (tgt_kind target) (tgt_namespace target) (tgt_name target) observed t2.
Proof.
  intros Hr Hm Hst. unfold rollout_restart in Hr. cbv zeta in Hr |- *.
  run_bind Hr as x t1 t2 Ha. destruct x as [ep|m]; [|apply command_error_status in Hr; congruence].
  run_call Hr as restart_at t3. run_bind Hr as result t4 t5 Hs.
  run_bind Hr as y t6 t7 Hp. destruct y as [b|m]; [|apply command_error_status in Hr; congruence].
  rewrite Hm in Hr. change (bool_decide (Execute = Preview)) with false in Hr.
  unfold rollout_live in Hr. cbv zeta in Hr. run_bind Hr as z t8 t9 Hq.
  destruct z as [a|m]; [|apply command_error_status in Hr; congruence].
  run_bind Hr as w t10 t11 Hw.
  apply patch_runs in Hp as (c & w1 & x1 & Hc & ->). apply patch_runs in Hq as (c' & w2 & x2 & Hc' & ->).
  rewrite Hc in Hc'. injection Hc' as <-.
  pose proof (only_runs _ _ _ _ (reads_wait _ _ _) Hw) as Hwait.
  pose proof (only_runs _ _ _ _ (reads_allowed _ _ _ _ _) Ha) as Hallow.
  unfold simple in Hs. run_call Hs as now t12. destruct Hs as [-> ->].
  destruct w as [[v|m]|]; [| |by destruct Hr]; [|by destruct Hr as [_ [= ->]]].
  destruct Hr as [-> [= ->]].
  unfold wait_for_rollout_completion in Hw. run_call Hw as now' t13.
  destruct (system_checked_add now' ROLLOUT_TIMEOUT_SECONDS); [|by destruct Hw].
  apply rollout_poll_verified in Hw as (obs & ? & ? & Hrc).
  set (patch := rollout_restart_patch _ _). set (ns := Some _). set (nm := tgt_name _).
  eexists c, restart_at,
    (t1 ++ [ev (R:=resp) NowRfc3339 restart_at; ev (R:=resp) NowMs now; ev (R:=resp) (Get (ctl_resource c) ns nm) (Ok w1);
            ev (R:=resp) (PatchObj (ctl_resource c) ns nm {| dry_run := true |} (Strategic patch)) (Ok x1);
            ev (R:=resp) (Get (ctl_resource c) ns nm) (Ok w2)]), x2, _, v, obs.
  split_and!; [done|done| | | |exists x1; rewrite in_app_iff; right; do 3 right; by left|done|done|done|done|].
  - rewrite <- app_assoc. simpl. reflexivity.
  - apply Forall_app. split.
    + apply Forall_app. split; [exact Hallow|]. do 5 (constructor; [done|]). constructor.
    + rewrite app_nil_r. exact Hwait.
  - rewrite in_app_iff. right. by left.
  - eapply read_complete_mono; [|exact Hrc]. intros e' He'. simpl. rewrite in_app_iff. tauto.
Qed.

(** A rollout restart ends: against every environment whose system clock
    does not go back and advances over a sleep the handler returns a result;
    its wait takes at most 62 rounds. *)
Theorem rollout_restart_terminates `{Codec} {S} cfg id spec (env : forall o, S -> resp o * S) s lb :
  clock_ok system_of lb (interp_trace env (rollout_restart cfg id spec) s) ->
  exists res, fst (interp env (rollout_restart cfg id spec) s) = Some res.
Proof.
  intros Hc. pose proof (rollout_restart_some cfg id spec _ _ lb
    (interp_runs _ env (rollout_restart cfg id spec) s) Hc) as Hn.
  destruct (fst _) as [res|]; [by exists res|done].
Qed.

(** A restart in the sample cluster. *)
Definition demo_rollout_spec : RolloutRestartSpec :=
  {| rollout_execution := default_execute_execution_spec;
     rollout_target := {| tgt_kind := "Deployment"; tgt_namespace := "shop"; tgt_name := "web" |} |}.
Definition demo_rollout : kprog (option CommandResult) :=
  @rollout_restart (demo_codec demo_policy) (demo_config true) "c-2" demo_rollout_spec.

Lemma rollout_restart_verified_witness :
  exists r, fst (interp demo_handler demo_rollout demo_start) = Some r /\ r_status r = "ok" /\
    exists v, verification r = Some v /\ av_status v = "ready".
Proof.
  destruct (fst (interp demo_handler demo_rollout demo_start)) as [r|] eqn:Hr;
    [|vm_compute in Hr; discriminate Hr].
  assert (Hst : r_status r = "ok") by (vm_compute in Hr; by injection Hr as <-).
  exists r. split; [done|]. split; [done|].
  pose proof (interp_runs _ demo_handler demo_rollout demo_start) as Hrun. rewrite Hr in Hrun.
  destruct (@rollout_restart_verified (demo_codec demo_policy) _ _ _ _ r Hrun eq_refl Hst)
    as (c & at' & u & x & w & v & obs & _ & _ & _ & _ & _ & _ & _ & Hv & Hs & _).
  by exists v.
Defined.

Lemma rollout_restart_terminates_witness :
  exists res, fst (interp demo_handler demo_rollout demo_start) = Some res.
Proof.
  apply (@rollout_restart_terminates (demo_codec demo_policy) _ _ _ _ demo_handler demo_start 0).
  vm_compute. repeat split; discriminate.
Defined.

(** The state reported after a live restart is the one read before its patch:
    the annotation that the restart sets is not in it. *)
Example observed_after_is_before :
  (r ← fst (interp demo_handler demo_rollout demo_start); observed_after r)
  = Some (jobj [("restartedAt", JNull)]).
Proof. vm_compute. reflexivity. Qed.
