(* ===== verification/Dispatch.v ===== *)
(** * The command kinds

    The [match] of [execute_inner] on the kind of a command, over arbitrary
    arms, and the fact that every other kind takes the last arm. *)
From S2P Require Import Prelude.

(** The shape of the [match] on the command kind. *)
Definition dispatch {A} (kind : string) (a1 a2 a3 a4 a5 a6 a7 a8 a9 : A) (d : string -> A) : A :=
  match kind with
  | "get_resource_yaml" => a1
  | "diagnose_postgresql" => a2
  | "preview_workload_resources" => a3
  | "apply_workload_resources" => a4
  | "rollout_restart" => a5
  | "scale" => a6
  | "drain_node" => a7
  | "self_update" => a8
  | "update_agent" => a9
  | other => d other
  end.

Definition KNOWN_KINDS : list string :=
  ["get_resource_yaml"; "diagnose_postgresql"; "preview_workload_resources";
   "apply_workload_resources"; "rollout_restart"; "scale"; "drain_node"; "self_update";
   "update_agent"].

Lemma dispatch_unknown {A} kind (a1 a2 a3 a4 a5 a6 a7 a8 a9 : A) d :
  ~ In kind KNOWN_KINDS -> dispatch kind a1 a2 a3 a4 a5 a6 a7 a8 a9 d = d kind.
Proof.
  intros Hk. unfold dispatch.
  repeat match goal with |- (match ?x with _ => _ end) = _ => destruct x; try reflexivity end.
  all: exfalso; apply Hk; unfold KNOWN_KINDS, In; tauto.
Qed.
