(* ===== verification/Executor.v ===== *)
(** * The command executor (executor.rs)

    [execute_inner] dispatches a command on its kind.  The handlers come from Actions.v,
    Rollout.v and Drain.v; a handler with a deadline loop returns [None] only
    when its fuel runs out. *)
From S2P Require Import Prelude RustStr Json Effects Kube Model Config Policy Workload Access Demo Clock Drain Actions Rollout Dispatch.
Local Open Scope Z_scope.

Definition READ_ONLY_MESSAGE : string :=
  "agent in read-only mode (ACTION_OPERATOR_ENABLED=false)".
Definition READONLY_COMMANDS_MESSAGE : string :=
  "agent read-only commands disabled (POSTGRESQL_READONLY_COMMANDS_ENABLED=false)".

Definition parse_spec {T} `{FromValue T} (cmd : Command) : result string T :=
  map_err (fun e => "invalid spec for kind " +s+ cmd_kind cmd +s+ ": " +s+ e)
    (from_value (cmd_spec cmd) : result string T).

Definition spec_error (cmd : Command) (message : string) : kprog CommandResult :=
  simple (cmd_id cmd) "error" (Some message).

(** A handler without a loop always produces its result. *)
Definition produce (p : kprog CommandResult) : kprog (option CommandResult) :=
  r ← p; mret (Some r).

Section executor.
Context `{Codec, Diagnostics} (cfg : Config).

(** [match parse_spec::<T>(cmd) { Ok(spec) => .., Err(e) => spec_error(cmd, e) }]. *)
Definition with_spec {T} `{FromValue T} (cmd : Command)
    (handler : T -> kprog (option CommandResult)) : kprog (option CommandResult) :=
  match (parse_spec cmd : result string T) with
  | Ok spec => handler spec
  | Err e => produce (spec_error cmd e)
  end.

(** The guard at the head of every arm that can change the cluster. *)
Definition if_actions_enabled (cmd : Command) (k : kprog (option CommandResult))
    : kprog (option CommandResult) :=
  if negb (actions_enabled cfg)
  then produce (simple (cmd_id cmd) "skipped" (Some READ_ONLY_MESSAGE))
  else k.

Definition execute_kind (cmd : Command) (kind : string) : kprog (option CommandResult) :=
  let id := cmd_id cmd in
  match kind with
  | "get_resource_yaml" =>
      with_spec cmd (fun spec : ResourceYamlSpec => produce (get_resource_yaml cfg id spec))
  | "diagnose_postgresql" =>
      if negb (readonly_commands_enabled cfg)
      then produce (simple id "skipped" (Some READONLY_COMMANDS_MESSAGE))
      else with_spec cmd (fun spec : PostgresqlDiagnosticSpec =>
             produce (diagnose_postgresql cfg id spec))
  | "preview_workload_resources" =>
      if_actions_enabled cmd (with_spec cmd (fun spec : WorkloadResourcesSpec =>
        produce (preview_workload_resources cfg id spec)))
  | "apply_workload_resources" =>
      if_actions_enabled cmd (with_spec cmd (fun spec : WorkloadResourcesSpec =>
        produce (apply_workload_resources cfg id spec)))
  | "rollout_restart" =>
      if_actions_enabled cmd (with_spec cmd (fun spec : RolloutRestartSpec =>
        rollout_restart cfg id spec))
  | "scale" =>
      if_actions_enabled cmd (with_spec cmd (fun spec : ScaleSpec =>
        produce (scale_workload cfg id spec)))
  | "drain_node" =>
      if_actions_enabled cmd (with_spec cmd (fun spec : DrainNodeSpec =>
        drain_node cfg id spec))
  | "self_update" =>
      if_actions_enabled cmd (with_spec cmd (fun spec : SelfUpdateSpec =>
        produce (self_update cfg id spec)))
  | "update_agent" =>
      if_actions_enabled cmd (with_spec cmd (fun spec : UpdateAgentSpec =>
        produce (update_agent cfg id spec)))
  | other =>
      produce (simple id "unknown" (Some ("unknown command kind: " +s+ other)))
  end.

Definition execute_inner (cmd : Command) : kprog (option CommandResult) :=
  execute_kind cmd (cmd_kind cmd).
End executor.

(** ** Every effect of a command is authorised *)

Definition permit_kind (a : permit) : string :=
  match a with NamespacePermit _ kind _ _ => kind | ClusterPermit kind => kind end.

(** The operation stays within what the permit was asked for: the namespace
    and the kind of the target, or, for a cluster permit, a node or the
    eviction of a pod. *)
Definition covers (a : permit) (o : op) : Prop :=
  match a, o with
  | NamespacePermit ns _ (Some kind) _, PatchObj r (Some ns') _ _ _ =>
      ns' = ns /\ exists c, controller_of kind = Some c /\ r = ctl_resource c
  | NamespacePermit ns _ (Some kind) _, PatchScale ns' _ _ _ => ns' = ns /\ kind = "Deployment"
  | NamespacePermit ns _ None _, PatchObj r (Some ns') nm _ _ =>
      ns' = ns /\ r = RDaemonSet /\ nm = UPDATE_AGENT_DAEMONSET
  | ClusterPermit _, PatchObj RNode None _ _ _ => True
  | ClusterPermit _, Evict _ _ _ => True
  | _, _ => False
  end.

Section logic.
Context `{Codec, Diagnostics} (cfg : Config).

(** What the executor may do for a command at a history. *)
Definition execute_guard (cmd : Command) (h : list kevent) (o : op) : Prop :=
  mutating o = true ->
  actions_enabled cfg = true /\
  (exists a, permit_kind a = cmd_kind cmd /\ consulted cfg a h /\ covers a o) /\
  (cmd_kind cmd <> "apply_workload_resources" -> cmd_kind cmd <> "drain_node" -> rehearsed o h).

Definition execute_post (cmd : Command) (r : option CommandResult) (_ : list kevent) : Prop :=
  forall res, r = Some res ->
    command_id res = cmd_id cmd /\
    (if str_mem (cmd_kind cmd) KNOWN_KINDS
     then In (r_status res) ["ok"; "error"; "skipped"] else r_status res = "unknown").

Lemma execute_guard_read cmd h o : mutating o = false -> execute_guard cmd h o.
Proof. intros Hm Hm'. congruence. Qed.

Lemma wp_produce G (p : kprog CommandResult) cmd h :
  str_mem (cmd_kind cmd) KNOWN_KINDS = true ->
  wp G (fun r _ => basic_result (cmd_id cmd) r) h p ->
  wp G (execute_post cmd) h (produce p).
Proof.
  intros Hk Hp. unfold produce. wp_step. eapply wp_mono; [exact Hp|].
  intros r h' [Hid Hst]. wp_step. intros res [= <-]. rewrite Hk. split; [done|].
  simpl. destruct Hst as [->| ->]; auto.
Qed.

Lemma wp_produce_simple cmd st msg h :
  (if str_mem (cmd_kind cmd) KNOWN_KINDS
   then In st ["ok"; "error"; "skipped"] else st = "unknown") ->
  wp (execute_guard cmd) (execute_post cmd) h (produce (simple (cmd_id cmd) st msg)).
Proof.
  intros Hst. unfold produce. wp_step. apply wp_simple; [by apply execute_guard_read|].
  intros now. wp_step. by intros res [= <-].
Qed.

Lemma wp_with_spec {T} `{FromValue T} cmd (k : T -> kprog (option CommandResult)) h :
  str_mem (cmd_kind cmd) KNOWN_KINDS = true ->
  (forall spec, wp (execute_guard cmd) (execute_post cmd) h (k spec)) ->
  wp (execute_guard cmd) (execute_post cmd) h (with_spec cmd k).
Proof.
  intros Hk Hs. unfold with_spec. wp_case; [apply Hs|].
  apply wp_produce_simple. rewrite Hk. simpl. auto.
Qed.

Lemma wp_if_actions_enabled cmd p h :
  str_mem (cmd_kind cmd) KNOWN_KINDS = true ->
  (actions_enabled cfg = true -> wp (execute_guard cmd) (execute_post cmd) h p) ->
  wp (execute_guard cmd) (execute_post cmd) h (if_actions_enabled cfg cmd p).
Proof.
  intros Hk Hp. unfold if_actions_enabled. wp_case.
  - apply wp_produce_simple. rewrite Hk. simpl. auto.
  - apply Hp. by apply negb_false_iff.
Qed.

(** A handler's own guard gives the executor's. *)
Lemma handler_guard_execute cmd a live rehearse P h o :
  actions_enabled cfg = true -> permit_kind a = cmd_kind cmd ->
  (forall o, P o -> covers a o) ->
  (rehearse = true \/ live = false \/ cmd_kind cmd = "apply_workload_resources") ->
  handler_guard cfg a live rehearse P h o -> execute_guard cmd h o.
Proof.
  intros Hact Hk HP Hr HG Hm. destruct (HG Hm) as (Hl & Hc & Hre & Ho).
  split; [done|]. split; [by exists a; auto|].
  intros Hna _. destruct Hr as [->|[->|]]; [auto|congruence|done].
Qed.

Lemma optional_execute_post cmd r h :
  str_mem (cmd_kind cmd) KNOWN_KINDS = true ->
  optional_result (cmd_id cmd) r h -> execute_post cmd r h.
Proof.
  intros Hk Ho res Hr. destruct (Ho res Hr) as [Hid Hst]. rewrite Hk. split; [done|].
  simpl. destruct Hst as [->| ->]; auto.
Qed.

Lemma execute_inner_unknown cmd :
  str_mem (cmd_kind cmd) KNOWN_KINDS = false ->
  execute_inner cfg cmd =
  produce (simple (cmd_id cmd) "unknown" (Some ("unknown command kind: " +s+ cmd_kind cmd))).
Proof.
  intros Hk. pose (id := cmd_id cmd).
  assert (Hno : ~ In (cmd_kind cmd) KNOWN_KINDS) by (intros Hin%str_mem_in; congruence).
  exact (dispatch_unknown (cmd_kind cmd)
    (with_spec cmd (fun spec => produce (get_resource_yaml cfg id spec)))
    (if negb (readonly_commands_enabled cfg)
     then produce (simple id "skipped" (Some READONLY_COMMANDS_MESSAGE))
     else with_spec cmd (fun spec => produce (diagnose_postgresql cfg id spec)))
    (if_actions_enabled cfg cmd (with_spec cmd (fun spec =>
       produce (preview_workload_resources cfg id spec))))
    (if_actions_enabled cfg cmd (with_spec cmd (fun spec =>
       produce (apply_workload_resources cfg id spec))))
    (if_actions_enabled cfg cmd (with_spec cmd (fun spec => rollout_restart cfg id spec)))
    (if_actions_enabled cfg cmd (with_spec cmd (fun spec =>
       produce (scale_workload cfg id spec))))
    (if_actions_enabled cfg cmd (with_spec cmd (fun spec => drain_node cfg id spec)))
    (if_actions_enabled cfg cmd (with_spec cmd (fun spec => produce (self_update cfg id spec))))
    (if_actions_enabled cfg cmd (with_spec cmd (fun spec => produce (update_agent cfg id spec))))
    (fun other => produce (simple id "unknown" (Some ("unknown command kind: " +s+ other))))
    Hno).
Qed.

Lemma wp_workload_command dry cmd spec h :
  actions_enabled cfg = true -> cmd_kind cmd = workload_resources_kind dry ->
  wp (execute_guard cmd) (execute_post cmd) h
    (produce (workload_resources cfg dry (cmd_id cmd) spec)).
Proof.
  intros Hact Hk. apply wp_produce; [by rewrite Hk; destruct dry|].
  eapply wp_guard_mono; [eapply wp_mono; [apply wp_workload_resources|by intros r h' [? _]]|].
  intros h' o. apply handler_guard_execute; [done|by rewrite Hk| |].
  - intros o' (c & patch & Hc & _ & ->). simpl. split; [done|]. by exists c.
  - destruct dry; [by right; left|by right; right].
Qed.

Lemma wp_execute_inner cmd h :
  wp (execute_guard cmd) (execute_post cmd) h (execute_inner cfg cmd).
Proof.
  destruct (str_mem (cmd_kind cmd) KNOWN_KINDS) eqn:Hk.
  2:{ rewrite execute_inner_unknown by done. apply wp_produce_simple. by rewrite Hk. }
  assert (Hread : forall p, wp (fun _ o => mutating o = false)
      (fun r _ => basic_result (cmd_id cmd) r) h p ->
    wp (execute_guard cmd) (execute_post cmd) h (produce p)).
  { intros p Hp. apply wp_produce; [done|]. eapply wp_guard_mono; [exact Hp|].
    intros h' o. apply execute_guard_read. }
  pose proof Hk as Hin. apply str_mem_in in Hin.
  unfold execute_inner, execute_kind.
  destruct Hin as [E|[E|[E|[E|[E|[E|[E|[E|[E|[]]]]]]]]]]; rewrite <- E; cbv iota beta.
  - apply wp_with_spec; [done|]. intros spec. apply Hread, wp_get_resource_yaml.
  - wp_case; [apply wp_produce_simple; rewrite Hk; simpl; auto|].
    apply wp_with_spec; [done|]. intros spec. apply Hread, wp_diagnose_postgresql.
  - apply wp_if_actions_enabled; [done|]. intros Hact.
    apply wp_with_spec; [done|]. intros spec. by apply wp_workload_command.
  - apply wp_if_actions_enabled; [done|]. intros Hact.
    apply wp_with_spec; [done|]. intros spec. by apply wp_workload_command.
  - apply wp_if_actions_enabled; [done|]. intros Hact.
    apply wp_with_spec; [done|]. intros spec.
    eapply wp_guard_mono; [eapply wp_mono; [apply wp_rollout_restart|]|].
    + intros r h' Hr. by apply optional_execute_post.
    + intros h' o. apply handler_guard_execute; [done|by rewrite <- E| |by left].
      intros o' (c & at' & Hc & ->). simpl. split; [done|]. by exists c.
  - apply wp_if_actions_enabled; [done|]. intros Hact.
    apply wp_with_spec; [done|]. intros spec. apply wp_produce; [done|].
    eapply wp_guard_mono; [apply wp_scale_workload|].
    intros h' o. apply handler_guard_execute; [done|by rewrite <- E| |by left].
    intros o' (Hd & _ & ->). simpl. by rewrite Hd.
  - apply wp_if_actions_enabled; [done|]. intros Hact.
    apply wp_with_spec; [done|]. intros spec.
    eapply wp_guard_mono; [eapply wp_mono; [apply wp_drain_node|]|].
    + intros r h' Hr res ->. destruct (Hr res eq_refl) as [Hid Hst]. split; [done|].
      rewrite Hk. simpl. destruct Hst as [->|[-> _]]; auto.
    + intros h' o HG Hm. destruct (HG Hm) as [Hc Ho]. split; [done|]. split.
      * eexists. split; [|split; [exact Hc|]]; [by rewrite <- E|].
        by destruct Ho as [->|(opts & p & _ & -> & _)].
      * intros _ Hne. by destruct Hne.
  - apply wp_if_actions_enabled; [done|]. intros Hact.
    apply wp_with_spec; [done|]. intros spec. apply Hread, wp_self_update.
  - apply wp_if_actions_enabled; [done|]. intros Hact.
    apply wp_with_spec; [done|]. intros spec. apply wp_produce; [done|].
    eapply wp_guard_mono; [apply wp_update_agent|].
    intros h' o. apply handler_guard_execute; [done|by rewrite <- E| |by left].
    by intros o' (_ & ->).
Qed.

Lemma execute_inner_post cmd t r :
  runs (execute_inner cfg cmd) t (Some r) -> command_id r = cmd_id cmd.
Proof.
  intros Hr.
  destruct (wp_sound _ _ _ _ _ _ _ (wp_execute_inner cmd []) Hr) as [HQ _].
  by destruct (HQ r eq_refl).
Qed.
End logic.

(** ** Previews and termination *)

Section previews.
Context `{Codec, Diagnostics} (cfg : Config).

(** A command that asks for a preview only. *)
Definition asks_preview (cmd : Command) : Prop :=
  cmd_kind cmd = "preview_workload_resources" \/
  (cmd_kind cmd = "rollout_restart" /\ forall spec : RolloutRestartSpec,
     parse_spec cmd = Ok spec -> mode (rollout_execution spec) = Preview) \/
  (cmd_kind cmd = "scale" /\ forall spec : ScaleSpec,
     parse_spec cmd = Ok spec -> mode (scale_execution spec) = Preview).

Definition reads (_ : list kevent) (o : op) : Prop := mutating o = false.

Lemma reads_simple id st msg h : wp reads (fun _ _ => True) h (produce (simple id st msg)).
Proof. unfold produce. wp_step. apply wp_simple; [reflexivity|]. intros now. by wp_step. Qed.

Lemma dead_guard_reads a rehearse P h o :
  handler_guard cfg a false rehearse P h o -> reads h o.
Proof. unfold reads. intros HG. destruct (mutating o) eqn:Hm; [|done]. by destruct (HG Hm). Qed.

Lemma reads_with_spec {T} `{FromValue T} cmd (k : T -> kprog (option CommandResult)) h :
  (forall spec, parse_spec cmd = Ok spec -> wp reads (fun _ _ => True) h (k spec)) ->
  wp reads (fun _ _ => True) h (if_actions_enabled cfg cmd (with_spec cmd k)).
Proof.
  intros Hk. unfold if_actions_enabled. wp_case; [apply reads_simple|].
  unfold with_spec. wp_case; [by apply Hk|apply reads_simple].
Qed.

Lemma wp_preview cmd h :
  asks_preview cmd -> wp reads (fun _ _ => True) h (execute_inner cfg cmd).
Proof.
  intros [E|[[E Hp]|[E Hp]]]; unfold execute_inner, execute_kind; rewrite E; cbv iota beta;
    apply reads_with_spec; intros spec Hs.
  - unfold produce. wp_step.
    eapply wp_guard_mono; [eapply wp_mono; [apply (wp_workload_resources cfg true)|done]|].
    intros h' o. apply dead_guard_reads.
  - eapply wp_guard_mono; [eapply wp_mono; [apply wp_rollout_restart|done]|].
    intros h' o. unfold rollout_guard. rewrite (Hp _ Hs). apply dead_guard_reads.
  - unfold produce. wp_step.
    eapply wp_guard_mono; [eapply wp_mono; [apply wp_scale_workload|done]|].
    intros h' o. unfold scale_guard. rewrite (Hp _ Hs). apply dead_guard_reads.
Qed.

Lemma produce_some p t r : runs (produce p) t r -> r <> None.
Proof. by intros (? & ? & ? & _ & _ & [_ ->])%runs_bind. Qed.

Lemma execute_inner_some cmd t r lb lb' :
  runs (execute_inner cfg cmd) t r -> clock_ok instant_of lb t -> clock_ok system_of lb' t ->
  r <> None.
Proof.
  intros Hr Hi Hs.
  assert (Hspec : forall {T} `{FromValue T} (k : T -> kprog (option CommandResult)),
    (forall spec, runs (k spec) t r -> r <> None) -> runs (with_spec cmd k) t r -> r <> None).
  { intros T ? k Hk. unfold with_spec. case_match; [apply Hk|apply produce_some]. }
  assert (Hact : forall p, (runs p t r -> r <> None) ->
    runs (if_actions_enabled cfg cmd p) t r -> r <> None).
  { intros p Hp. unfold if_actions_enabled. case_match; [apply produce_some|done]. }
  destruct (str_mem (cmd_kind cmd) KNOWN_KINDS) eqn:Hk.
  2:{ rewrite execute_inner_unknown in Hr by done. by eapply produce_some. }
  apply str_mem_in in Hk. unfold execute_inner, execute_kind in Hr.
  destruct Hk as [E|[E|[E|[E|[E|[E|[E|[E|[E|[]]]]]]]]]]; rewrite <- E in Hr; cbv iota beta in Hr.
  - revert Hr. apply Hspec. intros spec. apply produce_some.
  - destruct (negb _); [by eapply produce_some|].
    revert Hr. apply Hspec. intros spec. apply produce_some.
  - eapply Hact; [|exact Hr]. apply Hspec. intros spec. apply produce_some.
  - eapply Hact; [|exact Hr]. apply Hspec. intros spec. apply produce_some.
  - eapply Hact; [|exact Hr]. apply Hspec. intros spec Hrun. by eapply rollout_restart_some.
  - eapply Hact; [|exact Hr]. apply Hspec. intros spec. apply produce_some.
  - eapply Hact; [|exact Hr]. apply Hspec. intros spec Hrun. by eapply drain_node_some.
  - eapply Hact; [|exact Hr]. apply Hspec. intros spec. apply produce_some.
  - eapply Hact; [|exact Hr]. apply Hspec. intros spec. apply produce_some.
Qed.
End previews.

(** ** Properties *)

(** C3: Whatever the API server answers, a command changes the cluster only
    when actions are enabled and only after the policies were listed, the clock
    read, and one listed policy authorised at that time a command of this kind
    that covers the operation: its namespace and the kind of its target, or,
    for a drain, nodes and evictions. *)
Theorem execute_authorised `{Codec, Diagnostics} cfg cmd t r t1 e t2 :
  runs (execute_inner cfg cmd) t r -> t = t1 ++ e :: t2 -> mutating (op_of e) = true ->
  actions_enabled cfg = true /\
  exists a, permit_kind a = cmd_kind cmd /\ consulted cfg a t1 /\ covers a (op_of e).
Proof.
  intros Hr Ht Hm.
  destruct (wp_sound _ _ _ _ _ _ _ (wp_execute_inner cfg cmd []) Hr) as [_ HG].
  by destruct (HG t1 e t2 Ht Hm) as (? & ? & _).
Qed.

(** C11: In read-only mode, the default, no command changes anything in the
    cluster; and every action command is answered with "skipped" after nothing
    but a reading of the clock. *)
Theorem execute_read_only `{Codec, Diagnostics} cfg cmd t r :
  actions_enabled cfg = false -> runs (execute_inner cfg cmd) t r ->
  Forall (fun e => mutating (op_of e) = false) t /\
  (In (cmd_kind cmd) KNOWN_KINDS -> cmd_kind cmd <> "get_resource_yaml" ->
   cmd_kind cmd <> "diagnose_postgresql" ->
   exists now, t = [ev NowMs now] /\ option_map r_status r = Some "skipped").
Proof.
  intros Hoff Hr. split.
  - destruct (wp_sound _ _ _ _ _ _ _ (wp_execute_inner cfg cmd []) Hr) as [_ HG].
    apply Forall_forall. intros e (t1 & t2 & ->)%list_elem_of_split.
    destruct (mutating (op_of e)) eqn:Hm; [|done].
    destruct (HG t1 e t2 eq_refl Hm). congruence.
  - intros Hin H1 H2. unfold execute_inner, execute_kind, if_actions_enabled in Hr.
    rewrite Hoff in Hr.
    destruct Hin as [E|[E|[E|[E|[E|[E|[E|[E|[E|[]]]]]]]]]]; rewrite <- E in Hr, H1, H2; try done;
      cbv iota beta in Hr; destruct Hr as (now & t' & -> & -> & ->); by exists now.
Qed.

(** C10: Every change that [rollout_restart], [scale] or [update_agent] makes was
    accepted by the API server as a server-side dry run of the same patch
    earlier in the same command; so was every change of any command other than
    [apply_workload_resources] and [drain_node]. *)
Theorem execute_rehearsed `{Codec, Diagnostics} cfg cmd t r t1 e t2 :
  runs (execute_inner cfg cmd) t r -> t = t1 ++ e :: t2 -> mutating (op_of e) = true ->
  cmd_kind cmd <> "apply_workload_resources" -> cmd_kind cmd <> "drain_node" ->
  rehearsed (op_of e) t1.
Proof.
  intros Hr Ht Hm.
  destruct (wp_sound _ _ _ _ _ _ _ (wp_execute_inner cfg cmd []) Hr) as [_ HG].
  by destruct (HG t1 e t2 Ht Hm) as (_ & _ & ?).
Qed.

(** The result of a command carries the command's id; a known kind gives
    "ok", "error" or "skipped", and any other kind gives "unknown". *)
Theorem execute_result `{Codec, Diagnostics} cfg cmd t res :
  runs (execute_inner cfg cmd) t (Some res) ->
  command_id res = cmd_id cmd /\
  (In (cmd_kind cmd) KNOWN_KINDS -> In (r_status res) ["ok"; "error"; "skipped"]) /\
  (~ In (cmd_kind cmd) KNOWN_KINDS -> r_status res = "unknown").
Proof.
  intros Hr.
  destruct (wp_sound _ _ _ _ _ _ _ (wp_execute_inner cfg cmd []) Hr) as [HQ _].
  destruct (HQ res eq_refl) as [Hid Hst]. split; [done|].
  rewrite <- str_mem_in. destruct (str_mem _ _); by split.
Qed.

(** A command that asks for a preview, of workload resources, of a restart
    or of a new scale, changes nothing in the cluster. *)
Theorem preview_changes_nothing `{Codec, Diagnostics} cfg cmd t r :
  asks_preview cmd -> runs (execute_inner cfg cmd) t r ->
  Forall (fun e => mutating (op_of e) = false) t.
Proof.
  intros Hp Hr.
  destruct (wp_sound _ _ _ _ _ _ _ (wp_preview cfg cmd [] Hp) Hr) as [_ HG].
  apply Forall_forall. intros e (t1 & t2 & ->)%list_elem_of_split. by eapply HG.
Qed.

(** C16: Every command ends with a result, against every environment whose
    clocks do not go back and advance over a sleep. *)
Theorem execute_terminates `{Codec, Diagnostics} {S} cfg cmd
    (env : forall o, S -> resp o * S) s lb lb' :
  clock_ok instant_of lb (interp_trace env (execute_inner cfg cmd) s) ->
  clock_ok system_of lb' (interp_trace env (execute_inner cfg cmd) s) ->
  exists res, fst (interp env (execute_inner cfg cmd) s) = Some res.
Proof.
  intros Hi Hs. pose proof (execute_inner_some cfg cmd _ _ lb lb'
    (interp_runs _ env (execute_inner cfg cmd) s) Hi Hs) as Hn.
  destruct (fst _) as [res|]; [by exists res|done].
Qed.

(** ** Commands in the sample cluster *)

Definition demo_diagnostics : Diagnostics.
Proof.
  refine {| diagnose := fun _ spec => mret {| rep_namespace := pg_namespace spec;
    rep_status := "ok"; rep_summary := ""; rep_findings := []; rep_evidence := [];
    rep_missing_data := []; rep_recommended_actions := [] |} |}.
  done.
Defined.

Definition demo_command (kind : string) : Command :=
  {| cmd_id := "c-8"; cmd_kind := kind; cmd_spec := JNull |}.
Definition demo_execute (actions : bool) (kind : string) : kprog (option CommandResult) :=
  @execute_inner (demo_codec demo_policy) demo_diagnostics (demo_config actions)
    (demo_command kind).

Lemma execute_authorised_witness :
  exists t1 e t2, demo_trace (demo_execute true "scale") = t1 ++ e :: t2 /\
    mutating (op_of e) = true /\
    exists a, permit_kind a = "scale" /\
      @consulted (demo_codec demo_policy) (demo_config true) a t1 /\ covers a (op_of e).
Proof.
  assert (Hmut : (fun e => mutating (op_of e)) <$> demo_trace (demo_execute true "scale") !! 6%nat = Some true)
    by (vm_compute; reflexivity).
  destruct (demo_trace (demo_execute true "scale") !! 6%nat) as [e|] eqn:He; [|discriminate Hmut].
  pose proof (split_at _ _ _ He) as Hs.
  assert (Hm : mutating (op_of e) = true) by (by injection Hmut).
  eexists _, e, _. split; [exact Hs|]. split; [exact Hm|].
  exact (proj2 (@execute_authorised (demo_codec demo_policy) demo_diagnostics (demo_config true)
    (demo_command "scale") _ _ _ _ _
    (interp_runs _ demo_handler (demo_execute true "scale") demo_start) Hs Hm)).
Defined.

Lemma execute_rehearsed_witness :
  exists t1 e t2, demo_trace (demo_execute true "scale") = t1 ++ e :: t2 /\
    mutating (op_of e) = true /\ rehearsed (op_of e) t1.
Proof.
  assert (Hmut : (fun e => mutating (op_of e)) <$> demo_trace (demo_execute true "scale") !! 6%nat = Some true)
    by (vm_compute; reflexivity).
  destruct (demo_trace (demo_execute true "scale") !! 6%nat) as [e|] eqn:He; [|discriminate Hmut].
  pose proof (split_at _ _ _ He) as Hs.
  assert (Hm : mutating (op_of e) = true) by (by injection Hmut).
  eexists _, e, _. split; [exact Hs|]. split; [exact Hm|].
  exact (@execute_rehearsed (demo_codec demo_policy) demo_diagnostics (demo_config true)
    (demo_command "scale") _ _ _ _ _
    (interp_runs _ demo_handler (demo_execute true "scale") demo_start) Hs Hm
    ltac:(discriminate) ltac:(discriminate)).
Defined.

Lemma execute_read_only_witness :
  option_map r_status (fst (interp demo_handler (demo_execute false "drain_node") demo_start))
  = Some "skipped".
Proof.
  pose proof (@execute_read_only (demo_codec demo_policy) demo_diagnostics (demo_config false)
    (demo_command "drain_node") _ _ eq_refl
    (interp_runs _ demo_handler (demo_execute false "drain_node") demo_start)) as [_ Hr].
  destruct Hr as (now & _ & Hr).
  - vm_compute. tauto.
  - discriminate.
  - discriminate.
  - exact Hr.
Defined.

Lemma execute_result_witness :
  exists res, fst (interp demo_handler (demo_execute true "cordon_node") demo_start) = Some res /\
    r_status res = "unknown".
Proof.
  destruct (fst (interp demo_handler (demo_execute true "cordon_node") demo_start)) as [res|] eqn:Hr;
    [|vm_compute in Hr; discriminate Hr].
  exists res. split; [reflexivity|].
  pose proof (interp_runs _ demo_handler (demo_execute true "cordon_node") demo_start) as Hrun.
  rewrite Hr in Hrun.
  destruct (@execute_result (demo_codec demo_policy) demo_diagnostics (demo_config true)
    (demo_command "cordon_node") _ _ Hrun) as (_ & _ & Hu).
  apply Hu. vm_compute. intuition discriminate.
Defined.

Lemma preview_changes_nothing_witness :
  option_map r_status (fst (interp demo_handler
    (demo_execute true "preview_workload_resources") demo_start)) = Some "ok" /\
  Forall (fun e => mutating (op_of e) = false)
    (demo_trace (demo_execute true "preview_workload_resources")).
Proof.
  split; [vm_compute; reflexivity|].
  exact (@preview_changes_nothing (demo_codec demo_policy) demo_diagnostics (demo_config true)
    (demo_command "preview_workload_resources") _ _ (or_introl eq_refl)
    (interp_runs _ demo_handler (demo_execute true "preview_workload_resources") demo_start)).
Defined.

Lemma execute_terminates_witness :
  exists res, fst (interp demo_handler (demo_execute true "rollout_restart") demo_start) = Some res.
Proof.
  apply (@execute_terminates (demo_codec demo_policy) demo_diagnostics _ (demo_config true)
    (demo_command "rollout_restart") demo_handler demo_start 0 0);
    vm_compute; repeat split; discriminate.
Defined.
