(* ===== verification/Dedup.v ===== *)
(** * Deduplication of commands (executor.rs)

    [Executor::execute] consults a process-wide table before it runs a command
    and records the result after.  Calls run concurrently: the table's lock
    makes [dedup_begin] and [dedup_finish] atomic, and the steps of different
    calls interleave in any order ([step]). *)
From S2P Require Import Prelude RustStr Json Effects Kube Model Config Access Demo Actions Executor.
Local Open Scope Z_scope.

Record CommandDedupState := {
  completed : gmap string CommandResult;
  running : gset string }.
Definition dedup_default : CommandDedupState := {| completed := ∅; running := ∅ |}.

(** [None]: the command is to be executed.  [now] is the clock reading of
    [CommandResult::simple]. *)
Definition dedup_begin (cmd : Command) (now : Z) (state : CommandDedupState)
    : option CommandResult * CommandDedupState :=
  match completed state !! cmd_id cmd with
  | Some result => (Some result, state)
  | None =>
      if decide (cmd_id cmd ∈ running state) then
        (Some (mkResult (cmd_id cmd) "skipped" (Some "command already running") now
                 None None None None [] None None None None None), state)
      else (None, {| completed := completed state; running := {[cmd_id cmd]} ∪ running state |})
  end.

Definition dedup_finish (result : CommandResult) (state : CommandDedupState) : CommandDedupState :=
  {| completed := <[command_id result := result]> (completed state);
     running := running state ∖ {[command_id result]} |}.

(** Calls of [Executor::execute] in flight: each takes its steps in order, the
    lock makes each step atomic, and the steps of different calls interleave. *)
Inductive phase :=
  | Waiting
  | Executing
  | Executed (r : CommandResult)
  | Answered (r : CommandResult).

Record Calls := { dedup : CommandDedupState; calls : list (Command * phase) }.
Definition no_calls : Calls := {| dedup := dedup_default; calls := [] |}.

Definition after_begin (o : option CommandResult) : phase :=
  match o with Some r => Answered r | None => Executing end.

Section execute.
Context `{Codec, Diagnostics} (cfg : Config).

Inductive step : Calls -> Calls -> Prop :=
  | StepSubmit s cmd :
      step s {| dedup := dedup s; calls := calls s ++ [(cmd, Waiting)] |}
  | StepBegin s i cmd now :
      calls s !! i = Some (cmd, Waiting) ->
      step s {| dedup := snd (dedup_begin cmd now (dedup s));
                calls := <[i := (cmd, after_begin (fst (dedup_begin cmd now (dedup s))))]> (calls s) |}
  | StepFinish s i cmd t r :
      calls s !! i = Some (cmd, Executing) ->
      runs (execute_inner cfg cmd) t (Some r) ->
      step s {| dedup := dedup_finish r (dedup s);
                calls := <[i := (cmd, Executed r)]> (calls s) |}.

Inductive reachable : Calls -> Prop :=
  | ReachInit : reachable no_calls
  | ReachStep s s' : reachable s -> step s s' -> reachable s'.
End execute.

(** ** Deduplication: invariant of the interleaved calls *)

(** The call of this phase has passed [dedup_begin] and runs the command. *)
Definition owns (ph : phase) : Prop :=
  match ph with Executing | Executed _ => True | _ => False end.

Record dedup_inv (s : Calls) : Prop := {
  (* a command that runs is marked, and one that ran has its result stored *)
  inv_executing : forall i cmd, calls s !! i = Some (cmd, Executing) ->
    cmd_id cmd ∈ running (dedup s) /\ completed (dedup s) !! cmd_id cmd = None;
  inv_executed : forall i cmd r, calls s !! i = Some (cmd, Executed r) ->
    completed (dedup s) !! cmd_id cmd = Some r;
  (* one owner per command id *)
  inv_unique : forall i j ci cj pi pj, calls s !! i = Some (ci, pi) -> calls s !! j = Some (cj, pj) ->
    owns pi -> owns pj -> cmd_id ci = cmd_id cj -> i = j;
  (* an answer repeats the stored result or says that the command is running *)
  inv_answered : forall i cmd r, calls s !! i = Some (cmd, Answered r) ->
    command_id r = cmd_id cmd /\
    (completed (dedup s) !! cmd_id cmd = Some r \/ r_status r = "skipped");
  inv_completed : forall id r, completed (dedup s) !! id = Some r -> command_id r = id }.

Section invariant.
Context `{Codec, Diagnostics} (cfg : Config).

Lemma dedup_inv_init : dedup_inv no_calls.
Proof. split; intros *; simpl; rewrite ?lookup_nil, ?lookup_empty; done. Qed.

Lemma dedup_inv_submit s cmd :
  dedup_inv s -> dedup_inv {| dedup := dedup s; calls := calls s ++ [(cmd, Waiting)] |}.
Proof.
  intros [I1 I2 I3 I4 I5].
  assert (Hl : forall i c p, (calls s ++ [(cmd, Waiting)]) !! i = Some (c, p) -> p <> Waiting ->
    calls s !! i = Some (c, p)).
  { intros i c p Hi Hp. apply lookup_app_Some in Hi as [Hi|[_ Hi]]; [done|].
    destruct (i - length (calls s))%nat; simplify_eq/=. }
  split; simpl; [| | | |done].
  - intros i c Hi. apply (I1 i). by apply Hl.
  - intros i c r Hi. apply (I2 i). by apply Hl.
  - intros i j ci cj pi pj Hi Hj Ho Ho' Heq. eapply I3; [apply Hl; [exact Hi|by destruct pi]
      |apply Hl; [exact Hj|by destruct pj]|done|done|done].
  - intros i c r Hi. apply (I4 i). by apply Hl.
Qed.

(** A call is updated in place. *)
Lemma lookup_update (l : list (Command * phase)) i j x y :
  <[i := x]> l !! j = Some y -> (j = i /\ y = x) \/ (j <> i /\ l !! j = Some y).
Proof.
  intros Hj. destruct (decide (j = i)) as [->|Hne].
  - apply list_lookup_insert_Some in Hj as [(_ & <- & _)|[? _]]; [by left|done].
  - rewrite list_lookup_insert_ne in Hj by done. by right.
Qed.

(** A call that takes a new phase without becoming an owner. *)
Lemma dedup_inv_answer s i cmd r :
  dedup_inv s -> calls s !! i = Some (cmd, Waiting) -> command_id r = cmd_id cmd ->
  completed (dedup s) !! cmd_id cmd = Some r \/ r_status r = "skipped" ->
  dedup_inv {| dedup := dedup s; calls := <[i := (cmd, Answered r)]> (calls s) |}.
Proof.
  intros [I1 I2 I3 I4 I5] Hi Hid Hr. split; simpl; [| | | |done].
  - intros j c [[_ [=]]|[_ Hj]]%lookup_update. by eapply I1.
  - intros j c r' [[_ [=]]|[_ Hj]]%lookup_update. by eapply I2.
  - intros j k cj ck pj pk [[_ [= -> ->]]|[_ Hj]]%lookup_update
      [[_ [= -> ->]]|[_ Hk]]%lookup_update Ho Ho'; try done. by eapply I3.
  - intros j c r' [[_ [= -> ->]]|[_ Hj]]%lookup_update; [done|by eapply I4].
Qed.

Lemma dedup_inv_begin s i cmd now :
  dedup_inv s -> calls s !! i = Some (cmd, Waiting) ->
  dedup_inv {| dedup := snd (dedup_begin cmd now (dedup s));
               calls := <[i := (cmd, after_begin (fst (dedup_begin cmd now (dedup s))))]> (calls s) |}.
Proof.
  intros HI Hi. pose proof HI as [I1 I2 I3 I4 I5]. unfold dedup_begin.
  destruct (completed (dedup s) !! cmd_id cmd) as [r|] eqn:Hc; simpl.
  { apply dedup_inv_answer; [done|done|by eapply I5|by left]. }
  destruct (decide (cmd_id cmd ∈ running (dedup s))) as [Hrun|Hrun]; simpl.
  { apply dedup_inv_answer; [done|done|done|by right]. }
  assert (Hfree : forall j c p, calls s !! j = Some (c, p) -> owns p -> cmd_id c <> cmd_id cmd).
  { intros j c p Hj Ho Heq. destruct p as [| |r|r]; try done.
    - apply I1 in Hj as [Hj _]. congruence.
    - apply I2 in Hj. congruence. }
  split; simpl; [| | | |done].
  - intros j c [[_ [= ->]]|[_ Hj]]%lookup_update; [set_solver|].
    apply I1 in Hj as [? ?]. set_solver.
  - intros j c r [[_ [=]]|[_ Hj]]%lookup_update. by eapply I2.
  - intros j k cj ck pj pk [[-> [= -> ->]]|[_ Hj]]%lookup_update
      [[-> [= -> ->]]|[_ Hk]]%lookup_update Ho Ho' Heq; try done.
    + by destruct (Hfree _ _ _ Hk Ho').
    + by destruct (Hfree _ _ _ Hj Ho).
    + by eapply I3.
  - intros j c r [[_ [=]]|[_ Hj]]%lookup_update. by eapply I4.
Qed.

Lemma dedup_inv_finish s i cmd r :
  dedup_inv s -> calls s !! i = Some (cmd, Executing) -> command_id r = cmd_id cmd ->
  dedup_inv {| dedup := dedup_finish r (dedup s); calls := <[i := (cmd, Executed r)]> (calls s) |}.
Proof.
  intros [I1 I2 I3 I4 I5] Hi Hid. destruct (I1 _ _ Hi) as [Hrun Hnone].
  assert (Hother : forall j c p, j <> i -> calls s !! j = Some (c, p) -> owns p ->
    cmd_id c <> cmd_id cmd).
  { intros j c p Hne Hj Ho Heq. apply Hne. by eapply I3. }
  split; simpl; rewrite ?Hid.
  - intros j c [[_ [=]]|[Hne Hj]]%lookup_update.
    pose proof (Hother _ _ _ Hne Hj I) as Hn. apply I1 in Hj as [? ?].
    rewrite lookup_insert_ne by congruence. set_solver.
  - intros j c r' [[_ [= -> ->]]|[Hne Hj]]%lookup_update; [by rewrite lookup_insert_eq|].
    pose proof (Hother _ _ _ Hne Hj I) as Hn. rewrite lookup_insert_ne by congruence. by eapply I2.
  - intros j k cj ck pj pk [[-> [= -> ->]]|[Hnj Hj]]%lookup_update
      [[-> [= -> ->]]|[Hnk Hk]]%lookup_update Ho Ho' Heq; try done.
    + by destruct (Hother _ _ _ Hnk Hk Ho').
    + by destruct (Hother _ _ _ Hnj Hj Ho).
    + by eapply I3.
  - intros j c r' [[_ [=]]|[Hne Hj]]%lookup_update. apply I4 in Hj as [Hc [Hs|Hs]]; [|by auto].
    split; [done|]. left. rewrite lookup_insert_ne; [done|]. congruence.
  - intros id r' [[<- <-]|[_ Hr]]%lookup_insert_Some; [done|by eapply I5].
Qed.

Lemma reachable_inv s : reachable cfg s -> dedup_inv s.
Proof.
  induction 1 as [|s s' _ IH Hs]; [apply dedup_inv_init|].
  destruct Hs as [s cmd|s i cmd now Hi|s i cmd t r Hi Hr].
  - by apply dedup_inv_submit.
  - by apply dedup_inv_begin.
  - apply dedup_inv_finish; [done|done|by eapply execute_inner_post].
Qed.
End invariant.

(** ** Properties *)


(** Two calls with the same id in the sample cluster: the second arrives while
    the first runs, a third after it. *)
Definition demo_cmd : Command := {| cmd_id := "c-7"; cmd_kind := "reboot"; cmd_spec := JNull |}.
Definition demo_answer (st msg : string) : CommandResult :=
  mkResult "c-7" st (Some msg) 0 None None None None [] None None None None None.

Lemma demo_calls_reachable :
  exists s, @reachable (demo_codec demo_policy) demo_diagnostics (demo_config true) s /\
    calls s = [(demo_cmd, Executed (demo_answer "unknown" "unknown command kind: reboot"));
               (demo_cmd, Answered (demo_answer "skipped" "command already running"));
               (demo_cmd, Answered (demo_answer "unknown" "unknown command kind: reboot"))].
Proof.
  pose (st := fun s => @ReachStep (demo_codec demo_policy) demo_diagnostics (demo_config true) s).
  pose proof (st _ _ (ReachInit _) (StepSubmit _ _ demo_cmd)) as R1.
  pose proof (st _ _ R1 (StepSubmit _ _ demo_cmd)) as R2.
  pose proof (st _ _ R2 (StepSubmit _ _ demo_cmd)) as R3.
  match type of R3 with reachable _ ?s =>
    pose proof (st _ _ R3 (StepBegin _ s 0 demo_cmd 0 eq_refl)) as R4 end.
  match type of R4 with reachable _ ?s =>
    pose proof (st _ _ R4 (StepBegin _ s 1 demo_cmd 0 eq_refl)) as R5 end.
  assert (Hrun : runs (@execute_inner (demo_codec demo_policy) demo_diagnostics
      (demo_config true) demo_cmd) [ev NowMs 0]
      (Some (demo_answer "unknown" "unknown command kind: reboot"))).
  { exists 0, []. by repeat split. }
  match type of R5 with reachable _ ?s =>
    pose proof (st _ _ R5 (StepFinish _ s 0 demo_cmd _ _ eq_refl Hrun)) as R6 end.
  match type of R6 with reachable _ ?s =>
    pose proof (st _ _ R6 (StepBegin _ s 2 demo_cmd 0 eq_refl)) as R7 end.
  eexists. split; [exact R7|]. vm_compute. reflexivity.
Qed.

