(* ===== verification/Agent.v ===== *)
(** * The command loop (main.rs, Executor::execute)

    The loop polls the hub, executes the commands of a batch one after the
    other, acknowledges each result before the next command, and ends the
    process after a self-update.  Here the executor, its deduplication table and
    the loop are put together over one signature: the Kubernetes operations of
    a command, and the exchanges with the hub, whose own logic is in Hub.v. *)
From S2P Require Import Prelude RustStr Json Effects Kube Model Config Access Demo Actions Executor Dedup Hub.
Local Open Scope Z_scope.

Inductive aop :=
  | Kube (o : op)
  | PollHub
  | AckHub (r : CommandResult)
  | LoopSleep (secs : Z).
Definition aresp (o : aop) : Type :=
  match o with
  | Kube o => resp o
  | PollHub => result HubError (list Command)
  | AckHub _ => result HubError unit
  | LoopSleep _ => unit
  end.
Notation aprog := (prog aresp).
Notation aevent := (event aresp).

(** A program of the executor inside the loop. *)
Fixpoint lift {A} (p : kprog A) : aprog A :=
  match p with
  | Ret a => Ret a
  | Vis o k => Vis (Kube o : aop) (fun x : resp o => lift (k x))
  end.
Definition kube_event (e : kevent) : aevent := ev (Kube (op_of e) : aop) (projT2 e : aresp (Kube (op_of e))).

Section loop.
Context `{Codec, Diagnostics} (cfg : Config).

(** [Executor::execute] with the table as its state.  [dedup_begin] reads the
    clock only to answer for a command that is running. *)
Definition execute (cmd : Command) (st : CommandDedupState)
    : aprog (option (CommandResult * CommandDedupState)) :=
  now ← (if is_none (completed st !! cmd_id cmd) && bool_decide (cmd_id cmd ∈ running st)
         then call (Kube NowMs : aop) else mret 0 : aprog Z);
  let '(early, st) := dedup_begin cmd now st in
  match early with
  | Some result => mret (Some (result, st))
  | None =>
      result ← lift (execute_inner cfg cmd);
      mret ((fun r => (r, dedup_finish r st)) <$> result)
  end.

Definition should_restart_after_ack (result : CommandResult) : bool :=
  String.eqb (r_status result) "ok" && unwrap_or false (restart_requested result).

(** The commands of a batch; [true] when the process exits. *)
Fixpoint serve_batch (commands : list Command) (st : CommandDedupState)
    : aprog (option (CommandDedupState * bool)) :=
  match commands with
  | [] => mret (Some (st, false))
  | cmd :: commands =>
      x ← execute cmd st;
      some rs := x else mret None in
      let '(result, st) := rs in
      _ ← call (AckHub result);
      if should_restart_after_ack result then mret (Some (st, true)) else serve_batch commands st
  end.

Definition POLL_RETRY_SECS : Z := 5.

(** One turn of [command_loop]. *)
Definition command_round (st : CommandDedupState) : aprog (option (CommandDedupState * bool)) :=
  polled ← call PollHub;
  match polled with
  | Ok commands => serve_batch commands st
  | Err _ => _ ← call (LoopSleep POLL_RETRY_SECS); mret (Some (st, false))
  end.

(** [rounds] turns, fewer if the process exits. *)
Fixpoint command_loop (rounds : nat) (st : CommandDedupState)
    : aprog (option (CommandDedupState * bool)) :=
  match rounds with
  | O => mret (Some (st, false))
  | S rounds =>
      x ← command_round st;
      match x with
      | Some (st, false) => command_loop rounds st
      | other => mret other
      end
  end.

(** ** What the hub gave and got *)

Definition delivered_by (e : aevent) : list Command :=
  match e with
  | existT PollHub (Ok commands) => commands
  | _ => []
  end.
Definition delivered_to (h : list aevent) : list Command := concat (map delivered_by h).

Definition acks (h : list aevent) : list CommandResult :=
  omap (fun e => match op_of e with AckHub r => Some r | _ => None end) h.

Lemma delivered_app h t : delivered_to (h ++ t) = delivered_to h ++ delivered_to t.
Proof using Type. unfold delivered_to. by rewrite map_app, concat_app. Qed.
Lemma acks_app h t : acks (h ++ t) = acks h ++ acks t.
Proof using Type. apply omap_app. Qed.

Lemma kube_delivered t : delivered_to (map kube_event t) = [].
Proof using Type. induction t as [|[o x] t IH]; [done|]. exact IH. Qed.
Lemma kube_acks t : acks (map kube_event t) = [].
Proof using Type. induction t as [|[o x] t IH]; [done|]. exact IH. Qed.

(** The command [cmd] is next in line at [h]: it was delivered, the commands
    delivered before it are those acknowledged. *)
Definition next_in_line (cmd : Command) (h : list aevent) : Prop :=
  exists done rest, delivered_to h = done ++ cmd :: rest /\
    map command_id (acks h) = map cmd_id done.

(** What the loop may do at a history. *)
Definition loop_guard (h : list aevent) (o : aop) : Prop :=
  match o with
  | Kube o =>
      exists cmd h1 t, h = h1 ++ map kube_event t /\ next_in_line cmd h1 /\
        ~ In (cmd_id cmd) (map command_id (acks h1)) /\ execute_guard cfg cmd t o
  | PollHub => map command_id (acks h) = map cmd_id (delivered_to h)
  | AckHub r =>
      (exists cmd, next_in_line cmd h /\ command_id r = cmd_id cmd) /\
      (forall r', In r' (acks h) -> command_id r' = command_id r -> r' = r)
  | LoopSleep secs => secs = POLL_RETRY_SECS
  end.

(** Between two commands: [rest] is what remains of the batch. *)
Record loop_inv (h : list aevent) (rest : list Command) (st : CommandDedupState) : Prop := {
  loop_acked : exists done, delivered_to h = done ++ rest /\
    map command_id (acks h) = map cmd_id done;
  loop_running : running st = ∅;
  loop_completed : forall id r,
    completed st !! id = Some r <-> In r (acks h) /\ command_id r = id }.

Definition loop_post (x : option (CommandDedupState * bool)) (h : list aevent) : Prop :=
  match x with
  | Some (st, false) => loop_inv h [] st
  | Some (_, true) => exists r, last (acks h) = Some r /\ should_restart_after_ack r = true
  | None => True
  end.

(** ** The logic of lifted programs *)

Lemma wp_lift {A} (G : list kevent -> op -> Prop) (Q : A -> list kevent -> Prop)
    (G' : list aevent -> aop -> Prop) (Q' : A -> list aevent -> Prop) (h : list aevent) t p :
  wp G Q t p ->
  (forall t o, G t o -> G' (h ++ map kube_event t) (Kube o)) ->
  (forall a t, Q a t -> Q' a (h ++ map kube_event t)) ->
  wp G' Q' (h ++ map kube_event t) (lift p).
Proof using Type.
  intros Hp HG HQ. revert t Hp. induction p as [a|o k IH]; intros t; simpl; [auto|].
  intros [Ho Hk]. split; [auto|]. intros x. specialize (IH x _ (Hk x)).
  rewrite map_app, app_assoc in IH. exact IH.
Qed.

Lemma next_in_line_app cmd rest h st :
  loop_inv h (cmd :: rest) st -> next_in_line cmd h.
Proof using Type. intros [(d & Hd & Ha) _ _]. by exists d, rest. Qed.

(** The result that [execute] gives for the next command. *)
Definition executed (h : list aevent) (cmd : Command) (rest : list Command)
    (x : option (CommandResult * CommandDedupState)) (h' : list aevent) : Prop :=
  exists t, h' = h ++ map kube_event t /\
  forall r st, x = Some (r, st) ->
    command_id r = cmd_id cmd /\ running st = ∅ /\
    (forall r', In r' (acks h) -> command_id r' = command_id r -> r' = r) /\
    (forall id r', completed st !! id = Some r' <->
       (In r' (acks h) \/ r' = r) /\ command_id r' = id).

Lemma wp_execute cmd rest st h :
  loop_inv h (cmd :: rest) st ->
  wp loop_guard (executed h cmd rest) h (execute cmd st).
Proof using Type.
  intros Hinv. pose proof (next_in_line_app _ _ _ _ Hinv) as Hnext.
  destruct Hinv as [_ Hrun Hcomp]. unfold execute. rewrite Hrun.
  rewrite bool_decide_eq_false_2 by set_solver. rewrite andb_false_r.
  wp_step. wp_step. unfold dedup_begin. rewrite Hrun.
  destruct (completed st !! cmd_id cmd) as [r|] eqn:Hc.
  - wp_step. exists []. rewrite app_nil_r. split; [done|]. intros r0 st0 [= <- <-].
    apply Hcomp in Hc as [Hin Hid]. split_and!; [done|done| |].
    + intros r' Hin' Hid'. assert (completed st !! cmd_id cmd = Some r') as H1
        by (apply Hcomp; split; congruence).
      assert (completed st !! cmd_id cmd = Some r) as H2 by (by apply Hcomp). congruence.
    + intros id r'. rewrite Hcomp. naive_solver.
  - rewrite decide_False by set_solver. wp_step.
    assert (Hno : ~ In (cmd_id cmd) (map command_id (acks h))).
    { intros (r & Hid & Hin)%in_map_iff.
      assert (completed st !! cmd_id cmd = Some r) by (by apply Hcomp). congruence. }
    rewrite <- (app_nil_r h). change [] with (map kube_event []) at 2.
    eapply wp_lift; [apply (wp_execute_inner cfg cmd [])| |].
    + intros t o Hg. exists cmd, h, t. split_and!; [done|done|done|exact Hg].
    + intros res t Hpost. wp_step. exists t. split; [by rewrite app_nil_r|].
      intros r st' Hr. destruct res as [r0|]; [|done]. simpl in Hr. injection Hr as -> <-.
      destruct (Hpost r eq_refl) as [Hid _]. rewrite app_nil_r.
      split_and!; [done| | |].
      * simpl. rewrite Hid. set_solver.
      * intros r' Hin Hid'. exfalso. apply Hno. rewrite <- Hid, <- Hid'. by apply in_map.
      * intros id r'. simpl. rewrite Hid. destruct (decide (cmd_id cmd = id)) as [<-|Hne].
        -- rewrite lookup_insert_eq. split; [intros [= <-]; auto|].
           intros [[Hin| ->] Hid']; [|done]. exfalso. apply Hno. rewrite <- Hid'. by apply in_map.
        -- rewrite lookup_insert_ne by done. rewrite Hcomp. split; [tauto|].
           intros [[Hin| ->] Hid']; [done|]. congruence.
Qed.

Lemma ack_invariant h cmd rest r st t x :
  loop_inv h (cmd :: rest) st -> command_id r = cmd_id cmd ->
  forall st', running st' = ∅ ->
  (forall id r', completed st' !! id = Some r' <-> (In r' (acks h) \/ r' = r) /\ command_id r' = id) ->
  loop_inv ((h ++ map kube_event t) ++ [ev (AckHub r) x]) rest st'.
Proof using Type.
  intros [(d & Hd & Ha) _ _] Hid st' Hrun Hcomp. split; [|done|].
  - exists (d ++ [cmd]). rewrite !delivered_app, !acks_app, kube_delivered, kube_acks, Hd.
    split; [by rewrite !app_nil_r, <- app_assoc|]. rewrite app_nil_r, map_app, Ha. simpl.
    by rewrite map_app, Hid.
  - intros id r'. rewrite Hcomp, !acks_app, kube_acks, app_nil_r, in_app_iff. simpl. naive_solver.
Qed.

Lemma wp_serve_batch rest st h :
  loop_inv h rest st -> wp loop_guard loop_post h (serve_batch rest st).
Proof using Type.
  revert st h. induction rest as [|cmd rest IH]; intros st h Hinv; cbn [serve_batch].
  { wp_step. exact Hinv. }
  wp_step. eapply wp_mono; [by apply wp_execute|].
  intros x h' (t & -> & Hx). destruct x as [[r st']|]; [|by wp_step].
  destruct (Hx r st' eq_refl) as (Hid & Hrun & Huniq & Hcomp).
  wp_step. wp_step.
  - split; [|by rewrite acks_app, kube_acks, app_nil_r].
    exists cmd. split; [|done]. destruct (next_in_line_app _ _ _ _ Hinv) as (d & l & H1 & H2).
    exists d, l. by rewrite delivered_app, acks_app, kube_delivered, kube_acks, !app_nil_r.
  - intros y. destruct (should_restart_after_ack r) eqn:Hre.
    + wp_step. exists r. split; [|done]. rewrite !acks_app.
      change (acks [ev (AckHub r) y]) with [r]. by rewrite last_snoc.
    + apply IH. by eapply ack_invariant.
Qed.

Lemma wp_command_loop rounds st h :
  loop_inv h [] st -> wp loop_guard loop_post h (command_loop rounds st).
Proof using Type.
  revert st h. induction rounds as [|n IH]; intros st h Hinv; cbn [command_loop].
  { wp_step. exact Hinv. }
  pose proof Hinv as [(d & Hd & Ha) Hrun Hcomp]. rewrite app_nil_r in Hd. subst d.
  wp_step. unfold command_round. wp_step. wp_step; [exact Ha|]. intros polled.
  assert (Hcont : forall x h', loop_post x h' -> wp loop_guard loop_post h'
    match x with Some (st, false) => command_loop n st | other => mret other end).
  { intros [[st' []]|] h' Hp; [by wp_step|by apply IH|by wp_step]. }
  destruct polled as [commands|e].
  - eapply wp_mono; [apply wp_serve_batch|exact Hcont].
    split; [|done|].
    + exists (delivered_to h). rewrite delivered_app, acks_app. split; [|by rewrite app_nil_r].
      f_equal. apply app_nil_r.
    + intros id r. by rewrite acks_app, app_nil_r.
  - wp_step. wp_step; [done|]. intros u. wp_step.
    apply (Hcont (Some (st, false))). split; [|done|].
    + exists (delivered_to h). rewrite !delivered_app, !acks_app, !app_nil_r. done.
    + intros id r. by rewrite !acks_app, !app_nil_r.
Qed.

Lemma loop_inv_start : loop_inv [] [] dedup_default.
Proof using Type. split; [by exists []|done|]. intros id r. simpl. rewrite lookup_empty. naive_solver. Qed.
End loop.

(** ** Properties *)

(** C21: Whatever the hub and the API server answer, over any number of rounds
    of the loop: every change of the cluster is made for the command that is
    next in line, the commands delivered before it being exactly those already
    acknowledged, only if no command with its id was acknowledged before, and
    only as [execute_guard] allows: with actions enabled, after a policy
    authorised it.  Every result sent to the hub answers the next command in
    line by its id, and repeats the earlier results with that id.  The hub is
    polled only when every delivered command is acknowledged. *)
Theorem command_loop_safe `{Codec, Diagnostics} cfg rounds t r t1 e t2 :
  runs (command_loop cfg rounds dedup_default) t r -> t = t1 ++ e :: t2 ->
  loop_guard cfg t1 (op_of e).
Proof.
  intros Hr Ht.
  destruct (wp_sound _ _ _ _ _ _ _
    (wp_command_loop cfg rounds _ _ loop_inv_start) Hr) as [_ HG].
  exact (HG t1 e t2 Ht).
Qed.

(** C22: When the rounds are over, the acknowledged ids are the ids of all the
    commands delivered, in order, and the deduplication table holds exactly the
    results sent; the process exits only after the hub was sent an "ok" result
    that asks for a restart. *)
Theorem command_loop_complete `{Codec, Diagnostics} cfg rounds t r :
  runs (command_loop cfg rounds dedup_default) t r ->
  match r with
  | Some (st, false) =>
      map command_id (acks t) = map cmd_id (delivered_to t) /\ running st = ∅ /\
      (forall id x, completed st !! id = Some x <-> In x (acks t) /\ command_id x = id)
  | Some (_, true) =>
      exists x, last (acks t) = Some x /\ r_status x = "ok" /\ restart_requested x = Some true
  | None => True
  end.
Proof.
  intros Hr.
  destruct (wp_sound _ _ _ _ _ _ _
    (wp_command_loop cfg rounds _ _ loop_inv_start) Hr) as [HQ _].
  destruct r as [[st []]|]; simpl in HQ; [|destruct HQ as [(d & Hd & Ha) Hrun Hc]|done].
  - destruct HQ as (x & Hx & Hre). exists x. split; [done|].
    apply andb_true_iff in Hre as [Hs Hb]. apply String.eqb_eq in Hs. split; [done|].
    by destruct (restart_requested x) as [[]|].
  - rewrite app_nil_r in Hd. subst d. done.
Qed.

(** ** The loop in the sample cluster *)

(** The hub delivers a scale command twice, then nothing. *)
Definition demo_agent (o : aop) (s : DemoCluster * nat) : aresp o * (DemoCluster * nat) :=
  match o return aresp o * (DemoCluster * nat) with
  | Kube o => let '(x, s') := demo_handler o (fst s) in (x, (s', snd s))
  | PollHub => (Ok match snd s with
                   | O => [demo_command "scale"; demo_command "scale"] | _ => [] end,
                (fst s, S (snd s)))
  | AckHub _ => (Ok tt, s)
  | LoopSleep _ => (tt, s)
  end.
Definition demo_loop : aprog (option (CommandDedupState * bool)) :=
  @command_loop (demo_codec demo_policy) demo_diagnostics (demo_config true) 2 dedup_default.
Definition demo_loop_trace : list aevent := interp_trace demo_agent demo_loop (demo_start, 0%nat).

(** The operation is a change of the cluster. *)
Definition changes (o : aop) : bool := match o with Kube o => mutating o | _ => false end.

Lemma command_loop_safe_witness :
  exists t1 e t2, demo_loop_trace = t1 ++ e :: t2 /\ changes (op_of e) = true /\
    @loop_guard (demo_codec demo_policy) (demo_config true) t1 (op_of e).
Proof.
  assert (Hm : (fun e => changes (op_of e)) <$> demo_loop_trace !! 7%nat = Some true)
    by (vm_compute; reflexivity).
  destruct (demo_loop_trace !! 7%nat) as [e|] eqn:He; [|discriminate Hm].
  pose proof (split_at _ _ _ He) as Hs. eexists _, e, _.
  split; [exact Hs|]. split; [by injection Hm|].
  exact (@command_loop_safe (demo_codec demo_policy) demo_diagnostics (demo_config true) 2 _ _ _ _ _
    (interp_runs _ demo_agent demo_loop (demo_start, 0%nat)) Hs).
Defined.

Lemma command_loop_complete_witness :
  (exists st, fst (interp demo_agent demo_loop (demo_start, 0%nat)) = Some (st, false)) /\
  map command_id (acks demo_loop_trace) = ["c-8"; "c-8"] /\
  map cmd_id (delivered_to demo_loop_trace) = ["c-8"; "c-8"].
Proof.
  assert (Hr : match fst (interp demo_agent demo_loop (demo_start, 0%nat)) with
               | Some (_, b) => b | None => true end = false) by (vm_compute; reflexivity).
  pose proof (@command_loop_complete (demo_codec demo_policy) demo_diagnostics (demo_config true) 2 _ _
    (interp_runs _ demo_agent demo_loop (demo_start, 0%nat))) as HR.
  change (interp_trace demo_agent _ _) with demo_loop_trace in HR. fold demo_loop in HR.
  destruct (fst (interp demo_agent demo_loop (demo_start, 0%nat))) as [[st b]|]; [|discriminate Hr].
  subst b. destruct HR as [HR _]. split; [by exists st|].
  assert (Hd : map cmd_id (delivered_to demo_loop_trace) = ["c-8"; "c-8"])
    by (vm_compute; reflexivity).
  rewrite <- Hd at 2. split; [|exact Hd]. rewrite <- Hd. exact HR.
Defined.
