(* ===== verification/Operator.v ===== *)
(** * The action-mode operator (operator.rs)

    One round of the operator: list the namespaces and the policies, give the
    agent a RoleBinding in every namespace that is enabled for action mode and
    not excluded, take it away everywhere else, and write a status on every
    policy.  The executor accepts a policy only on the strength of that status
    (Policy.v). *)
From S2P Require Import Prelude RustStr Json Effects Kube Quantity Model Config Policy Workload Access Preflight Demo.
Local Open Scope Z_scope.

(** Generated code and k8s_openapi: the encoding of a status, and the typed
    [RoleBinding] between its JSON literal and the request body. *)
Class OperatorCodec := {
  status_to_value : SentinellaHubActionPolicyStatus -> json;
  role_binding_from_value : json -> result string json;
  role_binding_to_value : json -> result string json }.

Definition ACTION_ROLE_BINDING_NAME : string := "sentinella-hub-k8s-agent-action-mode".
Definition ACTION_CLUSTER_ROLE_NAME : string := "sentinella-hub-k8s-agent-action-mode".
Definition ACTION_SERVICE_ACCOUNT_NAMESPACE : string := "sentinella".
Definition ACTION_SERVICE_ACCOUNT_NAME : string := "sentinella-hub-k8s-agent".
Definition SYSTEM_EXCLUDED_NAMESPACES : list string :=
  ["kube-system"; "kube-public"; "kube-node-lease"; "sentinella"; "tetragon"; "openshift-*"].

(** ** Exclusion and eligibility *)

Definition combined_excluded_namespaces (extra : list string) : gset string :=
  list_to_set (List.filter (fun value => negb (str_is_empty value))
                 (SYSTEM_EXCLUDED_NAMESPACES ++ map trim extra)).

Definition namespace_matches_pattern (name pattern : string) : bool :=
  match strip_suffix "*" pattern with
  | Some prefix => if str_is_empty prefix then false else starts_with prefix name
  | None => String.eqb name pattern
  end.

Definition namespace_is_excluded (name : string) (excluded : gset string) : bool :=
  existsb (namespace_matches_pattern name) (elements excluded).

Definition namespace_action_mode_enabled (ns : Namespace) : bool :=
  bool_decide ((ls ← labels (ns_metadata ns); ls !! ACTION_MODE_NAMESPACE_LABEL)
               = Some ACTION_MODE_NAMESPACE_LABEL_ENABLED).

(** The body of the loop of [effective_namespaces]. *)
Definition effective_name (excluded : gset string) (ns : Namespace) : option string :=
  nm ← name (ns_metadata ns);
  if negb (namespace_is_excluded nm excluded) && namespace_action_mode_enabled ns
  then Some nm else None.

Definition effective_namespaces_of (namespaces : list Namespace) (excluded : gset string)
    : list string :=
  sort_strings (filter_map (effective_name excluded) namespaces).

(** ** Role bindings *)

(** The response of a call whose result is not used. *)
Definition discard {E A} (r : result E A) : result E unit :=
  match r with Ok _ => Ok tt | Err e => Err e end.

Record BindingReconcileOutcome := {
  permission_granted : bool;
  reconciliation_error : option string }.

Definition role_binding_json (namespace : string) : json :=
  jobj
    [("apiVersion", JStr "rbac.authorization.k8s.io/v1");
     ("kind", JStr "RoleBinding");
     ("metadata", jobj
        [("name", JStr ACTION_ROLE_BINDING_NAME);
         ("namespace", JStr namespace);
         ("labels", jobj
            [("app.kubernetes.io/part-of", JStr "sentinella");
             ("sentinella.io/managed-by", JStr "sentinella-hub-k8s-agent");
             (ACTION_MODE_NAMESPACE_LABEL, JStr ACTION_MODE_NAMESPACE_LABEL_ENABLED)]);
         ("annotations", jobj [("sentinella.io/policy-scope", JStr "cluster-scoped")])]);
     ("roleRef", jobj
        [("apiGroup", JStr "rbac.authorization.k8s.io");
         ("kind", JStr "ClusterRole");
         ("name", JStr ACTION_CLUSTER_ROLE_NAME)]);
     ("subjects", JArr [jobj
        [("kind", JStr "ServiceAccount");
         ("name", JStr ACTION_SERVICE_ACCOUNT_NAME);
         ("namespace", JStr ACTION_SERVICE_ACCOUNT_NAMESPACE)]])].

Section bindings.
Context `{OperatorCodec}.

Definition desired_action_role_binding (namespace : string) : result string json :=
  map_err (fun e => "failed to build desired RoleBinding: " +s+ e)
    (role_binding_from_value (role_binding_json namespace)).

(** Errors are the texts of the [anyhow] errors: the outermost context. *)
Definition ensure_action_role_binding (namespace : string) : kprog (result string unit) :=
  try desired := desired_action_role_binding namespace else e => mret (Err e) in
  existing ← call (GetOpt RRoleBinding (Some namespace) ACTION_ROLE_BINDING_NAME);
  try existing := existing else e => mret (Err (kube_display e)) in
  try desired_value := map_err (fun _ => "serialize action RoleBinding")
                         (role_binding_to_value desired) else e => mret (Err e) in
  match existing with
  | Some _ =>
      r ← call (PatchObj RRoleBinding (Some namespace) ACTION_ROLE_BINDING_NAME
                  {| dry_run := false |} (Merge desired_value));
      mret (map_err (fun _ => "patch action RoleBinding") (discard r))
  | None =>
      r ← call (Create RRoleBinding (Some namespace) desired);
      mret (map_err (fun _ => "create action RoleBinding") r)
  end.

Definition remove_action_role_binding (namespace : string) : kprog (result string unit) :=
  existing ← call (GetOpt RRoleBinding (Some namespace) ACTION_ROLE_BINDING_NAME);
  try existing := existing else e => mret (Err (kube_display e)) in
  match existing with
  | Some _ =>
      r ← call (DeleteObj RRoleBinding (Some namespace) ACTION_ROLE_BINDING_NAME);
      mret (map_err (fun _ => "delete action RoleBinding") r)
  | None => mret (Ok tt)
  end.
End bindings.

(** The loop of [reconcile_action_role_bindings_with]: every error is
    collected and none stops it. *)
Fixpoint bindings_loop (ensure remove : string -> kprog (result string unit))
    (namespaces : list Namespace) (excluded : gset string) (errors : list string)
    : kprog (list string) :=
  match namespaces with
  | [] => mret errors
  | ns :: namespaces =>
      match name (ns_metadata ns) with
      | None => bindings_loop ensure remove namespaces excluded errors
      | Some nm =>
          r ← (if negb (namespace_is_excluded nm excluded) && namespace_action_mode_enabled ns
               then ensure nm else remove nm);
          bindings_loop ensure remove namespaces excluded
            (errors ++ match r with Ok _ => [] | Err e => [e] end)
      end
  end.

Definition binding_outcome_of (errors : list string) : BindingReconcileOutcome :=
  {| permission_granted := is_empty errors;
     reconciliation_error := if is_empty errors then None else Some (join "; " errors) |}.

Definition reconcile_action_role_bindings_with
    (ensure remove : string -> kprog (result string unit))
    (namespaces : list Namespace) (_policies : list SentinellaHubActionPolicy)
    (excluded : gset string) : kprog (result string BindingReconcileOutcome) :=
  errors ← bindings_loop ensure remove namespaces excluded [];
  mret (Ok (binding_outcome_of errors)).

(** ** The status of a policy *)

Definition policy_condition (type_ : string) (is_true : bool) (reason message : option string)
    (observed_generation : option Z) (now_ms : Z) : SentinellaHubActionPolicyCondition :=
  {| type_ := type_; cond_status := if is_true then "True" else "False"; cond_reason := reason;
     cond_message := message; cond_observed_generation := observed_generation;
     last_transition_time_ms := Some now_ms |}.

Definition build_policy_conditions (policy : SentinellaHubActionPolicy)
    (policy_matched namespaces_eligible permission_granted action_allowed resource_allowed
     limits_satisfied : bool) (reconciliation_error : option string) (stale ready : bool)
    (now_ms : Z) : list SentinellaHubActionPolicyCondition :=
  let generation := generation (metadata policy) in
  let condition := fun type_ (b : bool) yes no yes_text no_text =>
    policy_condition type_ b (Some (if b then yes else no)) (Some (if b then yes_text else no_text))
      generation now_ms in
  [condition "NamespacesEligible" namespaces_eligible
     "eligible_namespaces_found" "all_namespaces_excluded"
     "At least one namespace is enabled for action mode after applying the operator exclude list"
     "No namespaces are enabled for action-mode reconciliation";
   condition "PolicyMatched" policy_matched
     "global_exclude_list_active" "global_exclude_list_active"
     "Policy is evaluated under the operator-managed action-mode model"
     "Policy is evaluated under the operator-managed action-mode model";
   condition "PermissionGranted" permission_granted
     "rolebinding_reconciled" "rolebinding_reconcile_failed"
     "Managed RoleBindings were reconciled successfully"
     "Managed RoleBindings are not fully reconciled";
   condition "ActionAllowed" action_allowed
     "action_allowed" "action_not_allowed"
     "At least one declared action is supported" "No supported actions are declared";
   condition "ResourceAllowed" resource_allowed
     "resource_allowed" "resource_not_allowed"
     "Declared resources are compatible with declared actions"
     "Declared resources do not permit the declared actions";
   condition "LimitsSatisfied" limits_satisfied
     "limits_satisfied" "limits_exceeded"
     "Declared limits are valid" "Declared limits are invalid";
   policy_condition "ReconciliationError" (is_some reconciliation_error)
     (Some (if is_some reconciliation_error then "reconcile_error" else "reconcile_ok"))
     ((fun msg => "Reconciliation error: " +s+ msg) <$> reconciliation_error) generation now_ms;
   condition "Stale" stale "status_stale" "status_fresh"
     "Policy status is stale" "Policy status is fresh"]
  ++
  [condition "Ready" ready "ready" "not_ready"
     "Policy is Ready for global agent action checks"
     "Policy is not Ready for global agent action checks"].

(** The flags of [build_policy_status] that depend on the policy alone. *)
Definition action_allowed_of (policy : SentinellaHubActionPolicy) : bool :=
  forallb policy_action_is_supported (allowed_actions (spec policy))
  && negb (is_empty (allowed_actions (spec policy))).
Definition resource_allowed_of (policy : SentinellaHubActionPolicy) : bool :=
  if existsb policy_action_targets_workload (allowed_actions (spec policy))
  then negb (is_empty (allowed_resources (spec policy)))
       && forallb policy_resource_is_supported (allowed_resources (spec policy))
  else true.
Definition previous_reconcile (policy : SentinellaHubActionPolicy) : option Z :=
  st ← status policy; last_reconciled_at_ms st.

Definition build_policy_status (policy : SentinellaHubActionPolicy) (namespaces : list Namespace)
    (excluded : gset string) (outcome : BindingReconcileOutcome) (now_ms stale_after_ms : Z)
    : SentinellaHubActionPolicyStatus :=
  let effective := effective_namespaces_of namespaces excluded in
  let policy_matched := true in
  let namespaces_eligible := negb (is_empty effective) in
  let permission_granted := permission_granted outcome in
  let reconciliation_error := reconciliation_error outcome in
  let action_allowed := action_allowed_of policy in
  let resource_allowed := resource_allowed_of policy in
  let limits_satisfied := policy_limits_are_valid (limits (spec policy)) in
  let stale := policy_status_is_stale (previous_reconcile policy) now_ms stale_after_ms in
  let ready := policy_matched && namespaces_eligible && permission_granted && action_allowed
               && resource_allowed && limits_satisfied && negb stale
               && is_none reconciliation_error in
  {| effective_namespaces := effective;
     conditions := build_policy_conditions policy policy_matched namespaces_eligible
       permission_granted action_allowed resource_allowed limits_satisfied reconciliation_error
       stale ready now_ms;
     observed_generation := generation (metadata policy);
     last_reconciled_at_ms := Some now_ms;
     stale := stale |}.

(** ** A round *)

(** The loop over the policies: a failed patch is logged and skipped. *)
Fixpoint statuses_loop (patch_status : string -> SentinellaHubActionPolicyStatus -> kprog (result string unit))
    (status_of : SentinellaHubActionPolicy -> SentinellaHubActionPolicyStatus)
    (policies : list SentinellaHubActionPolicy) : kprog unit :=
  match policies with
  | [] => mret tt
  | policy :: policies =>
      match name (metadata policy) with
      | None => statuses_loop patch_status status_of policies
      | Some nm =>
          _ ← patch_status nm (status_of policy);
          statuses_loop patch_status status_of policies
      end
  end.

Definition reconcile_action_policies_with (now_ms stale_after_ms : Z) (excluded : gset string)
    (list_namespaces : kprog (result string (list Namespace)))
    (list_policies : kprog (result string (list SentinellaHubActionPolicy)))
    (reconcile_bindings : list Namespace -> list SentinellaHubActionPolicy -> gset string ->
       kprog (result string BindingReconcileOutcome))
    (patch_status : string -> SentinellaHubActionPolicyStatus -> kprog (result string unit))
    : kprog (result string unit) :=
  namespaces ← list_namespaces;
  try namespaces := namespaces else e => mret (Err e) in
  policies ← list_policies;
  try policies := policies else e => mret (Err e) in
  outcome ← reconcile_bindings namespaces policies excluded;
  try outcome := outcome else e => mret (Err e) in
  _ ← statuses_loop patch_status
        (fun policy => build_policy_status policy namespaces excluded outcome now_ms stale_after_ms)
        policies;
  mret (Ok tt).

Section reconcile.
Context `{Codec, OperatorCodec} (cfg : Config).

Definition list_namespaces : kprog (result string (list Namespace)) :=
  listed ← call (ListObjs RNamespace None None);
  mret (map_err kube_display listed).

(** As in the executor, with the texts of the operator's contexts. *)
Fixpoint operator_decode (items : list DynamicObject)
    : result string (list SentinellaHubActionPolicy) :=
  match items with
  | [] => Ok []
  | policy :: items =>
      value ← map_err (fun _ => "serialize action policy") (dyn_to_value policy);
      policy ← map_err (fun _ => "deserialize action policy")
                 (from_value value : result string SentinellaHubActionPolicy);
      out ← operator_decode items;
      mret (policy :: out)
  end.

Definition list_policies : kprog (result string (list SentinellaHubActionPolicy)) :=
  listed ← call (ListObjs RPolicy None None);
  mret (items ← map_err kube_display listed; operator_decode items).

Definition patch_policy_status (nm : string) (status : SentinellaHubActionPolicyStatus)
    : kprog (result string unit) :=
  r ← call (PatchStatus RPolicy None nm (Merge (jobj [("status", status_to_value status)])));
  mret (map_err (fun _ => "patching status for policy " +s+ nm) r).

Definition reconcile_action_role_bindings :=
  reconcile_action_role_bindings_with ensure_action_role_binding remove_action_role_binding.

Definition reconcile_action_policies : kprog (result string unit) :=
  now ← call NowMs;
  reconcile_action_policies_with now (stale_after_ms cfg)
    (combined_excluded_namespaces (action_operator_excluded_namespaces cfg))
    list_namespaces list_policies reconcile_action_role_bindings patch_policy_status.

(** The loop of [run_action_operator] over a number of ticks; a failed round is
    logged only. *)
Fixpoint operator_rounds (ticks : nat) : kprog unit :=
  match ticks with
  | O => mret tt
  | S ticks => _ ← reconcile_action_policies; operator_rounds ticks
  end.
(** [interval] panics on a period of zero, which ends the task. *)
Definition run_action_operator (ticks : nat) : kprog unit :=
  if action_operator_poll_interval cfg =? 0 then mret tt else operator_rounds ticks.
End reconcile.

(** ** Exclusion and eligibility: specification *)

Definition excluded_by (extra : list string) (nm : string) : Prop :=
  exists pattern, In pattern (SYSTEM_EXCLUDED_NAMESPACES ++ map trim extra) /\ pattern <> "" /\
    pattern_covers nm pattern.

Definition labelled (ns : Namespace) : Prop :=
  exists ls, labels (ns_metadata ns) = Some ls /\
    ls !! ACTION_MODE_NAMESPACE_LABEL = Some ACTION_MODE_NAMESPACE_LABEL_ENABLED.

(** The namespaces in which actions may happen. *)
Definition eligible (extra : list string) (ns : Namespace) (nm : string) : Prop :=
  name (ns_metadata ns) = Some nm /\ labelled ns /\ ~ excluded_by extra nm.

Lemma namespace_matches_pattern_spec nm pattern :
  namespace_matches_pattern nm pattern = true <-> pattern_covers nm pattern.
Proof.
  rewrite <- wildcard_spec. unfold namespace_matches_pattern, wildcard_matches.
  destruct (strip_suffix _ _) as [prefix|]; [|done]. by destruct prefix.
Qed.

Lemma namespace_is_excluded_spec extra nm :
  namespace_is_excluded nm (combined_excluded_namespaces extra) = true <-> excluded_by extra nm.
Proof.
  unfold namespace_is_excluded, combined_excluded_namespaces, excluded_by.
  rewrite existsb_exists. setoid_rewrite namespace_matches_pattern_spec.
  split; intros (p & Hin & Hp); exists p.
  - rewrite <- list_elem_of_In, elem_of_elements, elem_of_list_to_set, list_elem_of_In in Hin.
    apply filter_In in Hin as [Hin Hne]. split; [done|]. split; [|done].
    by destruct p.
  - destruct Hp as [Hne Hp]. split; [|done].
    rewrite <- list_elem_of_In, elem_of_elements, elem_of_list_to_set, list_elem_of_In.
    apply filter_In. split; [done|]. by destruct p.
Qed.

Lemma namespace_action_mode_enabled_spec ns :
  namespace_action_mode_enabled ns = true <-> labelled ns.
Proof.
  unfold namespace_action_mode_enabled, labelled. rewrite bool_decide_eq_true, bind_Some. done.
Qed.

(** The test shared by the loop over the bindings and by the statuses. *)
Lemma eligible_spec extra ns nm :
  name (ns_metadata ns) = Some nm ->
  negb (namespace_is_excluded nm (combined_excluded_namespaces extra))
    && namespace_action_mode_enabled ns = true <-> eligible extra ns nm.
Proof.
  intros Hn. unfold eligible.
  rewrite andb_true_iff, negb_true_iff, <- not_true_iff_false, namespace_is_excluded_spec,
    namespace_action_mode_enabled_spec. tauto.
Qed.

Lemma effective_namespaces_in extra namespaces nm :
  In nm (effective_namespaces_of namespaces (combined_excluded_namespaces extra)) <->
  exists ns, In ns namespaces /\ eligible extra ns nm.
Proof.
  unfold effective_namespaces_of, sort_strings, filter_map.
  rewrite <- list_elem_of_In, merge_sort_Permutation, list_elem_of_omap.
  setoid_rewrite list_elem_of_In. unfold effective_name. split.
  - intros (ns & Hin & Hb). apply bind_Some in Hb as (nm' & Hn & Hb).
    exists ns. split; [done|].
    destruct (negb _ && _) eqn:He; simplify_eq. by apply eligible_spec.
  - intros (ns & Hin & He). exists ns. split; [done|].
    pose proof (proj1 He) as Hn. rewrite Hn. simpl.
    by rewrite (proj2 (eligible_spec extra ns nm Hn) He).
Qed.

(** ** The status: specification *)

(** What the operator requires of a policy, of the last round and of the
    cluster before it calls a policy Ready. *)
Record ready_policy (policy : SentinellaHubActionPolicy) (effective : list string)
    (outcome : BindingReconcileOutcome) (now stale_after_ms : Z) : Prop := {
  ready_namespaces : effective <> [];
  ready_bindings : permission_granted outcome = true /\ reconciliation_error outcome = None;
  ready_actions : allowed_actions (spec policy) <> [] /\
    Forall (fun a => policy_action_is_supported a = true) (allowed_actions (spec policy));
  ready_resources :
    Exists (fun a => policy_action_targets_workload a = true) (allowed_actions (spec policy)) ->
    allowed_resources (spec policy) <> [] /\
    Forall (fun r => policy_resource_is_supported r = true) (allowed_resources (spec policy));
  ready_limits : policy_limits_are_valid (limits (spec policy)) = true;
  ready_fresh : exists last, previous_reconcile policy = Some last /\
    now - last <= stale_after_ms /\ 0 <= stale_after_ms }.

Definition ready_flag (policy : SentinellaHubActionPolicy) (effective : list string)
    (outcome : BindingReconcileOutcome) (now stale_after_ms : Z) : bool :=
  true && negb (is_empty effective) && permission_granted outcome && action_allowed_of policy
  && resource_allowed_of policy && policy_limits_are_valid (limits (spec policy))
  && negb (policy_status_is_stale (previous_reconcile policy) now stale_after_ms)
  && is_none (reconciliation_error outcome).

Lemma not_empty_spec {A} (l : list A) : negb (is_empty l) = true <-> l <> [].
Proof. by destruct l. Qed.

Lemma action_allowed_spec policy :
  action_allowed_of policy = true <->
  allowed_actions (spec policy) <> [] /\
  Forall (fun a => policy_action_is_supported a = true) (allowed_actions (spec policy)).
Proof.
  unfold action_allowed_of. rewrite andb_true_iff, forallb_Forall_true, not_empty_spec. tauto.
Qed.

Lemma resource_allowed_spec policy :
  resource_allowed_of policy = true <->
  (Exists (fun a => policy_action_targets_workload a = true) (allowed_actions (spec policy)) ->
   allowed_resources (spec policy) <> [] /\
   Forall (fun r => policy_resource_is_supported r = true) (allowed_resources (spec policy))).
Proof.
  unfold resource_allowed_of.
  assert (Hex : existsb policy_action_targets_workload (allowed_actions (spec policy)) = true <->
    Exists (fun a => policy_action_targets_workload a = true) (allowed_actions (spec policy))).
  { rewrite existsb_exists, List.Exists_exists. done. }
  destruct (existsb _ _).
  - rewrite andb_true_iff, forallb_Forall_true, not_empty_spec. tauto.
  - split; [|done]. intros _ Hx. apply Hex in Hx. done.
Qed.

Lemma ready_flag_spec policy effective outcome now after :
  ready_flag policy effective outcome now after = true <->
  ready_policy policy effective outcome now after.
Proof.
  unfold ready_flag. rewrite !andb_true_iff, not_empty_spec, action_allowed_spec,
    resource_allowed_spec.
  split.
  - intros (((((((_ & H1) & H2) & H3) & H4) & H5) & H6) & H7).
    split; try done.
    + split; [done|]. by destruct (reconciliation_error outcome).
    + apply negb_true_iff in H6. destruct (previous_reconcile policy) as [last|]; [|done].
      exists last. split; [done|]. by apply policy_status_is_stale_fresh.
  - intros [H1 [H2 H2'] H3 H4 H5 (last & Hl & H6)]. rewrite H2', Hl.
    apply policy_status_is_stale_fresh in H6. rewrite H6. destruct H3.
    by split_and!.
Qed.

Lemma build_status_ready policy namespaces excluded outcome now after :
  condition_true (conditions (build_policy_status policy namespaces excluded outcome now after))
    "Ready" =
  ready_flag policy (effective_namespaces_of namespaces excluded) outcome now after.
Proof.
  unfold build_policy_status, condition_true; cbn [conditions].
  unfold build_policy_conditions. cbv zeta. rewrite existsb_app. cbn [existsb app type_ policy_condition].
  unfold ready_flag.
  set (b := _ && is_none _). by destruct b.
Qed.

(** ** What a round does to the cluster *)

Section effects.
Context `{Codec, OperatorCodec} (cfg : Config).
Let extra := action_operator_excluded_namespaces cfg.
Let excluded := combined_excluded_namespaces extra.

Definition patch_binding (nm : string) (v : json) : op :=
  PatchObj RRoleBinding (Some nm) ACTION_ROLE_BINDING_NAME {| dry_run := false |} (Merge v).

(** The namespace has the binding, or has none, after the operations. *)
Definition bound (nm : string) (h : list kevent) : Prop :=
  exists d, desired_action_role_binding nm = Ok d /\
    ((exists v x, role_binding_to_value d = Ok v /\ In (ev (R:=resp) (patch_binding nm v) (Ok x)) h)
     \/ In (ev (R:=resp) (Create RRoleBinding (Some nm) d) (Ok tt)) h).
Definition unbound (nm : string) (h : list kevent) : Prop :=
  In (ev (R:=resp) (GetOpt RRoleBinding (Some nm) ACTION_ROLE_BINDING_NAME) (Ok None)) h \/
  In (ev (R:=resp) (DeleteObj RRoleBinding (Some nm) ACTION_ROLE_BINDING_NAME) (Ok tt)) h.

Definition settled (ns : Namespace) (h : list kevent) : Prop :=
  forall nm, name (ns_metadata ns) = Some nm ->
    (eligible extra ns nm -> bound nm h) /\ (~ eligible extra ns nm -> unbound nm h).

(** A namespace of a listing, with the given name. *)
Definition listed_namespace (ns : Namespace) (nm : string) (h : list kevent) : Prop :=
  exists items, In (ev (R:=resp) (ListObjs RNamespace None None) (Ok items)) h /\
    In ns items /\ name (ns_metadata ns) = Some nm.

Definition status_patch (nm : string) (st : SentinellaHubActionPolicyStatus) : op :=
  PatchStatus RPolicy None nm (Merge (jobj [("status", status_to_value st)])).

(** The status [st] is the one that a round makes of a policy [nm] it listed:
    the history is that of a round from its start, with the time, the
    namespaces and the policies that it read; and if the status grants
    permission, every namespace is settled. *)
Record computed (nm : string) (st : SentinellaHubActionPolicyStatus) (now : Z)
    (namespaces : list Namespace) (p : SentinellaHubActionPolicy)
    (outcome : BindingReconcileOutcome) (h : list kevent) : Prop := {
  computed_round : exists items policies rest,
    h = [ev (R:=resp) NowMs now; ev (R:=resp) (ListObjs RNamespace None None) (Ok namespaces);
         ev (R:=resp) (ListObjs RPolicy None None) (Ok items)] ++ rest /\
    operator_decode items = Ok policies /\ In p policies;
  computed_name : name (metadata p) = Some nm;
  computed_settled : permission_granted outcome = true -> Forall (fun ns => settled ns h) namespaces;
  computed_status : st = build_policy_status p namespaces excluded outcome now (stale_after_ms cfg) }.

(** The operator changes three things: the binding of an eligible namespace,
    the binding of a namespace that is not eligible, the status of a policy. *)
Definition operator_guard (h : list kevent) (o : op) : Prop :=
  mutating o = true ->
  (exists ns nm d, listed_namespace ns nm h /\ eligible extra ns nm /\
     desired_action_role_binding nm = Ok d /\
     (o = Create RRoleBinding (Some nm) d \/
      exists v, role_binding_to_value d = Ok v /\ o = patch_binding nm v)) \/
  (exists ns nm, listed_namespace ns nm h /\ ~ eligible extra ns nm /\
     o = DeleteObj RRoleBinding (Some nm) ACTION_ROLE_BINDING_NAME) \/
  (exists nm st now namespaces p outcome, o = status_patch nm st /\
     computed nm st now namespaces p outcome h).

Lemma operator_guard_read h o : mutating o = false -> operator_guard h o.
Proof. intros Hm Hm'. congruence. Qed.

Lemma listed_namespace_app ns nm h t : listed_namespace ns nm h -> listed_namespace ns nm (h ++ t).
Proof. intros (items & ? & ?). exists items. rewrite in_app_iff. auto. Qed.

Lemma bound_mono nm h h' : (forall e, In e h -> In e h') -> bound nm h -> bound nm h'.
Proof. unfold bound. naive_solver. Qed.
Lemma unbound_mono nm h h' : (forall e, In e h -> In e h') -> unbound nm h -> unbound nm h'.
Proof. unfold unbound. naive_solver. Qed.
Lemma settled_app ns h t : settled ns h -> settled ns (h ++ t).
Proof.
  intros Hs nm Hn. destruct (Hs nm Hn) as [Hb Hu]. split; intros He.
  - eapply bound_mono; [|by apply Hb]. intros e Hin. apply in_app_iff. by left.
  - eapply unbound_mono; [|by apply Hu]. intros e Hin. apply in_app_iff. by left.
Qed.

Lemma computed_app nm st now namespaces p outcome h t :
  computed nm st now namespaces p outcome h -> computed nm st now namespaces p outcome (h ++ t).
Proof.
  intros [(items & ps & rest & -> & Hd & Hin) Hn Hs ->]. split; [|done| |done].
  - exists items, ps, (rest ++ t). by rewrite <- app_assoc.
  - intros Hp. eapply Forall_impl; [exact (Hs Hp)|]. intros ns. apply settled_app.
Qed.

Lemma wp_ensure ns nm Q h :
  listed_namespace ns nm h -> eligible extra ns nm ->
  (forall r t, (r = Ok tt -> bound nm (h ++ t)) -> Q r (h ++ t)) ->
  wp operator_guard Q h (ensure_action_role_binding nm).
Proof.
  intros Hl He HQ. unfold ensure_action_role_binding.
  wp_case; [rename E into Hd|wp_step; rewrite <- (app_nil_r h); by apply HQ].
  wp_step. wp_step; [by apply operator_guard_read|].
  intros [existing|e]; [|wp_step; by apply HQ].
  wp_case; [rename E into Hv|wp_step; by apply HQ].
  apply (listed_namespace_app _ _ _ [ev (R:=resp)
    (GetOpt RRoleBinding (Some nm) ACTION_ROLE_BINDING_NAME) (Ok existing)]) in Hl.
  destruct (role_binding_to_value a) as [v|] eqn:Hv'; [|discriminate Hv].
  injection Hv as <-.
  destruct existing as [x|].
  - wp_step. wp_step.
    { intros _. left. exists ns, nm, a. split_and!; [done..|]. right. by exists v. }
    intros r. wp_step. rewrite <- app_assoc. apply HQ. intros Hr.
    destruct r as [y|]; [|done]. exists a. split; [done|]. left. exists v, y. split; [done|].
    rewrite !in_app_iff. right. right. by left.
  - wp_step. wp_step.
    { intros _. left. exists ns, nm, a. split_and!; [done..|]. by left. }
    intros r. wp_step. rewrite <- app_assoc. apply HQ. intros Hr.
    destruct r as [[]|]; [|done]. exists a. split; [done|]. right.
    rewrite !in_app_iff. right. right. by left.
Qed.

Lemma wp_remove ns nm Q h :
  listed_namespace ns nm h -> ~ eligible extra ns nm ->
  (forall r t, (r = Ok tt -> unbound nm (h ++ t)) -> Q r (h ++ t)) ->
  wp operator_guard Q h (remove_action_role_binding nm).
Proof.
  intros Hl He HQ. unfold remove_action_role_binding.
  wp_step. wp_step; [by apply operator_guard_read|].
  intros [[x|]|e]; [| |wp_step; by apply HQ].
  - wp_step. wp_step.
    { intros _. right. left. exists ns, nm. split_and!; [|done|done].
      by apply listed_namespace_app. }
    intros r. wp_step. rewrite <- app_assoc. apply HQ. intros Hr.
    destruct r as [[]|]; [|done]. right. rewrite !in_app_iff. right. right. by left.
  - wp_step. apply HQ. intros _. left. apply in_app_iff. right. by left.
Qed.

Lemma wp_bindings_loop namespaces errors Q h :
  (forall ns nm, In ns namespaces -> name (ns_metadata ns) = Some nm -> listed_namespace ns nm h) ->
  (forall es t, (es = [] -> errors = [] /\ Forall (fun ns => settled ns (h ++ t)) namespaces) ->
     Q es (h ++ t)) ->
  wp operator_guard Q h
    (bindings_loop ensure_action_role_binding remove_action_role_binding namespaces excluded errors).
Proof.
  revert h errors. induction namespaces as [|ns namespaces IH]; intros h errors Hl HQ;
    cbn [bindings_loop].
  { wp_step. rewrite <- (app_nil_r h). apply HQ. auto. }
  destruct (name (ns_metadata ns)) as [nm|] eqn:Hn.
  2:{ apply IH; [intros; apply Hl; [by right|done]|]. intros es t Hes. apply HQ.
      intros E. destruct (Hes E). split; [done|]. constructor; [|done].
      intros nm' Hn'. congruence. }
  assert (Hstep : forall (r : result string unit) t, (r = Ok tt -> settled ns (h ++ t)) ->
    wp operator_guard Q (h ++ t) (bindings_loop ensure_action_role_binding
      remove_action_role_binding namespaces excluded
      (errors ++ match r with Ok _ => [] | Err e => [e] end))).
  { intros r t Hr. apply IH.
    - intros ns' nm' Hin Hn'. apply listed_namespace_app, Hl; [by right|done].
    - intros es t' Hes. rewrite <- app_assoc. apply HQ. intros E.
      destruct (Hes E) as [He Hall]. apply app_nil in He as [-> He].
      destruct r as [[]|]; [|done]. split; [done|]. rewrite app_assoc. constructor; [|done].
      apply settled_app. auto. }
  wp_step. destruct (negb _ && _) eqn:Helig.
  - apply eligible_spec in Helig; [|done]. eapply wp_ensure; [by apply Hl; [left|]|done|].
    intros r t Hb. apply Hstep. intros Hr nm' Hn'.
    assert (nm' = nm) as -> by congruence. split; [auto|done].
  - assert (Hne : ~ eligible extra ns nm).
    { intros He. apply eligible_spec in He; [|done]. unfold excluded in Helig. congruence. }
    eapply wp_remove; [by apply Hl; [left|]|done|].
    intros r t Hb. apply Hstep. intros Hr nm' Hn'.
    assert (nm' = nm) as -> by congruence. split; [done|auto].
Qed.

(** The status [st] was sent for every named policy. *)
Definition statuses_sent (status_of : SentinellaHubActionPolicy -> SentinellaHubActionPolicyStatus)
    (policies : list SentinellaHubActionPolicy) (h : list kevent) : Prop :=
  Forall (fun p => forall nm, name (metadata p) = Some nm ->
    exists x, In (ev (R:=resp) (status_patch nm (status_of p)) x) h) policies.

Lemma wp_statuses_loop status_of policies Q h :
  (forall p nm, In p policies -> name (metadata p) = Some nm ->
     exists now namespaces outcome, computed nm (status_of p) now namespaces p outcome h) ->
  (forall t, statuses_sent status_of policies (h ++ t) -> Q tt (h ++ t)) ->
  wp operator_guard Q h (statuses_loop patch_policy_status status_of policies).
Proof.
  revert h. induction policies as [|p policies IH]; intros h Hc HQ; cbn [statuses_loop].
  { wp_step. rewrite <- (app_nil_r h). apply HQ. constructor. }
  destruct (name (metadata p)) as [nm|] eqn:Hn.
  - wp_step. unfold patch_policy_status. wp_step. wp_step.
    { intros _. right. right. destruct (Hc p nm) as (now & nss & o & Hcomp); [by left|done|].
      by exists nm, (status_of p), now, nss, p, o. }
    intros x. wp_step. apply IH.
    { intros p' nm' Hin Hn'. destruct (Hc p' nm') as (now & nss & o & Hcomp); [by right|done|].
      exists now, nss, o. by apply computed_app. }
    intros t Hs. rewrite <- app_assoc. apply HQ.
    rewrite <- app_assoc in Hs. constructor; [|done].
    intros nm' Hn'. assert (nm' = nm) as -> by congruence. exists x.
    rewrite !in_app_iff. right. left. by left.
  - apply IH; [intros; apply Hc; [by right|done]|].
    intros t Hs. apply HQ. constructor; [|done]. intros nm' Hn'. congruence.
Qed.

(** What a completed round has done. *)
Definition round_done (h : list kevent) : Prop :=
  exists now namespaces items policies outcome,
    In (ev (R:=resp) NowMs now) h /\
    In (ev (R:=resp) (ListObjs RNamespace None None) (Ok namespaces)) h /\
    In (ev (R:=resp) (ListObjs RPolicy None None) (Ok items)) h /\
    operator_decode items = Ok policies /\
    (permission_granted outcome = true -> Forall (fun ns => settled ns h) namespaces) /\
    (permission_granted outcome = true <-> reconciliation_error outcome = None) /\
    statuses_sent (fun p => build_policy_status p namespaces excluded outcome now
                              (stale_after_ms cfg)) policies h.

Lemma wp_reconcile Q :
  (forall t, round_done t -> Q (Ok tt) t) ->
  (forall e t, Forall (fun ev => mutating (op_of ev) = false) t -> Q (Err e) t) ->
  wp operator_guard Q [] (reconcile_action_policies cfg).
Proof.
  intros HO HE. unfold reconcile_action_policies, reconcile_action_policies_with.
  wp_step. wp_step; [by apply operator_guard_read|]. intros now.
  unfold list_namespaces. wp_step. wp_step. wp_step; [by apply operator_guard_read|].
  intros [namespaces|e]; wp_step; [|apply HE; by repeat constructor].
  simpl in namespaces. cbn [map_err].
  unfold list_policies. wp_step. wp_step. wp_step; [by apply operator_guard_read|].
  intros items. wp_step.
  wp_case; [rename a into policies, E into Hp|wp_step; apply HE; by repeat constructor].
  destruct items as [items|e]; [|discriminate Hp]. simpl in items.
  set (start := (([] ++ [_]) ++ [_]) ++ [_]).
  wp_step. unfold reconcile_action_role_bindings, reconcile_action_role_bindings_with.
  wp_step. apply wp_bindings_loop.
  { intros ns nm Hin Hn. exists namespaces. split; [|done]. right. by left. }
  intros es t Hes. wp_step. wp_step.
  assert (Hsettled : forall t', permission_granted (binding_outcome_of es) = true ->
    Forall (fun ns => settled ns ((start ++ t) ++ t')) namespaces).
  { intros t' He%is_empty_nil. destruct (Hes He) as [_ Hall].
    eapply Forall_impl; [exact Hall|]. intros ns. apply settled_app. }
  apply wp_statuses_loop.
  { intros p nm Hin Hn. exists now, namespaces, (binding_outcome_of es). split; [|done| |done].
    - by exists items, policies, t.
    - intros He. specialize (Hsettled [] He). by rewrite app_nil_r in Hsettled. }
  intros t' Hsent. wp_step. apply HO.
  exists now, namespaces, items, policies, (binding_outcome_of es).
  split_and!; [by left|by right; left|by do 2 right; left|done|apply Hsettled| |exact Hsent].
  simpl. by destruct (is_empty es).
Qed.
End effects.

(** ** Properties *)

(** The exclusion test is exact: a namespace is excluded when a non-empty
    system or configured entry, after trimming, is its name, or a non-empty
    prefix of its name followed by a star; a lone star matches nothing.
    Whatever the configuration says, the system namespaces are excluded, among
    them the agent's own, and every name that starts with "openshift-". *)
Theorem namespace_exclusion_exact extra nm :
  (namespace_is_excluded nm (combined_excluded_namespaces extra) = true <-> excluded_by extra nm) /\
  (In nm ["kube-system"; "kube-public"; "kube-node-lease"; "sentinella"; "tetragon"] ->
   excluded_by extra nm) /\
  (starts_with "openshift-" nm = true -> excluded_by extra nm) /\
  ~ pattern_covers nm "*".
Proof.
  split; [apply namespace_is_excluded_spec|]. split_and!.
  - intros Hin. exists nm. rewrite in_app_iff. unfold SYSTEM_EXCLUDED_NAMESPACES.
    split; [left; simpl in *; tauto|].
    rewrite <- namespace_matches_pattern_spec.
    simpl in Hin. by destruct_or!; subst nm.
  - intros (rest & ->)%starts_with_spec. exists "openshift-*". rewrite in_app_iff.
    split; [left; simpl; tauto|]. split; [done|]. left. by exists "openshift-", rest.
  - rewrite <- namespace_matches_pattern_spec. by vm_compute.
Qed.

(** The effective namespaces of a status are sorted, and are exactly the
    names of the listed namespaces that carry the action-mode label with the
    value "true" and are not excluded. *)
Theorem effective_namespaces_exact extra namespaces :
  let effective := effective_namespaces_of namespaces (combined_excluded_namespaces extra) in
  StronglySorted String.le effective /\
  forall nm, In nm effective <-> exists ns, In ns namespaces /\ eligible extra ns nm.
Proof.
  split; [apply StronglySorted_merge_sort; apply _|].
  intros nm. apply effective_namespaces_in.
Qed.

(** A status says Ready exactly when some namespace is effective, the role
    bindings were all reconciled, the declared actions are non-empty and
    supported, likewise the resources if an action targets workloads, the
    limits parse, and the previous status is at most the freshness window old
    (so that a policy without a status is not Ready); the status is stamped
    with the time and the generation it was computed from, under each of nine
    condition types. *)
Theorem build_policy_status_exact policy namespaces excluded outcome now after :
  let st := build_policy_status policy namespaces excluded outcome now after in
  (condition_true (conditions st) "Ready" = true <->
   ready_policy policy (effective_namespaces st) outcome now after) /\
  last_reconciled_at_ms st = Some now /\
  observed_generation st = generation (metadata policy) /\
  map type_ (conditions st) =
    ["NamespacesEligible"; "PolicyMatched"; "PermissionGranted"; "ActionAllowed";
     "ResourceAllowed"; "LimitsSatisfied"; "ReconciliationError"; "Stale"; "Ready"] /\
  Forall (fun c => cond_observed_generation c = generation (metadata policy) /\
                   last_transition_time_ms c = Some now) (conditions st).
Proof.
  cbv zeta. rewrite build_status_ready, ready_flag_spec.
  split_and!; try reflexivity. by repeat constructor.
Qed.

Lemma wp_round `{Codec, OperatorCodec} cfg :
  wp (operator_guard cfg) (fun _ _ => True) [] (reconcile_action_policies cfg).
Proof. by apply wp_reconcile. Qed.

(** Whatever the API server answers, a round changes only the agent's own
    role binding, which it creates or patches in a namespace that was listed
    and is eligible and deletes in a listed namespace that is not, and the
    statuses of the policies. *)
Theorem reconcile_safe `{Codec, OperatorCodec} cfg t r t1 e t2 :
  runs (reconcile_action_policies cfg) t r -> t = t1 ++ e :: t2 -> operator_guard cfg t1 (op_of e).
Proof.
  intros Hr Ht.
  destruct (wp_sound _ _ _ _ _ _ _ (wp_round cfg) Hr) as [_ HG]. exact (HG t1 e t2 Ht).
Qed.

(** C9: A round that ends well has written a status for every named policy it
    listed, all computed from the same listing and the same outcome; and if the
    outcome grants permission, every listed namespace is settled: the binding
    is in place where actions are enabled and absent elsewhere.  A round that
    fails has changed nothing. *)
Theorem reconcile_round `{Codec, OperatorCodec} cfg t r :
  runs (reconcile_action_policies cfg) t r ->
  match r with
  | Ok _ => round_done cfg t
  | Err _ => Forall (fun e => mutating (op_of e) = false) t
  end.
Proof.
  intros Hr.
  pose proof (wp_reconcile cfg (fun r t => match r with
    | Ok _ => round_done cfg t
    | Err _ => Forall (fun e => mutating (op_of e) = false) t end)) as Hwp.
  destruct (wp_sound _ _ _ _ _ _ _ (Hwp (fun _ H => H) (fun _ _ H => H)) Hr) as [HQ _]. exact HQ.
Qed.

(** The trace of a round within the loop. *)
Definition is_round `{Codec, OperatorCodec} (cfg : Config) (t : list kevent) : Prop :=
  (exists r, runs (reconcile_action_policies cfg) t r) /\
  forall t1 e t2, t = t1 ++ e :: t2 -> operator_guard cfg t1 (op_of e).

(** In the loop a change answers to the history of its own round. *)
Definition in_round `{Codec, OperatorCodec} (cfg : Config) (h : list kevent) (o : op) : Prop :=
  exists h0 t, h = h0 ++ t /\ operator_guard cfg t o.

Lemma wp_run_action_operator `{Codec, OperatorCodec} cfg ticks h :
  wp (in_round cfg) (fun _ _ => True) h (run_action_operator cfg ticks).
Proof.
  unfold run_action_operator. destruct (_ =? 0); [done|].
  revert h. induction ticks as [|ticks IH]; intros h; cbn [operator_rounds]; [done|].
  pose proof (wp_shift _ _ _ h [] _ (wp_round cfg)) as Hround. rewrite app_nil_r in Hround.
  apply wp_bind. eapply wp_mono; [|intros r h' _; apply IH].
  eapply wp_guard_mono; [exact Hround|]. intros h' o (t & -> & Hg). by exists h, t.
Qed.

Lemma round_guarded `{Codec, OperatorCodec} cfg t r :
  runs (reconcile_action_policies cfg) t r -> is_round cfg t.
Proof.
  intros Hr. split; [by exists r|].
  by destruct (wp_sound _ _ _ _ _ _ _ (wp_round cfg) Hr) as [_ HG].
Qed.

(** C8: Whatever the API server answers, over any number of ticks, the operator
    changes only its own role binding, which it creates or patches in a
    namespace that the same round listed and that is eligible and deletes in a
    listed namespace that is not, and the statuses of the policies, each to what
    the same round computes from the time, the namespaces and the policy that it
    read; a status that grants permission is written when every listed namespace
    is settled.  A failed
    round does not end the loop: there is a round for every tick, and none with
    a poll interval of zero. *)
Theorem run_action_operator_safe `{Codec, OperatorCodec} cfg ticks t u :
  runs (run_action_operator cfg ticks) t u ->
  exists rounds, t = concat rounds /\ Forall (is_round cfg) rounds /\
    length rounds = (if (action_operator_poll_interval cfg =? 0)%Z then 0 else ticks)%nat.
Proof.
  unfold run_action_operator. destruct (_ =? 0); [intros [-> _]; by exists []|].
  revert t. induction ticks as [|ticks IH]; intros t; cbn [operator_rounds]; [intros [-> _]; by exists []|].
  intros Hr. run_bind Hr as r t1 t2 H1. apply IH in Hr as (rounds & -> & HF & Hl).
  exists (t1 :: rounds). split_and!; [done| |simpl; lia]. constructor; [by eapply round_guarded|done].
Qed.

(** A round in the sample cluster: the namespace "shop" is enabled, and
    "kube-system" is excluded although it carries the label. *)
Definition demo_operator_codec : OperatorCodec :=
  {| status_to_value := fun st => jstrs (effective_namespaces st);
     role_binding_from_value := fun v => Ok v; role_binding_to_value := fun v => Ok v |}.
Definition demo_round : kprog (result string unit) :=
  @reconcile_action_policies (demo_codec demo_policy) demo_operator_codec (demo_config true).
Definition demo_round_trace : list kevent := interp_trace demo_handler demo_round demo_start.

Lemma reconcile_safe_witness :
  exists t1 e t2, demo_round_trace = t1 ++ e :: t2 /\ mutating (op_of e) = true /\
    @operator_guard (demo_codec demo_policy) demo_operator_codec (demo_config true) t1 (op_of e).
Proof.
  assert (Hm : (fun e => mutating (op_of e)) <$> demo_round_trace !! 4%nat = Some true)
    by (vm_compute; reflexivity).
  destruct (demo_round_trace !! 4%nat) as [e|] eqn:He; [|discriminate Hm].
  pose proof (split_at _ _ _ He) as Hs. eexists _, e, _.
  split; [exact Hs|]. split; [by injection Hm|].
  exact (@reconcile_safe (demo_codec demo_policy) demo_operator_codec (demo_config true) _ _ _ _ _
    (interp_runs _ demo_handler demo_round demo_start) Hs).
Defined.

Lemma reconcile_round_witness :
  fst (interp demo_handler demo_round demo_start) = Ok tt /\
  @round_done (demo_codec demo_policy) demo_operator_codec (demo_config true) demo_round_trace.
Proof.
  assert (Hr : fst (interp demo_handler demo_round demo_start) = Ok tt)
    by (vm_compute; reflexivity).
  split; [exact Hr|].
  pose proof (@reconcile_round (demo_codec demo_policy) demo_operator_codec (demo_config true) _ _
    (interp_runs _ demo_handler demo_round demo_start)) as HR.
  rewrite Hr in HR. exact HR.
Defined.

(** Two ticks of the loop in the same cluster. *)
Definition demo_rounds_trace : list kevent :=
  interp_trace demo_handler (@run_action_operator (demo_codec demo_policy) demo_operator_codec
    (demo_config true) 2) demo_start.

Lemma run_action_operator_safe_witness :
  exists rounds, demo_rounds_trace = concat rounds /\ length rounds = 2%nat /\
    existsb (fun e => mutating (op_of e)) demo_rounds_trace = true /\
    Forall (@is_round (demo_codec demo_policy) demo_operator_codec (demo_config true)) rounds.
Proof.
  destruct (@run_action_operator_safe (demo_codec demo_policy) demo_operator_codec (demo_config true) 2 _ _
    (interp_runs _ demo_handler (@run_action_operator (demo_codec demo_policy) demo_operator_codec
      (demo_config true) 2) demo_start)) as (rounds & Ht & HF & Hl).
  exists rounds. split; [exact Ht|]. split; [exact Hl|]. split; [vm_compute; reflexivity|exact HF].
Defined.
