(* ===== verification/Governance.v ===== *)
(** * From the operator to the executor

    The operator (Operator.v) promises the executor (Policy.v) that a Ready
    status means an eligible namespace.  These theorems join the two: which
    commands the statuses that the operator writes authorise. *)
From S2P Require Import Prelude RustStr Json Effects Kube Quantity Model Config Policy Workload Operator.
Local Open Scope Z_scope.

(** The policy object after its status was patched. *)
Definition with_policy_status (p : SentinellaHubActionPolicy) (st : SentinellaHubActionPolicyStatus)
    : SentinellaHubActionPolicy :=
  {| metadata := metadata p; spec := spec p; status := Some st |}.

(** The policy as a round at time [at_ms] leaves it. *)
Definition reconciled (extra : list string) (namespaces : list Namespace)
    (outcome : BindingReconcileOutcome) (at_ms after : Z) (p : SentinellaHubActionPolicy)
    : SentinellaHubActionPolicy :=
  with_policy_status p
    (build_policy_status p namespaces (combined_excluded_namespaces extra) outcome at_ms after).

(** [policy_authorises] for the operator's statuses, in the operator's terms. *)
Definition governed (extra : list string) (namespaces : list Namespace)
    (nm command_kind : string) : Prop :=
  (exists ns, In ns namespaces /\ eligible extra ns nm) \/
  (command_kind = "update_agent" /\ nm = UPDATE_AGENT_NAMESPACE).

Section governance.
Context (extra : list string) (namespaces : list Namespace)
  (outcome : BindingReconcileOutcome) (at_ms after : Z).
Let effective := effective_namespaces_of namespaces (combined_excluded_namespaces extra).
Let after_round := reconciled extra namespaces outcome at_ms after.

Lemma reconciled_live p now nm st :
  live (after_round p) now after nm st <->
  name (metadata p) = Some nm /\
  st = build_policy_status p namespaces (combined_excluded_namespaces extra) outcome at_ms after /\
  now - at_ms <= after /\ 0 <= after /\ ready_policy p effective outcome at_ms after.
Proof.
  rewrite <- ready_flag_spec. unfold effective. rewrite <- build_status_ready.
  rewrite condition_true_spec. split.
  - intros [Hn Hst (last & Hl & ? & ?) Hr]. simpl in Hn, Hst. injection Hst as <-.
    simpl in Hl. injection Hl as <-. by split_and!.
  - intros (Hn & -> & ? & ? & Hr). split; try done. exists at_ms. by split_and!.
Qed.

(** Exactly what a reconciled policy authorises. *)
Lemma reconciled_authorises p now nm kind target rs :
  authorises now after nm kind target rs (after_round p) <->
  is_Some (name (metadata p)) /\ now - at_ms <= after /\ 0 <= after /\
  ready_policy p effective outcome at_ms after /\
  governed extra namespaces nm kind /\ grants p kind target rs.
Proof.
  unfold authorises, governed. setoid_rewrite reconciled_live.
  assert (Hg : grants (after_round p) kind target rs <-> grants p kind target rs)
    by (split; intros []; by split).
  setoid_rewrite Hg. rewrite <- effective_namespaces_in. split.
  - intros (n & st & (Hn & -> & ? & ? & ?) & Hns & ?). split_and!; eauto.
  - intros ([n Hn] & ? & ? & ? & Hns & ?). eexists n, _. by split_and!.
Qed.
End governance.

(** ** Properties *)

(** C4: Under a status that the operator wrote, a command in a namespace is
    authorised exactly when the status is within the freshness window, the
    operator's conditions for Ready held in that round, the policy grants the
    action, and the namespace was listed in that round with the action-mode
    label and not excluded; the one exception is [update_agent] in the agent's
    own namespace. *)
Theorem operator_status_authorises extra namespaces outcome at_ms after p now nm kind target rs :
  authorises now after nm kind target rs (reconciled extra namespaces outcome at_ms after p) <->
  is_Some (name (metadata p)) /\ now - at_ms <= after /\ 0 <= after /\
  ready_policy p (effective_namespaces_of namespaces (combined_excluded_namespaces extra))
    outcome at_ms after /\
  governed extra namespaces nm kind /\ grants p kind target rs.
Proof. apply reconciled_authorises. Qed.

(** No status that the operator writes lets [self_update] through: the
    command is judged in the agent's own namespace, which is excluded whatever
    the configuration says. *)
Theorem self_update_never_authorised extra namespaces outcome at_ms after now target rs ps :
  Forall (fun p => exists p0, p = reconciled extra namespaces outcome at_ms after p0) ps ->
  exists e, select_effective_policy ps now after UPDATE_AGENT_NAMESPACE "self_update" target rs = Err e.
Proof.
  intros Hps.
  destruct (select_effective_policy ps now after UPDATE_AGENT_NAMESPACE "self_update" target rs)
    as [ep|e] eqn:Hs; [|by exists e].
  apply select_effective_policy_ok in Hs as (p & Hin & Ha). exfalso.
  rewrite Forall_forall in Hps. apply list_elem_of_In in Hin.
  destruct (Hps p Hin) as [p0 ->].
  apply reconciled_authorises in Ha as (_ & _ & _ & _ & [(ns & _ & _ & _ & Hex)|[? _]] & _); [|done].
  apply Hex. rewrite <- namespace_is_excluded_spec.
  apply existsb_exists. exists "sentinella". split; [|done].
  unfold combined_excluded_namespaces.
  rewrite <- list_elem_of_In, elem_of_elements, elem_of_list_to_set, list_elem_of_In, filter_In.
  split; [|done]. apply in_app_iff. left. simpl. tauto.
Qed.

(** A policy becomes Ready in two rounds: the first round writes a status
    that is not Ready on a policy that has none; a second round within the
    freshness window writes Ready exactly when the namespaces, the bindings and
    the policy's own declarations allow it, whatever the first round found. *)
Theorem policy_ready_in_two_rounds extra ns1 ns2 out1 out2 t1 t2 after p :
  status p = None -> t2 - t1 <= after -> 0 <= after ->
  let p1 := reconciled extra ns1 out1 t1 after p in
  let p2 := reconciled extra ns2 out2 t2 after p1 in
  (forall st, status p1 = Some st -> condition_true (conditions st) "Ready" = false) /\
  (forall st, status p2 = Some st ->
     (condition_true (conditions st) "Ready" = true <->
      (exists ns nm, In ns ns2 /\ eligible extra ns nm) /\
      permission_granted out2 = true /\ reconciliation_error out2 = None /\
      action_allowed_of p = true /\ resource_allowed_of p = true /\
      policy_limits_are_valid (limits (spec p)) = true)).
Proof.
  intros Hst Ht Hafter p1 p2. split; intros st [= <-]; rewrite build_status_ready.
  - apply not_true_iff_false. rewrite ready_flag_spec. intros [_ _ _ _ _ (last & Hl & _)].
    unfold previous_reconcile in Hl. by rewrite Hst in Hl.
  - rewrite ready_flag_spec, action_allowed_spec, resource_allowed_spec.
    assert (Heff : (exists ns nm, In ns ns2 /\ eligible extra ns nm) <->
      effective_namespaces_of ns2 (combined_excluded_namespaces extra) <> []).
    { pose proof (effective_namespaces_in extra ns2) as Hin.
      destruct (effective_namespaces_of ns2 _) as [|nm l].
      - split; [|done]. intros (ns & nm & H). exfalso. apply (Hin nm). by exists ns.
      - split; [done|]. intros _. destruct (proj1 (Hin nm)) as (ns & ?); [by left|]. by exists ns, nm. }
    rewrite Heff. split.
    + intros [H1 [H2 H2'] H3 H4 H5 _]. exact (conj H1 (conj H2 (conj H2' (conj H3 (conj H4 H5))))).
    + intros (H1 & H2 & H2' & H3 & H4 & H5).
      split; [exact H1|done|exact H3|exact H4|exact H5|]. by exists t1.
Qed.

Definition demo_unready : SentinellaHubActionPolicy :=
  {| metadata := meta_named "allow";
     spec := {| namespace_selector := None; allowed_actions := ["scale"];
                allowed_resources := ["Deployment"]; approval_required := false; limits := None |};
     status := None |}.
Definition demo_enabled : Namespace :=
  {| ns_metadata :=
       {| name := Some "shop"; namespace := None;
          labels := Some {["sentinella.io/action-mode" := "true"]}; annotations := None;
          generation := None; resource_version := None; owner_references := None;
          creation_timestamp := None |}; ns_status := None |}.
Definition demo_outcome : BindingReconcileOutcome :=
  {| permission_granted := true; reconciliation_error := None |}.

Lemma policy_ready_in_two_rounds_witness :
  let p1 := reconciled [] [demo_enabled] demo_outcome 1000 90000 demo_unready in
  let p2 := reconciled [] [demo_enabled] demo_outcome 31000 90000 p1 in
  (forall st, status p1 = Some st -> condition_true (conditions st) "Ready" = false) /\
  (forall st, status p2 = Some st -> condition_true (conditions st) "Ready" = true).
Proof.
  assert (Ht : 31000 - 1000 <= 90000) by lia. assert (Ha : 0 <= 90000) by lia.
  pose proof (policy_ready_in_two_rounds [] [demo_enabled] [demo_enabled] demo_outcome demo_outcome
    1000 31000 90000 demo_unready eq_refl Ht Ha) as [H1 H2].
  assert (Hns : exists ns nm, In ns [demo_enabled] /\ eligible [] ns nm).
  { exists demo_enabled, "shop". split; [by left|].
    apply (eligible_spec [] demo_enabled "shop" eq_refl). vm_compute. reflexivity. }
  split; [exact H1|]. intros st Hst. apply (proj2 (H2 st Hst)).
  split; [exact Hns|]. split; [exact eq_refl|]. split; [exact eq_refl|].
  split; [vm_compute; exact eq_refl|]. split; vm_compute; exact eq_refl.
Defined.

Lemma self_update_never_authorised_witness :
  exists e, select_effective_policy
    [reconciled [] [demo_enabled] demo_outcome 31000 90000
       (reconciled [] [demo_enabled] demo_outcome 1000 90000 demo_unready)]
    32000 90000 "sentinella" "self_update" None None = Err e.
Proof.
  apply (self_update_never_authorised [] [demo_enabled] demo_outcome 31000 90000).
  constructor; [by eexists|constructor].
Defined.
