(* ===== verification/Lifecycle.v ===== *)
(** * The operator lifecycle watcher (operator_lifecycle.rs)

    The leader of the agents watches a ConfigMap: while the action operator is
    enabled there, it keeps the operator's ServiceAccount and Deployment, a
    default policy, and the action-mode label on the namespaces that are not
    excluded; when it is disabled, it removes the ServiceAccount and the
    Deployment.  The watch loop is a step function of the events it receives,
    with the leader flag as it is read at each. *)
From S2P Require Import Prelude RustStr Text Json Effects Kube Model Config Env Policy Workload Access Preflight Demo Operator.
Local Open Scope Z_scope.

(** k8s_openapi: the typed objects between their JSON literals and the request
    bodies. *)
Class LifecycleCodec := {
  service_account_of : json -> json;
  deployment_of : json -> result string json;
  policy_of : json -> result string json;
  typed_to_value : json -> result string json }.

Definition CONFIG_MAP_NAME : string := "sentinella-hub-k8s-agent-config".
Definition OPERATOR_NAME : string := "sentinella-hub-k8s-operator".
Definition ACTION_OPERATOR_ENABLED_KEY : string := "ACTION_OPERATOR_ENABLED".
Definition DEFAULT_ACTION_POLICY_NAME : string := "sentinella-default-action-policy".

(** ** The ConfigMap *)

Definition cm_get (key : string) (cm : ConfigMap) : option string := d ← cm_data cm; d !! key.

Definition is_operator_enabled (cm : ConfigMap) : bool :=
  match cm_get ACTION_OPERATOR_ENABLED_KEY cm with
  | Some v => let trimmed := trim v in String.eqb trimmed "true" || String.eqb trimmed "1"
  | None => false
  end.

Definition action_operator_excluded_namespaces (cm : ConfigMap) : gset string :=
  combined_excluded_namespaces
    (match cm_get "ACTION_OPERATOR_EXCLUDED_NAMESPACES" cm with
     | Some value => List.filter (fun s => negb (str_is_empty s)) (map trim (str_split "," value))
     | None => []
     end).

(** ** The objects *)

Definition operator_labels : json :=
  jobj [("app.kubernetes.io/name", JStr OPERATOR_NAME);
        ("app.kubernetes.io/part-of", JStr "sentinella");
        ("sentinella.io/managed-by", JStr "sentinella-hub-k8s-agent")].

Definition service_account_json (namespace : string) : json :=
  jobj [("apiVersion", JStr "v1"); ("kind", JStr "ServiceAccount");
        ("metadata", jobj [("name", JStr OPERATOR_NAME); ("namespace", JStr namespace);
                           ("labels", operator_labels)])].

Definition http_probe (path : string) (rest : list (string * json)) : json :=
  jobj (("httpGet", jobj [("path", JStr path); ("port", JStr "metrics")]) :: rest).

Definition field_env (var path : string) : json :=
  jobj [("name", JStr var);
        ("valueFrom", jobj [("fieldRef", jobj [("fieldPath", JStr path)])])].

Definition operator_container (image : string) : json :=
  jobj [("name", JStr "operator"); ("image", JStr image); ("imagePullPolicy", JStr "IfNotPresent");
        ("args", jstrs ["--mode"; "operator"]);
        ("envFrom", JArr [jobj [("configMapRef", jobj [("name", JStr CONFIG_MAP_NAME)])]]);
        ("env", JArr [field_env "POD_NAME" "metadata.name";
                      field_env "POD_NAMESPACE" "metadata.namespace"]);
        ("ports", JArr [jobj [("name", JStr "metrics"); ("containerPort", JNum 9090);
                              ("protocol", JStr "TCP")]]);
        ("startupProbe", http_probe "/livez"
           [("periodSeconds", JNum 5); ("timeoutSeconds", JNum 2); ("failureThreshold", JNum 12)]);
        ("livenessProbe", http_probe "/livez"
           [("periodSeconds", JNum 30); ("timeoutSeconds", JNum 2); ("failureThreshold", JNum 3)]);
        ("readinessProbe", http_probe "/readyz"
           [("initialDelaySeconds", JNum 5); ("periodSeconds", JNum 10);
            ("timeoutSeconds", JNum 2); ("failureThreshold", JNum 3)]);
        ("resources", jobj
           [("requests", jobj [("cpu", JStr "10m"); ("memory", JStr "32Mi")]);
            ("limits", jobj [("cpu", JStr "100m"); ("memory", JStr "128Mi")])]);
        ("securityContext", jobj
           [("allowPrivilegeEscalation", JBool false); ("readOnlyRootFilesystem", JBool true);
            ("capabilities", jobj [("drop", jstrs ["ALL"])])])].

Definition deployment_json (namespace image : string) : json :=
  jobj [("apiVersion", JStr "apps/v1"); ("kind", JStr "Deployment");
        ("metadata", jobj [("name", JStr OPERATOR_NAME); ("namespace", JStr namespace);
                           ("labels", operator_labels)]);
        ("spec", jobj
           [("replicas", JNum 1);
            ("selector", jobj [("matchLabels",
               jobj [("app.kubernetes.io/name", JStr OPERATOR_NAME)])]);
            ("template", jobj
               [("metadata", jobj
                   [("labels", jobj [("app.kubernetes.io/name", JStr OPERATOR_NAME);
                                     ("app.kubernetes.io/part-of", JStr "sentinella")]);
                    ("annotations", jobj [("prometheus.io/scrape", JStr "true");
                                          ("prometheus.io/port", JStr "9090");
                                          ("prometheus.io/path", JStr "/metrics")])]);
                ("spec", jobj
                   [("serviceAccountName", JStr OPERATOR_NAME);
                    ("securityContext", jobj
                       [("runAsNonRoot", JBool true);
                        ("seccompProfile", jobj [("type", JStr "RuntimeDefault")])]);
                    ("containers", JArr [operator_container image])])])])].

Definition DEFAULT_ALLOWED_ACTIONS : list string :=
  ["diagnose_postgresql"; "preview_workload_resources"; "apply_workload_resources";
   "get_resource_yaml"; "rollout_restart"; "scale"; "self_update"; "update_agent"].

Definition default_action_policy_json : json :=
  jobj [("apiVersion", JStr "sentinella.io/v1alpha1"); ("kind", JStr "SentinellaHubActionPolicy");
        ("metadata", jobj
           [("name", JStr DEFAULT_ACTION_POLICY_NAME);
            ("labels", jobj [("app.kubernetes.io/part-of", JStr "sentinella");
                             ("sentinella.io/managed-by", JStr "sentinella-hub-k8s-agent")])]);
        ("spec", jobj [("allowedActions", jstrs DEFAULT_ALLOWED_ACTIONS);
                       ("allowedResources", jstrs ["Deployment"; "StatefulSet"; "DaemonSet"])])].

(** ** Reconciliation *)

Definition live : PatchParams := {| dry_run := false |}.

Section reconcile.
Context `{LifecycleCodec}.

(** Patch the object if it exists, create it otherwise; [what] is the object's
    name in the error contexts.  Written out three times in the source. *)
Definition ensure_object (r : resource) (ns : option string) (nm what : string) (desired : json)
    : kprog (result string unit) :=
  existing ← call (GetOpt r ns nm);
  try existing := existing else e => mret (Err (kube_display e)) in
  match existing with
  | Some _ =>
      try patch := typed_to_value desired else e => mret (Err e) in
      x ← call (PatchObj r ns nm live (Merge patch));
      mret (map_err (fun _ => "patch " +s+ what) (discard x))
  | None =>
      x ← call (Create r ns desired);
      mret (map_err (fun _ => "create " +s+ what) x)
  end.

Definition remove_object (r : resource) (ns : option string) (nm what : string)
    : kprog (result string unit) :=
  existing ← call (GetOpt r ns nm);
  try existing := existing else e => mret (Err (kube_display e)) in
  match existing with
  | Some _ => x ← call (DeleteObj r ns nm); mret (map_err (fun _ => "delete " +s+ what) x)
  | None => mret (Ok tt)
  end.

Definition resolve_operator_image (namespace pod_name : string) : kprog (result string string) :=
  got ← call (Get RPod (Some namespace) pod_name);
  try pod := got else e => mret (Err ("get agent pod " +s+ pod_name)) in
  mret (ok_or (s ← pod_spec pod; c ← head (containers s); c_image c)
          "agent pod has no container image").

Definition ensure_operator_resources (namespace agent_pod_name : string)
    : kprog (result string unit) :=
  image ← resolve_operator_image namespace agent_pod_name;
  try image := image else e => mret (Err e) in
  sa ← ensure_object RServiceAccount (Some namespace) OPERATOR_NAME "operator ServiceAccount"
         (service_account_of (service_account_json namespace));
  try _sa := sa else e => mret (Err e) in
  try deploy := deployment_of (deployment_json namespace image) else e => mret (Err e) in
  ensure_object RDeployment (Some namespace) OPERATOR_NAME "operator Deployment" deploy.

Definition remove_operator_resources (namespace : string) : kprog (result string unit) :=
  d ← remove_object RDeployment (Some namespace) OPERATOR_NAME "operator Deployment";
  try _d := d else e => mret (Err e) in
  remove_object RServiceAccount (Some namespace) OPERATOR_NAME "operator ServiceAccount".

Definition ensure_default_action_policy : kprog (result string unit) :=
  try desired := policy_of default_action_policy_json else e => mret (Err e) in
  ensure_object RPolicy None DEFAULT_ACTION_POLICY_NAME "default action policy" desired.

Definition namespace_action_mode_value (ns : Namespace) : option string :=
  ls ← labels (ns_metadata ns); ls !! ACTION_MODE_NAMESPACE_LABEL.

Definition label_patch (v : json) : patch :=
  Merge (jobj [("metadata", jobj [("labels", jobj [(ACTION_MODE_NAMESPACE_LABEL, v)])])]).
Definition set_label_op (nm : string) : op :=
  PatchObj RNamespace None nm live (label_patch (JStr ACTION_MODE_NAMESPACE_LABEL_ENABLED)).
Definition remove_label_op (nm : string) : op :=
  PatchObj RNamespace None nm live (label_patch JNull).

Definition set_action_mode_label (nm : string) : kprog (result string unit) :=
  x ← call (PatchObj RNamespace None nm live
              (label_patch (JStr ACTION_MODE_NAMESPACE_LABEL_ENABLED)));
  mret (map_err (fun _ => "set action-mode label on namespace " +s+ nm) (discard x)).
Definition remove_action_mode_label (nm : string) : kprog (result string unit) :=
  x ← call (PatchObj RNamespace None nm live (label_patch JNull));
  mret (map_err (fun _ => "remove action-mode label from namespace " +s+ nm) (discard x)).

(** The body of the loop of [reconcile_action_mode_namespaces]. *)
Definition reconcile_namespace (enabled : bool) (excluded : gset string) (ns : Namespace)
    : kprog (result string unit) :=
  some nm := name (ns_metadata ns) else mret (Ok tt) in
  let value := namespace_action_mode_value ns in
  if namespace_is_excluded nm excluded then
    if negb (bool_decide (value = Some "false")) && is_some value
    then remove_action_mode_label nm else mret (Ok tt)
  else if enabled then
    if bool_decide (value = Some ACTION_MODE_NAMESPACE_LABEL_ENABLED)
       || bool_decide (value = Some "false")
    then mret (Ok tt) else set_action_mode_label nm
  else if bool_decide (value = Some ACTION_MODE_NAMESPACE_LABEL_ENABLED)
       then remove_action_mode_label nm else mret (Ok tt).

Fixpoint reconcile_namespaces (enabled : bool) (excluded : gset string) (l : list Namespace)
    : kprog (result string unit) :=
  match l with
  | [] => mret (Ok tt)
  | ns :: l =>
      x ← reconcile_namespace enabled excluded ns;
      match x with Ok _ => reconcile_namespaces enabled excluded l | Err e => mret (Err e) end
  end.

Definition reconcile_action_mode_namespaces (enabled : bool) (excluded : gset string)
    : kprog (result string unit) :=
  listed ← call (ListObjs RNamespace None None);
  try namespaces := listed else e => mret (Err (kube_display e)) in
  reconcile_namespaces enabled excluded namespaces.

Definition reconcile_operator_workload (namespace agent_pod_name : string) (enabled : bool)
    (excluded : gset string) : kprog (result string unit) :=
  if enabled then
    a ← ensure_operator_resources namespace agent_pod_name;
    try _a := a else e => mret (Err e) in
    p ← ensure_default_action_policy;
    try _p := p else e => mret (Err e) in
    reconcile_action_mode_namespaces true excluded
  else remove_operator_resources namespace.

(** ** The watch loop *)

Record WatchState := {
  last_enabled : option bool;
  last_excluded : gset string;
  watch_version : string }.
Definition watch_start : WatchState :=
  {| last_enabled := None; last_excluded := ∅; watch_version := "0" |}.

Inductive watch_input :=
  | Added (cm : ConfigMap)
  | Modified (cm : ConfigMap)
  | Deleted
  | Bookmark (version : string)
  | ErrorEvent
  | StreamError
  | StreamEnd
  | Tick.

(** Whether the inner loop goes on with the same stream. *)
Inductive flow := Stay | Reconnect.

(** What an input does to the state, before any reconciliation. *)
Definition observe (i : watch_input) (st : WatchState) : WatchState :=
  match i with
  | Added cm | Modified cm =>
      {| last_enabled := Some (is_operator_enabled cm);
         last_excluded := action_operator_excluded_namespaces cm;
         watch_version := unwrap_or (watch_version st) (resource_version (cm_metadata cm)) |}
  | Deleted =>
      {| last_enabled := Some false; last_excluded := ∅; watch_version := watch_version st |}
  | Bookmark v =>
      {| last_enabled := last_enabled st; last_excluded := last_excluded st; watch_version := v |}
  | ErrorEvent | StreamError | StreamEnd | Tick => st
  end.

(** Whether the input asks for a reconciliation. *)
Definition reconciles (i : watch_input) : bool :=
  match i with Added _ | Modified _ | Deleted | Tick => true | _ => false end.

Definition flow_of (i : watch_input) : flow :=
  match i with ErrorEvent | StreamError | StreamEnd => Reconnect | _ => Stay end.

Context (namespace agent_pod_name : string).

(** One turn of the inner loop; a failed reconciliation is logged. *)
Definition watch_turn (leader : bool) (i : watch_input) (st : WatchState)
    : kprog (WatchState * flow) :=
  let st := observe i st in
  _ ← match last_enabled st with
      | Some enabled =>
          if reconciles i && leader then
            reconcile_operator_workload namespace agent_pod_name enabled (last_excluded st)
          else mret (Ok tt)
      | None => mret (Ok tt)
      end;
  mret (st, flow_of i).

(** The turns over a sequence of inputs; between two streams the state stays. *)
Fixpoint watch_loop (inputs : list (bool * watch_input)) (st : WatchState) : kprog WatchState :=
  match inputs with
  | [] => mret st
  | (leader, i) :: inputs =>
      x ← watch_turn leader i st;
      watch_loop inputs (fst x)
  end.

(** The state after the initial read of the ConfigMap. *)
Definition initial_state (got : result KubeError ConfigMap) : WatchState :=
  match got with
  | Ok cm => {| last_enabled := Some (is_operator_enabled cm);
                last_excluded := action_operator_excluded_namespaces cm;
                watch_version := "0" |}
  | Err _ => watch_start
  end.

(** The reconciliation that follows the initial read. *)
Definition initial_turn (leader : bool) (got : result KubeError ConfigMap) : kprog WatchState :=
  let st := initial_state got in
  _ ← match last_enabled st with
      | Some enabled =>
          if leader then reconcile_operator_workload namespace agent_pod_name enabled
                           (last_excluded st)
          else mret (Ok tt)
      | None => mret (Ok tt)
      end;
  mret st.

(** [run_operator_lifecycle]: the initial read with its reconciliation, then
    the loop. *)
Definition run_operator_lifecycle (leader : bool) (inputs : list (bool * watch_input))
    : kprog WatchState :=
  got ← call (Get RConfigMap (Some namespace) CONFIG_MAP_NAME);
  st ← initial_turn leader got;
  watch_loop inputs st.
End reconcile.

(** ** What a reconciliation may do, and has done *)

Section effects.
Context `{LifecycleCodec} (namespace : string).

(** The objects that the watcher keeps. *)
Inductive kept : resource -> option string -> string -> json -> Prop :=
  | KeptServiceAccount :
      kept RServiceAccount (Some namespace) OPERATOR_NAME
        (service_account_of (service_account_json namespace))
  | KeptDeployment image d :
      deployment_of (deployment_json namespace image) = Ok d ->
      kept RDeployment (Some namespace) OPERATOR_NAME d
  | KeptPolicy d :
      policy_of default_action_policy_json = Ok d ->
      kept RPolicy None DEFAULT_ACTION_POLICY_NAME d.

(** [o] creates or patches a kept object. *)
Definition keeps (o : op) : Prop :=
  exists r ns nm d, kept r ns nm d /\
    (o = Create r ns d \/
     exists v, typed_to_value d = Ok v /\ o = PatchObj r ns nm live (Merge v)).

Definition workload_guard (enabled : bool) (excluded : gset string) (h : list kevent) (o : op)
    : Prop :=
  mutating o = true ->
  if enabled then
    keeps o \/
    (exists ns nm, listed_namespace ns nm h /\ namespace_is_excluded nm excluded = false /\
       namespace_action_mode_value ns <> Some "true" /\
       namespace_action_mode_value ns <> Some "false" /\ o = set_label_op nm) \/
    (exists ns nm v, listed_namespace ns nm h /\ namespace_is_excluded nm excluded = true /\
       namespace_action_mode_value ns = Some v /\ v <> "false" /\ o = remove_label_op nm)
  else
    o = DeleteObj RDeployment (Some namespace) OPERATOR_NAME \/
    o = DeleteObj RServiceAccount (Some namespace) OPERATOR_NAME.

(** The object was created or patched. *)
Definition ensured (r : resource) (ns : option string) (nm : string) (h : list kevent) : Prop :=
  exists d, kept r ns nm d /\
    (In (ev (R:=resp) (Create r ns d) (Ok tt)) h \/
     exists v x, typed_to_value d = Ok v /\
       In (ev (R:=resp) (PatchObj r ns nm live (Merge v)) (Ok x)) h).

(** The object was absent or deleted. *)
Definition removed (r : resource) (ns : option string) (nm : string) (h : list kevent) : Prop :=
  In (ev (R:=resp) (GetOpt r ns nm) (Ok None)) h \/
  In (ev (R:=resp) (DeleteObj r ns nm) (Ok tt)) h.

Definition labelled_as (excluded : gset string) (ns : Namespace) (h : list kevent) : Prop :=
  forall nm, name (ns_metadata ns) = Some nm ->
    if namespace_is_excluded nm excluded then
      namespace_action_mode_value ns = None \/ namespace_action_mode_value ns = Some "false" \/
      exists x, In (ev (R:=resp) (remove_label_op nm) (Ok x)) h
    else
      namespace_action_mode_value ns = Some "true" \/
      namespace_action_mode_value ns = Some "false" \/
      exists x, In (ev (R:=resp) (set_label_op nm) (Ok x)) h.

Definition workload_done (enabled : bool) (excluded : gset string) (h : list kevent) : Prop :=
  if enabled then
    ensured RServiceAccount (Some namespace) OPERATOR_NAME h /\
    ensured RDeployment (Some namespace) OPERATOR_NAME h /\
    ensured RPolicy None DEFAULT_ACTION_POLICY_NAME h /\
    exists namespaces,
      In (ev (R:=resp) (ListObjs RNamespace None None) (Ok namespaces)) h /\
      Forall (fun ns => labelled_as excluded ns h) namespaces
  else
    removed RDeployment (Some namespace) OPERATOR_NAME h /\
    removed RServiceAccount (Some namespace) OPERATOR_NAME h.

Lemma ensured_app r ns nm h t : ensured r ns nm h -> ensured r ns nm (h ++ t).
Proof using Type.
  intros (d & Hk & Hd). exists d. split; [done|]. rewrite in_app_iff.
  destruct Hd as [?|(v & x & ? & ?)]; [by left; left|]. right. exists v, x.
  rewrite in_app_iff. auto.
Qed.
Lemma removed_app r ns nm h t : removed r ns nm h -> removed r ns nm (h ++ t).
Proof using Type. unfold removed. rewrite !in_app_iff. tauto. Qed.
Lemma labelled_app excluded ns h t : labelled_as excluded ns h -> labelled_as excluded ns (h ++ t).
Proof using Type.
  intros Hl nm Hn. specialize (Hl nm Hn). destruct (namespace_is_excluded nm excluded);
    (destruct Hl as [?|[?|[x ?]]]; [auto|auto|]); right; right; exists x; rewrite in_app_iff; auto.
Qed.

Section logic.
Context (enabled : bool) (excluded : gset string).
Let G := workload_guard enabled excluded.

Lemma workload_guard_read h o : mutating o = false -> G h o.
Proof using Type. intros Hm Hm'. congruence. Qed.

Lemma wp_ensure_object r ns nm what d Q h :
  enabled = true -> kept r ns nm d ->
  (forall x t, (x = Ok tt -> ensured r ns nm (h ++ t)) -> Q x (h ++ t)) ->
  wp G Q h (ensure_object r ns nm what d).
Proof using Type.
  intros Hen Hk HQ. unfold ensure_object. wp_step. wp_step; [by apply workload_guard_read|].
  intros [existing|e]; [|wp_step; by apply HQ].
  destruct existing as [x|].
  - destruct (typed_to_value d) as [v|e] eqn:Hv; [|wp_step; by apply HQ].
    wp_step. wp_step.
    { intros _. rewrite Hen. left. exists r, ns, nm, d. split; [done|]. right. by exists v. }
    intros y. wp_step. rewrite <- app_assoc. apply HQ. intros Hy. destruct y as [y|]; [|done].
    exists d. split; [done|]. right. exists v, y. split; [done|]. rewrite !in_app_iff.
    right. right. by left.
  - wp_step. wp_step.
    { intros _. rewrite Hen. left. exists r, ns, nm, d. split; [done|]. by left. }
    intros y. wp_step. rewrite <- app_assoc. apply HQ. intros Hy. destruct y as [[]|]; [|done].
    exists d. split; [done|]. left. rewrite !in_app_iff. right. right. by left.
Qed.

Lemma wp_remove_object r what Q h :
  enabled = false -> r = RDeployment \/ r = RServiceAccount ->
  (forall x t, (x = Ok tt -> removed r (Some namespace) OPERATOR_NAME (h ++ t)) -> Q x (h ++ t)) ->
  wp G Q h (remove_object r (Some namespace) OPERATOR_NAME what).
Proof using Type.
  intros Hen Hr HQ. unfold remove_object. wp_step. wp_step; [by apply workload_guard_read|].
  intros [[x|]|e]; [| |wp_step; by apply HQ].
  - wp_step. wp_step.
    { intros _. rewrite Hen. destruct Hr as [-> | ->]; auto. }
    intros y. wp_step. rewrite <- app_assoc. apply HQ. intros Hy. destruct y as [[]|]; [|done].
    right. rewrite !in_app_iff. right. right. by left.
  - wp_step. apply HQ. intros _. left. apply in_app_iff. right. by left.
Qed.

Lemma wp_reconcile_namespace ns Q h :
  enabled = true ->
  (forall nm, name (ns_metadata ns) = Some nm -> listed_namespace ns nm h) ->
  (forall x t, (x = Ok tt -> labelled_as excluded ns (h ++ t)) -> Q x (h ++ t)) ->
  wp G Q h (reconcile_namespace enabled excluded ns).
Proof using Type.
  intros Hen Hl HQ. unfold reconcile_namespace. rewrite Hen.
  assert (Hret : (forall nm, name (ns_metadata ns) = Some nm -> labelled_as excluded ns h) ->
    wp G Q h (mret (Ok tt))).
  { intros Hn. wp_step. rewrite <- (app_nil_r h). apply HQ. intros _ nm Hnm.
    rewrite app_nil_r. by apply (Hn nm). }
  destruct (name (ns_metadata ns)) as [nm|] eqn:Hn; [|by apply Hret].
  specialize (Hl nm eq_refl).
  cbv zeta. destruct (namespace_is_excluded nm excluded) eqn:Hex.
  - destruct (namespace_action_mode_value ns) as [v|] eqn:Hv.
    + destruct (decide (v = "false")) as [->|Hne].
      * rewrite bool_decide_eq_true_2 by done. apply Hret. intros nm' [= <-] nm'' Hn''.
        assert (nm'' = nm) as -> by congruence. rewrite Hex. by right; left.
      * rewrite bool_decide_eq_false_2 by congruence. cbn [negb andb is_some is_none].
        unfold remove_action_mode_label. wp_step. wp_step.
        { intros _. rewrite Hen. right. right. exists ns, nm, v. done. }
        intros y. wp_step. apply HQ. intros Hy nm'' Hn''.
        assert (nm'' = nm) as -> by congruence. rewrite Hex. right. right.
        destruct y as [y|]; [|done]. exists y. apply in_app_iff. right. by left.
    + rewrite bool_decide_eq_false_2 by done. apply Hret. intros nm' [= <-] nm'' Hn''.
      assert (nm'' = nm) as -> by congruence. rewrite Hex. by left.
  - destruct (bool_decide (_ = Some ACTION_MODE_NAMESPACE_LABEL_ENABLED)) eqn:H1; bools; cbn [orb].
    { apply Hret. intros nm' [= <-] nm'' Hn''.
      assert (nm'' = nm) as -> by congruence. rewrite Hex. by left. }
    destruct (bool_decide (_ = Some "false")) eqn:H2; bools; cbn [orb].
    { apply Hret. intros nm' [= <-] nm'' Hn''.
      assert (nm'' = nm) as -> by congruence. rewrite Hex. by right; left. }
    unfold set_action_mode_label. wp_step. wp_step.
    { intros _. rewrite Hen. right. left. exists ns, nm. done. }
    intros y. wp_step. apply HQ. intros Hy nm'' Hn''.
    assert (nm'' = nm) as -> by congruence. rewrite Hex. right. right.
    destruct y as [y|]; [|done]. exists y. apply in_app_iff. right. by left.
Qed.

Lemma wp_reconcile_namespaces l Q h :
  enabled = true ->
  (forall ns nm, In ns l -> name (ns_metadata ns) = Some nm -> listed_namespace ns nm h) ->
  (forall x t, (x = Ok tt -> Forall (fun ns => labelled_as excluded ns (h ++ t)) l) -> Q x (h ++ t)) ->
  wp G Q h (reconcile_namespaces enabled excluded l).
Proof using Type.
  intros Hen. revert Q h. induction l as [|ns l IH]; intros Q h Hl HQ; cbn [reconcile_namespaces].
  { wp_step. rewrite <- (app_nil_r h). apply HQ. constructor. }
  wp_step. apply wp_reconcile_namespace; [done|intros nm; apply Hl; by left|].
  intros x t Hx. destruct x as [[]|e]; [|wp_step; by apply HQ].
  apply IH.
  - intros ns' nm Hin Hn. apply listed_namespace_app, Hl; [by right|done].
  - intros y t' Hy. rewrite <- app_assoc. apply HQ. intros E. rewrite app_assoc. constructor; [|auto].
    by apply labelled_app, Hx.
Qed.

Lemma wp_ensure_operator_resources pod Q h :
  enabled = true ->
  (forall x t, (x = Ok tt -> ensured RServiceAccount (Some namespace) OPERATOR_NAME (h ++ t) /\
                             ensured RDeployment (Some namespace) OPERATOR_NAME (h ++ t)) ->
     Q x (h ++ t)) ->
  wp G Q h (ensure_operator_resources namespace pod).
Proof using Type.
  intros Hen HQ. unfold ensure_operator_resources, resolve_operator_image.
  wp_step. wp_step. wp_step; [by apply workload_guard_read|]. intros got.
  destruct got as [p|e]; [|wp_step; wp_step; by apply HQ].
  wp_step. destruct (ok_or _ _) as [image|e]; [|wp_step; by apply HQ].
  wp_step. apply wp_ensure_object; [done|constructor|]. intros x t Hx.
  destruct x as [[]|e]; [|wp_step; rewrite <- app_assoc; by apply HQ].
  destruct (deployment_of _) as [d|e] eqn:Hd; [|wp_step; rewrite <- app_assoc; by apply HQ].
  apply wp_ensure_object; [done|by econstructor|]. intros y t' Hy.
  rewrite <- !app_assoc. apply HQ. intros E. rewrite !app_assoc. split; [|auto].
  by apply ensured_app, Hx.
Qed.

Lemma wp_reconcile_operator_workload pod Q h :
  (forall x t, (x = Ok tt -> workload_done enabled excluded (h ++ t)) -> Q x (h ++ t)) ->
  wp G Q h (reconcile_operator_workload namespace pod enabled excluded).
Proof using Type.
  intros HQ. unfold reconcile_operator_workload, workload_done in *.
  destruct (Bool.bool_dec enabled true) as [Hen|Hen%not_true_is_false]; rewrite Hen in HQ |- *.
  - wp_step. apply wp_ensure_operator_resources; [done|]. intros x t Hx.
    destruct x as [[]|e]; [|wp_step; by apply HQ]. destruct (Hx eq_refl) as [Hsa Hd].
    wp_step. unfold ensure_default_action_policy.
    destruct (policy_of _) as [p|e] eqn:Hp; [|wp_step; wp_step; by apply HQ].
    apply wp_ensure_object; [done|by constructor|]. intros y t2 Hy.
    destruct y as [[]|e]; [|wp_step; rewrite <- app_assoc; by apply HQ].
    unfold reconcile_action_mode_namespaces. wp_step. wp_step; [by apply workload_guard_read|].
    intros [namespaces|e]; [|wp_step; rewrite <- !app_assoc; by apply HQ].
    replace (reconcile_namespaces true excluded namespaces)
      with (reconcile_namespaces enabled excluded namespaces) by (by rewrite Hen).
    apply wp_reconcile_namespaces; [done| |].
    { intros ns nm Hin Hn. exists namespaces. split; [|done]. apply in_app_iff. right. by left. }
    intros z t3 Hz. rewrite <- !app_assoc. apply HQ. intros E. rewrite !app_assoc.
    split_and!; [by do 3 apply ensured_app|by do 3 apply ensured_app|
                 by do 2 apply ensured_app; apply Hy|].
    exists namespaces. split; [|auto]. rewrite !in_app_iff. left. right. by left.
  - unfold remove_operator_resources. wp_step. apply wp_remove_object; [done|by left|].
    intros x t Hx. destruct x as [[]|e]; [|wp_step; by apply HQ].
    apply wp_remove_object; [done|by right|]. intros y t' Hy. rewrite <- app_assoc. apply HQ.
    intros E. rewrite app_assoc. split; [|auto]. by apply removed_app, Hx.
Qed.
End logic.

(** ** The loop *)

(** The state after the inputs so far. *)
Definition tracked (st : WatchState) (inputs : list (bool * watch_input)) : WatchState :=
  fold_left (fun st p => observe (snd p) st) inputs st.

Lemma tracked_snoc st inputs p : tracked st (inputs ++ [p]) = observe (snd p) (tracked st inputs).
Proof using Type. unfold tracked. by rewrite fold_left_app. Qed.

(** A change at a history is one that the state of the watcher asks for, made
    while an input is handled at which the agent is the leader. *)
Definition watch_guard (st : WatchState) (inputs : list (bool * watch_input)) (h : list kevent)
    (o : op) : Prop :=
  mutating o = true ->
  exists before i after enabled,
    inputs = before ++ (true, i) :: after /\ reconciles i = true /\
    last_enabled (tracked st (before ++ [(true, i)])) = Some enabled /\
    workload_guard enabled (last_excluded (tracked st (before ++ [(true, i)]))) h o.

Lemma wp_watch_loop pod st0 before inputs h Q :
  (forall t, Q (tracked st0 (before ++ inputs)) (h ++ t)) ->
  wp (watch_guard st0 (before ++ inputs)) Q h
    (watch_loop namespace pod inputs (tracked st0 before)).
Proof using Type.
  revert before h. induction inputs as [|[leader i] inputs IH]; intros before h HQ;
    cbn [watch_loop].
  { wp_step. rewrite <- (app_nil_r h). rewrite app_nil_r in HQ. apply HQ. }
  assert (Hnext : forall t, wp (watch_guard st0 (before ++ (leader, i) :: inputs)) Q (h ++ t)
    (watch_loop namespace pod inputs (observe i (tracked st0 before)))).
  { intros t. specialize (IH (before ++ [(leader, i)]) (h ++ t)).
    rewrite tracked_snoc, <- app_assoc in IH. apply IH. intros t'. rewrite <- app_assoc. apply HQ. }
  wp_step. unfold watch_turn. wp_step.
  destruct (last_enabled (observe i (tracked st0 before))) as [enabled|] eqn:Hen.
  2:{ wp_step. wp_step. specialize (Hnext []). by rewrite app_nil_r in Hnext. }
  destruct (reconciles i && leader) eqn:Hr.
  2:{ wp_step. wp_step. specialize (Hnext []). by rewrite app_nil_r in Hnext. }
  apply andb_true_iff in Hr as [Hr ->].
  eapply wp_guard_mono.
  - apply wp_reconcile_operator_workload. intros x t _. wp_step. apply Hnext.
  - intros h' o Hg Hm. exists before, i, inputs, enabled. rewrite tracked_snoc. simpl.
    split_and!; [done|done|done|by apply Hg].
Qed.
End effects.

(** ** Two readers of one ConfigMap

    The operator gets the ConfigMap as its environment and reads it with
    config.rs; the watcher reads the ConfigMap itself. *)

(** The environment that [envFrom] makes of the ConfigMap alone; a container's
    own [env] entries come on top of it. *)
Definition env_from (cm : ConfigMap) : environment := unwrap_or ∅ (cm_data cm).

Lemma cm_get_env key cm : env_from cm !! key = cm_get key cm.
Proof. unfold env_from, cm_get. by destruct (cm_data cm). Qed.

Section one_config_map.
Context `{YamlList} (cm : ConfigMap) (env : environment).

Lemma exclusion_agrees :
  env !! "ACTION_OPERATOR_EXCLUDED_NAMESPACES" = cm_get "ACTION_OPERATOR_EXCLUDED_NAMESPACES" cm ->
  (forall v, cm_get "ACTION_OPERATOR_EXCLUDED_NAMESPACES" cm = Some v ->
     trimmed v /\ yaml_list_parse v = None) ->
  combined_excluded_namespaces (parse_yaml_list_env env "ACTION_OPERATOR_EXCLUDED_NAMESPACES") =
    action_operator_excluded_namespaces cm.
Proof using Type.
  unfold action_operator_excluded_namespaces, parse_yaml_list_env. intros ->.
  destruct (cm_get _ cm) as [v|]; [|done]. intros Hv. destruct (Hv v eq_refl) as [Ht Hy].
  cbv zeta. rewrite (trimmed_trim v Ht), Hy.
  destruct (str_is_empty v) eqn:He; [by destruct v|done].
Qed.

Lemma enabled_agrees :
  env !! "ACTION_OPERATOR_ENABLED" = cm_get "ACTION_OPERATOR_ENABLED" cm ->
  (forall v, cm_get "ACTION_OPERATOR_ENABLED" cm = Some v -> trimmed v) ->
  env_flag env "ACTION_OPERATOR_ENABLED" = is_operator_enabled cm.
Proof using Type.
  unfold is_operator_enabled, env_flag, ACTION_OPERATOR_ENABLED_KEY. intros ->.
  destruct (cm_get _ cm) as [v|]; [|done]. intros Hv. cbv zeta.
  by rewrite (trimmed_trim v (Hv v eq_refl)).
Qed.

(** What the two keys become in the configuration of either mode. *)
Lemma from_env_action_mode mode cfg :
  from_env_for_mode env mode = Ok cfg ->
  actions_enabled cfg = env_flag env "ACTION_OPERATOR_ENABLED" /\
  action_operator_enabled cfg = env_flag env "ACTION_OPERATOR_ENABLED" /\
  Config.action_operator_excluded_namespaces cfg =
    parse_yaml_list_env env "ACTION_OPERATOR_EXCLUDED_NAMESPACES".
Proof using Type.
  unfold from_env_for_mode. destruct (required_env _ _ "HUB_URL"); [|done].
  destruct (required_env _ _ "CLUSTER_ID"); [|done]. by intros [= <-].
Qed.
End one_config_map.

(** ** Properties *)

(** Whatever events the watcher receives and whatever the API server
    answers, it changes something only while it handles an input at which the
    agent is the leader, and only what the ConfigMap it saw last asks for: when
    the operator is enabled, it creates or patches the operator's own
    ServiceAccount and Deployment and the default policy, sets the action-mode
    label on a listed namespace that is not excluded and has neither "true" nor
    "false" there, and removes the label from a listed excluded namespace unless
    it says "false"; when it is disabled, it deletes the Deployment and the
    ServiceAccount.  Its state is what the inputs say. *)
Theorem lifecycle_safe `{LifecycleCodec} namespace pod leader inputs t st :
  runs (run_operator_lifecycle namespace pod leader inputs) t st ->
  exists got t', t = ev (R:=resp) (Get RConfigMap (Some namespace) CONFIG_MAP_NAME) got :: t' /\
    st = tracked (initial_state got) inputs /\
    forall t1 e t2, t' = t1 ++ e :: t2 -> mutating (op_of e) = true ->
      (leader = true /\ exists enabled, last_enabled (initial_state got) = Some enabled /\
         workload_guard namespace enabled (last_excluded (initial_state got)) t1 (op_of e)) \/
      watch_guard namespace (initial_state got) inputs t1 (op_of e).
Proof.
  intros Hr. unfold run_operator_lifecycle in Hr. run_call Hr as got t'.
  exists got, t'. split; [done|]. set (st0 := initial_state got) in *.
  pose (G := fun (h : list kevent) o => mutating o = true ->
    (leader = true /\ exists enabled, last_enabled st0 = Some enabled /\
       workload_guard namespace enabled (last_excluded st0) h o) \/
    watch_guard namespace st0 inputs h o).
  assert (Hloop : forall h, wp G (fun s _ => s = tracked st0 inputs) h
                              (watch_loop namespace pod inputs st0)).
  { intros h. eapply wp_guard_mono; [apply (wp_watch_loop namespace pod st0 [])|].
    - by intros t.
    - intros h' o Hg Hm. by right. }
  assert (Hwp : wp G (fun s _ => s = tracked st0 inputs) []
    (st ← initial_turn namespace pod leader got; watch_loop namespace pod inputs st)).
  { wp_step. unfold initial_turn. fold st0. wp_step.
    destruct (last_enabled st0) as [enabled|] eqn:Hen; [|wp_step; wp_step; apply Hloop].
    destruct leader; [|wp_step; wp_step; apply Hloop].
    eapply wp_guard_mono.
    - apply wp_reconcile_operator_workload. intros x t _. wp_step. apply Hloop.
    - intros h o Hg Hm. left. split; [done|]. by exists enabled. }
  destruct (wp_sound _ _ _ _ _ _ _ Hwp Hr) as [HQ HG]. split; [exact HQ|].
  intros t1 e t2 Ht Hm. exact (HG t1 e t2 Ht Hm).
Qed.

(** C35: A reconciliation that ends well has done its work.  Enabled: the
    ServiceAccount, the Deployment and the default policy were created or
    patched, and every listed namespace that is not excluded has the label or
    the opt-out "false", every excluded one no label but the opt-out.
    Disabled: the operator's Deployment and ServiceAccount are absent, and
    nothing else is touched: the default policy and the labels of the
    namespaces stay as they are. *)
Theorem reconcile_workload_done `{LifecycleCodec} namespace pod enabled excluded t :
  runs (reconcile_operator_workload namespace pod enabled excluded) t (Ok tt) ->
  workload_done namespace enabled excluded t /\
  (enabled = false -> forall e, In e t -> mutating (op_of e) = true ->
     op_of e = DeleteObj RDeployment (Some namespace) OPERATOR_NAME \/
     op_of e = DeleteObj RServiceAccount (Some namespace) OPERATOR_NAME).
Proof.
  intros Hr.
  pose proof (wp_reconcile_operator_workload namespace enabled excluded pod
    (fun x t => x = Ok tt -> workload_done namespace enabled excluded t) []
    (fun x t Hx => Hx)) as Hwp.
  destruct (wp_sound _ _ _ _ _ _ _ Hwp Hr) as [HQ HG]. split; [exact (HQ eq_refl)|].
  intros -> e (t1 & t2 & Ht)%in_split Hm. exact (HG t1 e t2 Ht Hm).
Qed.

(** C36: The watcher and the processes started with the ConfigMap as their
    environment read it alike.  Take any environment in which the two keys of
    Action Mode have the ConfigMap's values, as [envFrom] sets them.  If the
    values have no surrounding white space and the exclusions are no YAML list,
    then the configuration read from it, in either mode, has actions enabled
    exactly when the watcher takes the operator for enabled, and excludes the
    same namespaces; so the namespaces that the operator publishes as
    effective are exactly the labelled ones that the watcher labels and does
    not exclude. *)
Theorem lifecycle_agrees_with_operator `{YamlList} cm env mode cfg :
  env !! "ACTION_OPERATOR_ENABLED" = cm_get "ACTION_OPERATOR_ENABLED" cm ->
  env !! "ACTION_OPERATOR_EXCLUDED_NAMESPACES" =
    cm_get "ACTION_OPERATOR_EXCLUDED_NAMESPACES" cm ->
  (forall v, cm_get "ACTION_OPERATOR_ENABLED" cm = Some v -> trimmed v) ->
  (forall v, cm_get "ACTION_OPERATOR_EXCLUDED_NAMESPACES" cm = Some v ->
     trimmed v /\ yaml_list_parse v = None) ->
  from_env_for_mode env mode = Ok cfg ->
  actions_enabled cfg = is_operator_enabled cm /\
  action_operator_enabled cfg = is_operator_enabled cm /\
  combined_excluded_namespaces (Config.action_operator_excluded_namespaces cfg) =
    action_operator_excluded_namespaces cm /\
  forall namespaces nm,
    In nm (effective_namespaces_of namespaces
             (combined_excluded_namespaces (Config.action_operator_excluded_namespaces cfg))) <->
    exists ns, In ns namespaces /\ name (ns_metadata ns) = Some nm /\ labelled ns /\
      namespace_is_excluded nm (action_operator_excluded_namespaces cm) = false.
Proof.
  intros Hke Hkx He Hx Hcfg. destruct (from_env_action_mode _ _ _ Hcfg) as (Ha & Ho & Hl).
  pose proof (exclusion_agrees cm env Hkx Hx) as Hex. rewrite Ha, Ho, Hl.
  split_and!; [by apply enabled_agrees|by apply enabled_agrees|done|].
  intros namespaces nm. rewrite effective_namespaces_in, <- Hex. unfold eligible.
  setoid_rewrite <- namespace_is_excluded_spec. setoid_rewrite not_true_iff_false. naive_solver.
Qed.

(** Outside of that, the readers differ: a flag with white space around it
    starts an operator that takes itself for disabled, and a YAML list of
    exclusions is one odd name to the watcher. *)
Definition config_map (fields : list (string * string)) : ConfigMap :=
  {| cm_metadata := meta_named CONFIG_MAP_NAME; cm_immutable := None;
     cm_data := Some (list_to_map fields); cm_binary_data := None |}.

Lemma padded_flag_differs :
  let cm := config_map [("ACTION_OPERATOR_ENABLED", " true")] in
  is_operator_enabled cm = true /\ env_flag (env_from cm) ACTION_OPERATOR_ENABLED_KEY = false.
Proof. split; vm_compute; reflexivity. Qed.

Definition flow_yaml : YamlList :=
  {| yaml_list_parse := fun s =>
       if decide (s = "[shop]") then Some ["shop"] else None;
     yaml_list_print := fun l => None |}.

Lemma yaml_exclusions_differ :
  let cm := config_map [("ACTION_OPERATOR_EXCLUDED_NAMESPACES", "[shop]")] in
  namespace_is_excluded "shop" (action_operator_excluded_namespaces cm) = false /\
  namespace_is_excluded "shop" (combined_excluded_namespaces
    (@parse_yaml_list_env (env_from cm) flow_yaml "ACTION_OPERATOR_EXCLUDED_NAMESPACES")) = true.
Proof. split; vm_compute; reflexivity. Qed.

(** ** The watcher in the sample cluster *)

Definition demo_lifecycle_codec : LifecycleCodec :=
  {| service_account_of := fun v => v; deployment_of := fun v => Ok v;
     policy_of := fun v => Ok v; typed_to_value := fun v => Ok v |}.

Definition demo_agent_pod : Pod :=
  {| pod_metadata := meta_named "agent-1";
     pod_spec := Some {| containers := [container "agent" (Some "agent:1")]; node_name := None |};
     pod_status := None |}.
Definition demo_unlabelled : Namespace := {| ns_metadata := meta_named "shop"; ns_status := None |}.

(** The sample cluster with the agent's pod, its ConfigMap, and the namespaces
    "shop", without the label, and "kube-system", with it. *)
Definition demo_watch_get (r : resource) : result KubeError (obj r) :=
  match r return result KubeError (obj r) with
  | RConfigMap => Ok (config_map [("ACTION_OPERATOR_ENABLED", "false")])
  | RPod => Ok demo_agent_pod
  | RNamespace => Ok demo_unlabelled
  | RDynamic _ _ _ => Ok demo_dyn
  | r => demo_get r
  end.
Definition demo_watch (o : op) (s : unit) : resp o * unit :=
  match o return resp o * unit with
  | Get r _ _ => (demo_watch_get r, s)
  | GetOpt r _ _ => (Ok None, s)
  | ListObjs r _ _ =>
      (match r return result KubeError (list (obj r)) with
       | RNamespace => Ok [demo_unlabelled; demo_namespace "kube-system" "true"]
       | _ => Ok []
       end, s)
  | PatchObj r _ _ _ _ => (demo_watch_get r, s)
  | o => (fst (demo_handler o demo_start), s)
  end.

Definition demo_inputs : list (bool * watch_input) :=
  [(false, Modified (config_map [("ACTION_OPERATOR_ENABLED", "true")])); (true, Tick)].
Definition demo_lifecycle : kprog WatchState :=
  @run_operator_lifecycle demo_lifecycle_codec "sentinella" "agent-1" false demo_inputs.

Lemma lifecycle_safe_witness :
  exists got t1 e t2,
    interp_trace demo_watch demo_lifecycle tt =
      ev (R:=resp) (Get RConfigMap (Some "sentinella") CONFIG_MAP_NAME) got :: t1 ++ e :: t2 /\
    op_of e = set_label_op "shop" /\
    @watch_guard demo_lifecycle_codec "sentinella" (initial_state got) demo_inputs t1 (op_of e).
Proof.
  pose proof (@lifecycle_safe demo_lifecycle_codec "sentinella" "agent-1" false demo_inputs _ _
    (interp_runs _ demo_watch demo_lifecycle tt)) as (got & t' & Ht & _ & HG).
  assert (Hop : op_of <$> interp_trace demo_watch demo_lifecycle tt !! 9%nat =
    Some (set_label_op "shop")) by (vm_compute; reflexivity).
  rewrite Ht in Hop. cbn [lookup list_lookup] in Hop.
  destruct (t' !! 8%nat) as [e|] eqn:He; [|discriminate Hop]. injection Hop as Hop.
  pose proof (split_at _ _ _ He) as Hs.
  exists got, (take 8 t'), e, (drop 9 t').
  split; [by rewrite <- Hs|]. split; [exact Hop|].
  destruct (HG (take 8 t') e (drop 9 t') Hs) as [[Hl _]|Hw]; [by rewrite Hop|discriminate Hl|].
  exact Hw.
Defined.

(** Enabled in the sample cluster; disabled in one where both objects exist. *)
Definition demo_leftover (o : op) (s : unit) : resp o * unit :=
  match o return resp o * unit with
  | GetOpt r _ _ => (match demo_get r with Ok x => Ok (Some x) | Err _ => Ok None end, s)
  | o => demo_watch o s
  end.

Lemma reconcile_workload_done_witness :
  let on := interp_trace demo_watch (@reconcile_operator_workload demo_lifecycle_codec
       "sentinella" "agent-1" true ∅) tt in
  let off := interp_trace demo_leftover (@reconcile_operator_workload demo_lifecycle_codec
       "sentinella" "agent-1" false ∅) tt in
  @workload_done demo_lifecycle_codec "sentinella" true ∅ on /\
  @workload_done demo_lifecycle_codec "sentinella" false ∅ off /\
  forall e, In e off -> mutating (op_of e) = true ->
     op_of e = DeleteObj RDeployment (Some "sentinella") OPERATOR_NAME \/
     op_of e = DeleteObj RServiceAccount (Some "sentinella") OPERATOR_NAME.
Proof.
  assert (Hon : fst (interp demo_watch (@reconcile_operator_workload
       demo_lifecycle_codec "sentinella" "agent-1" true ∅) tt) = Ok tt)
    by (vm_compute; reflexivity).
  assert (Hoff : fst (interp demo_leftover (@reconcile_operator_workload
       demo_lifecycle_codec "sentinella" "agent-1" false ∅) tt) = Ok tt)
    by (vm_compute; reflexivity).
  cbv zeta. split; [|split].
  - apply (@reconcile_workload_done demo_lifecycle_codec "sentinella" "agent-1" true ∅).
    rewrite <- Hon. apply interp_runs.
  - apply (@reconcile_workload_done demo_lifecycle_codec "sentinella" "agent-1" false ∅).
    rewrite <- Hoff. apply interp_runs.
  - apply (@reconcile_workload_done demo_lifecycle_codec "sentinella" "agent-1" false ∅);
      [|reflexivity]. rewrite <- Hoff. apply interp_runs.
Defined.

Lemma lifecycle_agrees_with_operator_witness :
  let cm := config_map [("ACTION_OPERATOR_ENABLED", "true");
                        ("ACTION_OPERATOR_EXCLUDED_NAMESPACES", "kube-*,shop")] in
  exists cfg, @from_env_for_mode (env_from cm) flow_yaml Operator = Ok cfg /\
    is_operator_enabled cm = true /\ actions_enabled cfg = is_operator_enabled cm.
Proof.
  cbv zeta. eexists. split; [vm_compute; reflexivity|]. split; [vm_compute; reflexivity|].
  refine (proj1 (@lifecycle_agrees_with_operator flow_yaml
    (config_map [("ACTION_OPERATOR_ENABLED", "true");
                 ("ACTION_OPERATOR_EXCLUDED_NAMESPACES", "kube-*,shop")])
    (env_from (config_map [("ACTION_OPERATOR_ENABLED", "true");
                 ("ACTION_OPERATOR_EXCLUDED_NAMESPACES", "kube-*,shop")])) Operator _ _ _ _ _ _)).
  - apply cm_get_env.
  - apply cm_get_env.
  - intros v Hv. assert (v = "true") as -> by (vm_compute in Hv; congruence).
    split; vm_compute; reflexivity.
  - intros v Hv. assert (v = "kube-*,shop") as -> by (vm_compute in Hv; congruence).
    split; [split; vm_compute; reflexivity|]. vm_compute. reflexivity.
  - vm_compute. reflexivity.
Defined.
