(* ===== verification/Tetragon.v ===== *)
(** * Dependency events (tetragon.rs, the readiness flags of health.rs)

    The agent follows the Tetragon servers of the cluster, one stream for each
    endpoint it discovers, or one to a configured address when it finds none.
    The manager of the streams is a state machine; the streams report when they
    come up and go down, and readiness follows.  Their events go into a buffer
    with a cap and a time window. *)
From S2P Require Import Prelude RustStr Json.
Local Open Scope Z_scope.

Definition DEP_WINDOW_SECONDS : Z := 60.
Definition MAX_BUFFERED_EVENTS : nat := Z.to_nat 20000.
Definition MAX_DISCOVERED_ENDPOINTS : nat := 16.
Definition FALLBACK_STREAM_KEY : string := "__fallback__".

(** ** Discovery *)

(** An EndpointSlice, as far as it is read; ports are [i32]. *)
Record SliceEndpoint := {
  ready : option (option bool);
  target_kind : option (option string);
  addresses : list string }.
Record EndpointSlice := { slice_ports : option (list (option Z)); slice_endpoints : list SliceEndpoint }.

(** [std::net::IpAddr]: an address parsed and printed again. *)
Class IpAddresses := { normalize_ip : string -> option string }.

Definition as_u16 (n : Z) : Z := n mod 65536.

Section discovery.
Context `{IpAddresses} (grpc_port : Z).

Definition slice_port (s : EndpointSlice) : Z :=
  unwrap_or grpc_port (as_u16 <$> (ports ← slice_ports s; p ← find_first is_some ports; p)).

Definition usable (e : SliceEndpoint) : bool :=
  negb (bool_decide ((c ← ready e; c) = Some false))
  && match target_kind e with Some k => bool_decide (k = Some "Pod") | None => true end.

(** The addresses in the order in which the loops reach them. *)
Definition candidates (slices : list EndpointSlice) : list (string * Z) :=
  flat_map (fun s => flat_map (fun e =>
    if usable e then map (fun a => (a, slice_port s)) (addresses e) else [])
    (slice_endpoints s)) slices.

Fixpoint discover_loop (l : list (string * Z)) (found : gset string) : gset string :=
  match l with
  | [] => found
  | (address, port) :: l =>
      if (MAX_DISCOVERED_ENDPOINTS <=? size found)%nat then found else
      match normalize_ip address with
      | None => discover_loop l found
      | Some a => discover_loop l ({[a +s+ ":" +s+ nat_to_string port]} ∪ found)
      end
  end.
Definition discover_tetragon_endpoints (slices : list EndpointSlice) : gset string :=
  discover_loop (candidates slices) ∅.
End discovery.

(** [init]: the readiness flags for a configuration, and whether the manager
    starts; the [/readyz] endpoint of health.rs. *)
Definition readyz (required ready : bool) : Z := if required && negb ready then 503 else 200.

(** ** Streams *)

Inductive StreamSource := Discovered | FallbackSource.
Global Instance stream_source_eq_dec : EqDecision StreamSource.
Proof. solve_decision. Defined.

Record Stream := { source : StreamSource; connected : bool }.

(** The registry of streams, with the gauge, the readiness flag and the
    counters of health.rs. *)
Record Manager := {
  streams : gmap string Stream;
  tetragon_connected : Z;
  dependency_ready : bool;
  reconnects : Z;
  connection_failures : Z;
  policy_apply_failures : Z }.

Definition is_connected (p : string * Stream) : Prop := connected (snd p) = true.
Global Instance is_connected_dec p : Decision (is_connected p).
Proof. unfold is_connected. apply _. Defined.

Definition connected_endpoints (m : gmap string Stream) : nat := size (filter is_connected m).

Record CoverageSnapshot := {
  observed_endpoints : nat; cov_connected : nat; unavailable_endpoints : nat }.
Definition coverage_snapshot (m : Manager) : CoverageSnapshot :=
  let observed := size (streams m) in
  let up := connected_endpoints (streams m) in
  {| observed_endpoints := observed; cov_connected := up; unavailable_endpoints := observed - up |}.

Section manager.
Context `{IpAddresses} (grpc_port : Z) (dependency_required : bool).

(** [refresh_health] in two parts, the reading of the registry and the writing
    of the health flags, since other tasks may run between them. *)
Definition refresh_read (m : Manager) : nat := connected_endpoints (streams m).
Definition refresh_write (up : nat) (m : Manager) : Manager :=
  {| streams := streams m; tetragon_connected := Z.of_nat up;
     dependency_ready := negb dependency_required || (0 <? Z.of_nat up);
     reconnects := reconnects m; connection_failures := connection_failures m;
     policy_apply_failures := policy_apply_failures m |}.
Definition refresh_health (m : Manager) : Manager := refresh_write (refresh_read m) m.

Definition with_streams (s : gmap string Stream) (m : Manager) : Manager :=
  {| streams := s; tetragon_connected := tetragon_connected m;
     dependency_ready := dependency_ready m;
     reconnects := reconnects m; connection_failures := connection_failures m;
     policy_apply_failures := policy_apply_failures m |}.

Definition register_stream (key : string) (entry : Stream) (m : Manager) : Manager :=
  refresh_health (with_streams (<[key := entry]> (streams m)) m).

(** The registry after [set_stream_connected], and whether it was up. *)
Definition update_stream (key : string) (up : bool) (m : Manager) : option (bool * Manager) :=
  match streams m !! key with
  | Some s => Some (connected s,
      with_streams (<[key := {| source := source s; connected := up |}]> (streams m)) m)
  | None => None
  end.
Definition set_stream_connected (key : string) (up : bool) (m : Manager) : bool * Manager :=
  match update_stream key up m with
  | Some (was, m') => (was, refresh_health m')
  | None => (false, m)
  end.

Definition remove_stream (key : string) (m : Manager) : Manager :=
  match streams m !! key with
  | Some _ => refresh_health (with_streams (delete key (streams m)) m)
  | None => m
  end.

Definition discovered_keys (m : Manager) : list string :=
  sort_strings (omap (fun p => if decide (source (snd p) = Discovered) then Some (fst p) else None)
    (map_to_list (streams m))).
Definition has_fallback_stream (m : Manager) : bool :=
  match streams m !! FALLBACK_STREAM_KEY with
  | Some s => bool_decide (source s = FallbackSource)
  | None => false
  end.
Definition no_streams (m : Manager) : bool := bool_decide (streams m = ∅).
Definition stream_exists (key : string) (m : Manager) : bool := is_some (streams m !! key).

Definition spawn_stream (key : string) (src : StreamSource) (m : Manager) : Manager :=
  if stream_exists key m then m else register_stream key {| source := src; connected := false |} m.
Definition ensure_fallback_stream (m : Manager) : Manager :=
  if stream_exists FALLBACK_STREAM_KEY m then m
  else spawn_stream FALLBACK_STREAM_KEY FallbackSource m.

Definition remove_all (keys : list string) (m : Manager) : Manager :=
  fold_left (fun m key => remove_stream key m) keys m.
Definition spawn_all (addresses : list string) (m : Manager) : Manager :=
  fold_left (fun m a => spawn_stream a Discovered m) addresses m.

(** [discover_and_reconcile] once the endpoints are known. *)
Definition reconcile_streams (endpoints : gset string) (m : Manager) : Manager :=
  if decide (endpoints = ∅) then
    if no_streams m then ensure_fallback_stream m else m
  else
    let m := remove_all
      (List.filter (fun key => bool_decide (key ∉ endpoints)) (discovered_keys m)) m in
    let m := if has_fallback_stream m then remove_stream FALLBACK_STREAM_KEY m else m in
    spawn_all (btree_elements endpoints) m.

(** What answers the calls of one attempt to connect a stream: the channel, the
    tracing policy (with a status code and a message when it fails), the
    subscription to the events. *)
Inductive PolicyAnswer := PolicyAdded | PolicyStatus (code_already_exists : bool) (message : string).
Record Attempt := { channel_ok : bool; policy_answer : PolicyAnswer; events_ok : bool }.

Definition already_exists_like (message : string) : bool :=
  str_contains "exists" (to_ascii_lowercase message).
Definition ensure_policy (a : PolicyAnswer) : bool :=
  match a with
  | PolicyAdded => true
  | PolicyStatus already message => already || already_exists_like message
  end.

Definition count_policy_failure (m : Manager) : Manager :=
  {| streams := streams m; tetragon_connected := tetragon_connected m;
     dependency_ready := dependency_ready m; reconnects := reconnects m;
     connection_failures := connection_failures m;
     policy_apply_failures := policy_apply_failures m + 1 |}.

(** [connect_and_stream] up to its loop over the messages. *)
Definition connect (key : string) (a : Attempt) (m : Manager) : Manager :=
  if negb (channel_ok a) then m else
  if negb (ensure_policy (policy_answer a)) then count_policy_failure m else
  if negb (events_ok a) then m else snd (set_stream_connected key true m).

(** [run_stream] after [connect_and_stream] has returned, in one way or the
    other; [active] is the flag that the manager clears. *)
Definition count_lost (was : bool) (m : Manager) : Manager :=
  {| streams := streams m; tetragon_connected := tetragon_connected m;
     dependency_ready := dependency_ready m;
     reconnects := if was then reconnects m + 1 else reconnects m;
     connection_failures := if was then connection_failures m else connection_failures m + 1;
     policy_apply_failures := policy_apply_failures m |}.
Definition stream_lost (key : string) (active : bool) (m : Manager) : Manager :=
  let '(was, m) := set_stream_connected key false m in
  if active then count_lost was m else m.

(** What happens to the manager: a turn of [run_manager] with the listed
    slices or a failed discovery, the first turn or a later one; without
    discovery, the one fallback; a stream that comes up or goes down. *)
Inductive manager_event :=
  | NoDiscovery
  | FirstTurn (answer : option (list EndpointSlice))
  | LaterTurn (answer : option (list EndpointSlice))
  | StreamConnect (key : string) (a : Attempt)
  | StreamLost (key : string) (active : bool).

Definition manager_step (e : manager_event) (m : Manager) : Manager :=
  match e with
  | NoDiscovery => ensure_fallback_stream m
  | FirstTurn (Some slices) | LaterTurn (Some slices) =>
      reconcile_streams (discover_tetragon_endpoints grpc_port slices) m
  | FirstTurn None => ensure_fallback_stream m
  | LaterTurn None => if no_streams m then ensure_fallback_stream m else m
  | StreamConnect key a => connect key a m
  | StreamLost key active => stream_lost key active m
  end.
Definition manager_run (events : list manager_event) (m : Manager) : Manager :=
  fold_left (fun m e => manager_step e m) events m.

(** [init] of an enabled collection. *)
Definition manager_init : Manager :=
  {| streams := ∅; tetragon_connected := 0; dependency_ready := negb dependency_required;
     reconnects := 0; connection_failures := 0; policy_apply_failures := 0 |}.
End manager.

(** ** The buffer *)

Record BufferedLine := { line : string; recorded_at_ms : Z }.

Definition cutoff (now : Z) : Z := sat_sub now (DEP_WINDOW_SECONDS * 1000).
Definition prune (now : Z) (lines : list BufferedLine) : list BufferedLine :=
  skip_while (fun l => recorded_at_ms l <? cutoff now) lines.

(** A received line: pruned at [now], recorded at [now']. *)
Definition buffer_line (s : string) (now now' : Z) (lines : list BufferedLine) : list BufferedLine :=
  let lines := prune now lines in
  let lines := if (MAX_BUFFERED_EVENTS <=? length lines)%nat then tl lines else lines in
  lines ++ [{| line := s; recorded_at_ms := now' |}].

Definition newline : string := String (byte_of 10) "".
Definition snapshot_ndjson (now : Z) (lines : list BufferedLine) : string * list BufferedLine :=
  let lines := prune now lines in
  (fold_right (fun l body => line l +s+ newline +s+ body) "" lines, lines).

(** ** Events *)

(** A response of the event stream, as far as it is read: a kprobe with its
    arguments, or another event; [i64] and [i32] fields. *)
Record Sock := { saddr : string; daddr : string; sock_protocol : string; dport : Z }.
Inductive KprobeArg := SockArg (s : Sock) | IntArg (n : Z) | OtherArg.
Record Kprobe := { function_name : string; kprobe_args : list KprobeArg }.
Record Timestamp := { ts_seconds : Z; ts_nanos : Z }.
Record EventResponse := { event_kprobe : option Kprobe; event_time : option Timestamp }.

Definition sock_arg (a : KprobeArg) : option json :=
  match a with
  | SockArg s => Some (jobj [("saddr", JStr (saddr s)); ("daddr", JStr (daddr s));
                             ("protocol", JStr (sock_protocol s)); ("dport", JNum (dport s))])
  | _ => None
  end.
Definition int_arg (a : KprobeArg) : Z := match a with IntArg n => Z.max n 0 | _ => 0 end.
Definition timestamp_ms (t : Timestamp) : option Z :=
  if ts_seconds t <? 0 then None else Some (ts_seconds t * 1000 + Z.max (ts_nanos t) 0 / 1000000).

(** [event_line] before the value is printed.  The [json!] macro panics on an
    integer that does not fit in 64 bits. *)
Inductive EventOutcome := NoEvent | Event (v : json) | EventPanics.

Definition event_value (now : Z) (response : EventResponse) : EventOutcome :=
  some kprobe := event_kprobe response else NoEvent in
  let fn := function_name kprobe in
  if negb (String.eqb fn "tcp_sendmsg") && negb (String.eqb fn "tcp_close") then NoEvent else
  some sock := find_map sock_arg (kprobe_args kprobe) else NoEvent in
  let send := String.eqb fn "tcp_sendmsg" in
  let bytes := if send then unwrap_or 0 (int_arg <$> nth_error (kprobe_args kprobe) 1) else 0 in
  let timestamp := unwrap_or now (t ← event_time response; timestamp_ms t) in
  some timestamp := u64_checked timestamp else EventPanics in
  Event (jobj [("process_kprobe", jobj
    [("function_name", JStr fn);
     ("timestamp_unix_ms", JNum timestamp);
     ("args", JArr (if send then [jobj [("sock_arg", sock)]; jobj [("int_arg", JNum bytes)]]
                    else [jobj [("sock_arg", sock)]]))])]).

(** ** Lemmas: streams *)

(** The histories of a process: the manager takes one way of the two, its first
    turn comes first, and the streams live on between the turns. *)
Definition stream_event (e : manager_event) : bool :=
  match e with StreamConnect _ _ | StreamLost _ _ => true | _ => false end.
Definition later_event (e : manager_event) : bool :=
  match e with LaterTurn _ => true | _ => stream_event e end.
Definition valid_history (events : list manager_event) : bool :=
  match events with
  | NoDiscovery :: events => forallb stream_event events
  | FirstTurn _ :: events => forallb later_event events
  | _ => false
  end.

(** The health flags tell the truth about the registry. *)
Definition healthy (required : bool) (m : Manager) : Prop :=
  tetragon_connected m = Z.of_nat (connected_endpoints (streams m)) /\
  dependency_ready m = negb required || (0 <? tetragon_connected m).

(** Either the configured address alone, or discovered ones. *)
Definition on_fallback (m : Manager) : Prop :=
  exists s, streams m = {[FALLBACK_STREAM_KEY := s]} /\ source s = FallbackSource.
Definition all_discovered (m : Manager) : Prop :=
  streams m !! FALLBACK_STREAM_KEY = None /\
  map_Forall (fun _ s => source s = Discovered) (streams m).
Definition on_discovered (m : Manager) : Prop :=
  streams m <> ∅ /\ (size (streams m) <= MAX_DISCOVERED_ENDPOINTS)%nat /\ all_discovered m.

Section manager_lemmas.
Context `{IpAddresses} (grpc_port : Z) (required : bool).

Lemma refresh_healthy m : healthy required (refresh_health required m).
Proof. done. Qed.

Lemma register_healthy key s m : healthy required (register_stream required key s m).
Proof. apply refresh_healthy. Qed.

Lemma set_connected_healthy key up m :
  healthy required m -> healthy required (snd (set_stream_connected required key up m)).
Proof. intros Hm. unfold set_stream_connected. destruct (update_stream _ _ _) as [[] |]; done. Qed.

Lemma remove_healthy key m : healthy required m -> healthy required (remove_stream required key m).
Proof. intros Hm. unfold remove_stream. by case_match. Qed.

Lemma spawn_healthy key src m : healthy required m -> healthy required (spawn_stream required key src m).
Proof. intros Hm. unfold spawn_stream. by case_match. Qed.

Lemma fallback_healthy m : healthy required m -> healthy required (ensure_fallback_stream required m).
Proof. intros Hm. unfold ensure_fallback_stream. case_match; [done|]. by apply spawn_healthy. Qed.

Lemma remove_all_healthy keys m : healthy required m -> healthy required (remove_all required keys m).
Proof. revert m. induction keys; simpl; auto using remove_healthy. Qed.

Lemma spawn_all_healthy l m : healthy required m -> healthy required (spawn_all required l m).
Proof. revert m. induction l; simpl; auto using spawn_healthy. Qed.

Lemma reconcile_healthy endpoints m :
  healthy required m -> healthy required (reconcile_streams required endpoints m).
Proof.
  intros Hm. unfold reconcile_streams. case_decide; [case_match; auto using fallback_healthy|].
  apply spawn_all_healthy. case_match; eauto using remove_healthy, remove_all_healthy.
Qed.

Lemma remove_lookup key m k :
  streams (remove_stream required key m) !! k = if decide (k = key) then None else streams m !! k.
Proof.
  unfold remove_stream. destruct (streams m !! key) eqn:Hk; simpl.
  - destruct (decide _) as [->|]; [apply lookup_delete_eq|by apply lookup_delete_ne].
  - by destruct (decide _) as [->|].
Qed.

Lemma spawn_lookup key src m k :
  streams (spawn_stream required key src m) !! k =
  match streams m !! k with
  | Some s => Some s
  | None => if decide (k = key) then Some {| source := src; connected := false |} else None
  end.
Proof.
  unfold spawn_stream, stream_exists. destruct (streams m !! key) eqn:Hk; simpl.
  - destruct (streams m !! k) eqn:Hk'; [done|]. destruct (decide _) as [->|]; congruence.
  - destruct (decide (k = key)) as [->|].
    + rewrite Hk. apply lookup_insert_eq.
    + rewrite lookup_insert_ne by done. by destruct (streams m !! k).
Qed.

Lemma remove_all_lookup keys m k :
  streams (remove_all required keys m) !! k =
  if decide (k ∈ keys) then None else streams m !! k.
Proof.
  revert m. induction keys as [|key keys IH]; intros m; cbn [remove_all fold_left].
  - by rewrite (decide_False (P := k ∈ []) _ _ (not_elem_of_nil k)).
  - unfold remove_all in IH. rewrite IH, remove_lookup.
    repeat case_decide; set_solver.
Qed.

Lemma spawn_all_lookup l m k :
  streams (spawn_all required l m) !! k =
  match streams m !! k with
  | Some s => Some s
  | None => if decide (k ∈ l) then Some {| source := Discovered; connected := false |} else None
  end.
Proof.
  revert m. induction l as [|a l IH]; intros m; cbn [spawn_all fold_left].
  - rewrite (decide_False (P := k ∈ []) _ _ (not_elem_of_nil k)). by destruct (streams m !! k).
  - unfold spawn_all in IH. rewrite IH, spawn_lookup.
    destruct (streams m !! k); [done|]. repeat case_decide; set_solver.
Qed.

Lemma discovered_keys_in m k :
  In k (discovered_keys m) <-> exists s, streams m !! k = Some s /\ source s = Discovered.
Proof.
  unfold discovered_keys. rewrite sort_strings_in, <- list_elem_of_In, list_elem_of_omap. split.
  - intros ([k' s] & Hin%elem_of_map_to_list & Hk). simpl in Hk. case_decide; naive_solver.
  - intros (s & Hs & Hd). exists (k, s). rewrite elem_of_map_to_list. simpl. by rewrite decide_True.
Qed.

(** What [discover_and_reconcile] leaves when endpoints were found. *)
Lemma reconcile_lookup endpoints m k :
  endpoints <> ∅ -> on_fallback m \/ all_discovered m -> FALLBACK_STREAM_KEY ∉ endpoints ->
  streams (reconcile_streams required endpoints m) !! k =
  if decide (k ∈ endpoints)
  then Some (unwrap_or {| source := Discovered; connected := false |} (streams m !! k))
  else None.
Proof.
  intros Hne Hm Hfb. unfold reconcile_streams. rewrite decide_False by done.
  rewrite spawn_all_lookup.
  set (stale := List.filter _ _).
  assert (Hstale : forall j, j ∈ stale <->
      j ∉ endpoints /\ exists s, streams m !! j = Some s /\ source s = Discovered).
  { intros j. unfold stale. rewrite list_elem_of_In, filter_In, discovered_keys_in, bool_decide_eq_true.
    tauto. }
  assert (Hrest : streams (if has_fallback_stream (remove_all required stale m)
      then remove_stream required FALLBACK_STREAM_KEY (remove_all required stale m)
      else remove_all required stale m) !! k =
    if decide (k ∈ endpoints) then streams m !! k else None).
  { destruct Hm as [(s & Hs & Hsrc)|(Hnone & Hall)].
    - assert (Hnil : forall j, j ∉ stale).
      { intros j (_ & s' & Hj & Hd)%Hstale. rewrite Hs in Hj.
        apply lookup_singleton_Some in Hj as [_ <-]. congruence. }
      unfold has_fallback_stream.
      rewrite remove_all_lookup, (decide_False _ _ (Hnil _)), Hs, lookup_singleton_eq.
      rewrite (bool_decide_eq_true_2 _ Hsrc), remove_lookup, remove_all_lookup,
        (decide_False _ _ (Hnil _)), Hs.
      repeat case_decide; subst; rewrite ?lookup_singleton_ne by congruence; done.
    - unfold has_fallback_stream. rewrite remove_all_lookup, Hnone.
      replace (if decide (FALLBACK_STREAM_KEY ∈ stale) then None else None) with (@None Stream)
        by (by case_decide).
      rewrite remove_all_lookup. destruct (decide (k ∈ stale)) as [[Hk _]%Hstale|Hk].
      + by rewrite decide_False.
      + case_decide as Hin; [done|]. destruct (streams m !! k) as [s|] eqn:Hs; [|done].
        destruct Hk. apply Hstale. split; [done|]. exists s. split; [done|]. by apply (Hall k). }
  assert (Hin : k ∈ btree_elements endpoints <-> k ∈ endpoints)
    by by rewrite list_elem_of_In, btree_elements_in.
  rewrite Hrest. destruct (decide (k ∈ endpoints)); [|by rewrite decide_False by tauto].
  rewrite decide_True by tauto. by destruct (streams m !! k).
Qed.

Lemma reconcile_dom endpoints m :
  endpoints <> ∅ -> on_fallback m \/ all_discovered m -> FALLBACK_STREAM_KEY ∉ endpoints ->
  dom (streams (reconcile_streams required endpoints m)) = endpoints.
Proof.
  intros ???. apply set_eq. intros k. rewrite elem_of_dom, reconcile_lookup by done.
  by case_decide; split.
Qed.
End manager_lemmas.

Section discovery_lemmas.
Context `{IpAddresses} (grpc_port : Z).

Lemma discover_loop_size l found :
  (size found <= MAX_DISCOVERED_ENDPOINTS)%nat ->
  (size (discover_loop l found) <= MAX_DISCOVERED_ENDPOINTS)%nat.
Proof.
  revert found. induction l as [|[a port] l IH]; intros found Hf; cbn [discover_loop]; [done|].
  destruct (Nat.leb_spec MAX_DISCOVERED_ENDPOINTS (size found)) as [Hc|Hc]; [done|].
  destruct (normalize_ip a); apply IH; [|done].
  match goal with |- (size ({[?x]} ∪ _) <= _)%nat => set (y := x) end.
  pose proof (subseteq_size (found ∖ {[y]}) found ltac:(set_solver)).
  rewrite size_union_alt, size_singleton. lia.
Qed.

Lemma discover_loop_in l found k :
  k ∈ discover_loop l found ->
  k ∈ found \/ exists a port ip, In (a, port) l /\ normalize_ip a = Some ip /\
    k = ip +s+ ":" +s+ nat_to_string port.
Proof.
  revert found. induction l as [|[a port] l IH]; intros found; cbn [discover_loop]; [tauto|].
  destruct (MAX_DISCOVERED_ENDPOINTS <=? size found)%nat; [tauto|]. destruct (normalize_ip a) as [ip|] eqn:Hip; intros Hk.
  - apply IH in Hk as [Hk|(a' & p' & ip' & Hin & ? & ->)].
    + apply elem_of_union in Hk as [->%elem_of_singleton|?]; [|tauto].
      right. exists a, port, ip. simpl. auto.
    + right. exists a', p', ip'. simpl. auto.
  - apply IH in Hk as [?|(a' & p' & ip' & Hin & ? & ->)]; [tauto|].
    right. exists a', p', ip'. simpl. auto.
Qed.

Lemma discovered_not_fallback slices :
  FALLBACK_STREAM_KEY ∉ discover_tetragon_endpoints grpc_port slices.
Proof.
  intros [Hk|(a & port & ip & _ & _ & Hk)]%discover_loop_in; [set_solver|].
  apply (f_equal (free_of ":")) in Hk. unfold free_of in Hk. rewrite !str_all_app in Hk.
  cbn [str_all] in Hk. rewrite Ascii.eqb_refl in Hk. cbn [negb andb] in Hk.
  rewrite andb_false_r in Hk. vm_compute in Hk. discriminate.
Qed.
End discovery_lemmas.

Section manager_theorems.
Context `{IpAddresses} (grpc_port : Z) (required : bool).

(** The registry is empty before the first turn only. *)
Definition following (m : Manager) : Prop := on_fallback m \/ on_discovered m.

Lemma following_nonempty m : following m -> no_streams m = false.
Proof.
  intros Hm. apply bool_decide_eq_false. destruct Hm as [(s & -> & _)|(? & _)]; [|done].
  apply map_non_empty_singleton.
Qed.

Lemma set_connected_following key up m :
  following m -> following (snd (set_stream_connected required key up m)).
Proof.
  intros Hm. unfold set_stream_connected, update_stream.
  destruct (streams m !! key) as [s|] eqn:Hk; [|done]. cbn [snd].
  destruct Hm as [(s' & Hs & Hsrc)|(Hne & Hsz & Hfb & Hall)].
  - left. rewrite Hs in Hk. apply lookup_singleton_Some in Hk as [<- ->].
    exists {| source := source s; connected := up |}. split; [|exact Hsrc].
    cbn [streams refresh_health refresh_write with_streams]. rewrite Hs. apply insert_singleton_eq.
  - right. unfold on_discovered, all_discovered.
    cbn [streams refresh_health refresh_write with_streams]. split_and!.
    + apply insert_non_empty.
    + by rewrite map_size_insert_Some.
    + rewrite lookup_insert_ne by congruence. done.
    + apply map_Forall_insert_2; [|done]. apply (Hall _ _ Hk).
Qed.

Lemma ensure_fallback_empty m :
  streams m = ∅ -> following (ensure_fallback_stream required m).
Proof.
  intros Hm. left. unfold ensure_fallback_stream, spawn_stream, stream_exists.
  rewrite Hm, lookup_empty. cbn [is_some is_none negb]. eexists. split.
  - cbn [streams register_stream refresh_health refresh_write with_streams source].
    rewrite Hm. apply insert_empty.
  - done.
Qed.

Lemma reconcile_following slices m :
  following m \/ streams m = ∅ ->
  following (reconcile_streams required (discover_tetragon_endpoints grpc_port slices) m).
Proof.
  pose proof (discovered_not_fallback grpc_port slices) as Hfb.
  assert (Hsz : (size (discover_tetragon_endpoints grpc_port slices) <= MAX_DISCOVERED_ENDPOINTS)%nat)
    by (apply discover_loop_size; rewrite size_empty; lia).
  revert Hfb Hsz. generalize (discover_tetragon_endpoints grpc_port slices) as endpoints.
  intros endpoints Hfb Hsz Hm. destruct (decide (endpoints = ∅)) as [He|He].
  { unfold reconcile_streams. rewrite decide_True by done. destruct Hm as [Hm|Hm].
    - by rewrite following_nonempty.
    - unfold no_streams. rewrite bool_decide_eq_true_2 by done. by apply ensure_fallback_empty. }
  assert (Hm' : on_fallback m \/ all_discovered m).
  { destruct Hm as [[?|(_ & _ & ?)]|Hm]; [tauto..|]. right. unfold all_discovered.
    rewrite Hm, lookup_empty. split; [done|]. apply map_Forall_empty. }
  pose proof (reconcile_dom required endpoints m He Hm' Hfb) as Hdom.
  right. split_and!.
  - intros Hnil. rewrite Hnil, dom_empty_L in Hdom. by symmetry in Hdom.
  - by rewrite <- size_dom, Hdom.
  - split; [by rewrite reconcile_lookup, decide_False|].
    intros k s. rewrite reconcile_lookup by done. case_decide as Hk; [|done].
    intros [= <-]. destruct (streams m !! k) as [s|] eqn:Hs; [|done]. simpl.
    destruct Hm' as [(s' & Hs' & _)|(_ & Hall)]; [|by apply (Hall k)].
    rewrite Hs' in Hs. apply lookup_singleton_Some in Hs as [<- _]. done.
Qed.

Lemma connect_keeps (P : Manager -> Prop) key a m :
  (forall m, P m -> P (snd (set_stream_connected required key true m))) ->
  (forall m, P m -> P (count_policy_failure m)) -> P m -> P (connect required key a m).
Proof. intros H1 H2 Hm. unfold connect. repeat case_match; auto. Qed.

Lemma stream_lost_keeps (P : Manager -> Prop) key active m :
  (forall m, P m -> P (snd (set_stream_connected required key false m))) ->
  (forall was m, P m -> P (count_lost was m)) -> P m -> P (stream_lost required key active m).
Proof.
  intros H1 H2 Hm. unfold stream_lost. specialize (H1 m Hm).
  destruct (set_stream_connected required key false m) as [was m']. case_match; auto.
Qed.

Lemma step_healthy e m : healthy required m -> healthy required (manager_step grpc_port required e m).
Proof.
  intros Hm. destruct e as [|[slices|]|[slices|]|key a|key active]; simpl;
    auto using fallback_healthy, reconcile_healthy.
  - case_match; auto using fallback_healthy.
  - apply connect_keeps; auto using set_connected_healthy.
  - apply stream_lost_keeps; auto using set_connected_healthy.
Qed.

Lemma later_step_following e m :
  later_event e = true -> following m -> following (manager_step grpc_port required e m).
Proof.
  intros He Hm. destruct e as [| |[slices|]|key a|key active]; try discriminate; simpl.
  - apply reconcile_following. tauto.
  - by rewrite following_nonempty.
  - apply connect_keeps; auto using set_connected_following.
  - apply stream_lost_keeps; auto using set_connected_following.
Qed.

Lemma later_run_following events m :
  forallb later_event events = true -> following m -> following (manager_run grpc_port required events m).
Proof.
  revert m. induction events as [|e events IH]; intros m; simpl; [done|].
  intros [He Hes]%andb_true_iff Hm. apply IH; auto using later_step_following.
Qed.

Lemma run_cons e events m :
  manager_run grpc_port required (e :: events) m
  = manager_run grpc_port required events (manager_step grpc_port required e m).
Proof. done. Qed.

Lemma run_healthy events m :
  healthy required m -> healthy required (manager_run grpc_port required events m).
Proof. revert m. induction events; simpl; auto using step_healthy. Qed.

(** The coverage counts the streams, those that are connected, as the gauge does,
    and those that are not. *)
Record covered (m : Manager) (c : CoverageSnapshot) : Prop := {
  covers_all : observed_endpoints c = size (streams m);
  covers_connected : Z.of_nat (cov_connected c) = tetragon_connected m;
  covers_rest : unavailable_endpoints c = size (filter (fun p => ~ is_connected p) (streams m)) }.

Lemma healthy_covered m : healthy required m -> covered m (coverage_snapshot m).
Proof.
  intros [Hg _]. split; [done|by rewrite Hg|]. cbn [unavailable_endpoints coverage_snapshot].
  unfold connected_endpoints.
  rewrite <- (map_filter_union_complement is_connected (streams m)) at 1.
  rewrite map_size_disj_union by apply map_disjoint_filter_complement. lia.
Qed.

(** C23: whatever the discoveries answer and the streams do, one turn and one
    change of a stream at a time, the gauge counts the connected streams, the
    readiness flag holds exactly if no stream is required or one is connected,
    the coverage counts the streams, those the gauge counts and those that are
    not connected, and the agent follows either the configured address alone or
    between one and sixteen discovered endpoints, never both and never nothing.
    (What overlapping refreshes of the gauge and the flag may leave is below.) *)
Theorem streams_consistent events :
  valid_history events = true ->
  let m := manager_run grpc_port required events (manager_init required) in
  healthy required m /\ covered m (coverage_snapshot m) /\ following m.
Proof.
  intros Hv m. assert (Hh : healthy required m).
  { apply run_healthy. split; [done|]. simpl. by rewrite orb_false_r. }
  split; [done|]. split; [by apply healthy_covered|].
  assert (H0 : streams (manager_init required) = ∅) by done.
  destruct events as [|[|[slices|]|?|?|?] events]; try discriminate; simpl in Hv;
    unfold m; rewrite run_cons; simpl.
  - apply later_run_following; [|by apply ensure_fallback_empty].
    apply forallb_forall. intros e He. rewrite forallb_forall in Hv. specialize (Hv e He).
    by destruct e.
  - apply later_run_following; [done|]. apply reconcile_following. tauto.
  - apply later_run_following; [done|]. by apply ensure_fallback_empty.
Qed.

(** ** Refreshes that overlap

    The tasks of the streams and the manager change the table under its lock,
    each change followed by a refresh of its own, which reads the table, sets the
    gauge and sets the flag without a lock.  [past] is every count that the table
    has had. *)
Inductive phase := Pending | HasRead (up : nat) | HasSetGauge (up : nat).
Record Shared := {
  table : gmap string Stream; gauge : Z; ready_flag : bool; refreshes : list phase; past : list nat }.

Inductive shared_step (s : Shared) : Shared -> Prop :=
  | TableChanges t :
      shared_step s {| table := t; gauge := gauge s; ready_flag := ready_flag s;
        refreshes := refreshes s ++ [Pending]; past := connected_endpoints t :: past s |}
  | RefreshReads a b : refreshes s = a ++ Pending :: b ->
      shared_step s {| table := table s; gauge := gauge s; ready_flag := ready_flag s;
        refreshes := a ++ HasRead (connected_endpoints (table s)) :: b; past := past s |}
  | RefreshSetsGauge a up b : refreshes s = a ++ HasRead up :: b ->
      shared_step s {| table := table s; gauge := Z.of_nat up; ready_flag := ready_flag s;
        refreshes := a ++ HasSetGauge up :: b; past := past s |}
  | RefreshSetsFlag a up b : refreshes s = a ++ HasSetGauge up :: b ->
      shared_step s {| table := table s; gauge := gauge s;
        ready_flag := negb required || (0 <? Z.of_nat up); refreshes := a ++ b; past := past s |}.
Definition shared_init : Shared :=
  {| table := ∅; gauge := 0; ready_flag := negb required; refreshes := []; past := [0%nat] |}.

Definition phase_count (p : phase) : option nat :=
  match p with Pending => None | HasRead up | HasSetGauge up => Some up end.
(** What is reported, and what is on its way to be, was the case at some time. *)
Record was_the_case (s : Shared) : Prop := {
  table_past : In (connected_endpoints (table s)) (past s);
  gauge_past : exists n, In n (past s) /\ gauge s = Z.of_nat n;
  flag_past : exists n, In n (past s) /\ ready_flag s = negb required || (0 <? Z.of_nat n);
  refreshes_past : Forall (fun p => forall n, phase_count p = Some n -> In n (past s)) (refreshes s) }.

Lemma shared_step_past s s' : was_the_case s -> shared_step s s' -> was_the_case s'.
Proof using Type.
  intros [Ht (g & Hg & Hge) (f & Hf & Hfe) Hr] [t|a b Heq|a up b Heq|a up b Heq];
    [|rewrite Heq, Forall_app, Forall_cons in Hr; destruct Hr as (Ha & Hup & Hb)..];
    split; cbn [table gauge ready_flag refreshes past]; try done; eauto.
  - by left.
  - exists g. split; [by right|done].
  - exists f. split; [by right|done].
  - apply Forall_app. split; [|by repeat constructor].
    eapply Forall_impl; [exact Hr|]. intros p Hp n Hn. right. by apply Hp.
  - apply Forall_app. split; [done|]. constructor; [|done]. by intros n [= <-].
  - apply Forall_app. split; [done|]. constructor; [|done]. intros n [= <-]. by apply Hup.
  - by apply Forall_app.
Qed.

(** In every interleaving: if streams are required, the agent is ready only
    after some stream was connected. *)
Lemma ready_was_connected s :
  rtc shared_step shared_init s -> required = true -> ready_flag s = true ->
  exists n, In n (past s) /\ (0 < n)%nat.
Proof using Type.
  intros Hr Hreq Hready. assert (H0 : was_the_case shared_init).
  { split; cbn; [by left|by exists 0%nat; split; [left|]| |constructor].
    exists 0%nat. split; [by left|]. by rewrite orb_false_r. }
  assert (was_the_case s) as [_ _ (n & Hn & Hf) _].
  { clear Hready Hreq. remember shared_init as s0. clear Heqs0. induction Hr; eauto using shared_step_past. }
  exists n. split; [done|]. rewrite Hreq, Hready in Hf. simpl in Hf. symmetry in Hf. apply Z.ltb_lt in Hf. lia.
Qed.

(** Two refreshes that overlap: the first reads while a stream is up, the second
    reads and writes after it went down, then the first writes.  The agent is
    ready and reports a connected stream although none is. *)
Lemma overlapping_refreshes m key s :
  required = true -> streams m = {[key := s]} -> connected s = false ->
  let up := with_streams {[key := {| source := source s; connected := true |}]} m in
  let down := refresh_health required m in
  let late := refresh_write required (refresh_read up) down in
  connected_endpoints (streams late) = 0%nat /\
  dependency_ready late = true /\ tetragon_connected late = 1.
Proof.
  intros -> Hm Hs. unfold refresh_write, refresh_read, connected_endpoints. simpl.
  rewrite Hm, map_filter_singleton, decide_False, map_filter_singleton, decide_True
    by (unfold is_connected; simpl; congruence).
  by rewrite map_size_empty, map_size_singleton.
Qed.

(** The task of a stream is started before the stream is registered: a
    connection that is up before that is never seen. *)
Lemma early_connection_lost key src a m :
  streams m !! key = None ->
  streams (spawn_stream required key src (connect required key a m)) !! key
  = Some {| source := src; connected := false |}.
Proof.
  intros Hm. assert (Hc : streams (connect required key a m) !! key = None).
  { unfold connect, set_stream_connected, update_stream. rewrite Hm. by repeat case_match. }
  by rewrite spawn_lookup, Hc, decide_True.
Qed.
End manager_theorems.

Local Instance demo_addresses : IpAddresses := {| normalize_ip := Some |}.
Definition demo_slice : EndpointSlice :=
  {| slice_ports := Some [None; Some 54321];
     slice_endpoints := [{| ready := Some (Some true); target_kind := Some (Some "Pod");
                            addresses := ["10.0.0.1"; "10.0.0.2"] |};
                         {| ready := Some (Some false); target_kind := None;
                            addresses := ["10.0.0.3"] |}] |}.
Definition demo_history : list manager_event :=
  [FirstTurn None; LaterTurn (Some [demo_slice]);
   StreamConnect "10.0.0.1:54321"
     {| channel_ok := true; policy_answer := PolicyStatus false "sensor already EXISTS"; events_ok := true |};
   LaterTurn (Some [])].

Example demo_streams :
  let m := manager_run 1 true demo_history (manager_init true) in
  (map fst (map_to_list (streams m)), tetragon_connected m, dependency_ready m)
  = (["10.0.0.1:54321"; "10.0.0.2:54321"], 1, true).
Proof. vm_compute. reflexivity. Qed.

Lemma streams_consistent_witness :
  let m := manager_run 1 true demo_history (manager_init true) in
  healthy true m /\ covered m (coverage_snapshot m) /\ following m.
Proof. apply (streams_consistent 1 true demo_history). vm_compute. reflexivity. Defined.

(** ** Lemmas: the buffer *)

(** What happens to the buffer, at which times: a line that is received when it
    is [now] and recorded when it is [now'], a snapshot. *)
Inductive buffer_event := Received (s : string) (now now' : Z) | Snapshot (now : Z).

Definition buffer_step (lines : list BufferedLine) (e : buffer_event) : list BufferedLine :=
  match e with
  | Received s now now' => buffer_line s now now' lines
  | Snapshot now => snd (snapshot_ndjson now lines)
  end.
Definition buffer_run (events : list buffer_event) : list BufferedLine :=
  fold_left buffer_step events [].

(** A clock that does not go back. *)
Fixpoint monotone (t : Z) (events : list buffer_event) : Prop :=
  match events with
  | [] => True
  | Received _ now now' :: events => t <= now /\ now <= now' /\ monotone now' events
  | Snapshot now :: events => t <= now /\ monotone now events
  end.
Fixpoint last_time (t : Z) (events : list buffer_event) : Z :=
  match events with
  | [] => t
  | Received _ _ now' :: events => last_time now' events
  | Snapshot now :: events => last_time now events
  end.

(** The reference: every line that was received, the last ones of them, and
    those that are not older than a time. *)
Definition received (events : list buffer_event) : list BufferedLine :=
  omap (fun e => match e with
                 | Received s _ now' => Some {| line := s; recorded_at_ms := now' |}
                 | Snapshot _ => None end) events.
Definition last_lines (h : list BufferedLine) : list BufferedLine :=
  drop (length h - MAX_BUFFERED_EVENTS) h.
Definition since (c : Z) (h : list BufferedLine) : list BufferedLine :=
  List.filter (fun l => c <=? recorded_at_ms l) h.

Definition by_time (l l' : BufferedLine) : Prop := recorded_at_ms l <= recorded_at_ms l'.

Lemma since_since c c' h : c <= c' -> since c' (since c h) = since c' h.
Proof.
  intros Hc. unfold since. induction h as [|l h IH]; simpl; [done|].
  destruct (Z.leb_spec c (recorded_at_ms l)); simpl; rewrite IH; [done|].
  destruct (Z.leb_spec c' (recorded_at_ms l)); [lia|done].
Qed.

Lemma since_all c h : Forall (fun l => c <= recorded_at_ms l) h -> since c h = h.
Proof.
  unfold since. induction 1 as [|l h Hl _ IH]; simpl; [done|].
  apply Z.leb_le in Hl. by rewrite Hl, IH.
Qed.

Lemma since_app c h h' : since c (h ++ h') = since c h ++ since c h'.
Proof. apply List.filter_app. Qed.

Lemma since_length c h : (length (since c h) <= length h)%nat.
Proof. apply List.filter_length_le. Qed.

Lemma since_sorted c l h :
  StronglySorted by_time (l :: h) -> c <= recorded_at_ms l -> since c (l :: h) = l :: h.
Proof.
  intros Hs Hl. apply since_all. constructor; [done|].
  apply StronglySorted_inv in Hs as [_ Hs]. eapply Forall_impl; [exact Hs|].
  unfold by_time. intros ?; simpl; lia.
Qed.

Lemma prune_sorted now h : StronglySorted by_time h -> prune now h = since (cutoff now) h.
Proof.
  intros Hs. unfold prune. induction h as [|l h IH]; [done|]. cbn [skip_while].
  destruct (Z.ltb_spec (recorded_at_ms l) (cutoff now)) as [Hl|Hl].
  - rewrite IH by (by apply StronglySorted_inv in Hs as [? _]). unfold since. cbn [List.filter].
    by rewrite (proj2 (Z.leb_gt _ _) Hl).
  - by rewrite since_sorted.
Qed.

Lemma since_strongly_sorted c h : StronglySorted by_time h -> StronglySorted by_time (since c h).
Proof.
  unfold since. induction 1 as [|l h Hs IH Hl]; simpl; [constructor|].
  case_match; [|done]. constructor; [done|]. rewrite Forall_forall in *.
  intros l'. rewrite list_elem_of_In, filter_In. intros [Hin _]. apply Hl. by apply list_elem_of_In.
Qed.

Lemma drop_strongly_sorted n h : StronglySorted by_time h -> StronglySorted by_time (drop n h).
Proof.
  revert h. induction n as [|n IH]; intros h Hs; [done|]. destruct h as [|l h]; [done|].
  apply IH. by apply StronglySorted_inv in Hs as [? _].
Qed.

Lemma max_positive : (0 < MAX_BUFFERED_EVENTS)%nat.
Proof. apply Nat.ltb_lt. vm_compute. reflexivity. Qed.

Lemma last_lines_length h : (length (last_lines h) = Nat.min (length h) MAX_BUFFERED_EVENTS)%nat.
Proof. unfold last_lines. rewrite length_drop. lia. Qed.

Lemma last_lines_snoc h l :
  last_lines (h ++ [l]) =
  (if decide (MAX_BUFFERED_EVENTS <= length h)%nat then tl (last_lines h) else last_lines h) ++ [l].
Proof.
  pose proof max_positive. unfold last_lines. rewrite length_app. cbn [length].
  rewrite drop_app_le by lia. f_equal. case_decide.
  - replace (length h + 1 - MAX_BUFFERED_EVENTS)%nat with (length h - MAX_BUFFERED_EVENTS + 1)%nat by lia.
    rewrite <- drop_drop. by destruct (drop _ h).
  - by replace (length h + 1 - MAX_BUFFERED_EVENTS)%nat with (length h - MAX_BUFFERED_EVENTS)%nat by lia.
Qed.

(** The buffer after a history: the last lines, without those that were too old
    at some earlier time. *)
Record buffered (h lines : list BufferedLine) (t : Z) : Prop := {
  buffered_sorted : StronglySorted by_time h;
  buffered_past : Forall (fun l => recorded_at_ms l <= t) h;
  buffered_lines : exists c, c <= t /\ lines = since (cutoff c) (last_lines h) }.

Lemma cutoff_mono t t' : t <= t' -> cutoff t <= cutoff t'.
Proof. unfold cutoff, sat_sub. lia. Qed.

Lemma prune_buffered h lines t now :
  buffered h lines t -> t <= now -> prune now lines = since (cutoff now) (last_lines h).
Proof.
  intros [Hs _ (c & Hc & ->)] Hnow. rewrite prune_sorted.
  - apply since_since, cutoff_mono. lia.
  - apply since_strongly_sorted, drop_strongly_sorted, Hs.
Qed.

Lemma snoc_sorted h l :
  StronglySorted by_time h -> Forall (fun l' => by_time l' l) h -> StronglySorted by_time (h ++ [l]).
Proof.
  intros Hs Hl. induction Hs as [|l' h Hs IH Hl']; simpl; [repeat constructor|].
  apply Forall_cons in Hl as [Hl0 Hl]. constructor; [auto|]. apply Forall_app. auto.
Qed.

Lemma receive_buffered h lines t s now now' :
  buffered h lines t -> 0 <= t -> t <= now -> now <= now' ->
  buffered (h ++ [{| line := s; recorded_at_ms := now' |}]) (buffer_line s now now' lines) now'.
Proof.
  intros Hb H0 Hnow Hnow'. pose proof (prune_buffered _ _ _ _ Hb Hnow) as Hp.
  destruct Hb as [Hs Hpast _]. set (x := {| line := s; recorded_at_ms := now' |}).
  split.
  - apply snoc_sorted; [done|]. eapply Forall_impl; [exact Hpast|]. unfold by_time. intros ?; simpl; lia.
  - apply Forall_app. split; [eapply Forall_impl; [exact Hpast|]; intros ?; simpl; lia|]. by apply Forall_singleton.
  - exists now. split; [done|]. unfold buffer_line. rewrite Hp. clear Hp. fold x.
    pose proof (since_length (cutoff now) (last_lines h)) as Hlen.
    pose proof (last_lines_length h) as Hlast. pose proof max_positive as Hmax.
    assert (Hx : since (cutoff now) [x] = [x]).
    { apply since_all, Forall_singleton. subst x. unfold cutoff, sat_sub, DEP_WINDOW_SECONDS. simpl. lia. }
    rewrite last_lines_snoc, since_app, Hx. f_equal.
    pose proof (drop_strongly_sorted (length h - MAX_BUFFERED_EVENTS) h Hs) as Hsl.
    fold (last_lines h) in Hsl. revert Hlen Hlast Hsl. generalize (last_lines h) as l.
    intros l Hlen Hlast Hsl.
    destruct (Nat.leb_spec MAX_BUFFERED_EVENTS (length (since (cutoff now) l))) as [Hfull|Hroom];
      case_decide as Hh; try lia; [| |done].
    + destruct l as [|y l]; [done|]. cbn [tl].
      destruct (Z.leb_spec (cutoff now) (recorded_at_ms y)) as [Hy|Hy].
      * rewrite since_sorted by done. cbn [tl]. symmetry. apply since_all.
        apply StronglySorted_inv in Hsl as [_ Hsl]. eapply Forall_impl; [exact Hsl|].
        unfold by_time. intros ?; simpl; lia.
      * exfalso. unfold since in Hfull. cbn [List.filter] in Hfull.
        rewrite (proj2 (Z.leb_gt _ _) Hy) in Hfull. fold (since (cutoff now) l) in Hfull.
        pose proof (since_length (cutoff now) l). cbn [length] in Hlast. lia.
    + destruct l as [|y l]; [done|]. cbn [tl].
      destruct (Z.leb_spec (cutoff now) (recorded_at_ms y)) as [Hy|Hy].
      * rewrite since_sorted in Hroom by done. lia.
      * unfold since. cbn [List.filter]. by rewrite (proj2 (Z.leb_gt _ _) Hy).
Qed.

Lemma snapshot_buffered h lines t now :
  buffered h lines t -> t <= now -> buffered h (prune now lines) now.
Proof.
  intros Hb Hnow. pose proof (prune_buffered _ _ _ _ Hb Hnow) as Hp.
  destruct Hb as [Hs Hpast _]. split; [done| |].
  - eapply Forall_impl; [exact Hpast|]. intros ?; simpl; lia.
  - by exists now.
Qed.

Lemma run_buffered events h lines t :
  buffered h lines t -> 0 <= t -> monotone t events ->
  buffered (h ++ received events) (fold_left buffer_step events lines) (last_time t events).
Proof.
  revert h lines t. induction events as [|[s now now'|now] events IH]; intros h lines t Hb H0; simpl.
  - by rewrite app_nil_r.
  - intros (Hnow & Hnow' & Hrest). change (?x :: ?l) with ([x] ++ l). rewrite app_assoc.
    apply IH; [by apply (receive_buffered _ _ t)|lia|done].
  - intros (Hnow & Hrest). apply IH; [by apply (snapshot_buffered _ _ t)|lia|done].
Qed.

(** Under a clock that does not go back, a snapshot consists of the lines
    received in the last 60 seconds among the last 20000 received, in the
    order of their arrival, one per line. *)
Theorem snapshot_window events now :
  monotone 0 events -> last_time 0 events <= now ->
  let lines := since (cutoff now) (last_lines (received events)) in
  snapshot_ndjson now (buffer_run events)
  = (fold_right (fun l body => line l +s+ newline +s+ body) "" lines, lines).
Proof.
  intros Hm Hnow lines.
  assert (Hb : buffered [] [] 0) by (split; [constructor|constructor|exists 0; done]).
  apply (run_buffered events) in Hb; [|done|done].
  unfold snapshot_ndjson, buffer_run. by rewrite (prune_buffered _ _ _ _ Hb Hnow).
Qed.

Definition demo_buffer : list buffer_event :=
  [Received "a" 1000 1000; Received "b" 50000 50001; Snapshot 60000; Received "c" 62000 62000].

Lemma snapshot_window_witness :
  snapshot_ndjson 70000 (buffer_run demo_buffer)
  = ("b" +s+ newline +s+ "c" +s+ newline,
     [{| line := "b"; recorded_at_ms := 50001 |}; {| line := "c"; recorded_at_ms := 62000 |}]).
Proof.
  etransitivity; [apply (snapshot_window demo_buffer 70000)|].
  - simpl. lia.
  - simpl. lia.
  - reflexivity.
Defined.
