(* ===== verification/Dependencies.v ===== *)
(** * Observed dependencies (collector.rs: collect_dependency_inventory and below)

    The lines that Tetragon.v buffers become records, their addresses become
    pods, services or unknown endpoints, and the records of one edge are summed
    up.  Caps bound the number of lines, edges and targets of a source.  The
    JSON parser enters as a class. *)
From S2P Require Import Prelude RustStr Unicode Ordering Json Kube Tetragon.
Local Open Scope Z_scope.

Definition MAX_TETRAGON_LINES : nat := Z.to_nat 20000.
Definition MAX_DEP_EDGES_PER_SNAPSHOT : nat := Z.to_nat 2000.
Definition MAX_DEP_FANOUT_PER_SOURCE : nat := 200.

(** ** Data *)

Record DependencyEndpoint := {
  ep_kind : string; ep_namespace : option string; ep_name : option string;
  ep_workload_kind : option string; ep_workload_name : option string; ep_ip : option string }.
Global Instance endpoint_eq_dec : EqDecision DependencyEndpoint.
Proof. solve_decision. Defined.
Global Instance endpoint_countable : Countable DependencyEndpoint.
Proof.
  refine (inj_countable'
    (fun e => (ep_kind e, ep_namespace e, ep_name e, ep_workload_kind e, ep_workload_name e, ep_ip e))
    (fun '(k, ns, n, wk, wn, ip) => {| ep_kind := k; ep_namespace := ns; ep_name := n;
       ep_workload_kind := wk; ep_workload_name := wn; ep_ip := ip |}) _).
  by intros [].
Defined.

(** An [EndpointKey] has the fields of an endpoint. *)
Notation EndpointKey := DependencyEndpoint (only parsing).

Record DependencyEdgeKey := {
  from : EndpointKey; to : EndpointKey; key_protocol : string; key_port : Z; direction : string }.
Global Instance edge_key_eq_dec : EqDecision DependencyEdgeKey.
Proof. solve_decision. Defined.
Global Instance edge_key_countable : Countable DependencyEdgeKey.
Proof.
  refine (inj_countable'
    (fun k => (from k, to k, key_protocol k, key_port k, direction k))
    (fun '(f, t, p, port, d) => {| from := f; to := t; key_protocol := p; key_port := port;
       direction := d |}) _).
  by intros [].
Defined.

Record DependencyEdgeAgg := {
  bytes : Z; packets : Z; connections : Z; first_seen_unix_ms : Z; last_seen_unix_ms : Z }.

Record DependencyEdge := { edge_key : DependencyEdgeKey; edge_agg : DependencyEdgeAgg }.

Record DependencyEndpointHint := {
  hint_namespace : option string; pod_name : option string;
  workload_kind : option string; workload_name : option string }.

Record TetragonDependencyRecord := {
  src_ip : string; dst_ip : string;
  src_endpoint : option DependencyEndpointHint; dst_endpoint : option DependencyEndpointHint;
  protocol : string; destination_port : Z;
  rec_bytes : Z; rec_packets : Z; rec_connections : Z; timestamp_unix_ms : Z }.

Record PodIpInfo := {
  pi_namespace : string; pi_pod_name : string; pi_workload_kind : option string;
  pi_workload_name : option string; pi_ip : string }.
Record ServiceIpInfo := { si_namespace : string; si_service_name : string; si_ip : string }.

Record DependencyInventory := {
  edges : list DependencyEdge; truncated : bool; inv_dropped_edges : Z;
  inv_coverage : CoverageSnapshot; dep_source : string; window_seconds : Z }.

(** ** Records *)

Definition get_string_path (v : json) (pointers : list (list string)) : option string :=
  find_map (fun p => x ← json_pointer p v; as_str x) pointers.
Definition get_u64_path (v : json) (pointers : list (list string)) : option Z :=
  find_map (fun p => x ← json_pointer p v; as_u64 x) pointers.
Definition get_u128_path (v : json) (pointers : list (list string)) : option Z :=
  find_map (fun p => x ← json_pointer p v;
    opt_or (as_u64 x) (text ← as_str x; parse_u128 (trim text))) pointers.

Definition normalize_tetragon_ip (ip : string) : string := unwrap_or ip (strip_prefix "::ffff:" ip).
Definition normalize_tetragon_protocol (p : string) : string :=
  let p := to_lowercase (trim p) in unwrap_or p (strip_prefix "ipproto_" p).

Section parsing.
(** [now_unix_ms()] when the record is parsed. *)
Context (now : Z).

Definition parse_tetragon_flow_record (value : json) : option TetragonDependencyRecord :=
  some src := get_string_path value [["src_ip"]; ["flow"; "src_ip"]; ["flow"; "ip"; "source"]]
  else None in
  some dst := get_string_path value [["dst_ip"]; ["flow"; "dst_ip"]; ["flow"; "ip"; "destination"]]
  else None in
  Some {| src_ip := normalize_tetragon_ip src; dst_ip := normalize_tetragon_ip dst;
          src_endpoint := None; dst_endpoint := None;
          protocol := normalize_tetragon_protocol (unwrap_or "UNKNOWN"
            (get_string_path value [["protocol"]; ["flow"; "protocol"]]));
          destination_port := as_u16 (unwrap_or 0 (get_u64_path value
            [["destination_port"]; ["dst_port"]; ["flow"; "dst_port"]; ["flow"; "l4"; "dst_port"]]));
          rec_bytes := unwrap_or 0 (get_u64_path value
            [["bytes"]; ["flow"; "bytes"]; ["summary"; "bytes"]]);
          rec_packets := unwrap_or 0 (get_u64_path value
            [["packets"]; ["flow"; "packets"]; ["summary"; "packets"]]);
          rec_connections := unwrap_or 1 (get_u64_path value
            [["connections"]; ["flow"; "connections"]; ["summary"; "connections"]]);
          timestamp_unix_ms := unwrap_or now (get_u128_path value
            [["timestamp_unix_ms"]; ["time_unix_ms"]; ["flow"; "timestamp_unix_ms"]]) |}.

Definition parse_tetragon_kprobe_record (value : json) : option TetragonDependencyRecord :=
  some kprobe := json_pointer ["process_kprobe"] value else None in
  some function_name := (x ← json_pointer ["function_name"] kprobe; as_str x) else None in
  some args := (x ← json_pointer ["args"] kprobe; as_array x) else None in
  some sock_arg := find_map (json_pointer ["sock_arg"]) args else None in
  some counts :=
    (if String.eqb function_name "tcp_sendmsg" then
       Some (unwrap_or 0 (arg ← nth_error args 1; x ← json_pointer ["int_arg"] arg; as_u64 x), 1, 0)
     else if String.eqb function_name "tcp_close" then Some (0, 0, 1) else None)
  else None in
  some src := get_string_path sock_arg [["saddr"]; ["src_ip"]] else None in
  some dst := get_string_path sock_arg [["daddr"]; ["dst_ip"]] else None in
  let '(bytes, packets, connections) := counts in
  Some {| src_ip := normalize_tetragon_ip src; dst_ip := normalize_tetragon_ip dst;
          src_endpoint := None; dst_endpoint := None;
          protocol := normalize_tetragon_protocol (unwrap_or "UNKNOWN"
            (get_string_path sock_arg [["protocol"]]));
          destination_port := as_u16 (unwrap_or 0 (get_u64_path sock_arg [["dport"]]));
          rec_bytes := bytes; rec_packets := packets; rec_connections := connections;
          timestamp_unix_ms := unwrap_or now (get_u128_path kprobe
            [["timestamp_unix_ms"]; ["time_unix_ms"]; ["flow"; "timestamp_unix_ms"]]) |}.

Definition parse_tetragon_record (value : json) : option TetragonDependencyRecord :=
  opt_or (parse_tetragon_flow_record value) (parse_tetragon_kprobe_record value).
End parsing.

(** ** Endpoints *)

Definition non_empty (s : string) : option string := if str_is_empty s then None else Some s.

Definition pod_ip_entry (pod : Pod) : option (string * PodIpInfo) :=
  some ip := (s ← pod_status pod; ip ← pod_ip s; non_empty ip) else None in
  let owner := (refs ← owner_references (pod_metadata pod); head refs) in
  Some (ip, {| pi_namespace := unwrap_or "" (namespace (pod_metadata pod));
               pi_pod_name := unwrap_or "" (name (pod_metadata pod));
               pi_workload_kind := owner_kind <$> owner;
               pi_workload_name := owner_name <$> owner; pi_ip := ip |}).
Definition build_pod_ip_index (pods : list Pod) : gmap string PodIpInfo :=
  fold_left (fun out pod => match pod_ip_entry pod with
    | Some (ip, info) => <[ip := info]> out | None => out end) pods ∅.

Definition service_ip_entry (svc : Service) : option (string * ServiceIpInfo) :=
  some ip := (s ← svc_spec svc; ip ← cluster_ip s;
    if negb (str_is_empty ip) && negb (String.eqb ip "None") then Some ip else None) else None in
  Some (ip, {| si_namespace := unwrap_or "" (namespace (svc_metadata svc));
               si_service_name := unwrap_or "" (name (svc_metadata svc)); si_ip := ip |}).
Definition build_service_ip_index (services : list Service) : gmap string ServiceIpInfo :=
  fold_left (fun out svc => match service_ip_entry svc with
    | Some (ip, info) => <[ip := info]> out | None => out end) services ∅.

Definition has_identity (h : DependencyEndpointHint) : bool :=
  is_some (hint_namespace h) || is_some (pod_name h) || is_some (workload_kind h)
  || is_some (workload_name h).

Definition unknown_endpoint (ip : string) : DependencyEndpoint :=
  {| ep_kind := "unknown"; ep_namespace := None; ep_name := None;
     ep_workload_kind := None; ep_workload_name := None; ep_ip := Some ip |}.

Section resolving.
Context (pods : gmap string PodIpInfo) (services : gmap string ServiceIpInfo).

Definition resolve_endpoint (ip : string) (hint : option DependencyEndpointHint) : DependencyEndpoint :=
  match pods !! ip with
  | Some pod =>
      {| ep_kind := "pod"; ep_namespace := Some (pi_namespace pod); ep_name := Some (pi_pod_name pod);
         ep_workload_kind := pi_workload_kind pod; ep_workload_name := pi_workload_name pod;
         ep_ip := Some (pi_ip pod) |}
  | None =>
      match services !! ip with
      | Some service =>
          {| ep_kind := "service"; ep_namespace := Some (si_namespace service);
             ep_name := Some (si_service_name service);
             ep_workload_kind := None; ep_workload_name := None; ep_ip := Some (si_ip service) |}
      | None =>
          match hint with
          | Some hint =>
              if has_identity hint then
                {| ep_kind := "pod"; ep_namespace := hint_namespace hint; ep_name := pod_name hint;
                   ep_workload_kind := workload_kind hint; ep_workload_name := workload_name hint;
                   ep_ip := Some ip |}
              else unknown_endpoint ip
          | None => unknown_endpoint ip
          end
      end
  end.
End resolving.

Definition normalize_endpoint_key (e : DependencyEndpoint) : EndpointKey :=
  {| ep_kind := to_lowercase (ep_kind e); ep_namespace := to_lowercase <$> ep_namespace e;
     ep_name := to_lowercase <$> ep_name e; ep_workload_kind := to_lowercase <$> ep_workload_kind e;
     ep_workload_name := to_lowercase <$> ep_workload_name e; ep_ip := ep_ip e |}.

Definition edge_key_of (pods : gmap string PodIpInfo) (services : gmap string ServiceIpInfo)
    (record : TetragonDependencyRecord) : DependencyEdgeKey :=
  {| from := normalize_endpoint_key (resolve_endpoint pods services (src_ip record) (src_endpoint record));
     to := normalize_endpoint_key (resolve_endpoint pods services (dst_ip record) (dst_endpoint record));
     key_protocol := to_uppercase (protocol record);
     key_port := destination_port record; direction := "egress" |}.

(** ** Aggregation *)

Record AggState := {
  agg : gmap DependencyEdgeKey DependencyEdgeAgg;
  fanout : gmap EndpointKey (gset EndpointKey);
  parse_failures : Z; dropped_for_line_cap : Z; dropped_edges : Z; skipped_for_fanout : Z }.
Definition agg_init : AggState :=
  {| agg := ∅; fanout := ∅; parse_failures := 0; dropped_for_line_cap := 0; dropped_edges := 0;
     skipped_for_fanout := 0 |}.

Definition agg_new (r : TetragonDependencyRecord) : DependencyEdgeAgg :=
  {| bytes := 0; packets := 0; connections := 0;
     first_seen_unix_ms := timestamp_unix_ms r; last_seen_unix_ms := timestamp_unix_ms r |}.
Definition agg_add (r : TetragonDependencyRecord) (a : DependencyEdgeAgg) : DependencyEdgeAgg :=
  {| bytes := u64_sat_add (bytes a) (rec_bytes r);
     packets := u64_sat_add (packets a) (rec_packets r);
     connections := u64_sat_add (connections a) (rec_connections r);
     first_seen_unix_ms := Z.min (first_seen_unix_ms a) (timestamp_unix_ms r);
     last_seen_unix_ms := Z.max (last_seen_unix_ms a) (timestamp_unix_ms r) |}.

Definition targets (st : AggState) (source : EndpointKey) : gset EndpointKey :=
  unwrap_or ∅ (fanout st !! source).

(** The body of the loop once a record is there. *)
Definition add_record (key : DependencyEdgeKey) (r : TetragonDependencyRecord) (st : AggState) : AggState :=
  let known := is_some (agg st !! key) in
  if (MAX_DEP_EDGES_PER_SNAPSHOT <=? size (agg st))%nat && negb known then
    {| agg := agg st; fanout := fanout st; parse_failures := parse_failures st;
       dropped_for_line_cap := dropped_for_line_cap st; dropped_edges := dropped_edges st + 1;
       skipped_for_fanout := skipped_for_fanout st |} else
  let source_fanout := targets st (from key) in
  if (MAX_DEP_FANOUT_PER_SOURCE <=? size source_fanout)%nat
     && negb (bool_decide (to key ∈ source_fanout)) && negb known then
    {| agg := agg st; fanout := <[from key := source_fanout]> (fanout st);
       parse_failures := parse_failures st;
       dropped_for_line_cap := dropped_for_line_cap st; dropped_edges := dropped_edges st;
       skipped_for_fanout := skipped_for_fanout st + 1 |} else
  {| agg := <[key := agg_add r (unwrap_or (agg_new r) (agg st !! key))]> (agg st);
     fanout := <[from key := {[to key]} ∪ source_fanout]> (fanout st);
     parse_failures := parse_failures st;
     dropped_for_line_cap := dropped_for_line_cap st; dropped_edges := dropped_edges st;
     skipped_for_fanout := skipped_for_fanout st |}.

Definition count_parse_failure (st : AggState) : AggState :=
  {| agg := agg st; fanout := fanout st; parse_failures := parse_failures st + 1;
     dropped_for_line_cap := dropped_for_line_cap st; dropped_edges := dropped_edges st;
     skipped_for_fanout := skipped_for_fanout st |}.
Definition count_line_cap (st : AggState) : AggState :=
  {| agg := agg st; fanout := fanout st; parse_failures := parse_failures st;
     dropped_for_line_cap := dropped_for_line_cap st + 1; dropped_edges := dropped_edges st;
     skipped_for_fanout := skipped_for_fanout st |}.

(** [str::lines]: the last segment is not a line if it is empty, and keeps a
    carriage return. *)
Definition strip_cr (l : string) : string := unwrap_or l (strip_suffix (String (byte_of 13) "") l).
Fixpoint lines_of (segments : list string) : list string :=
  match segments with
  | [] => []
  | [l] => if str_is_empty l then [] else [l]
  | l :: segments => strip_cr l :: lines_of segments
  end.
Definition str_lines (body : string) : list string := lines_of (str_split (byte_of 10) body).

(** [serde_json::from_str] to a [Value]. *)
Class JsonParser := { from_str : string -> option json }.

Section collecting.
Context `{JsonParser} (pods : gmap string PodIpInfo) (services : gmap string ServiceIpInfo).

(** A line comes with the clock at the time its record is parsed. *)
Definition add_line (l : string) (now : Z) (st : AggState) : AggState :=
  let l := trim l in
  if str_is_empty l then st else
  some value := from_str l else count_parse_failure st in
  some record := parse_tetragon_record now value else count_parse_failure st in
  add_record (edge_key_of pods services record) record st.

Fixpoint add_lines (line_index : nat) (lines : list (string * Z)) (st : AggState) : AggState :=
  match lines with
  | [] => st
  | (l, now) :: lines =>
      add_lines (S line_index) lines
        (if (MAX_TETRAGON_LINES <=? line_index)%nat then count_line_cap st else add_line l now st)
  end.
End collecting.

(** ** The order of the edges *)

(** The derived [Ord] of [EndpointKey]. *)
Definition endpoint_compare : EndpointKey -> EndpointKey -> comparison :=
  cmp_lex (cmp_on ep_kind String.compare)
  (cmp_lex (cmp_on ep_namespace (opt_compare String.compare))
  (cmp_lex (cmp_on ep_name (opt_compare String.compare))
  (cmp_lex (cmp_on ep_workload_kind (opt_compare String.compare))
  (cmp_lex (cmp_on ep_workload_name (opt_compare String.compare))
           (cmp_on ep_ip (opt_compare String.compare)))))).

Definition edge_compare : DependencyEdge -> DependencyEdge -> comparison :=
  cmp_lex (cmp_on (fun e => normalize_endpoint_key (from (edge_key e))) endpoint_compare)
  (cmp_lex (cmp_on (fun e => normalize_endpoint_key (to (edge_key e))) endpoint_compare)
  (cmp_lex (cmp_on (fun e => to_uppercase (key_protocol (edge_key e))) String.compare)
  (cmp_lex (cmp_on (fun e => key_port (edge_key e)) Z.compare)
           (cmp_on (fun e => to_lowercase (direction (edge_key e))) String.compare)))).
Global Instance edge_comparator : Comparator edge_compare.
Proof. unfold edge_compare, endpoint_compare. comparator. Qed.
Definition sort_dependency_edges (l : list DependencyEdge) : list DependencyEdge :=
  sort_by edge_compare l.

Definition inventory_of (st : AggState) (coverage : CoverageSnapshot) : DependencyInventory :=
  let dropped_events_total := u64_sat_add (dropped_edges st) (dropped_for_line_cap st) in
  let dropped_total := u64_sat_add dropped_events_total (skipped_for_fanout st) in
  {| edges := sort_dependency_edges
       (map (fun p => {| edge_key := fst p; edge_agg := snd p |}) (map_to_list (agg st)));
     truncated := 0 <? dropped_total; inv_dropped_edges := dropped_total;
     inv_coverage := coverage; dep_source := "tetragon_grpc"; window_seconds := DEP_WINDOW_SECONDS |}.

(** What is added to the counters of health.rs: parse failures, dropped events,
    skipped events, truncated snapshots. *)
Definition health_increments (st : AggState) : Z * Z * Z * Z :=
  let dropped_events_total := u64_sat_add (dropped_edges st) (dropped_for_line_cap st) in
  (parse_failures st, dropped_events_total, skipped_for_fanout st,
   if 0 <? u64_sat_add dropped_events_total (skipped_for_fanout st) then 1 else 0).

(** [clock] gives the time at which the record of each line is parsed. *)
Definition collect_dependency_inventory `{JsonParser} (enabled : bool) (pods : list Pod)
    (services : list Service) (body : string) (clock : nat -> Z) (coverage : CoverageSnapshot)
    : DependencyInventory :=
  if negb enabled then
    {| edges := []; truncated := false; inv_dropped_edges := 0;
       inv_coverage := {| observed_endpoints := 0; cov_connected := 0; unavailable_endpoints := 0 |};
       dep_source := "tetragon_grpc"; window_seconds := DEP_WINDOW_SECONDS |}
  else
    inventory_of (add_lines (build_pod_ip_index pods) (build_service_ip_index services) 0
      (imap (fun i l => (l, clock i)) (str_lines body)) agg_init) coverage.

(** ** The reference: grouping by edge *)

Definition sum_of (l : list Z) : Z := fold_right Z.add 0 l.

(** All records of one edge, the first of them [r]. *)
Definition summary (r : TetragonDependencyRecord) (rs : list TetragonDependencyRecord)
    : DependencyEdgeAgg :=
  {| bytes := Z.min u64_max (sum_of (map rec_bytes (r :: rs)));
     packets := Z.min u64_max (sum_of (map rec_packets (r :: rs)));
     connections := Z.min u64_max (sum_of (map rec_connections (r :: rs)));
     first_seen_unix_ms := fold_left Z.min (map timestamp_unix_ms rs) (timestamp_unix_ms r);
     last_seen_unix_ms := fold_left Z.max (map timestamp_unix_ms rs) (timestamp_unix_ms r) |}.

Notation keyed := (DependencyEdgeKey * TetragonDependencyRecord)%type (only parsing).
Definition of_key (key : DependencyEdgeKey) (krs : list keyed) : list TetragonDependencyRecord :=
  omap (fun kr => if decide (fst kr = key) then Some (snd kr) else None) krs.

(** A new edge is not admitted: the caps. *)
Definition blocked (st : AggState) (key : DependencyEdgeKey) : Prop :=
  (MAX_DEP_EDGES_PER_SNAPSHOT <= size (agg st))%nat \/
  ((MAX_DEP_FANOUT_PER_SOURCE <= size (targets st (from key)))%nat /\
   to key ∉ targets st (from key)).

Global Instance blocked_dec st key : Decision (blocked st key).
Proof. unfold blocked. apply _. Defined.

Definition missing (st : AggState) (krs : list keyed) : list keyed :=
  List.filter (fun kr => negb (is_some (agg st !! fst kr))) krs.

(** What a sequence of records leaves. *)
Record aggregated (krs : list keyed) (st : AggState) : Prop := {
  agg_complete : forall key, match agg st !! key with
    | Some a => exists r rs, of_key key krs = r :: rs /\ a = summary r rs
    | None => of_key key krs = [] \/ blocked st key end;
  agg_size : (size (agg st) <= MAX_DEP_EDGES_PER_SNAPSHOT)%nat;
  agg_targets : forall source, (size (targets st source) <= MAX_DEP_FANOUT_PER_SOURCE)%nat /\
    forall target, target ∈ targets st source <->
      exists key, is_Some (agg st !! key) /\ from key = source /\ to key = target;
  agg_counts : dropped_edges st + skipped_for_fanout st = Z.of_nat (length (missing st krs)) }.

Definition well_counted (r : TetragonDependencyRecord) : Prop :=
  0 <= rec_bytes r /\ 0 <= rec_packets r /\ 0 <= rec_connections r.

(** ** Lemmas *)

Lemma sum_of_app l l' : sum_of (l ++ l') = sum_of l + sum_of l'.
Proof. unfold sum_of. induction l; simpl; lia. Qed.

Lemma sum_of_nonneg l : Forall (fun n => 0 <= n) l -> 0 <= sum_of l.
Proof. unfold sum_of. induction 1; simpl; lia. Qed.

Lemma sat_sum l n :
  0 <= n -> Z.min u64_max (sum_of (l ++ [n])) = u64_sat_add (Z.min u64_max (sum_of l)) n.
Proof. intros Hn. rewrite sum_of_app. unfold u64_sat_add. simpl. lia. Qed.

Lemma summary_first r : well_counted r -> agg_add r (agg_new r) = summary r [].
Proof.
  intros (Hb & Hp & Hc). unfold agg_add, agg_new, summary, u64_sat_add, sum_of. simpl.
  f_equal; lia.
Qed.

Lemma summary_snoc r rs r' :
  well_counted r' -> agg_add r' (summary r rs) = summary r (rs ++ [r']).
Proof.
  intros (Hb & Hp & Hc). unfold agg_add, summary. cbn [bytes packets connections
    first_seen_unix_ms last_seen_unix_ms].
  rewrite app_comm_cons, !map_app, !fold_left_app. cbn [map]. by rewrite !sat_sum.
Qed.

Lemma of_key_snoc key krs kr :
  of_key key (krs ++ [kr]) = of_key key krs ++ (if decide (fst kr = key) then [snd kr] else []).
Proof.
  unfold of_key. rewrite omap_app. f_equal. simpl. by case_decide.
Qed.

Lemma missing_snoc st krs kr :
  missing st (krs ++ [kr]) = missing st krs ++ (if is_some (agg st !! fst kr) then [] else [kr]).
Proof. unfold missing. rewrite List.filter_app. simpl. by destruct (is_some _). Qed.

Lemma of_key_nil key krs : of_key key krs = [] <-> Forall (fun kr => fst kr <> key) krs.
Proof.
  unfold of_key. induction krs as [|kr krs IH]; simpl; [by split|].
  rewrite Forall_cons. case_decide; [naive_solver|]. rewrite IH. naive_solver.
Qed.

Lemma missing_insert st st' key a krs :
  of_key key krs = [] -> agg st' = <[key := a]> (agg st) -> missing st' krs = missing st krs.
Proof.
  intros Hnil%of_key_nil Hagg. unfold missing. rewrite Hagg. apply List.filter_ext_in.
  intros kr Hin. rewrite Forall_forall in Hnil.
  rewrite lookup_insert_ne; [done|]. intros Heq. apply (Hnil kr); [by apply list_elem_of_In|done].
Qed.

Lemma missing_update st st' key a a' krs :
  agg st !! key = Some a -> agg st' = <[key := a']> (agg st) -> missing st' krs = missing st krs.
Proof.
  intros Ha Hagg. unfold missing. apply List.filter_ext. intros kr. rewrite Hagg.
  destruct (decide (fst kr = key)) as [->|]; [|by rewrite lookup_insert_ne].
  by rewrite lookup_insert_eq, Ha.
Qed.

Lemma targets_insert st st' source targets' source' :
  fanout st' = <[source := targets']> (fanout st) ->
  targets st' source' = if decide (source' = source) then targets' else targets st source'.
Proof.
  intros Hf. unfold targets. rewrite Hf. case_decide as Hs; [subst|].
  - by rewrite lookup_insert_eq.
  - by rewrite lookup_insert_ne.
Qed.

(** A record of an edge that is not admitted. *)
Lemma add_rejected krs st kr st' :
  aggregated krs st -> agg st !! fst kr = None -> blocked st (fst kr) ->
  agg st' = agg st -> (forall source, targets st' source = targets st source) ->
  dropped_edges st' + skipped_for_fanout st' = dropped_edges st + skipped_for_fanout st + 1 ->
  aggregated (krs ++ [kr]) st'.
Proof.
  intros [Hc Hs Ht Hn] Hnone Hb Hagg Htg Hcnt. split.
  - intros key. rewrite Hagg, of_key_snoc. specialize (Hc key). unfold blocked in *.
    rewrite Htg, Hagg. case_decide as Hk.
    + subst key. rewrite Hnone. tauto.
    + rewrite app_nil_r. done.
  - by rewrite Hagg.
  - intros source. rewrite Htg. setoid_rewrite Hagg. apply Ht.
  - rewrite Hcnt, Hn, missing_snoc, Hagg, Hnone, length_app. unfold missing. rewrite Hagg. simpl. lia.
Qed.

(** A record that is added. *)
Section accepted.
Context (krs : list keyed) (st st' : AggState) (key : DependencyEdgeKey) (r : TetragonDependencyRecord).
Hypothesis Hst : aggregated krs st.
Hypothesis Hr : well_counted r.
Hypothesis Hok : ~ (agg st !! key = None /\ blocked st key).
Hypothesis Hagg : agg st' = <[key := agg_add r (unwrap_or (agg_new r) (agg st !! key))]> (agg st).
Hypothesis Hfan : fanout st' = <[from key := {[to key]} ∪ targets st (from key)]> (fanout st).

Lemma accepted_targets source :
  targets st' source =
  if decide (source = from key) then {[to key]} ∪ targets st (from key) else targets st source.
Proof. by apply targets_insert. Qed.

Lemma accepted_target_full :
  (MAX_DEP_FANOUT_PER_SOURCE <= size (targets st (from key)))%nat -> to key ∈ targets st (from key).
Proof.
  intros Hfull. destruct (decide (to key ∈ targets st (from key))) as [|Hnot]; [done|].
  exfalso. destruct (agg st !! key) as [a|] eqn:Ha.
  - apply Hnot. apply (agg_targets _ _ Hst). exists key. by rewrite Ha.
  - apply Hok. split; [done|]. right. done.
Qed.

Lemma accepted_targets_full source :
  (MAX_DEP_FANOUT_PER_SOURCE <= size (targets st source))%nat -> targets st' source = targets st source.
Proof.
  intros Hfull. rewrite accepted_targets. case_decide as Hs; [subst source|done].
  pose proof (accepted_target_full Hfull). set_solver.
Qed.

Lemma accepted_size : (size (agg st) <= size (agg st') <= MAX_DEP_EDGES_PER_SNAPSHOT)%nat.
Proof.
  rewrite Hagg, map_size_insert. pose proof (agg_size _ _ Hst).
  destruct (agg st !! key) eqn:Ha; unfold id; [lia|].
  destruct (decide (MAX_DEP_EDGES_PER_SNAPSHOT <= size (agg st))%nat); [|lia].
  exfalso. apply Hok. split; [done|]. by left.
Qed.

Lemma accepted_complete key' :
  match agg st' !! key' with
  | Some a => exists r0 rs, of_key key' (krs ++ [(key, r)]) = r0 :: rs /\ a = summary r0 rs
  | None => of_key key' (krs ++ [(key, r)]) = [] \/ blocked st' key' end.
Proof.
  rewrite Hagg, of_key_snoc. cbn [fst snd]. pose proof (agg_complete _ _ Hst key') as Hc.
  destruct (decide (key = key')) as [<-|Hne].
  - rewrite lookup_insert_eq. destruct (agg st !! key) as [a|] eqn:Ha; simpl.
    + destruct Hc as (r0 & rs & -> & ->). exists r0, (rs ++ [r]). by rewrite summary_snoc.
    + destruct Hc as [->|?]; [|tauto]. exists r, []. by rewrite summary_first.
  - rewrite lookup_insert_ne, app_nil_r by done. destruct (agg st !! key'); [done|].
    destruct Hc as [?|[Hb|[Hfull Hnot]]]; [tauto| |]; right.
    + left. pose proof accepted_size. lia.
    + right. by rewrite accepted_targets_full.
Qed.

Lemma accepted_agg_targets source :
  (size (targets st' source) <= MAX_DEP_FANOUT_PER_SOURCE)%nat /\
  forall target, target ∈ targets st' source <->
    exists key, is_Some (agg st' !! key) /\ from key = source /\ to key = target.
Proof.
  destruct (agg_targets _ _ Hst source) as [Hs Ht]. split.
  - destruct (decide (MAX_DEP_FANOUT_PER_SOURCE <= size (targets st source))%nat) as [Hfull|].
    + by rewrite accepted_targets_full.
    + rewrite accepted_targets. case_decide; [subst source|lia].
      rewrite size_union_alt, size_singleton.
      pose proof (subseteq_size (targets st (from key) ∖ {[to key]}) (targets st (from key))
        ltac:(set_solver)). lia.
  - intros target. rewrite accepted_targets, Hagg. setoid_rewrite lookup_insert_is_Some'.
    case_decide as Hsrc.
    + subst source. rewrite elem_of_union, elem_of_singleton, Ht. naive_solver.
    + rewrite Ht. naive_solver.
Qed.

Lemma accepted_missing : missing st' (krs ++ [(key, r)]) = missing st krs.
Proof.
  rewrite missing_snoc, Hagg. cbn [fst]. rewrite lookup_insert_eq, app_nil_r.
  destruct (agg st !! key) as [a|] eqn:Ha.
  - by eapply missing_update; [exact Ha|rewrite Hagg].
  - eapply missing_insert; [|by rewrite Hagg].
    pose proof (agg_complete _ _ Hst key) as Hc. rewrite Ha in Hc. tauto.
Qed.
End accepted.

Lemma add_rejects key r st :
  agg st !! key = None -> blocked st key ->
  agg (add_record key r st) = agg st /\
  (forall source, targets (add_record key r st) source = targets st source) /\
  dropped_edges (add_record key r st) + skipped_for_fanout (add_record key r st)
  = dropped_edges st + skipped_for_fanout st + 1.
Proof.
  intros Hnone Hb. unfold add_record. rewrite Hnone. cbn [is_some is_none negb].
  rewrite !andb_true_r. destruct (_ <=? size (agg st))%nat eqn:Hmax; [cbn; split_and!; [done..|lia]|].
  apply Nat.leb_gt in Hmax. destruct Hb as [?|[Hfull Hnot]]; [lia|].
  rewrite (proj2 (Nat.leb_le _ _) Hfull), bool_decide_eq_false_2 by done. cbn [andb negb].
  split_and!; [done| |cbn; lia].
  intros source. rewrite (targets_insert st _ (from key) (targets st (from key))) by done.
  by case_decide; subst.
Qed.

Lemma add_accepts key r st :
  ~ (agg st !! key = None /\ blocked st key) ->
  agg (add_record key r st) = <[key := agg_add r (unwrap_or (agg_new r) (agg st !! key))]> (agg st) /\
  fanout (add_record key r st) = <[from key := {[to key]} ∪ targets st (from key)]> (fanout st) /\
  dropped_edges (add_record key r st) = dropped_edges st /\
  skipped_for_fanout (add_record key r st) = skipped_for_fanout st.
Proof.
  intros Hok. unfold add_record. destruct (agg st !! key) as [a|] eqn:Ha; cbn [is_some is_none negb].
  - by rewrite !andb_false_r.
  - rewrite !andb_true_r. destruct (_ <=? size (agg st))%nat eqn:Hmax.
    { exfalso. apply Hok. split; [done|]. left. by apply Nat.leb_le. }
    destruct (_ <=? size (targets st (from key)))%nat eqn:Hfull; cbn [andb]; [|done].
    case_bool_decide as Hin; [done|]. exfalso. apply Hok. split; [done|]. right.
    split; [by apply Nat.leb_le|done].
Qed.

Lemma add_record_aggregated krs st key r :
  aggregated krs st -> well_counted r -> aggregated (krs ++ [(key, r)]) (add_record key r st).
Proof.
  intros Hst Hr.
  destruct (decide (agg st !! key = None /\ blocked st key)) as [[Hnone Hb]|Hok].
  - destruct (add_rejects key r st Hnone Hb) as (Hagg & Htg & Hcnt).
    by apply (add_rejected krs st (key, r)).
  - destruct (add_accepts key r st Hok) as (Hagg & Hfan & Hd & Hsk). split.
    + intros key'. by apply (accepted_complete krs st).
    + by apply (accepted_size krs st _ key r).
    + intros source. by apply (accepted_agg_targets krs st _ key r).
    + rewrite Hd, Hsk, (accepted_missing krs st) by done. apply (agg_counts _ _ Hst).
Qed.

(** ** Lemmas: the lines *)

Lemma as_u64_nonneg x n : as_u64 x = Some n -> 0 <= n.
Proof.
  destruct x; try done. simpl. unfold u64_checked, check_range.
  case_match eqn:Hc; intros; simplify_eq. lia.
Qed.

Lemma get_u64_path_nonneg v pointers d : 0 <= d -> 0 <= unwrap_or d (get_u64_path v pointers).
Proof.
  intros Hd. unfold get_u64_path. destruct (find_map _ pointers) as [n|] eqn:Hn; simpl; [|done].
  apply find_map_some in Hn as (_ & p & _ & _ & Hp & _).
  apply bind_Some in Hp as (x & _ & Hx). by eapply as_u64_nonneg.
Qed.

Lemma parse_flow_counted now v r : parse_tetragon_flow_record now v = Some r -> well_counted r.
Proof.
  unfold parse_tetragon_flow_record. do 2 (case_match; [|done]). intros [= <-].
  split_and!; cbn [rec_bytes rec_packets rec_connections]; by apply get_u64_path_nonneg.
Qed.

Lemma parse_kprobe_counted now v r : parse_tetragon_kprobe_record now v = Some r -> well_counted r.
Proof.
  unfold parse_tetragon_kprobe_record.
  destruct (json_pointer ["process_kprobe"] v) as [kprobe|]; [|done].
  destruct (x ← json_pointer ["function_name"] kprobe; as_str x) as [fn|]; [|done].
  destruct (x ← json_pointer ["args"] kprobe; as_array x) as [args|]; [|done].
  destruct (find_map _ args); [|done].
  set (n := unwrap_or 0 _).
  assert (Hn : 0 <= n).
  { unfold n. destruct (arg ← nth_error args 1; _) as [m|] eqn:Hm; simpl; [|done].
    apply bind_Some in Hm as (arg & _ & Hm). apply bind_Some in Hm as (x & _ & Hm).
    by eapply as_u64_nonneg. }
  clearbody n. destruct (String.eqb fn "tcp_sendmsg"); [|destruct (String.eqb fn "tcp_close"); [|done]];
    (do 2 (case_match; [|done])); intros [= <-]; unfold well_counted;
    cbn [rec_bytes rec_packets rec_connections]; lia.
Qed.

Lemma parse_record_counted now v r : parse_tetragon_record now v = Some r -> well_counted r.
Proof.
  unfold parse_tetragon_record. destruct (parse_tetragon_flow_record now v) as [r'|] eqn:Hf; simpl.
  - intros [= <-]. by eapply parse_flow_counted.
  - apply parse_kprobe_counted.
Qed.

Section lines.
Context `{JsonParser} (pods : gmap string PodIpInfo) (services : gmap string ServiceIpInfo).

(** The record of a line and its edge, if the line has one. *)
Definition line_record (ln : string * Z) : option keyed :=
  if str_is_empty (trim (fst ln)) then None else
  some value := from_str (trim (fst ln)) else None in
  some r := parse_tetragon_record (snd ln) value else None in
  Some (edge_key_of pods services r, r).
Definition records (lines : list (string * Z)) : list keyed :=
  omap line_record (take MAX_TETRAGON_LINES lines).

Lemma same_aggregated krs st st' :
  aggregated krs st -> agg st' = agg st -> fanout st' = fanout st ->
  dropped_edges st' = dropped_edges st -> skipped_for_fanout st' = skipped_for_fanout st ->
  aggregated krs st'.
Proof.
  intros [Hc Hs Ht Hn] Ha Hf Hd Hk. destruct st', st. simpl in *. subst. by split.
Qed.

Lemma add_line_aggregated krs st l now :
  aggregated krs st ->
  aggregated (krs ++ omap line_record [(l, now)]) (add_line pods services l now st).
Proof.
  intros Hst. unfold add_line. simpl. unfold line_record. cbn [fst snd].
  destruct (str_is_empty (trim l)); [by rewrite app_nil_r|].
  destruct (from_str (trim l)) as [v|]; [|rewrite app_nil_r; by apply (same_aggregated _ st)].
  destruct (parse_tetragon_record now v) as [r|] eqn:Hr;
    [|rewrite app_nil_r; by apply (same_aggregated _ st)].
  apply add_record_aggregated; [done|]. by eapply parse_record_counted.
Qed.

Lemma add_lines_aggregated i lines krs st :
  aggregated krs st ->
  aggregated (krs ++ omap line_record (take (MAX_TETRAGON_LINES - i) lines))
    (add_lines pods services i lines st).
Proof.
  revert i krs st. induction lines as [|[l now] lines IH]; intros i krs st Hst; cbn [add_lines].
  - by rewrite take_nil, app_nil_r.
  - destruct (Nat.leb_spec MAX_TETRAGON_LINES i) as [Hi|Hi].
    + specialize (IH (S i) krs (count_line_cap st)). revert IH.
      replace (MAX_TETRAGON_LINES - S i)%nat with 0%nat by lia.
      replace (MAX_TETRAGON_LINES - i)%nat with 0%nat by lia. rewrite !take_0.
      intros IH. apply IH. by apply (same_aggregated _ st).
    + replace (MAX_TETRAGON_LINES - i)%nat with (S (MAX_TETRAGON_LINES - S i)) by lia.
      cbn [take]. change (?x :: ?m) with ([x] ++ m). rewrite omap_app, app_assoc.
      apply IH, add_line_aggregated, Hst.
Qed.

Lemma init_aggregated : aggregated [] agg_init.
Proof.
  split; cbn [agg agg_init fanout dropped_edges skipped_for_fanout].
  - intros key. rewrite lookup_empty. by left.
  - rewrite map_size_empty. lia.
  - intros source. unfold targets. cbn [fanout agg_init]. rewrite lookup_empty.
    change (unwrap_or ∅ None) with (∅ : gset EndpointKey). rewrite size_empty. split; [lia|]. intros t. setoid_rewrite lookup_empty. split; [set_solver|].
    by intros (? & [? ?] & _).
  - done.
Qed.

(** The counters are never negative, and the lines beyond the cap are counted. *)
Definition counting (st : AggState) : Prop := 0 <= dropped_edges st /\ 0 <= skipped_for_fanout st.

Lemma add_record_counting key r st :
  counting st -> counting (add_record key r st) /\
  dropped_for_line_cap (add_record key r st) = dropped_for_line_cap st.
Proof.
  intros [? ?]. unfold add_record, counting.
  repeat case_match; cbn [dropped_edges skipped_for_fanout dropped_for_line_cap]; lia.
Qed.

Lemma add_line_counting l now st :
  counting st -> counting (add_line pods services l now st) /\
  dropped_for_line_cap (add_line pods services l now st) = dropped_for_line_cap st.
Proof.
  intros Hst. unfold add_line. repeat case_match; auto using add_record_counting.
Qed.

Lemma add_lines_counting i lines st :
  counting st -> counting (add_lines pods services i lines st) /\
  dropped_for_line_cap (add_lines pods services i lines st)
  = dropped_for_line_cap st + Z.of_nat (length (drop (MAX_TETRAGON_LINES - i) lines)).
Proof.
  revert i st. induction lines as [|[l now] lines IH]; intros i st Hst; cbn [add_lines].
  - rewrite drop_nil. simpl. split; [done|lia].
  - destruct (Nat.leb_spec MAX_TETRAGON_LINES i) as [Hi|Hi].
    + destruct (IH (S i) (count_line_cap st) Hst) as [Hc ->]. split; [done|].
      replace (MAX_TETRAGON_LINES - S i)%nat with 0%nat by lia.
      replace (MAX_TETRAGON_LINES - i)%nat with 0%nat by lia. rewrite !drop_0. simpl. lia.
    + destruct (add_line_counting l now st Hst) as [Hl Hcap].
      destruct (IH (S i) _ Hl) as [Hc ->]. split; [done|]. rewrite Hcap.
      by replace (MAX_TETRAGON_LINES - i)%nat with (S (MAX_TETRAGON_LINES - S i)) by lia.
Qed.
End lines.

(** ** Lemmas: the inventory *)

Lemma inventory_edges st coverage e :
  In e (edges (inventory_of st coverage)) <-> agg st !! edge_key e = Some (edge_agg e).
Proof.
  cbn [edges inventory_of]. unfold sort_dependency_edges.
  rewrite <- list_elem_of_In, sort_by_permutation, list_elem_of_In, in_map_iff. split.
  - intros ([k a] & <- & Hin). by apply list_elem_of_In, elem_of_map_to_list in Hin.
  - intros He. exists (edge_key e, edge_agg e). split; [by destruct e|].
    by apply list_elem_of_In, elem_of_map_to_list.
Qed.

Lemma inventory_length st coverage : length (edges (inventory_of st coverage)) = size (agg st).
Proof.
  cbn [edges inventory_of]. unfold sort_dependency_edges.
  by rewrite sort_by_permutation, length_map, length_map_to_list.
Qed.

(** The targets of the edges that leave [source]. *)
Definition targets_of (source : EndpointKey) (l : list DependencyEdge) : gset EndpointKey :=
  list_to_set (omap (fun e =>
    if decide (from (edge_key e) = source) then Some (to (edge_key e)) else None) l).

Lemma inventory_targets krs st coverage source :
  aggregated krs st -> targets_of source (edges (inventory_of st coverage)) = targets st source.
Proof.
  intros Hst. apply set_eq. intros target.
  rewrite (proj2 (agg_targets _ _ Hst source)). unfold targets_of.
  rewrite elem_of_list_to_set, list_elem_of_omap. split.
  - intros (e & Hin & He). rewrite list_elem_of_In, inventory_edges in Hin.
    case_decide; simplify_eq. exists (edge_key e). by rewrite Hin.
  - intros (key & [a Ha] & Hf & Ht). exists {| edge_key := key; edge_agg := a |}.
    rewrite list_elem_of_In, inventory_edges. split; [done|]. cbn [edge_key].
    rewrite decide_True by done. by rewrite Ht.
Qed.

Lemma sat_add_positive a b : 0 <= a -> 0 <= b -> 0 < u64_sat_add a b <-> 0 < a \/ 0 < b.
Proof. unfold u64_sat_add, u64_max. lia. Qed.

Lemma sat_add_nonneg a b : 0 <= a -> 0 <= b -> 0 <= u64_sat_add a b.
Proof. unfold u64_sat_add, u64_max. lia. Qed.

Lemma inventory_truncated st coverage :
  counting st -> 0 <= dropped_for_line_cap st ->
  truncated (inventory_of st coverage) = true <->
  0 < dropped_edges st + skipped_for_fanout st \/ 0 < dropped_for_line_cap st.
Proof.
  intros [Hd Hs] Hl. cbn [truncated inventory_of]. rewrite Z.ltb_lt.
  rewrite !sat_add_positive by auto using sat_add_nonneg. lia.
Qed.

Lemma missing_positive st krs :
  0 < Z.of_nat (length (missing st krs)) <-> exists kr, In kr krs /\ agg st !! fst kr = None.
Proof.
  unfold missing. split.
  - destruct (List.filter _ krs) as [|kr l] eqn:Hf; simpl; [lia|]. intros _. exists kr.
    assert (Hin : In kr (kr :: l)) by by left. rewrite <- Hf in Hin.
    apply filter_In in Hin as [Hin Hk]. split; [done|]. by destruct (agg st !! fst kr).
  - intros (kr & Hin & Hk).
    assert (Hf : In kr (List.filter (fun kr => negb (is_some (agg st !! fst kr))) krs)).
    { apply filter_In. by rewrite Hk. }
    destruct (List.filter _ krs); [done|]. simpl. lia.
Qed.

(** What an inventory promises about the records [krs] of [lines] lines. *)
Definition reported (inv : DependencyInventory) (key : DependencyEdgeKey) : Prop :=
  exists e, In e (edges inv) /\ edge_key e = key.

(** The records whose edge is left out. *)
Definition left_out (inv : DependencyInventory) (krs : list keyed) : list keyed :=
  List.filter (fun kr => negb (existsb (fun e => bool_decide (edge_key e = fst kr)) (edges inv))) krs.

Record summarises (krs : list keyed) (lines : nat) (inv : DependencyInventory) : Prop := {
  edges_complete : forall e, In e (edges inv) ->
    exists r rs, of_key (edge_key e) krs = r :: rs /\ edge_agg e = summary r rs;
  omissions : forall kr, In kr krs -> reported inv (fst kr) \/
    length (edges inv) = MAX_DEP_EDGES_PER_SNAPSHOT \/
    (size (targets_of (from (fst kr)) (edges inv)) = MAX_DEP_FANOUT_PER_SOURCE /\
     to (fst kr) ∉ targets_of (from (fst kr)) (edges inv));
  edges_cap : (length (edges inv) <= MAX_DEP_EDGES_PER_SNAPSHOT)%nat;
  targets_cap : forall source,
    (size (targets_of source (edges inv)) <= MAX_DEP_FANOUT_PER_SOURCE)%nat;
  edges_sorted : StronglySorted (cmp_le edge_compare) (edges inv);
  truncation : truncated inv = true <->
    (exists kr, In kr krs /\ ~ reported inv (fst kr)) \/ (MAX_TETRAGON_LINES < lines)%nat;
  drops : inv_dropped_edges inv =
    Z.min u64_max (Z.of_nat (length (left_out inv krs) + (lines - MAX_TETRAGON_LINES))) }.

Lemma inventory_reported st coverage key :
  reported (inventory_of st coverage) key <-> is_Some (agg st !! key).
Proof.
  unfold reported. setoid_rewrite inventory_edges. split.
  - by intros (e & He & <-); eexists.
  - intros [a Ha]. by exists {| edge_key := key; edge_agg := a |}.
Qed.

Lemma left_out_missing st coverage krs : left_out (inventory_of st coverage) krs = missing st krs.
Proof.
  unfold left_out, missing. apply List.filter_ext. intros kr. f_equal. apply eq_true_iff_eq.
  assert (Hr : existsb (fun e => bool_decide (edge_key e = fst kr)) (edges (inventory_of st coverage)) = true
    <-> reported (inventory_of st coverage) (fst kr)).
  { rewrite existsb_exists. split; intros (x & Hin & Heq); exists x; (split; [exact Hin|]).
    - exact (bool_decide_eq_true_1 _ Heq).
    - exact (bool_decide_eq_true_2 _ Heq). }
  rewrite Hr, inventory_reported. destruct (agg st !! fst kr); simpl; split; try done.
Qed.

Lemma inventory_summarises krs st coverage lines :
  aggregated krs st -> counting st ->
  dropped_for_line_cap st = Z.of_nat (lines - MAX_TETRAGON_LINES) ->
  summarises krs lines (inventory_of st coverage).
Proof.
  intros Hst Hcnt Hcap. split.
  - intros e He%inventory_edges. pose proof (agg_complete _ _ Hst (edge_key e)) as Hc.
    by rewrite He in Hc.
  - intros [key r] Hin. cbn [fst]. rewrite inventory_reported, inventory_length.
    rewrite !(inventory_targets krs st) by done.
    pose proof (agg_complete _ _ Hst key) as Hc. destruct (agg st !! key); [by left|].
    right. pose proof (agg_size _ _ Hst). pose proof (proj1 (agg_targets _ _ Hst (from key))).
    destruct Hc as [Hnil|[Hb|[Hb Hnot]]]; [|left; lia|right; split; [lia|done]].
    exfalso. apply of_key_nil in Hnil. rewrite Forall_forall in Hnil.
    by apply (Hnil (key, r)); [apply list_elem_of_In|].
  - rewrite inventory_length. apply (agg_size _ _ Hst).
  - intros source. rewrite (inventory_targets krs st) by done. apply (agg_targets _ _ Hst).
  - apply sort_by_sorted. apply _.
  - rewrite inventory_truncated by (try done; lia).
    rewrite (agg_counts _ _ Hst), missing_positive, Hcap.
    setoid_rewrite inventory_reported. setoid_rewrite <- eq_None_not_Some.
    assert (0 < Z.of_nat (lines - MAX_TETRAGON_LINES) <-> (MAX_TETRAGON_LINES < lines)%nat) by lia.
    tauto.
  - rewrite left_out_missing. cbn [inv_dropped_edges inventory_of]. unfold u64_sat_add.
    pose proof (agg_counts _ _ Hst). destruct Hcnt. lia.
Qed.

Section inventory.
Context `{JsonParser}.

(** C24: an enabled collection sums up, for every edge it reports, all records
    of that edge among the first 20000 lines, saturating at 64 bits; an edge of
    which there is a record is left out only when there are 2000 edges or the
    source has 200 other targets; there are never more; the edges are sorted;
    the number of dropped records is that of the records whose edge is left out
    and of the lines after the first 20000, saturating at 64 bits, and the
    inventory is marked as truncated exactly if there is one; and the coverage is
    that of the streams. *)
Theorem dependency_inventory_exact pods services body clock coverage :
  let lines := imap (fun i l => (l, clock i)) (str_lines body) in
  summarises (records (build_pod_ip_index pods) (build_service_ip_index services) lines)
    (length lines) (collect_dependency_inventory true pods services body clock coverage) /\
  inv_coverage (collect_dependency_inventory true pods services body clock coverage) = coverage.
Proof.
  intros lines. unfold collect_dependency_inventory. cbn [negb]. fold lines.
  pose proof (add_lines_aggregated (build_pod_ip_index pods) (build_service_ip_index services)
    0 lines [] agg_init init_aggregated) as Hst.
  pose proof (add_lines_counting (build_pod_ip_index pods) (build_service_ip_index services)
    0 lines agg_init ltac:(split; done)) as [Hcnt Hcap].
  rewrite Nat.sub_0_r in Hst, Hcap. rewrite length_drop in Hcap.
  split; [by apply inventory_summarises|done].
Qed.
End inventory.

(** ** Events and records *)

(** The record that an event of tetragon.rs stands for. *)
Definition record_of_event (now : Z) (send : bool) (s : Sock) (amount : Z) (t : option Timestamp)
    : TetragonDependencyRecord :=
  {| src_ip := normalize_tetragon_ip (saddr s); dst_ip := normalize_tetragon_ip (daddr s);
     src_endpoint := None; dst_endpoint := None;
     protocol := normalize_tetragon_protocol (sock_protocol s);
     destination_port := as_u16 (dport s);
     rec_bytes := if send then amount else 0; rec_packets := if send then 1 else 0;
     rec_connections := if send then 0 else 1;
     timestamp_unix_ms := unwrap_or now (t ← t; timestamp_ms t) |}.

Lemma u64_checked_in n : 0 <= n <= u32_max -> u64_checked n = Some n.
Proof.
  unfold u64_checked, check_range, u32_max, u64_max. intros Hn.
  by rewrite (proj2 (Z.leb_le 0 n)), (proj2 (Z.leb_le n _)) by lia.
Qed.

Lemma int_arg_range args :
  (forall n, In (IntArg n) args -> n <= u32_max) ->
  0 <= unwrap_or 0 (int_arg <$> nth_error args 1) <= u32_max.
Proof.
  intros Hint. unfold u32_max in *. destruct (nth_error args 1) as [[|n|]|] eqn:Hn; simpl; try lia.
  apply nth_error_In, Hint in Hn. lia.
Qed.

(** Reading back the two shapes of a line. *)
Definition sock_json (s : Sock) : json :=
  jobj [("saddr", JStr (saddr s)); ("daddr", JStr (daddr s)); ("protocol", JStr (sock_protocol s));
        ("dport", JNum (dport s))].
Definition kprobe_json (fn : string) (ts : Z) (args : list json) : json :=
  jobj [("process_kprobe", jobj [("function_name", JStr fn); ("timestamp_unix_ms", JNum ts);
                                 ("args", JArr args)])].

Local Opaque u64_checked.
Lemma parse_kprobe_json now fn ts s rest :
  u64_checked (dport s) = Some (dport s) -> u64_checked ts = Some ts ->
  fn = "tcp_sendmsg" \/ fn = "tcp_close" ->
  parse_tetragon_record now (kprobe_json fn ts (jobj [("sock_arg", sock_json s)] :: rest)) =
  let send := String.eqb fn "tcp_sendmsg" in
  Some {| src_ip := normalize_tetragon_ip (saddr s); dst_ip := normalize_tetragon_ip (daddr s);
          src_endpoint := None; dst_endpoint := None;
          protocol := normalize_tetragon_protocol (sock_protocol s);
          destination_port := as_u16 (dport s);
          rec_bytes := if send then unwrap_or 0 (arg ← nth_error rest 0;
                         x ← json_pointer ["int_arg"] arg; as_u64 x) else 0;
          rec_packets := if send then 1 else 0;
          rec_connections := if send then 0 else 1;
          timestamp_unix_ms := ts |}.
Proof.
  intros Hp Ht Hfn. unfold parse_tetragon_record.
  replace (parse_tetragon_flow_record now _) with (@None TetragonDependencyRecord) by reflexivity.
  cbn [opt_or]. unfold parse_tetragon_kprobe_record.
  replace (json_pointer ["process_kprobe"] _) with (Some (JObj [("args",
    JArr (jobj [("sock_arg", sock_json s)] :: rest)); ("function_name", JStr fn);
    ("timestamp_unix_ms", JNum ts)])) by reflexivity.
  replace (sock_json s) with (JObj [("daddr", JStr (daddr s)); ("dport", JNum (dport s));
    ("protocol", JStr (sock_protocol s)); ("saddr", JStr (saddr s))]) by reflexivity.
  assert (Hport : get_u64_path (JObj [("daddr", JStr (daddr s)); ("dport", JNum (dport s));
    ("protocol", JStr (sock_protocol s)); ("saddr", JStr (saddr s))]) [["dport"]] = Some (dport s))
    by (unfold get_u64_path; simpl; by rewrite Hp).
  assert (Htime : get_u128_path (JObj [("args", JArr (jobj [("sock_arg",
      JObj [("daddr", JStr (daddr s)); ("dport", JNum (dport s));
            ("protocol", JStr (sock_protocol s)); ("saddr", JStr (saddr s))])] :: rest));
      ("function_name", JStr fn); ("timestamp_unix_ms", JNum ts)])
    [["timestamp_unix_ms"]; ["time_unix_ms"]; ["flow"; "timestamp_unix_ms"]] = Some ts)
    by (unfold get_u128_path; simpl; by rewrite Ht).
  set (sock := JObj [("daddr", _); _; _; _]) in *.
  replace (x ← json_pointer ["function_name"] _; as_str x) with (Some fn) by reflexivity.
  replace (x ← json_pointer ["args"] _; as_array x) with
    (Some (jobj [("sock_arg", sock)] :: rest)) by reflexivity.
  replace (find_map _ _) with (Some sock) by reflexivity.
  rewrite Hport, Htime. by destruct Hfn as [-> | ->].
Qed.

(** C37: the line that tetragon.rs writes for an event is read back by
    collector.rs as the record of that event: the addresses without the
    IPv4-mapped prefix, the port, and for a send the second argument if it is a
    positive integer, one packet; for a close one connection. *)
Theorem event_record_roundtrip now now' kprobe t v :
  (forall s, In (SockArg s) (kprobe_args kprobe) -> 0 <= dport s <= u32_max) ->
  (forall n, In (IntArg n) (kprobe_args kprobe) -> n <= u32_max) ->
  event_value now {| event_kprobe := Some kprobe; event_time := t |} = Event v ->
  exists s send, In (SockArg s) (kprobe_args kprobe) /\
    send = String.eqb (function_name kprobe) "tcp_sendmsg" /\
    parse_tetragon_record now' v =
    Some (record_of_event now send s (unwrap_or 0 (int_arg <$> nth_error (kprobe_args kprobe) 1)) t).
Proof.
  intros Hport Hint%int_arg_range. unfold event_value. cbn [event_kprobe event_time].
  set (bytes := unwrap_or 0 (int_arg <$> _)) in *.
  destruct (negb _ && negb _) eqn:Hfn; [done|].
  destruct (find_map sock_arg (kprobe_args kprobe)) as [sock|] eqn:Hsock; [|done].
  destruct (u64_checked _) as [ts|] eqn:Hts; [|done].
  apply find_map_some in Hsock as (l1 & arg & l2 & Hargs & Harg & _).
  destruct arg as [s| |]; [|done..]. injection Harg as <-. fold (sock_json s). intros [= <-].
  assert (Hin : In (SockArg s) (kprobe_args kprobe))
    by (rewrite Hargs; apply in_app_iff; right; by left).
  exists s. eexists. split_and!; [done..|].
  assert (Hts' : ts = unwrap_or now (t ← t; timestamp_ms t) /\ u64_checked ts = Some ts).
  { Local Transparent u64_checked. unfold u64_checked, check_range in *. case_match eqn:Hc; simplify_eq.
    by rewrite Hc. }
  destruct Hts' as [-> Hts']. apply Hport, u64_checked_in in Hin.
  apply u64_checked_in in Hint.
  destruct (String.eqb_spec (function_name kprobe) "tcp_sendmsg") as [->|Hne].
  - etransitivity; [apply (parse_kprobe_json now' "tcp_sendmsg"); auto|].
    cbv zeta. change (arg ← nth_error _ _; _) with (u64_checked bytes). by rewrite Hint.
  - destruct (String.eqb_spec (function_name kprobe) "tcp_close") as [->|]; [|done].
    etransitivity; [apply (parse_kprobe_json now' "tcp_close"); auto|]. done.
Qed.

Definition demo_kprobe : Kprobe :=
  {| function_name := "tcp_sendmsg";
     kprobe_args := [SockArg {| saddr := "::ffff:10.42.0.11"; daddr := "10.42.1.233";
                                sock_protocol := "IPPROTO_TCP"; dport := 57924 |}; IntArg 39] |}.
Definition demo_event : EventResponse :=
  {| event_kprobe := Some demo_kprobe; event_time := Some {| ts_seconds := 7; ts_nanos := 5000000 |} |}.
Definition demo_event_json : json :=
  match event_value 0 demo_event with Event v => v | _ => JNull end.

Lemma event_record_roundtrip_witness :
  event_value 0 demo_event = Event demo_event_json /\
  exists s send, In (SockArg s) (kprobe_args demo_kprobe) /\
    send = String.eqb (function_name demo_kprobe) "tcp_sendmsg" /\
    parse_tetragon_record 0 demo_event_json =
    Some (record_of_event 0 send s 39 (event_time demo_event)).
Proof.
  split; [reflexivity|].
  apply (event_record_roundtrip 0 0 demo_kprobe (event_time demo_event)).
  - intros s [Hs|[Hs|[]]]; [injection Hs as <-; vm_compute; split; discriminate|discriminate].
  - intros n [Hn|[Hn|[]]]; [discriminate|injection Hn as <-; vm_compute; discriminate].
  - reflexivity.
Defined.

Example demo_record :
  (r ← parse_tetragon_record 0 demo_event_json;
   Some (src_ip r, dst_ip r, protocol r, destination_port r, rec_bytes r, timestamp_unix_ms r))
  = Some ("10.42.0.11", "10.42.1.233", "tcp", 57924, 39, 7005).
Proof. vm_compute. reflexivity. Qed.
