(* ===== verification/Tech.v ===== *)
(** * Technology detection (tech.rs, container_technology of collector.rs)

    What a container runs, from its image reference, its command line, and the
    labels and annotations of its pod. *)
From S2P Require Import Prelude RustStr Text Unicode.
Local Open Scope string_scope.

Record Technology := {
  vendor : option string; product : option string; version : option string;
  language : option string; tech_source : string; subtype : option string }.

(** ** Image references *)

Definition strip_registry (image : string) : string :=
  match split_once "/" image with
  | Some (head, rest) =>
      if str_contains "." head || str_contains ":" head || String.eqb head "localhost"
      then rest else image
  | None => image
  end.

Definition split_tag (repo_with_tag : string) : string * option string :=
  match split_once "@" repo_with_tag with
  | Some (repo, _) => (repo, None)
  | None =>
      match rsplit_once ":" repo_with_tag with
      | Some (repo, tag) =>
          if negb (str_contains "/" tag) then (repo, Some tag) else (repo_with_tag, None)
      | None => (repo_with_tag, None)
      end
  end.

Definition version_suffixes : list string :=
  ["-alpine"; "-slim"; "-jre"; "-jdk"; "-bullseye"; "-bookworm"; "-distroless"; "-ubi"; "-ubi8";
   "-ubi9"].
Definition normalize_version (tag : string) : string :=
  fold_left (fun v suffix => unwrap_or v (strip_suffix suffix v)) version_suffixes
    (trim_start_matches "v" tag).

(** ** Rules *)

Record Rule := {
  rule_vendor : string; rule_product : string; rule_language : string;
  names : list string; prefixes : list string }.
Definition rule (v p l : string) (ns ps : list string) : Rule :=
  {| rule_vendor := v; rule_product := p; rule_language := l; names := ns; prefixes := ps |}.

Definition matches (r : Rule) (name : string) : bool :=
  if existsb (String.eqb name) (names r) then true
  else existsb (fun p => starts_with p name) (prefixes r).

Definition RULES_web : list Rule :=
  [rule "nginx" "nginx" "C" ["nginx"; "nginx-unprivileged"] [];
   rule "apache" "httpd" "C" ["httpd"] [];
   rule "haproxy" "haproxy" "C" ["haproxy"] [];
   rule "envoy" "envoy" "C++" ["envoy"] [];
   rule "traefik" "traefik" "Go" ["traefik"] [];
   rule "caddy" "caddy" "Go" ["caddy"] []].

Definition RULES_databases : list Rule :=
  [rule "postgresql" "postgres" "C" ["postgres"; "postgresql"] ["postgres-"];
   rule "mysql" "mysql" "C++" ["mysql"] [];
   rule "mariadb" "mariadb" "C++" ["mariadb"] [];
   rule "mongodb" "mongodb" "C++" ["mongo"; "mongodb"] [];
   rule "redis" "redis" "C" ["redis"] [];
   rule "elastic" "elasticsearch" "Java" ["elasticsearch"] [];
   rule "elastic" "kibana" "JavaScript" ["kibana"] [];
   rule "influxdata" "influxdb" "Go" ["influxdb"] [];
   rule "cockroachdb" "cockroachdb" "Go" ["cockroach"] []].

Definition RULES_messaging : list Rule :=
  [rule "rabbitmq" "rabbitmq" "Erlang" ["rabbitmq"] [];
   rule "apache" "kafka" "Java" ["kafka"] ["cp-kafka"; "confluent"];
   rule "nats" "nats" "Go" ["nats"] [];
   rule "apache" "zookeeper" "Java" ["zookeeper"] [];
   rule "memcached" "memcached" "C" ["memcached"] [];
   rule "keycloak" "keycloak" "Java" ["keycloak"] [];
   rule "hashicorp" "vault" "Go" ["vault"] [];
   rule "hashicorp" "consul" "Go" ["consul"] []].

Definition RULES_runtimes : list Rule :=
  [rule "oracle" "java" "Java" ["openjdk"] ["eclipse-temurin"; "amazoncorretto"; "ibm-semeru-runtimes"];
   rule "nodejs" "node" "JavaScript" ["node"] [];
   rule "python" "python" "Python" ["python"] [];
   rule "golang" "go" "Go" ["golang"] [];
   rule "rust-lang" "rust" "Rust" ["rust"] [];
   rule "microsoft" "dotnet" "C#" [] ["dotnet"];
   rule "ruby" "ruby" "Ruby" ["ruby"] [];
   rule "php" "php" "PHP" ["php"] [];
   rule "busybox" "busybox" "C" ["busybox"] [];
   rule "alpine" "alpine" "" ["alpine"] [];
   rule "debian" "debian" "" ["debian"] [];
   rule "ubuntu" "ubuntu" "" ["ubuntu"] [];
   rule "distroless" "distroless" "" ["distroless"] []].

Definition RULES_observability : list Rule :=
  [rule "prometheus" "prometheus" "Go" ["prometheus"] [];
   rule "grafana" "grafana" "Go" ["grafana"] [];
   rule "grafana" "loki" "Go" ["loki"] [];
   rule "grafana" "promtail" "Go" ["promtail"] [];
   rule "opentelemetry" "otel-collector" "Go" ["otelcol"; "opentelemetry-collector"] [];
   rule "elastic" "logstash" "Java" ["logstash"] [];
   rule "fluent" "fluentd" "Ruby" ["fluentd"] [];
   rule "fluent" "fluent-bit" "C" ["fluent-bit"] []].

Definition RULES_kubernetes : list Rule :=
  [rule "kubernetes" "kube-apiserver" "Go" ["kube-apiserver"] [];
   rule "kubernetes" "kube-controller-manager" "Go" ["kube-controller-manager"] [];
   rule "kubernetes" "kube-scheduler" "Go" ["kube-scheduler"] [];
   rule "kubernetes" "kube-proxy" "Go" ["kube-proxy"] [];
   rule "kubernetes" "coredns" "Go" ["coredns"] [];
   rule "kubernetes" "etcd" "Go" ["etcd"] [];
   rule "openshift" "ose" "Go" [] ["ose-"]].

Definition RULES_mesh : list Rule :=
  [rule "istio" "istio-proxy" "C++" ["proxyv2"] [];
   rule "linkerd" "linkerd-proxy" "Rust" ["proxy"] ["linkerd2-proxy"];
   rule "jaeger" "jaeger-agent" "Go" ["jaeger-agent"] [];
   rule "jaeger" "jaeger-collector" "Go" ["jaeger-collector"] [];
   rule "jaeger" "jaeger-query" "Go" ["jaeger-query"] []].

Definition RULES : list Rule :=
  RULES_web ++ RULES_databases ++ RULES_messaging ++ RULES_runtimes ++ RULES_observability ++ RULES_kubernetes ++ RULES_mesh.

Definition non_empty_text (s : string) : option string := if str_is_empty s then None else Some s.

Definition subtype_of_product (p : string) : option string :=
  if String.eqb p "postgres" then Some "postgresql" else None.

Definition detect (image : string) : Technology :=
  let '(repo, tag) := split_tag (strip_registry image) in
  let repo_lower := to_lowercase repo in
  if starts_with "distroless/" repo_lower || str_contains "/distroless/" repo_lower then
    {| vendor := Some "distroless"; product := Some "distroless";
       version := normalize_version <$> tag; language := None; tech_source := "image";
       subtype := None |}
  else
  let name := to_lowercase (last_segment "/" repo) in
  match find_first (fun r => matches r name) RULES with
  | Some r =>
      {| vendor := Some (rule_vendor r); product := Some (rule_product r);
         version := normalize_version <$> tag; language := non_empty_text (rule_language r);
         tech_source := "image"; subtype := subtype_of_product (rule_product r) |}
  | None =>
      {| vendor := None; product := Some name; version := normalize_version <$> tag;
         language := None; tech_source := "image"; subtype := None |}
  end.

Definition stack (v : option string) (p : string) (l : option string) (source st : string) : Technology :=
  {| vendor := v; product := Some p; version := None; language := l; tech_source := source;
     subtype := Some st |}.

Definition detect_application_stack_from_image (image : string) : option Technology :=
  let lower_full := to_lowercase image in
  let '(repo_no_tag, _) := split_tag image in
  let repo_lower := to_lowercase (strip_registry repo_no_tag) in
  let name := last_segment "/" repo_lower in
  if starts_with "container-registry.oracle.com/database/" lower_full
  then Some (stack (Some "oracle") "oracle-database" None "image" "oracle_database") else
  if starts_with "gvenzl/oracle-" repo_lower
  then Some (stack (Some "gvenzl") "oracle-database" None "image" "oracle_database") else
  if String.eqb repo_lower "oracle/database" || ends_with "/oracle/database" repo_lower
  then Some (stack (Some "oracle") "oracle-database" None "image" "oracle_database") else
  if str_contains "springboot" repo_lower || str_contains "spring-boot" repo_lower
  then Some (stack None "spring-boot" (Some "Java") "image" "spring_boot") else
  if starts_with "angular-" name || str_contains "-ng-" name || starts_with "ng-" name
  then Some (stack None "angular" None "image" "angular") else None.

(** ** Command lines *)

Record ProcessRule := {
  executable : string; proc_vendor : string; proc_product : string; proc_language : string }.
Definition process_rule (e v p l : string) : ProcessRule :=
  {| executable := e; proc_vendor := v; proc_product := p; proc_language := l |}.

Definition PROCESS_RULES : list ProcessRule :=
  [process_rule "java" "eclipse" "java" "Java";
   process_rule "node" "openjs" "nodejs" "JavaScript";
   process_rule "python" "python-software-foundation" "python" "Python";
   process_rule "python3" "python-software-foundation" "python" "Python";
   process_rule "ruby" "" "ruby" "Ruby";
   process_rule "php" "" "php" "PHP";
   process_rule "php-fpm" "" "php-fpm" "PHP";
   process_rule "nginx" "nginx" "nginx" "C";
   process_rule "httpd" "apache" "httpd" "C";
   process_rule "apache2" "apache" "httpd" "C";
   process_rule "haproxy" "haproxy" "haproxy" "C";
   process_rule "envoy" "envoy-proxy" "envoy" "C++";
   process_rule "traefik" "traefik" "traefik" "Go";
   process_rule "caddy" "caddy" "caddy" "Go";
   process_rule "redis-server" "redis-labs" "redis" "C";
   process_rule "postgres" "postgresql" "postgres" "C";
   process_rule "postmaster" "postgresql" "postgres" "C";
   process_rule "mysqld" "oracle" "mysql" "C++";
   process_rule "mysqld_safe" "oracle" "mysql" "C++";
   process_rule "mariadbd" "mariadb" "mariadb" "C++";
   process_rule "mongod" "mongodb" "mongodb" "C++";
   process_rule "rabbitmq-server" "vmware" "rabbitmq" "Erlang";
   process_rule "oracle" "oracle" "oracle-database" "C";
   process_rule "dbca" "oracle" "oracle-database" "C";
   process_rule "sqlplus" "oracle" "oracle-database" "C"].

Definition SPRING_BOOT_JAR_MARKERS : list string := ["spring"; "springboot"].
Definition SPRING_BOOT_FLAG_MARKERS : list string :=
  ["-dspring.profiles.active"; "spring.profiles.active"].

Definition with_subtype (st : string) (t : Technology) : Technology :=
  {| vendor := vendor t; product := product t; version := version t; language := language t;
     tech_source := tech_source t; subtype := Some st |}.
Definition with_version (v : option string) (t : Technology) : Technology :=
  {| vendor := vendor t; product := product t; version := v; language := language t;
     tech_source := tech_source t; subtype := subtype t |}.

Definition refine_spring_boot (tech : Technology) (command args : list string) : Technology :=
  let is_java := match product tech with Some p => String.eqb p "java" | None => false end
    || existsb (fun entry => String.eqb (last_segment "/" entry) "java") command in
  if negb is_java then tech else
  let has_marker := existsb (fun arg =>
    existsb (fun m => str_contains m (to_lowercase arg)) SPRING_BOOT_JAR_MARKERS
    || existsb (fun m => str_contains m (to_lowercase arg)) SPRING_BOOT_FLAG_MARKERS)
    (command ++ args) in
  if has_marker then with_subtype "spring_boot" tech else tech.

Definition is_version_like (value : string) : bool :=
  let v := trim value in
  if str_is_empty v then false else
  str_all (fun a => is_ascii_alphanumeric a || Ascii.eqb a "." || Ascii.eqb a "-" || Ascii.eqb a "_") v
  && match v with String a _ => is_ascii_digit a | EmptyString => false end.

(** A candidate for the version, trimmed: one that is empty or does not look
    like a version is passed over. *)
Definition version_candidate (text : string) : option string :=
  let v := trim text in
  if str_is_empty v then None else if is_version_like v then Some v else None.

(** One argument: an empty [--version=] skips the second test. *)
Definition version_flag (arg : string) : option string :=
  match strip_prefix "--version=" arg with
  | Some part => if str_is_empty (trim part) then None else
      match version_candidate part with
      | Some v => Some v
      | None => part ← strip_prefix "-version=" arg; version_candidate part
      end
  | None => part ← strip_prefix "-version=" arg; version_candidate part
  end.

(** [args.windows(2)]. *)
Fixpoint version_pair (args : list string) : option string :=
  match args with
  | flag :: (value :: _) as rest =>
      if String.eqb flag "--version" || String.eqb flag "-version"
      then match version_candidate value with Some v => Some v | None => version_pair rest end
      else version_pair rest
  | _ => None
  end.

Definition extract_process_version (args : list string) : option string :=
  match find_map version_flag args with Some v => Some v | None => version_pair args end.

Definition executables (command args : list string) : list string :=
  List.filter (fun name => negb (str_is_empty name)) (map (last_segment "/") (command ++ args)).

Definition detect_from_process (command args : list string) : option Technology :=
  r ← find_map (fun exe => find_first (fun r => String.eqb exe (executable r)) PROCESS_RULES)
        (executables command args);
  Some {| vendor := non_empty_text (proc_vendor r); product := Some (proc_product r);
          version := normalize_version <$> extract_process_version args;
          language := non_empty_text (proc_language r); tech_source := "process";
          subtype := subtype_of_product (proc_product r) |}.

(** ** Labels and annotations *)

Definition matches_stack_label_key (key : string) : bool :=
  String.eqb key "app.kubernetes.io/component" || String.eqb key "app.kubernetes.io/runtime".

Definition stack_of_label (value : string) : option Technology :=
  let v := to_lowercase value in
  if existsb (String.eqb v) ["postgres"; "postgresql"]
  then Some (stack (Some "postgresql") "postgres" (Some "C") "labels" "postgresql")
  else if String.eqb v "angular" then Some (stack None "angular" None "labels" "angular")
  else if existsb (String.eqb v) ["spring-boot"; "spring_boot"; "springboot"]
  then Some (stack None "spring-boot" (Some "Java") "labels" "spring_boot")
  else if existsb (String.eqb v) ["oracle"; "oracle-database"; "oracle_database"]
  then Some (stack (Some "oracle") "oracle-database" None "labels" "oracle_database")
  else None.

Definition annotation_stack (annotation : string * string) : option Technology :=
  let '(key, value) := annotation in
  if String.eqb key "angular.io/version"
  then Some (with_version (Some (trim value)) (stack None "angular" None "labels" "angular"))
  else if String.eqb key "app.spring.io/version"
  then Some (with_version (Some (trim value)) (stack None "spring-boot" (Some "Java") "labels" "spring_boot"))
  else None.

Definition annotation_version_for_stack (st : option string) (annotations : list (string * string))
    : option string :=
  st ← st;
  find_map (fun '(key, value) =>
    if (String.eqb st "angular" && String.eqb key "angular.io/version")
       || (String.eqb st "spring_boot" && String.eqb key "app.spring.io/version")
    then Some (trim value) else None) annotations.

Definition detect_from_labels (labels annotations : list (string * string)) : option Technology :=
  match find_map (fun '(key, value) =>
          if matches_stack_label_key key then stack_of_label value else None) labels with
  | None => find_map annotation_stack annotations
  | Some tech =>
      Some (match version tech, annotation_version_for_stack (subtype tech) annotations with
            | None, Some v => with_version (Some v) tech
            | _, _ => tech end)
  end.

(** ** Containers (collector.rs) *)

Definition refine_with_application_stack_image (tech : Technology) (image : string) : Technology :=
  match subtype tech with
  | Some _ => tech
  | None =>
      match detect_application_stack_from_image image with
      | Some s => {| vendor := vendor tech; product := product tech; version := version tech;
                     language := language tech; tech_source := tech_source tech;
                     subtype := subtype s |}
      | None => tech
      end
  end.

(** [image], [command] and [args] of the container, the labels and annotations
    of its pod. *)
Definition container_technology (image : option string) (command args : option (list string))
    (pod_labels pod_annotations : list (string * string)) (tech_detect_process : bool) : Technology :=
  let image := unwrap_or "" image in
  match detect_from_labels pod_labels pod_annotations with
  | Some s => s
  | None =>
      if negb tech_detect_process then refine_with_application_stack_image (detect image) image else
      let image_tech := detect image in
      let command := unwrap_or [] command in
      let args := unwrap_or [] args in
      let detected := unwrap_or image_tech (detect_from_process command args) in
      let refined := refine_spring_boot detected command args in
      refine_with_application_stack_image refined image
  end.

(** ** Lemmas: image references *)

Lemma split_once_free c sep s : free_of c s = true -> split_once (String c sep) s = None.
Proof.
  unfold free_of. induction s as [|a s IH]; simpl; [done|]. intros [Ha Hs]%andb_true_iff.
  apply negb_true_iff in Ha. by rewrite Ha, IH.
Qed.

Lemma split_once_first c l r : free_of c l = true -> split_once (String c "") (l +s+ String c r) = Some (l, r).
Proof.
  unfold free_of. induction l as [|a l IH]; simpl; [by rewrite Ascii.eqb_refl|].
  intros [Ha Hl]%andb_true_iff. apply negb_true_iff in Ha. by rewrite Ha, IH.
Qed.

Lemma str_contains_free c s : free_of c s = true -> str_contains (String c "") s = false.
Proof.
  unfold free_of, str_contains. induction s as [|a s IH]; simpl; [done|].
  intros [Ha Hs]%andb_true_iff. apply negb_true_iff in Ha. unfold starts_with. simpl. rewrite Ha. simpl. by apply IH.
Qed.

Lemma free_of_app c s t : free_of c (s +s+ t) = free_of c s && free_of c t.
Proof. apply str_all_app. Qed.

Lemma last_segment_name dir name :
  free_of "/" name = true -> dir = "" \/ (exists d, dir = d +s+ "/") ->
  last_segment "/" (dir +s+ name) = name.
Proof.
  intros Hn [->|[d ->]]; unfold last_segment.
  - change ("" +s+ name) with name. by rewrite rsplit_once_free.
  - rewrite append_assoc. by rewrite (rsplit_once_last "/" "" d name).
Qed.

Lemma split_tag_reference repo tag :
  free_of "@" repo = true -> free_of "@" tag = true -> free_of ":" tag = true ->
  free_of "/" tag = true -> split_tag (repo +s+ ":" +s+ tag) = (repo, Some tag).
Proof.
  intros Hr Ht Hc Hs. unfold split_tag.
  rewrite split_once_free by (rewrite !free_of_app, Hr, Ht; done).
  rewrite (rsplit_once_last ":" "" repo tag) by done. by rewrite str_contains_free.
Qed.

(** Every name of every rule finds that rule, and is in lower case. *)
Definition rule_names_ok (r : Rule) : Prop := Forall (fun n =>
  free_of "/" n = true /\ free_of ":" n = true /\ free_of "@" n = true /\ to_lowercase n = n /\
  find_first (fun r' => matches r' n) RULES = Some r) (names r).

Lemma rules_ok : Forall rule_names_ok RULES.
Proof.
  repeat (apply Forall_cons; split; [repeat (constructor; [vm_compute; done|]); constructor|]).
  constructor.
Qed.

(** A registry as the detector knows it, with the slash, or none. *)
Definition registry (host : string) : Prop :=
  host = "" \/ exists h, host = h +s+ "/" /\ free_of "/" h = true /\ free_of "@" h = true /\
    (str_contains "." h || str_contains ":" h || String.eqb h "localhost") = true.

Lemma strip_registry_reference host rest :
  registry host -> strip_registry rest = rest -> strip_registry (host +s+ rest) = rest.
Proof.
  intros [->|(h & -> & Hs & _ & Hh)] Hrest; [done|]. unfold strip_registry.
  rewrite append_assoc. change ("/" +s+ rest) with (String "/" rest).
  rewrite split_once_first by done. by rewrite Hh.
Qed.

(** An image reference whose name is one of a rule's names is recognised as
    that rule's product, whatever registry and directories come before the
    name, and its version is the normalised tag; no rule hides a name of
    another one. *)
Theorem detect_reference r name host dir tag :
  In r RULES -> In name (names r) -> registry host ->
  dir = "" \/ (exists d, dir = d +s+ "/") ->
  free_of "@" dir = true -> strip_registry (dir +s+ name +s+ ":" +s+ tag) = dir +s+ name +s+ ":" +s+ tag ->
  starts_with "distroless/" (to_lowercase (dir +s+ name)) = false ->
  str_contains "/distroless/" (to_lowercase (dir +s+ name)) = false ->
  free_of "@" tag = true -> free_of ":" tag = true -> free_of "/" tag = true ->
  detect (host +s+ dir +s+ name +s+ ":" +s+ tag) =
  {| vendor := Some (rule_vendor r); product := Some (rule_product r);
     version := Some (normalize_version tag); language := non_empty_text (rule_language r);
     tech_source := "image"; subtype := subtype_of_product (rule_product r) |}.
Proof.
  intros Hr Hname Hhost Hdir Hdat Hstrip Hd1 Hd2 Htat Htc Hts. unfold detect.
  rewrite strip_registry_reference by done. rewrite <- append_assoc.
  pose proof rules_ok as Hok. rewrite List.Forall_forall in Hok. specialize (Hok r Hr).
  unfold rule_names_ok in Hok. rewrite List.Forall_forall in Hok.
  destruct (Hok name Hname) as (Hns & _ & Hnat & Hlow & Hfind).
  rewrite split_tag_reference by (rewrite ?free_of_app, ?Hdat, ?Hnat; done).
  by rewrite Hd1, Hd2, last_segment_name, Hlow, Hfind.
Qed.

Lemma detect_reference_witness :
  detect "registry.local:5000/team/redis:v7.2-alpine" =
  {| vendor := Some "redis"; product := Some "redis"; version := Some "7.2";
     language := Some "C"; tech_source := "image"; subtype := None |}.
Proof.
  etransitivity; [apply (detect_reference (rule "redis" "redis" "C" ["redis"] []) "redis"
    "registry.local:5000/" "team/" "v7.2-alpine")|vm_compute; reflexivity].
  - vm_compute. tauto.
  - by left.
  - right. exists "registry.local:5000". vm_compute. done.
  - right. by exists "team".
  - done.
  - done.
  - done.
  - done.
  - done.
  - done.
  - done.
Defined.

(** A reference with a tag and a digest loses its version and keeps the tag in
    the name, so that no rule matches. *)
Lemma tag_and_digest :
  detect "nginx:1.25@sha256:abc" =
  {| vendor := None; product := Some "nginx:1.25"; version := None; language := None;
     tech_source := "image"; subtype := None |}.
Proof. vm_compute. reflexivity. Qed.

(** The suffixes are stripped in one order only. *)
Lemma suffix_order :
  normalize_version "1.25-slim-alpine" = "1.25" /\
  normalize_version "1.25-alpine-slim" = "1.25-alpine".
Proof. vm_compute. done. Qed.

(** The version that a command line gives always looks like a version. *)
Lemma version_candidate_like s v : version_candidate s = Some v -> is_version_like v = true.
Proof. unfold version_candidate. by repeat case_match; intros; simplify_eq. Qed.

Lemma version_flag_like arg v : version_flag arg = Some v -> is_version_like v = true.
Proof.
  unfold version_flag. intros H. repeat case_match; simplify_eq/=; eauto using version_candidate_like.
  - apply bind_Some in H as (p & _ & H). by eapply version_candidate_like.
  - apply bind_Some in H as (p & _ & H). by eapply version_candidate_like.
Qed.

Lemma version_pair_like args v : version_pair args = Some v -> is_version_like v = true.
Proof.
  induction args as [|flag args IH]; [done|]. destruct args as [|value args]; [done|].
  intros H. change (version_pair (flag :: value :: args)) with
    (if String.eqb flag "--version" || String.eqb flag "-version"
     then match version_candidate value with Some v => Some v | None => version_pair (value :: args) end
     else version_pair (value :: args)) in H.
  destruct (_ || _); [|by apply IH]. destruct (version_candidate value) eqn:Hv; [|by apply IH].
  simplify_eq. by eapply version_candidate_like.
Qed.

Lemma process_version_like args v : extract_process_version args = Some v -> is_version_like v = true.
Proof.
  unfold extract_process_version. destruct (find_map version_flag args) as [w|] eqn:Hf.
  - intros [= ->]. apply find_map_some in Hf as (_ & a & _ & _ & Ha & _). by eapply version_flag_like.
  - apply version_pair_like.
Qed.
