(* ===== verification/Inventory.v ===== *)
(** * The inventory (collector.rs)

    How the collector finds out whether the metrics and snapshot APIs are
    there, what it reports of ConfigMaps, Secrets and storage classes, and how
    it adds up the usage of pods.  The listed objects are the environment. *)
From S2P Require Import Prelude RustStr Unicode Ordering Json Kube Quantity Env Startup.
Local Open Scope Z_scope.

(** ** Availability of optional APIs *)

(** An [anyhow::Error] of a list call. *)
Inductive ListError := KubeErr (e : KubeError) | NotKube.

Definition is_not_found (e : KubeError) : bool :=
  match e with ApiError code _ _ => code =? 404 | OtherError _ => false end.

Definition classify_transient_error (e : KubeError) : string * string :=
  let msg := to_lowercase (kube_display e) in
  ("error",
   if str_contains "timeout" msg || str_contains "timed out" msg then "transient: timeout"
   else if str_contains "connection refused" msg then "transient: connection refused"
   else if str_contains "dns" msg || str_contains "name resolution" msg then "transient: dns"
   else if str_contains "tls" msg || str_contains "certificate" msg then "transient: tls"
   else "transient: io").

Definition classify_metrics_error (e : KubeError) : string * string :=
  match e with
  | ApiError code _ _ =>
      if code =? 403 then ("forbidden", "ServiceAccount missing metrics.k8s.io RBAC")
      else if code =? 404 then ("missing", "metrics-server not installed")
      else if code =? 503 then ("unavailable", "metrics-server registered but not ready")
      else if code =? 504 then ("unavailable", "metrics-server timeout")
      else ("error", "kube API error")
  | OtherError _ => classify_transient_error e
  end.
Definition classify_snapshot_api_error (e : KubeError) : string * string :=
  match e with
  | ApiError code _ _ =>
      if code =? 403 then ("forbidden", "ServiceAccount missing snapshot.storage.k8s.io RBAC")
      else if code =? 404 then ("missing", "CSI snapshot CRDs not installed")
      else if code =? 503 then ("unavailable", "CSI snapshot API registered but not ready")
      else if code =? 504 then ("unavailable", "CSI snapshot API timeout")
      else ("error", "kube API error")
  | OtherError _ => classify_transient_error e
  end.
Definition classify_anyhow (e : ListError) : string * string :=
  match e with KubeErr e => classify_metrics_error e | NotKube => ("error", "transient: io") end.

Definition status_from (state reason source : string) (count : nat) (now : Z) : MetricsStatus :=
  {| ms_state := state; ms_reason := if str_is_empty reason then None else Some reason;
     ms_source := source; pod_metrics_count := Z.of_nat count; ms_last_attempt_at_ms := now |}.
Definition status_snapshot_from (state reason source : string) (classes snapshots : nat) (now : Z)
    : SnapshotApiStatus :=
  {| ss_state := state; ss_reason := if str_is_empty reason then None else Some reason;
     ss_source := source; volumesnapshotclasses_count := Z.of_nat classes;
     volumesnapshots_count := Z.of_nat snapshots; ss_last_attempt_at_ms := now |}.

Definition soft_unwrap {E T} (r : result E (list T)) : list T :=
  match r with Ok v => v | Err _ => [] end.

Section probes.
Context {T : Type}.
Notation answer := (result ListError (list T)).

(** What the two list calls answer if they are made, and the clock. *)
Definition probe_pod_metrics (v1 v1beta1 : answer) (now : Z) : list T * MetricsStatus :=
  match v1 with
  | Ok items => (items, status_from "ok" "" "metrics.k8s.io/v1" (length items) now)
  | Err (KubeErr e) =>
      if is_not_found e then
        match v1beta1 with
        | Ok items => (items, status_from "ok" "" "metrics.k8s.io/v1beta1" (length items) now)
        | Err e2 => let '(state, reason) := classify_anyhow e2 in
                    ([], status_from state reason "metrics.k8s.io/v1beta1" 0 now)
        end
      else let '(state, reason) := classify_metrics_error e in
           ([], status_from state reason "metrics.k8s.io/v1" 0 now)
  | Err NotKube => ([], status_from "error" "transient: io" "metrics.k8s.io/v1" 0 now)
  end.

Definition SNAPSHOT_SOURCE : string := "snapshot.storage.k8s.io/v1".
Definition probe_snapshot_api (classes_result snapshots_result : answer) (now : Z)
    : list T * list T * SnapshotApiStatus :=
  match classes_result with
  | Err (KubeErr e) =>
      if is_not_found e
      then ([], [], status_snapshot_from "missing" "CSI snapshot CRDs not installed" SNAPSHOT_SOURCE 0 0 now)
      else let '(state, reason) := classify_snapshot_api_error e in
           ([], [], status_snapshot_from state reason SNAPSHOT_SOURCE 0 0 now)
  | Err NotKube => ([], [], status_snapshot_from "error" "transient: io" SNAPSHOT_SOURCE 0 0 now)
  | Ok classes =>
      let snapshots := soft_unwrap snapshots_result in
      (classes, snapshots,
       status_snapshot_from "ok" "" SNAPSHOT_SOURCE (length classes) (length snapshots) now)
  end.
End probes.

(** ** Metadata, ConfigMaps, Secrets, storage classes *)

Definition METADATA_ANNOTATION_DENYLIST_EXACT : list string := [].
Definition METADATA_ANNOTATION_DENYLIST_PREFIX : list string := [].

(** The pairs of a [BTreeMap] in key order. *)
Definition sanitize_metadata_map (m : list (string * string)) : list (string * string) :=
  List.filter (fun p => negb (existsb (fun prefix => starts_with prefix (fst p))
                                METADATA_ANNOTATION_DENYLIST_PREFIX))
    (List.filter (fun p => negb (existsb (String.eqb (fst p)) METADATA_ANNOTATION_DENYLIST_EXACT)) m).
Definition map_metadata_pairs (m : gmap string string) : list KV :=
  map (fun p => {| kv_key := fst p; kv_value := snd p |}) (sanitize_metadata_map (btree_iter m)).
Definition map_data_keys {T} (m : gmap string T) : list string := map fst (btree_iter m).

Record ConfigMapInfo := {
  ci_namespace : string; ci_name : string; ci_immutable : option bool; ci_labels : list KV;
  ci_annotations : list KV; ci_data_keys : list string; ci_binary_data_keys : list string }.
Record SecretInfo := {
  se_namespace : string; se_name : string; se_type : option string; se_immutable : option bool;
  se_labels : list KV; se_annotations : list KV; se_data_keys : list string }.

Definition map_configmap (cm : ConfigMap) : ConfigMapInfo :=
  let m := cm_metadata cm in
  {| ci_namespace := unwrap_or "" (namespace m); ci_name := unwrap_or "" (name m);
     ci_immutable := cm_immutable cm;
     ci_labels := map_metadata_pairs (unwrap_or ∅ (labels m));
     ci_annotations := map_metadata_pairs (unwrap_or ∅ (annotations m));
     ci_data_keys := map_data_keys (unwrap_or ∅ (cm_data cm));
     ci_binary_data_keys := map_data_keys (unwrap_or ∅ (cm_binary_data cm)) |}.
Definition map_secret (secret : SecretObject) : SecretInfo :=
  let m := sec_metadata secret in
  {| se_namespace := unwrap_or "" (namespace m); se_name := unwrap_or "" (name m);
     se_type := sec_type secret; se_immutable := sec_immutable secret;
     se_labels := map_metadata_pairs (unwrap_or ∅ (labels m));
     se_annotations := map_metadata_pairs (unwrap_or ∅ (annotations m));
     se_data_keys := map_data_keys (unwrap_or ∅ (sec_data secret)) |}.

(** The agent's own ConfigMaps: the first of each name, a later one over an
    earlier one. *)
Definition agent_configmap_names : list string :=
  ["sentinella-hub-k8s-agent-config"; "sentinella-hub-app-metrics-config";
   "sentinella-hub-workload-monitoring-config"].
Definition collect_agent_configured_env `{YamlList} (configmaps : list ConfigMap) : list KV :=
  agent_configured_env (fold_left (fun values nm =>
    match cm ← find_first (fun cm => bool_decide (name (cm_metadata cm) = Some nm)) configmaps;
          cm_data cm with
    | Some data => data ∪ values
    | None => values
    end) agent_configmap_names ∅).

Definition STORAGE_CLASS_PARAMETER_ALLOWLIST : list string :=
  ["type"; "fsType"; "skuName"; "storageaccounttype"; "iopsPerGB"; "throughput"; "pool";
   "backendType"; "datastore"; "encrypted"; "csi.storage.k8s.io/fstype"].
Definition filter_storage_class_parameters (parameters : gmap string string) : list KV :=
  omap (fun key => value ← parameters !! key; Some {| kv_key := key; kv_value := value |})
    STORAGE_CLASS_PARAMETER_ALLOWLIST.
(** ** Storage *)

Record StorageClassInfo := { sc_name : string; sc_provisioner : string; sc_parameters : list KV }.
Definition map_storage_class (sc : StorageClass) : StorageClassInfo :=
  {| sc_name := unwrap_or "" (name (sco_metadata sc)); sc_provisioner := sco_provisioner sc;
     sc_parameters := filter_storage_class_parameters (unwrap_or ∅ (sco_parameters sc)) |}.

Record PersistentVolumeInfo := { pvi_name : string; pvi_storage_class : option string }.
Definition map_persistent_volume (pv : PersistentVolume) : PersistentVolumeInfo :=
  {| pvi_name := unwrap_or "" (name (pv_metadata pv));
     pvi_storage_class := (s ← pv_spec_storage_class pv; s) |}.

Record PersistentVolumeClaimInfo := {
  ci_pvc_namespace : string; ci_pvc_name : string; ci_pvc_storage_class : option string;
  ci_pvc_volume_name : option string }.
Definition map_persistent_volume_claim (pvc : PersistentVolumeClaim) : PersistentVolumeClaimInfo :=
  {| ci_pvc_namespace := unwrap_or "" (namespace (pvc_metadata pvc));
     ci_pvc_name := unwrap_or "" (name (pvc_metadata pvc));
     ci_pvc_storage_class := (s ← pvc_spec pvc; pvc_storage_class_name s);
     ci_pvc_volume_name := (s ← pvc_spec pvc; pvc_volume_name s) |}.

(** A dynamic object as the JSON value it is turned into. *)
Definition text_at (path : list string) (v : json) : option string := x ← json_pointer path v; as_str x.
Record VolumeSnapshotClassInfo := { vsc_name : string; vsc_driver : string }.
Definition map_volume_snapshot_class (vsc : json) : VolumeSnapshotClassInfo :=
  {| vsc_name := unwrap_or "" (text_at ["metadata"; "name"] vsc);
     vsc_driver := unwrap_or "" (text_at ["driver"] vsc) |}.
Record VolumeSnapshotInfo := {
  vs_namespace : string; vs_name : string; vs_snapshot_class : option string;
  vs_bound_content_name : option string }.
Definition map_volume_snapshot (vs : json) : VolumeSnapshotInfo :=
  {| vs_namespace := unwrap_or "" (text_at ["metadata"; "namespace"] vs);
     vs_name := unwrap_or "" (text_at ["metadata"; "name"] vs);
     vs_snapshot_class := text_at ["spec"; "volumeSnapshotClassName"] vs;
     vs_bound_content_name := text_at ["status"; "boundVolumeSnapshotContentName"] vs |}.

(** The storage section of [collect]; the last two lists are those of
    [probe_snapshot_api]. *)
Record StorageInventory := {
  storage_classes : list StorageClassInfo; persistent_volumes : list PersistentVolumeInfo;
  persistent_volume_claims : list PersistentVolumeClaimInfo;
  volume_snapshot_classes : list VolumeSnapshotClassInfo; volume_snapshots : list VolumeSnapshotInfo }.
Definition storage_inventory (classes : result ListError (list StorageClass))
    (pvs : result ListError (list PersistentVolume)) (pvcs : result ListError (list PersistentVolumeClaim))
    (snapshot_classes snapshots : list json) : StorageInventory :=
  {| storage_classes := map map_storage_class (soft_unwrap classes);
     persistent_volumes := map map_persistent_volume (soft_unwrap pvs);
     persistent_volume_claims := map map_persistent_volume_claim (soft_unwrap pvcs);
     volume_snapshot_classes := map map_volume_snapshot_class snapshot_classes;
     volume_snapshots := map map_volume_snapshot snapshots |}.

(** ** Orders of the snapshot *)

(** The order by namespace and name that services, ingresses, network
    policies, cron jobs, ConfigMaps and Secrets share. *)
Definition meta_compare {A} (meta : A -> ObjectMeta) : A -> A -> comparison :=
  cmp_lex (cmp_on (fun a => unwrap_or "" (namespace (meta a))) String.compare)
          (cmp_on (fun a => unwrap_or "" (name (meta a))) String.compare).
Global Instance meta_comparator {A} (meta : A -> ObjectMeta) : Comparator (meta_compare meta).
Proof. unfold meta_compare. comparator. Qed.

(** A list of objects with different namespaces or names. *)
Definition distinct_meta {A} (meta : A -> ObjectMeta) (l : list A) : Prop :=
  NoDup (map (fun a => (unwrap_or "" (namespace (meta a)), unwrap_or "" (name (meta a)))) l).

Lemma NoDup_map_eq {A B} (f : A -> B) l a b :
  NoDup (map f l) -> In a l -> In b l -> f a = f b -> a = b.
Proof.
  induction l as [|x l IH]; [done|]. cbn [map In]. rewrite NoDup_cons. intros [Hx Hl].
  assert (Hf : forall y, In y l -> f x <> f y)
    by (intros y Hy E; apply Hx; rewrite E; by apply list_elem_of_fmap_2, list_elem_of_In).
  intros [->|Ha] [->|Hb] E; [done|by apply Hf in Hb|symmetry in E; by apply Hf in Ha|by apply IH].
Qed.

Lemma distinct_meta_compare {A} (meta : A -> ObjectMeta) l a b :
  distinct_meta meta l -> In a l -> In b l -> meta_compare meta a b = Eq -> a = b.
Proof.
  intros Hd Ha Hb Hc. eapply NoDup_map_eq; [exact Hd|done|done|]. revert Hc.
  unfold meta_compare, cmp_lex, cmp_on, cmp_then.
  destruct (String.compare (unwrap_or "" (namespace (meta a))) _) eqn:Hn; [|done|done].
  intros Hm. apply String.compare_eq_iff in Hn as ->, Hm as ->. done.
Qed.

Lemma on_distinct {A} (f : A -> string) l a b :
  NoDup (map f l) -> In a l -> In b l -> cmp_on f String.compare a b = Eq -> a = b.
Proof. intros Hd Ha Hb Hc%String.compare_eq_iff. by eapply NoDup_map_eq. Qed.

Definition sort_services_for_snapshot : list Service -> list Service := sort_by (meta_compare svc_metadata).
Definition sort_configmaps_for_snapshot : list ConfigMap -> list ConfigMap :=
  sort_by (meta_compare cm_metadata).
Definition sort_secrets_for_snapshot : list SecretObject -> list SecretObject :=
  sort_by (meta_compare sec_metadata).

(** The configuration section of [collect]; [secrets] is what the list call
    gives if it is made. *)
Record ConfigurationInventory := {
  inv_configmaps : list ConfigMapInfo; inv_secrets : list SecretInfo; inv_runtime_env : list KV;
  inv_configured_env : list KV }.
Definition configuration_inventory `{YamlList} (collect_secrets : bool)
    (configmaps : result ListError (list ConfigMap)) (secrets : result ListError (list SecretObject))
    : ConfigurationInventory :=
  let configmaps := sort_configmaps_for_snapshot (soft_unwrap configmaps) in
  let secrets := sort_secrets_for_snapshot (if collect_secrets then soft_unwrap secrets else []) in
  {| inv_configmaps := map map_configmap configmaps;
     inv_secrets := if collect_secrets then map map_secret secrets else [];
     inv_runtime_env := [];
     inv_configured_env := collect_agent_configured_env configmaps |}.

(** ** Pod usage *)

Record PodUsageTotals := { cpu_nano : Z; memory_bytes : Z }.

Fixpoint sum_usage (containers : list json) (totals : PodUsageTotals) : option PodUsageTotals :=
  match containers with
  | [] => Some totals
  | container :: containers =>
      usage ← json_get "usage" container;
      cpu ← (x ← json_get "cpu" usage; as_str x);
      memory ← (x ← json_get "memory" usage; as_str x);
      c ← parse_cpu_quantity cpu;
      cpu_total ← i128_checked (cpu_nano totals + c);
      m ← parse_memory_quantity memory;
      memory_total ← i128_checked (memory_bytes totals + m);
      sum_usage containers {| cpu_nano := cpu_total; memory_bytes := memory_total |}
  end.
(** A metrics object as the JSON value it is turned into. *)
Definition map_pod_metrics (metric : json) : option (string * string * PodUsageTotals) :=
  namespace ← (x ← json_pointer ["metadata"; "namespace"] metric; as_str x);
  name ← (x ← json_pointer ["metadata"; "name"] metric; as_str x);
  containers ← (x ← json_get "containers" metric; as_array x);
  totals ← sum_usage containers {| cpu_nano := 0; memory_bytes := 0 |};
  Some (namespace, name, totals).
Definition build_pod_usage_index (metrics : list json) : gmap (string * string) PodUsageTotals :=
  fold_left (fun out p => <[fst p := snd p]> out) (omap map_pod_metrics metrics) ∅.

(** ** The availability of the metrics API *)

(** The answer that counts: of v1beta1 if v1 is not registered. *)
Definition decisive {T} (v1 v1beta1 : result ListError (list T)) : result ListError (list T) :=
  match v1 with
  | Err (KubeErr e) => if is_not_found e then v1beta1 else v1
  | _ => v1
  end.

Lemma classify_reason e : snd (classify_anyhow e) <> "" /\ fst (classify_anyhow e) <> "ok".
Proof.
  destruct e as [[code ? ?|d]|]; simpl; [|unfold classify_transient_error|done].
  - unfold classify_metrics_error. by repeat case_match.
  - cbn [fst snd]. by repeat case_match.
Qed.

Lemma classify_missing e :
  fst (classify_anyhow e) = "missing" <-> exists k, e = KubeErr k /\ is_not_found k = true.
Proof.
  split.
  - destruct e as [[code reason d|d]|]; simpl; try done.
    unfold classify_metrics_error. intros H. exists (ApiError code reason d). split; [done|]. simpl.
    destruct (code =? 403); [done|]. destruct (code =? 404); [done|]. by repeat case_match.
  - intros ([code reason d|d] & -> & H); [|done]. simpl in *. apply Z.eqb_eq in H as ->. done.
Qed.

(** What the documentation of [MetricsStatus] promises of a status, given the
    answer [d]. *)
Definition status_says {T} (d : result ListError (list T)) (items : list T) (st : MetricsStatus) : Prop :=
  items = soft_unwrap d /\ pod_metrics_count st = Z.of_nat (length items) /\
  (ms_state st = "ok" <-> is_ok d = true) /\ (ms_reason st = None <-> is_ok d = true) /\
  (ms_state st = "missing" <-> exists e, d = Err (KubeErr e) /\ is_not_found e = true) /\
  (forall e, d = Err e ->
     (ms_state st, ms_reason st) = (fst (classify_anyhow e), Some (snd (classify_anyhow e)))).

Lemma ok_status_says {T} (items : list T) source now :
  status_says (Ok items) items (status_from "ok" "" source (length items) now).
Proof.
  unfold status_says. simpl. do 4 (split; [done|]). split; [|done]. split; [done|]. by intros (? & ? & _).
Qed.

Lemma err_status_says {T} e source now :
  status_says (Err e : result ListError (list T)) []
    (status_from (fst (classify_anyhow e)) (snd (classify_anyhow e)) source 0 now).
Proof.
  destruct (classify_reason e) as [Hr Hs]. unfold status_says, status_from.
  cbn [ms_state ms_reason pod_metrics_count soft_unwrap is_ok].
  destruct (str_is_empty (snd (classify_anyhow e))) eqn:He.
  { exfalso. apply Hr. by destruct (snd (classify_anyhow e)). }
  split; [done|]. split; [done|]. split; [naive_solver|]. split; [naive_solver|].
  split; [rewrite classify_missing; naive_solver|]. by intros e' [= <-].
Qed.

(** The metrics status says what happened: "ok" with the number of listed
    objects and without a reason exactly if the decisive list call succeeded,
    "missing" exactly if that call says the API is not registered, and any
    failure has a reason and leaves no objects. *)
Theorem metrics_status_exact {T} (v1 v1beta1 : result ListError (list T)) now :
  let '(items, st) := probe_pod_metrics v1 v1beta1 now in status_says (decisive v1 v1beta1) items st.
Proof.
  unfold probe_pod_metrics, decisive. destruct v1 as [items|[e|]].
  - apply ok_status_says.
  - destruct (is_not_found e); [destruct v1beta1 as [items|e2]; [apply ok_status_says|]|].
    + rewrite (surjective_pairing (classify_anyhow e2)). apply err_status_says.
    + rewrite (surjective_pairing (classify_metrics_error e)). apply (err_status_says (KubeErr e)).
  - apply (err_status_says NotKube).
Qed.

(** A failed list of the snapshots is not visible in the status: it is "ok",
    with the classes. *)
Lemma snapshot_list_failure_hidden {T} (classes : list T) e now :
  probe_snapshot_api (Ok classes) (Err e) now =
  (classes, [], status_snapshot_from "ok" "" SNAPSHOT_SOURCE (length classes) 0 now).
Proof. done. Qed.

(** ** What is reported of Secrets and ConfigMaps *)

Lemma StronglySorted_map_fst {T} (l : list (string * T)) :
  StronglySorted key_le l -> StronglySorted String.le (map fst l).
Proof.
  induction 1 as [|p l Hs IH Hp]; simpl; [constructor|]. constructor; [done|].
  rewrite List.Forall_forall in *. intros k (q & <- & Hq)%in_map_iff. by apply Hp.
Qed.

Lemma data_keys_in {T} (m : gmap string T) k : In k (map_data_keys m) <-> k ∈ dom m.
Proof.
  unfold map_data_keys. rewrite in_map_iff, elem_of_dom. split.
  - intros ([k' v] & <- & Hin%btree_iter_in). by eexists.
  - intros [v Hv]. exists (k, v). by rewrite btree_iter_in.
Qed.

Lemma data_keys_sorted {T} (m : gmap string T) : StronglySorted String.le (map_data_keys m).
Proof.
  apply StronglySorted_map_fst. unfold btree_iter. apply StronglySorted_merge_sort.
  - intros p q r. unfold key_le. apply PreOrder_Transitive.
  - intros p q. unfold key_le. apply (total String.le).
Qed.

Lemma data_keys_NoDup {T} (m : gmap string T) : NoDup (map_data_keys m).
Proof.
  unfold map_data_keys, btree_iter. rewrite merge_sort_Permutation. apply NoDup_fst_map_to_list.
Qed.

Lemma data_keys_dom {T U} (m : gmap string T) (m' : gmap string U) :
  dom m = dom m' -> map_data_keys m = map_data_keys m'.
Proof.
  intros Hd. apply (StronglySorted_unique String.le); [apply data_keys_sorted..|].
  apply NoDup_Permutation; [apply data_keys_NoDup..|].
  intros k. by rewrite !list_elem_of_In, !data_keys_in, Hd.
Qed.

Definition same_keys (o o' : option (gmap string string)) : Prop :=
  dom (unwrap_or ∅ o) = dom (unwrap_or ∅ o').

(** Two Secrets, or two ConfigMaps, that differ only in the values of their
    data give the same report; no report of Secrets is made unless it is
    enabled; of a storage class only allowlisted parameters are reported. *)
Theorem data_values_hidden s s' cm cm' parameters kv :
  sec_metadata s = sec_metadata s' -> sec_type s = sec_type s' -> sec_immutable s = sec_immutable s' ->
  same_keys (sec_data s) (sec_data s') ->
  cm_metadata cm = cm_metadata cm' -> cm_immutable cm = cm_immutable cm' ->
  same_keys (cm_data cm) (cm_data cm') -> same_keys (cm_binary_data cm) (cm_binary_data cm') ->
  In kv (filter_storage_class_parameters parameters) ->
  map_secret s = map_secret s' /\ map_configmap cm = map_configmap cm' /\
  In (kv_key kv) STORAGE_CLASS_PARAMETER_ALLOWLIST /\ parameters !! kv_key kv = Some (kv_value kv).
Proof.
  unfold same_keys. intros Hm Ht Hi Hd Hcm Hci Hcd Hcb Hin. split_and!.
  - unfold map_secret. rewrite Hm, Ht, Hi. f_equal. by apply data_keys_dom.
  - unfold map_configmap. rewrite Hcm, Hci. f_equal; by apply data_keys_dom.
  - unfold filter_storage_class_parameters in Hin.
    apply list_elem_of_In, list_elem_of_omap in Hin as (key & Hkey & Hv).
    apply bind_Some in Hv as (v & Hv & [= <-]). by apply list_elem_of_In.
  - unfold filter_storage_class_parameters in Hin.
    apply list_elem_of_In, list_elem_of_omap in Hin as (key & Hkey & Hv).
    by apply bind_Some in Hv as (v & Hv & [= <-]).
Qed.

(** But every annotation of a Secret is reported with its value: the denylists
    are empty, so the manifest that [kubectl apply] leaves in an annotation,
    which holds the data, is sent to the hub. *)
Lemma secret_annotations_reported s ann k v :
  annotations (sec_metadata s) = Some ann -> ann !! k = Some v ->
  In {| kv_key := k; kv_value := v |} (se_annotations (map_secret s)).
Proof.
  intros Ha Hk. cbn [se_annotations map_secret]. rewrite Ha. cbn [unwrap_or].
  unfold map_metadata_pairs, sanitize_metadata_map. apply in_map_iff. exists (k, v). split; [done|].
  apply filter_In. split; [|done]. apply filter_In. split; [|done]. by apply btree_iter_in.
Qed.

Definition demo_secret (v : string) : SecretObject :=
  {| sec_metadata := meta_named "db"; sec_type := Some "Opaque"; sec_immutable := None;
     sec_data := Some {["password" := v]} |}.
Definition demo_configmap (v : string) : ConfigMap :=
  {| cm_metadata := meta_named "cm"; cm_immutable := None; cm_data := Some {["key" := v]};
     cm_binary_data := None |}.

Lemma data_values_hidden_witness :
  map_secret (demo_secret "one") = map_secret (demo_secret "two") /\
  map_configmap (demo_configmap "one") = map_configmap (demo_configmap "two") /\
  se_data_keys (map_secret (demo_secret "one")) = ["password"] /\
  In "type" STORAGE_CLASS_PARAMETER_ALLOWLIST.
Proof.
  destruct (data_values_hidden (demo_secret "one") (demo_secret "two") (demo_configmap "one")
    (demo_configmap "two") {["type" := "gp3"]} {| kv_key := "type"; kv_value := "gp3" |})
    as (Hs & Hc & Hk & _); try reflexivity.
  - vm_compute. by left.
  - split_and!; [exact Hs|exact Hc|vm_compute; reflexivity|exact Hk].
Defined.

(** ** Pod usage *)

(** The quantities of a container. *)
Definition container_usage (container : json) : option (Z * Z) :=
  usage ← json_get "usage" container;
  cpu ← (x ← json_get "cpu" usage; as_str x); memory ← (x ← json_get "memory" usage; as_str x);
  c ← parse_cpu_quantity cpu; m ← parse_memory_quantity memory; Some (c, m).

(** A pod's usage is the sum over its containers, if every one of them has both
    quantities. *)
Lemma sum_usage_spec containers t t' :
  sum_usage containers t = Some t' ->
  exists l, mapM container_usage containers = Some l /\
    cpu_nano t' = cpu_nano t + fold_right Z.add 0 (map fst l) /\
    memory_bytes t' = memory_bytes t + fold_right Z.add 0 (map snd l).
Proof.
  revert t. induction containers as [|c containers IH]; intros t; cbn [sum_usage].
  - intros [= ->]. exists []. simpl. split; [done|]. lia.
  - intros H. apply bind_Some in H as (usage & Hu & H). apply bind_Some in H as (cpu & Hc & H).
    apply bind_Some in H as (mem & Hm & H). apply bind_Some in H as (cv & Hcv & H).
    apply bind_Some in H as (ct & Hct & H). apply bind_Some in H as (mv & Hmv & H).
    apply bind_Some in H as (mt & Hmt & H). apply IH in H as (l & Hl & Hcpu & Hmem).
    exists ((cv, mv) :: l).
    assert (Hcu : container_usage c = Some (cv, mv)).
    { unfold container_usage. rewrite Hu. cbn [mbind option_bind]. rewrite Hc. cbn [mbind option_bind].
      rewrite Hm. cbn [mbind option_bind]. rewrite Hcv. cbn [mbind option_bind]. by rewrite Hmv. }
    cbn [mapM]. rewrite Hcu. cbn [mbind option_bind]. rewrite Hl. split; [done|].
    unfold i128_checked, check_range in Hct, Hmt. repeat case_match; simplify_eq.
    cbn [map fold_right fst snd] in *. cbn [cpu_nano memory_bytes] in *. lia.
Qed.
