(* ===== verification/Cluster.v ===== *)
(** * Nodes, pods and the platform (collector.rs)

    What a snapshot says of the cluster, its nodes and its pods: the platform
    and its version, the state and roles of nodes, and for every pod its age,
    its usage and the technology of its containers. *)
From S2P Require Import Prelude RustStr Unicode Json Kube Quantity Inventory Tech.
Local Open Scope Z_scope.

(** ** Platform *)

Definition detect_platform (git_version : option string) (nodes : list Node)
    : option string :=
  let of_version := gv ← git_version;
    let gv := to_lowercase gv in
    if str_contains "eks" gv then Some "eks" else if str_contains "gke" gv then Some "gke"
    else if str_contains "aks" gv then Some "aks" else None in
  match of_version with
  | Some p => Some p
  | None =>
      if existsb (fun n => match labels (nd_metadata n) with
           | Some l => existsb (fun p => starts_with "node.openshift.io/" (fst p)) (map_to_list l)
           | None => false end) nodes
      then Some "openshift" else Some "vanilla"
  end.

Definition extract_openshift_version (value : json) : option string :=
  opt_or (x ← json_pointer ["status"; "desired"; "version"] value; as_str x)
    (history ← json_pointer ["status"; "history"] value;
     first ← match history with JArr l => head l | v => json_get "0" v end;
     v ← json_get "version" first; as_str v).

(** The [ClusterVersion] objects as JSON values. *)
Definition probe_openshift_version (versions : result ListError (list json)) : option string :=
  match versions with
  | Ok items => find_map extract_openshift_version items
  | Err _ => None
  end.

(** ** Nodes *)

Record NodeInfo := {
  nif_name : string; nif_kubelet_version : option string; nif_os_image : option string;
  nif_container_runtime : option string; nif_architecture : option string;
  capacity_cpu : option string; capacity_memory : option string;
  allocatable_cpu : option string; allocatable_memory : option string;
  ready : bool; roles : list string }.
Definition map_node (n : Node) : NodeInfo :=
  let status := nd_status n in
  let info := s ← status; node_info s in
  let cap := s ← status; capacity s in
  let alloc := s ← status; allocatable s in
  {| nif_name := unwrap_or "" (name (nd_metadata n));
     nif_kubelet_version := kubelet_version <$> info; nif_os_image := os_image <$> info;
     nif_container_runtime := container_runtime_version <$> info;
     nif_architecture := architecture <$> info;
     capacity_cpu := (c ← cap; c !! "cpu"); capacity_memory := (c ← cap; c !! "memory");
     allocatable_cpu := (c ← alloc; c !! "cpu"); allocatable_memory := (c ← alloc; c !! "memory");
     ready := unwrap_or false (existsb (fun c => String.eqb (nc_type c) "Ready" && String.eqb (nc_status c) "True")
                               <$> (s ← status; node_conditions s));
     roles := unwrap_or [] ((fun l => omap (strip_prefix "node-role.kubernetes.io/") (map fst (btree_iter l)))
                            <$> labels (nd_metadata n)) |}.

Record ClusterInfo := {
  kubernetes_version : option string; platform : option string; openshift_version : option string;
  node_count : nat; cluster_nodes : list NodeInfo }.
(** [version] is the [git_version] of the API server. *)
Definition build_cluster_info (version : option string) (nodes : list Node) : ClusterInfo :=
  {| kubernetes_version := version; platform := detect_platform version nodes;
     openshift_version := None; node_count := length (map map_node nodes);
     cluster_nodes := map map_node nodes |}.
(** The cluster section of [collect]; [versions] is what the list of
    [ClusterVersion] objects gives if it is made. *)
Definition cluster_section (version : option string) (nodes : result ListError (list Node))
    (versions : result ListError (list json)) : ClusterInfo :=
  let cluster := build_cluster_info version (soft_unwrap nodes) in
  if bool_decide (platform cluster = Some "openshift") then
    {| kubernetes_version := kubernetes_version cluster; platform := platform cluster;
       openshift_version := probe_openshift_version versions; node_count := node_count cluster;
       cluster_nodes := cluster_nodes cluster |}
  else cluster.

(** ** Workloads *)

Record WorkloadRef := {
  wr_namespace : string; wr_name : string; replicas_desired : option Z; replicas_ready : option Z }.
Definition map_deployment (d : Deployment) : WorkloadRef :=
  {| wr_namespace := unwrap_or "" (namespace (dp_metadata d));
     wr_name := unwrap_or "" (name (dp_metadata d));
     replicas_desired := (s ← dp_spec d; dp_replicas s); replicas_ready := (s ← dp_status d; dps_ready s) |}.
Definition map_statefulset (s : StatefulSet) : WorkloadRef :=
  {| wr_namespace := unwrap_or "" (namespace (st_metadata s));
     wr_name := unwrap_or "" (name (st_metadata s));
     replicas_desired := (sp ← st_spec s; st_replicas sp); replicas_ready := (st ← st_status s; sts_ready st) |}.
Definition map_daemonset (d : DaemonSet) : WorkloadRef :=
  {| wr_namespace := unwrap_or "" (namespace (ds_metadata d));
     wr_name := unwrap_or "" (name (ds_metadata d));
     replicas_desired := dss_desired <$> ds_status d; replicas_ready := dss_number_ready <$> ds_status d |}.

(** The workloads section of [collect]. *)
Record Workloads := {
  wl_deployments : list WorkloadRef; wl_statefulsets : list WorkloadRef; wl_daemonsets : list WorkloadRef }.
Definition workloads_section (deployments : result ListError (list Deployment))
    (statefulsets : result ListError (list StatefulSet)) (daemonsets : result ListError (list DaemonSet))
    : Workloads :=
  {| wl_deployments := map map_deployment (soft_unwrap deployments);
     wl_statefulsets := map map_statefulset (soft_unwrap statefulsets);
     wl_daemonsets := map map_daemonset (soft_unwrap daemonsets) |}.

(** ** Pods *)

Record ResourceSpec := {
  requests_cpu : option string; requests_memory : option string;
  limits_cpu : option string; limits_memory : option string }.
Definition map_resources (r : option ResourceRequirements) : ResourceSpec :=
  let req := r ← r; rr_requests r in
  let lim := r ← r; rr_limits r in
  {| requests_cpu := (q ← req; q !! "cpu"); requests_memory := (q ← req; q !! "memory");
     limits_cpu := (q ← lim; q !! "cpu"); limits_memory := (q ← lim; q !! "memory") |}.

(** [now] is the system clock in seconds, if it is past the epoch. *)
Definition pod_age_seconds (now : option Z) (created_at : option Time) : option Z :=
  created ← created_at; now ← now;
  Some (if now <=? as_second created then 0 else now - as_second created).

Record ContainerInfo := {
  cti_name : string; cti_image : string; cti_image_pull_policy : option string;
  cti_technology : Technology; cti_resources : ResourceSpec }.
Record PodInfo := {
  pinf_namespace : string; pinf_name : string; age_seconds : option Z; pinf_node : option string;
  pinf_phase : option string; usage_cpu : option string; usage_memory : option string;
  pinf_owner_kind : option string; pinf_owner_name : option string;
  pinf_containers : list ContainerInfo }.

Definition map_container (pod_labels pod_annotations : list (string * string))
    (tech_detect_process : bool) (c : Container) : ContainerInfo :=
  {| cti_name := c_name c; cti_image := unwrap_or "" (c_image c);
     cti_image_pull_policy := c_image_pull_policy c;
     cti_technology := container_technology (c_image c) (c_command c) (c_args c)
       pod_labels pod_annotations tech_detect_process;
     cti_resources := map_resources (c_resources c) |}.
Definition map_pod (pod_usage : gmap (string * string) PodUsageTotals) (tech_detect_process : bool)
    (now : option Z) (p : Pod) : PodInfo :=
  let m := pod_metadata p in
  let owner := refs ← owner_references m; head refs in
  let namespace := unwrap_or "" (namespace m) in
  let name := unwrap_or "" (name m) in
  let usage := pod_usage !! (namespace, name) in
  let pod_labels := unwrap_or [] (btree_iter <$> labels m) in
  let pod_annotations := unwrap_or [] (btree_iter <$> annotations m) in
  {| pinf_namespace := namespace; pinf_name := name;
     age_seconds := pod_age_seconds now (creation_timestamp m);
     pinf_node := (s ← pod_spec p; node_name s); pinf_phase := (s ← pod_status p; pod_phase s);
     usage_cpu := (u ← usage; format_cpu_quantity (cpu_nano u));
     usage_memory := (u ← usage; format_memory_quantity (memory_bytes u));
     pinf_owner_kind := owner_kind <$> owner; pinf_owner_name := owner_name <$> owner;
     pinf_containers := unwrap_or [] ((fun s =>
       map (map_container pod_labels pod_annotations tech_detect_process) (containers s)) <$> pod_spec p) |}.

(** ** Properties *)

Lemma usage_index_from (l : list (string * string * PodUsageTotals))
    (m0 : gmap (string * string) PodUsageTotals) key u :
  fold_left (fun out p => <[fst p := snd p]> out) l m0 !! key = Some u ->
  In (key, u) l \/ m0 !! key = Some u.
Proof.
  revert m0. induction l as [|[k v] l IH]; intros m0; simpl; [by right|].
  intros [H|H]%IH; [by left; right|]. apply lookup_insert_Some in H as [[-> ->]|[_ H]]; [by left; left|by right].
Qed.

(** The totals of the index are sums that fit in an [i128]. *)
Lemma sum_usage_i128 containers t t' :
  sum_usage containers t = Some t' -> is_i128 (cpu_nano t) -> is_i128 (memory_bytes t) ->
  is_i128 (cpu_nano t') /\ is_i128 (memory_bytes t').
Proof.
  revert t. induction containers as [|c containers IH]; intros t; cbn [sum_usage]; [by intros [= ->]|].
  intros H _ _. apply bind_Some in H as (usage & _ & H). apply bind_Some in H as (cpu & _ & H).
  apply bind_Some in H as (mem & _ & H). apply bind_Some in H as (cv & _ & H).
  apply bind_Some in H as (ct & Hct & H). apply bind_Some in H as (mv & _ & H).
  apply bind_Some in H as (mt & Hmt & H). apply (IH _ H); cbn [cpu_nano memory_bytes].
  - unfold i128_checked, check_range in Hct. repeat case_match; simplify_eq. bools. split; lia.
  - unfold i128_checked, check_range in Hmt. repeat case_match; simplify_eq. bools. split; lia.
Qed.

Definition sum_of (f : Z * Z -> Z) (l : list (Z * Z)) : Z := fold_right Z.add 0 (map f l).

(** Where a total of the index comes from. *)
Lemma usage_index_spec metrics ns nm u :
  build_pod_usage_index metrics !! (ns, nm) = Some u ->
  exists metric containers l, In metric metrics /\
    (x ← json_pointer ["metadata"; "namespace"] metric; as_str x) = Some ns /\
    (x ← json_pointer ["metadata"; "name"] metric; as_str x) = Some nm /\
    (x ← json_get "containers" metric; as_array x) = Some containers /\
    mapM container_usage containers = Some l /\
    cpu_nano u = sum_of fst l /\ memory_bytes u = sum_of snd l /\
    cpu_nano u <= i128_max /\ memory_bytes u <= i128_max.
Proof.
  intros [Hin|?]%usage_index_from; [|by rewrite lookup_empty in *].
  apply list_elem_of_In, list_elem_of_omap in Hin as (metric & Hm & Hmap).
  unfold map_pod_metrics in Hmap.
  apply bind_Some in Hmap as (ns' & Hns & Hmap). apply bind_Some in Hmap as (nm' & Hnm & Hmap).
  apply bind_Some in Hmap as (containers & Hc & Hmap). apply bind_Some in Hmap as (t & Ht & [= -> -> ->]).
  destruct (sum_usage_spec _ _ _ Ht) as (l & Hl & Hcpu & Hmem).
  destruct (sum_usage_i128 _ _ _ Ht) as [[_ Hc1] [_ Hm1]]; [split; z_compute..|].
  exists metric, containers, l. split_and!; try done. by apply list_elem_of_In.
Qed.

Lemma reported_cpu c s : c <= i128_max -> format_cpu_quantity c = Some s -> parse_cpu_quantity s = Some c.
Proof. intros Hc Hs. pose proof (cpu_quantity_roundtrip c Hc) as H. rewrite Hs in H. by destruct H. Qed.
Lemma reported_memory b s :
  b <= i128_max -> format_memory_quantity b = Some s -> parse_memory_quantity s = Some b.
Proof. intros Hb Hs. pose proof (memory_quantity_roundtrip b Hb) as H. rewrite Hs in H. by destruct H. Qed.

(** C33: the usage of a pod is what the metrics say: a quantity that is reported
    reads back as the exact sum of the quantities of the containers of a
    metrics object with the pod's namespace and name, and a pod without such
    an object has no usage. *)
Theorem pod_usage_exact metrics detect now p :
  let i := map_pod (build_pod_usage_index metrics) detect now p in
  match build_pod_usage_index metrics !! (pinf_namespace i, pinf_name i) with
  | None => usage_cpu i = None /\ usage_memory i = None
  | Some _ => exists metric containers l, In metric metrics /\
      (x ← json_pointer ["metadata"; "namespace"] metric; as_str x) = Some (pinf_namespace i) /\
      (x ← json_pointer ["metadata"; "name"] metric; as_str x) = Some (pinf_name i) /\
      (x ← json_get "containers" metric; as_array x) = Some containers /\
      mapM container_usage containers = Some l /\
      (forall s, usage_cpu i = Some s -> parse_cpu_quantity s = Some (sum_of fst l)) /\
      (forall s, usage_memory i = Some s -> parse_memory_quantity s = Some (sum_of snd l))
  end.
Proof.
  cbv zeta. cbn [map_pod pinf_namespace pinf_name usage_cpu usage_memory].
  destruct (build_pod_usage_index metrics !! _) as [u|] eqn:Hu; [|done].
  apply usage_index_spec in Hu as (metric & cs & l & Hin & Hns & Hnm & Hc & Hl & Hcpu & Hmem & Hr1 & Hr2).
  exists metric, cs, l. split_and!; try done; cbn [mbind option_bind]; intros s Hs.
  - rewrite <- Hcpu. by apply reported_cpu.
  - rewrite <- Hmem. by apply reported_memory.
Qed.
