(* ===== verification/AppMetrics.v ===== *)
(** * Scraped metrics and log tails (collector.rs: collect_app_metrics,
    collect_workload_monitoring_logs and below)

    Which services are scraped and how, the parser of the Prometheus text
    format with its filters, and the tails of container logs.  The work runs in
    tasks that end in any order; the order of the result does not depend on it.
    A Rust panic is [None]. *)
From S2P Require Import Prelude RustStr Ordering Kube Config Env Demo Dependencies Cluster.
Local Open Scope Z_scope.

(** ** Rust's standard library: words and floating-point numbers *)

(** [str::split_whitespace], the first word and what follows it. *)
Fixpoint take_word (s : string) : string * string :=
  match s with
  | EmptyString => ("", "")
  | String a s' =>
      match strip_any white_space s with
      | Some _ => ("", s)
      | None => let '(w, r) := take_word s' in (String a w, r)
      end
  end.
Definition next_word (s : string) : option (string * string) :=
  let s := trim_start s in if str_is_empty s then None else Some (take_word s).

(** An [f64] that a text denotes: the nearest one to [m * 10 ^ e]. *)
Inductive f64 := Rounded (negative : bool) (m e : Z) | Infinite (negative : bool) | NotANumber.

(** [f64::is_finite]: below half a unit in the last place above [f64::MAX]. *)
Definition f64_bound : Z := 2 ^ 1024 - 2 ^ 970.
Definition is_finite (x : f64) : bool :=
  match x with
  | Rounded _ m e =>
      (m =? 0) || (if 0 <=? e then m * 10 ^ e <? f64_bound else m <? f64_bound * 10 ^ (- e))
  | _ => false
  end.

Fixpoint span_digits (s : string) : string * string :=
  match s with
  | String a s' =>
      if is_ascii_digit a then let '(d, r) := span_digits s' in (String a d, r) else ("", s)
  | EmptyString => ("", "")
  end.
Definition strip_sign (s : string) : bool * string :=
  match s with
  | String a s' =>
      if Ascii.eqb a "-" then (true, s') else if Ascii.eqb a "+" then (false, s') else (false, s)
  | EmptyString => (false, s)
  end.
(** The exponent that may follow the digits. *)
Definition parse_exponent (s : string) : option Z :=
  match s with
  | EmptyString => Some 0
  | String a s' =>
      if negb (Ascii.eqb (ascii_lower a) "e") then None else
      let '(negative, digits) := strip_sign s' in
      n ← parse_nat digits; Some (if negative then - n else n)
  end.
(** [str::parse::<f64>]. *)
Definition parse_f64 (s : string) : option f64 :=
  let '(negative, s) := strip_sign s in
  let lower := to_ascii_lowercase s in
  if String.eqb lower "inf" || String.eqb lower "infinity" then Some (Infinite negative) else
  if String.eqb lower "nan" then Some NotANumber else
  let '(int_digits, rest) := span_digits s in
  let '(frac_digits, rest) :=
    match strip_prefix "." rest with Some r => span_digits r | None => ("", rest) end in
  if str_is_empty (int_digits +s+ frac_digits) then None else
  m ← parse_digits 0 (int_digits +s+ frac_digits);
  e ← parse_exponent rest;
  Some (Rounded negative m (e - str_len frac_digits)).

(** ** The Prometheus text format *)

Record AppMetricSample := { sm_name : string; sm_labels : list KV; sm_value : f64 }.

Fixpoint unescape_prometheus_string (s : string) : string :=
  match s with
  | EmptyString => ""
  | String a s' =>
      if negb (Ascii.eqb a "\") then String a (unescape_prometheus_string s') else
      match s' with
      | EmptyString => ""
      | String b s'' =>
          String (if Ascii.eqb b "n" then byte_of 10 else if Ascii.eqb b "t" then byte_of 9
                  else if Ascii.eqb b "r" then byte_of 13 else b)
            (unescape_prometheus_string s'')
      end
  end.

Definition quote : string := String (byte_of 34) "".

(** [Some None]: the pair is skipped; [None]: the slice of a value that is a
    single quote panics. *)
Definition parse_prometheus_label (text : string) : option (option KV) :=
  some kv := split_once "=" text else Some None in
  let key := trim (fst kv) in
  let value := trim (snd kv) in
  if str_is_empty key || negb (starts_with quote value) || negb (ends_with quote value)
  then Some None else
  inner ← (inner ← strip_prefix quote value; strip_suffix quote inner);
  Some (Some {| kv_key := key; kv_value := unescape_prometheus_string inner |}).

Fixpoint parse_labels (pairs : list string) : option (list KV) :=
  match pairs with
  | [] => Some []
  | text :: pairs =>
      label ← parse_prometheus_label text; labels ← parse_labels pairs;
      Some (match label with Some l => l :: labels | None => labels end)
  end.

(** [None]: the slice between the braces panics when the last closing brace
    comes before the first opening one. *)
Definition parse_prometheus_sample (sample_expr : string) : option (string * list KV) :=
  match split_once "{" sample_expr with
  | Some (name, _) =>
      let until := match rsplit_once "}" sample_expr with
                   | Some (l, _) => l | None => sample_expr end in
      text ← strip_prefix (name +s+ "{") until;
      labels ← parse_labels (str_split "," text);
      Some (name, labels)
  | None => Some (sample_expr, [])
  end.

Definition sensitive_needles : list string :=
  ["token"; "secret"; "password"; "passwd"; "credential"; "api_key"; "apikey"; "auth"; "session"].
Definition is_sensitive_label_key (key : string) : bool :=
  existsb (fun needle => str_contains needle (to_ascii_lowercase key)) sensitive_needles.
Definition sanitize_prometheus_labels (labels : list KV) : list KV :=
  List.filter (fun l => negb (is_sensitive_label_key (kv_key l))) labels.

Definition parse_prometheus_value (value : string) : option f64 :=
  some parsed :=
    (if existsb (String.eqb value) ["+Inf"; "Inf"; "+Infinity"; "Infinity"] then Some (Infinite false)
     else if existsb (String.eqb value) ["-Inf"; "-Infinity"] then Some (Infinite true)
     else if String.eqb value "NaN" then None else parse_f64 value)
  else None in
  if is_finite parsed then Some parsed else None.

Definition metric_allowed (name : string) (allowlist : list string) : bool :=
  existsb (fun entry =>
    match strip_suffix "*" entry with
    | Some prefix => negb (str_is_empty prefix) && starts_with prefix name
    | None => String.eqb name entry
    end) allowlist.

Section parsing.
Context (allowlist : list string) (max_samples : nat).

Fixpoint parse_loop (lines : list string) (samples : list AppMetricSample) (matched_count : nat)
    (truncated : bool) : option (list AppMetricSample * nat * bool) :=
  match lines with
  | [] => Some (samples, matched_count, truncated)
  | line :: lines =>
      let line := trim line in
      if str_is_empty line || starts_with "#" line then parse_loop lines samples matched_count truncated
      else
      some word := next_word line else parse_loop lines samples matched_count truncated in
      some word2 := next_word (snd word) else parse_loop lines samples matched_count truncated in
      match parse_prometheus_sample (fst word) with
      | None => None
      | Some (name, labels) =>
          if negb (metric_allowed name allowlist)
          then parse_loop lines samples matched_count truncated else
          match parse_prometheus_value (fst word2) with
          | None => parse_loop lines samples matched_count truncated
          | Some value =>
              if (length samples <? max_samples)%nat
              then parse_loop lines
                     (samples ++ [{| sm_name := name; sm_labels := sanitize_prometheus_labels labels;
                                     sm_value := value |}])
                     (S matched_count) truncated
              else parse_loop lines samples (S matched_count) true
          end
      end
  end.
Definition parse_prometheus_text (body : string) : option (list AppMetricSample * nat * bool) :=
  parse_loop (str_lines body) [] 0 false.
End parsing.

(** ** Targets *)

Record AppMetricsTargetSpec := {
  sp_namespace : string; sp_service : string; sp_port : Z; sp_path : string; sp_source : string;
  sp_scheme : string }.

Definition annotation_is_true (annotations : gmap string string) (keys : list string) : bool :=
  existsb (fun key => match annotations !! key with
    | Some value => eq_ignore_ascii_case (trim value) "true" || String.eqb (trim value) "1"
    | None => false end) keys.
Definition annotation_string (annotations : gmap string string) (keys : list string) : option string :=
  find_map (fun key => value ← annotations !! key; non_empty (trim value)) keys.

Definition sanitize_app_metrics_scheme (scheme : option string) : option string :=
  let scheme := unwrap_or "http" scheme in
  if existsb (String.eqb scheme) ["http"; "https"] then Some scheme else None.
Definition sanitize_app_metrics_path (path : string) : option string :=
  if negb (starts_with "/" path) || str_contains ".." path || str_contains "://" path
     || str_contains "?" path || str_contains "#" path
     || str_contains (String (byte_of 10) "") path || str_contains (String (byte_of 13) "") path
  then None else Some path.

Definition discover_app_metrics_target (service : Service) : option AppMetricsTargetSpec :=
  let namespace := unwrap_or "" (namespace (svc_metadata service)) in
  let service_name := unwrap_or "" (name (svc_metadata service)) in
  some annotations := annotations (svc_metadata service) else None in
  if negb (annotation_is_true annotations ["prometheus.io/scrape"; "sentinella.io/app-metrics"])
  then None else
  let path := unwrap_or "/metrics"
    (annotation_string annotations ["prometheus.io/path"; "sentinella.io/app-metrics-path"]) in
  some path := sanitize_app_metrics_path path else None in
  some scheme := sanitize_app_metrics_scheme
    (annotation_string annotations ["prometheus.io/scheme"; "sentinella.io/app-metrics-scheme"])
  else None in
  some port := opt_or
    (value ← annotation_string annotations ["prometheus.io/port"; "sentinella.io/app-metrics-port"];
     parse_u16 value)
    (spec ← svc_spec service; ports ← service_ports spec; port ← head ports;
     Some (Tetragon.as_u16 (svp_port port)))
  else None in
  Some {| sp_namespace := namespace; sp_service := service_name; sp_port := port; sp_path := path;
          sp_source := if is_some (annotations !! "sentinella.io/app-metrics")
                       then "sentinella-annotation" else "prometheus-annotation";
          sp_scheme := scheme |}.

(** ** Scraping *)

Record AppMetricsTarget := {
  tg_namespace : string; tg_service : string; tg_port : Z; tg_path : string; tg_source : string;
  tg_status : string; tg_summary : string; metrics_count : nat; tg_truncated : bool;
  samples : list AppMetricSample }.

Definition APP_METRICS_MAX_RESPONSE_BYTES : Z := 1048576.
Definition is_success (status : Z) : bool := (200 <=? status) && (status <? 300).

Definition scrape_url (target : AppMetricsTargetSpec) : string :=
  sp_scheme target +s+ "://" +s+ sp_service target +s+ "." +s+ sp_namespace target
  +s+ ".svc.cluster.local:" +s+ nat_to_string (sp_port target) +s+ sp_path target.

Definition target_report (target : AppMetricsTargetSpec) (status summary : string) (count : nat)
    (truncated : bool) (l : list AppMetricSample) : AppMetricsTarget :=
  {| tg_namespace := sp_namespace target; tg_service := sp_service target; tg_port := sp_port target;
     tg_path := sp_path target; tg_source := sp_source target; tg_status := status;
     tg_summary := summary; metrics_count := count; tg_truncated := truncated; samples := l |}.
Definition target_warning (target : AppMetricsTargetSpec) (summary : string) : AppMetricsTarget :=
  target_report target "warning" summary 0 false [].

(** [elapsed_ms] is what [started_at.elapsed()] gives. *)
Definition scrape_app_metrics_target (allowlist : list string) (max_samples : nat)
    (target : AppMetricsTargetSpec) (answer : ScrapeAnswer) (elapsed_ms : Z)
    : option AppMetricsTarget :=
  let url := scrape_url target in
  match answer with
  | SendError err =>
      Some (target_warning target ("failed to scrape " +s+ url +s+ ": " +s+ err))
  | Answer status content_length text =>
      if match content_length with Some n => APP_METRICS_MAX_RESPONSE_BYTES <? n | None => false end
      then Some (target_warning target ("app metrics response from " +s+ url +s+ " exceeded "
                   +s+ nat_to_string APP_METRICS_MAX_RESPONSE_BYTES +s+ " bytes"))
      else
      match text with
      | Err err => Some (target_warning target
          ("failed to read app metrics response from " +s+ url +s+ ": " +s+ err))
      | Ok body =>
          '(l, matched_count, truncated) ← parse_prometheus_text allowlist max_samples body;
          let count := nat_to_string (Z.of_nat matched_count) in
          Some (target_report target
            (if is_success status && (0 <? matched_count)%nat && negb truncated then "ok" else "warning")
            (if is_success status then
               if (matched_count =? 0)%nat
               then "scraped " +s+ url +s+ " but found no allowlisted metrics"
               else if truncated
               then "scraped " +s+ url +s+ " with " +s+ count +s+ " matched samples (truncated)"
               else "scraped " +s+ url +s+ " with " +s+ count +s+ " matched samples in "
                    +s+ nat_to_string elapsed_ms +s+ " ms"
             else "scrape returned HTTP " +s+ nat_to_string status +s+ " from " +s+ url)
            matched_count truncated l)
      end
  end.

(** ** Tasks *)

Definition target_compare : AppMetricsTarget -> AppMetricsTarget -> comparison :=
  cmp_lex (cmp_on tg_namespace String.compare)
  (cmp_lex (cmp_on tg_service String.compare)
  (cmp_lex (cmp_on tg_port Z.compare) (cmp_on tg_path String.compare))).
Global Instance target_comparator : Comparator target_compare.
Proof. unfold target_compare. comparator. Qed.

(** The targets for which [collect_app_metrics] spawns a task. *)
Definition app_metrics_targets (cfg : Config) (services : list Service) : list AppMetricsTargetSpec :=
  if negb (app_metrics_enabled cfg) || negb (app_metrics_discovery_enabled cfg)
     || is_empty (app_metrics_namespaces cfg) then [] else
  omap (fun service =>
    if existsb (fun allowed => String.eqb allowed (unwrap_or "" (namespace (svc_metadata service))))
         (app_metrics_namespaces cfg)
    then discover_app_metrics_target service else None) services.

(** The tasks' results in the order in which they end; a task that panicked
    has none. *)
Definition collect_app_metrics (joined : list (option AppMetricsTarget)) : list AppMetricsTarget :=
  sort_by target_compare (omap id joined).

(** ** Log tails *)

Record WorkloadMonitoringContainerLogs := {
  cl_name : string; cl_truncated : bool; cl_lines : list string }.
Record WorkloadMonitoringPodLogs := {
  pl_namespace : string; pl_name : string; pl_containers : list WorkloadMonitoringContainerLogs }.

Definition WORKLOAD_MONITORING_LOG_TAIL_LINES : nat := 200.
Definition WORKLOAD_MONITORING_LOG_LIMIT_BYTES : Z := 65536.

Definition split_log_output (output : string) : list string * bool :=
  let lines := str_lines output in
  (lines, (WORKLOAD_MONITORING_LOG_LIMIT_BYTES <=? str_len output)
          || (WORKLOAD_MONITORING_LOG_TAIL_LINES <=? length lines)%nat).

Section logs.
(** What the API server answers for the log of a container: the text, or no
    text for an error. *)
Context (pod_log : string -> string -> string -> option string).

Definition collect_workload_monitoring_container_logs (namespace pod_name container : string)
    : option WorkloadMonitoringContainerLogs :=
  output ← pod_log namespace pod_name container;
  let '(lines, truncated) := split_log_output output in
  Some {| cl_name := container; cl_truncated := truncated; cl_lines := lines |}.

Definition collect_workload_monitoring_pod_logs (pod : PodInfo) : option WorkloadMonitoringPodLogs :=
  let logs := omap (collect_workload_monitoring_container_logs (pinf_namespace pod) (pinf_name pod))
                (map cti_name (pinf_containers pod)) in
  if is_empty logs then None else
  Some {| pl_namespace := pinf_namespace pod; pl_name := pinf_name pod; pl_containers := logs |}.

Definition log_task_of (cfg : Config) (pod : PodInfo) : bool :=
  existsb (fun n => String.eqb n (pinf_namespace pod)) (workload_monitoring_namespaces cfg)
  && negb (is_empty (pinf_containers pod)).

(** The spawned tasks with the index of their pod. *)
Definition log_tasks (cfg : Config) (pods : list PodInfo)
    : list (nat * option WorkloadMonitoringPodLogs) :=
  if negb (workload_monitoring_enabled cfg) || is_empty (workload_monitoring_namespaces cfg) then []
  else omap (fun p => if log_task_of cfg (snd p)
                      then Some (fst p, collect_workload_monitoring_pod_logs (snd p)) else None)
         (imap pair pods).
End logs.

Definition index_compare : nat * WorkloadMonitoringPodLogs -> nat * WorkloadMonitoringPodLogs -> comparison :=
  cmp_on (fun p => Z.of_nat (fst p)) Z.compare.
Global Instance index_comparator : Comparator index_compare.
Proof. unfold index_compare. comparator. Qed.

(** [joined]: the results of the tasks in the order in which they end. *)
Definition collect_workload_monitoring_logs (joined : list (nat * option WorkloadMonitoringPodLogs))
    : list WorkloadMonitoringPodLogs :=
  map snd (sort_by index_compare
    (omap (fun p => match snd p with Some logs => Some (fst p, logs) | None => None end) joined)).

(** ** The reference parser *)

(** *** The reference

    A name is allowed if an entry of the list covers it; a label is secret if its
    key holds one of these words in any case. *)
Definition allowed_name (allowlist : list string) (nm : string) : Prop :=
  exists entry, In entry allowlist /\ pattern_covers nm entry.
Definition secret_key (key : string) : Prop :=
  exists word, In word ["token"; "secret"; "password"; "passwd"; "credential"; "api_key"; "apikey"; "auth";
                        "session"] /\ occurs word (to_ascii_lowercase key).

Lemma metric_allowed_spec nm allowlist : metric_allowed nm allowlist = true <-> allowed_name allowlist nm.
Proof.
  unfold metric_allowed, allowed_name. rewrite existsb_exists.
  by setoid_rewrite <- wildcard_spec.
Qed.
Lemma sensitive_spec key : is_sensitive_label_key key = true <-> secret_key key.
Proof.
  unfold is_sensitive_label_key, secret_key. rewrite existsb_exists.
  by setoid_rewrite str_contains_occurs.
Qed.
Global Instance allowed_name_dec allowlist nm : Decision (allowed_name allowlist nm).
Proof. refine (cast_if (decide (metric_allowed nm allowlist = true))); by rewrite <- metric_allowed_spec. Defined.
Global Instance secret_key_dec key : Decision (secret_key key).
Proof. refine (cast_if (decide (is_sensitive_label_key key = true))); by rewrite <- sensitive_spec. Defined.

(** The sample of one line: [Some None] if it has none, [None] if it panics. *)
Definition line_sample (allowlist : list string) (line : string) : option (option AppMetricSample) :=
  let line := trim line in
  if str_is_empty line || starts_with "#" line then Some None else
  some word := next_word line else Some None in
  some word2 := next_word (snd word) else Some None in
  '(name, labels) ← parse_prometheus_sample (fst word);
  Some (if decide (allowed_name allowlist name) then
          value ← parse_prometheus_value (fst word2);
          Some {| sm_name := name;
                  sm_labels := List.filter (fun l => bool_decide (~ secret_key (kv_key l))) labels;
                  sm_value := value |}
        else None).

Lemma decide_allowed {A} nm allowlist (x y : A) :
  (if decide (allowed_name allowlist nm) then x else y) = if metric_allowed nm allowlist then x else y.
Proof.
  case_decide as H; [by rewrite (proj2 (metric_allowed_spec nm allowlist) H)|].
  destruct (metric_allowed nm allowlist) eqn:Ha; [|done]. by apply metric_allowed_spec in Ha.
Qed.
Lemma sanitize_spec labels :
  sanitize_prometheus_labels labels = List.filter (fun l => bool_decide (~ secret_key (kv_key l))) labels.
Proof.
  apply List.filter_ext. intros l. apply eq_true_iff_eq.
  rewrite bool_decide_eq_true, negb_true_iff, <- sensitive_spec. by destruct (is_sensitive_label_key _).
Qed.

(** What a reported sample never is. *)
Definition sample_ok (allowlist : list string) (s : AppMetricSample) : Prop :=
  allowed_name allowlist (sm_name s) /\ is_finite (sm_value s) = true /\
  Forall (fun l => ~ secret_key (kv_key l)) (sm_labels s).

Section parser_lemmas.
Context (allowlist : list string) (max_samples : nat).

Definition parsed_as (all : list AppMetricSample) : list AppMetricSample * nat * bool :=
  (take max_samples all, length all, bool_decide (max_samples < length all)%nat).

Lemma parse_loop_none line lines l n t :
  line_sample allowlist line = Some None ->
  parse_loop allowlist max_samples (line :: lines) l n t = parse_loop allowlist max_samples lines l n t.
Proof.
  unfold line_sample. cbn [parse_loop]. destruct (_ || _); [done|].
  destruct (next_word (trim line)) as [word|]; [|done].
  destruct (next_word (snd word)) as [word2|]; [|done].
  destruct (parse_prometheus_sample (fst word)) as [[nm labels]|]; [|done]. cbn.
  rewrite decide_allowed, <- sanitize_spec. destruct (metric_allowed nm allowlist); cbn; [|done].
  by destruct (parse_prometheus_value (fst word2)).
Qed.

Lemma parse_loop_panic line lines l n t :
  line_sample allowlist line = None -> parse_loop allowlist max_samples (line :: lines) l n t = None.
Proof.
  unfold line_sample. cbn [parse_loop]. destruct (_ || _); [done|].
  destruct (next_word (trim line)) as [word|]; [|done].
  destruct (next_word (snd word)) as [word2|]; [|done].
  by destruct (parse_prometheus_sample (fst word)) as [[nm labels]|].
Qed.

Lemma parse_loop_sample line lines l n t s :
  line_sample allowlist line = Some (Some s) ->
  parse_loop allowlist max_samples (line :: lines) l n t =
  if (length l <? max_samples)%nat then parse_loop allowlist max_samples lines (l ++ [s]) (S n) t
  else parse_loop allowlist max_samples lines l (S n) true.
Proof.
  unfold line_sample. cbn [parse_loop]. destruct (_ || _); [done|].
  destruct (next_word (trim line)) as [word|]; [|done].
  destruct (next_word (snd word)) as [word2|]; [|done].
  destruct (parse_prometheus_sample (fst word)) as [[nm labels]|]; [|done]. cbn.
  rewrite decide_allowed, <- sanitize_spec. destruct (metric_allowed nm allowlist); cbn; [|done].
  destruct (parse_prometheus_value (fst word2)); [|done]. by intros [= <-].
Qed.

Lemma parsed_as_snoc all s :
  parsed_as (all ++ [s]) =
  (if (length (take max_samples all) <? max_samples)%nat then take max_samples all ++ [s]
   else take max_samples all, S (length all),
   if (length (take max_samples all) <? max_samples)%nat
   then bool_decide (max_samples < length all)%nat else true).
Proof.
  unfold parsed_as. rewrite length_take, length_app. cbn [length].
  rewrite Nat.add_1_r. destruct (Nat.ltb_spec (max_samples `min` length all) max_samples) as [H|H].
  - rewrite !take_ge by (rewrite ?length_app; cbn [length]; lia).
    by repeat case_bool_decide; try lia.
  - rewrite take_app_le by lia. by rewrite bool_decide_eq_true_2 by lia.
Qed.

Lemma parse_loop_spec lines all :
  parse_loop allowlist max_samples lines (take max_samples all) (length all)
    (bool_decide (max_samples < length all)%nat) =
  (found ← mapM (line_sample allowlist) lines; Some (parsed_as (all ++ omap id found))).
Proof.
  revert all. induction lines as [|line lines IH]; intros all.
  - cbn. by rewrite app_nil_r.
  - cbn [mapM]. destruct (line_sample allowlist line) as [[s|]|] eqn:Hl; cbn [mbind option_bind].
    + rewrite (parse_loop_sample _ _ _ _ _ s Hl).
      transitivity (found ← mapM (line_sample allowlist) lines;
                    Some (parsed_as ((all ++ [s]) ++ omap id found))).
      * rewrite <- IH. pose proof (parsed_as_snoc all s) as Hs. unfold parsed_as in Hs.
        injection Hs as -> -> ->. by destruct (_ <? _)%nat.
      * destruct (mapM _ lines); cbn; [|done]. by rewrite <- app_assoc.
    + rewrite parse_loop_none by done. rewrite IH. by destruct (mapM _ lines).
    + by rewrite parse_loop_panic.
Qed.

Lemma line_sample_ok line s :
  line_sample allowlist line = Some (Some s) -> sample_ok allowlist s.
Proof.
  unfold line_sample. destruct (_ || _); [done|].
  destruct (next_word (trim line)) as [word|]; [|done].
  destruct (next_word (snd word)) as [word2|]; [|done].
  destruct (parse_prometheus_sample (fst word)) as [[nm labels]|]; [|done]. cbn.
  case_decide as Ha; [|done]. cbn.
  destruct (parse_prometheus_value (fst word2)) as [v|] eqn:Hv; [|done]. intros [= <-].
  split_and!; [done| |].
  - unfold parse_prometheus_value in Hv. case_match; [|done]. by case_match; simplify_eq.
  - cbn [sm_labels]. apply Forall_forall.
    intros l. rewrite list_elem_of_In, filter_In. by intros [_ ?%bool_decide_eq_true].
Qed.

(** C32: the parser of the Prometheus text format keeps the first [max_samples]
    samples of the lines, counts all of them and is truncated exactly if there
    are more; a line with a finite value gives a sample exactly if an entry of
    the allowlist, a name or a prefix with a star, covers its name, with all its
    labels but those whose key holds, in any case, one of nine words for a
    secret; it panics exactly if one of the lines makes it panic. *)
Theorem parse_prometheus_text_exact body :
  parse_prometheus_text allowlist max_samples body =
    (found ← mapM (line_sample allowlist) (str_lines body); Some (parsed_as (omap id found))) /\
  (forall l n t, parse_prometheus_text allowlist max_samples body = Some (l, n, t) ->
     Forall (sample_ok allowlist) l) /\
  (parse_prometheus_text allowlist max_samples body = None <->
     Exists (fun line => line_sample allowlist line = None) (str_lines body)).
Proof.
  assert (Heq : parse_prometheus_text allowlist max_samples body =
    (found ← mapM (line_sample allowlist) (str_lines body); Some (parsed_as (omap id found)))).
  { unfold parse_prometheus_text. pose proof (parse_loop_spec (str_lines body) []) as H.
    by rewrite take_nil, bool_decide_eq_false_2 in H by (simpl; lia). }
  split_and!; [done| |]; rewrite Heq.
  - intros l n t H. apply bind_Some in H as (found & Hf & [= <- <- <-]).
    apply Forall_take, Forall_forall. intros s (o & Ho & Hs)%list_elem_of_omap. cbn in Hs. subst o.
    apply mapM_Some in Hf. apply (Forall2_Forall_r _ (fun o => forall s, o = Some s -> sample_ok allowlist s))
      in Hf; [|apply Forall_forall; intros line _ o Hl s' ->; by apply (line_sample_ok line)].
    rewrite Forall_forall in Hf. by apply (Hf (Some s)).
  - destruct (mapM _ _) as [found|] eqn:Hm; cbn; rewrite ?mapM_None in *.
    + split; [done|]. intros (line & Hin & Hl)%Exists_exists. apply mapM_Some in Hm.
      apply (Forall2_Forall_l _ (fun line => line_sample allowlist line <> None)) in Hm.
      * rewrite Forall_forall in Hm. by apply (Hm line) in Hin.
      * apply Forall_forall. intros o _ line' ->. done.
    + by split.
Qed.
End parser_lemmas.

(** Two bodies that make the scraper's task panic: a label value that is a
    single quote, and a closing brace before the opening one; the metric need
    not be allowlisted. *)
Example quote_panics :
  parse_prometheus_text ["up"] 10 ("m{a=" +s+ quote +s+ "} 1") = None.
Proof. vm_compute. reflexivity. Qed.
Example brace_panics : parse_prometheus_text ["up"] 10 "a}b{c 1" = None.
Proof. vm_compute. reflexivity. Qed.
Example demo_prometheus :
  parse_prometheus_text ["up"; "http_*"] 1
    ("# HELP" +s+ Tetragon.newline +s+ "up{job=" +s+ quote +s+ "x" +s+ quote +s+ ",token=" +s+ quote
     +s+ "t" +s+ quote +s+ "} 1.5e2" +s+ Tetragon.newline +s+ "http_total 3")
  = Some ([{| sm_name := "up"; sm_labels := [{| kv_key := "job"; kv_value := "x" |}];
              sm_value := Rounded false 15 1 |}], 2%nat, true).
Proof. vm_compute. reflexivity. Qed.

(** ** Targets *)

(** The agent scrapes a service only in an allowlisted namespace that asked
    for it by an annotation, over http or https, at a 16-bit port of the
    service's own cluster address, under an absolute path without parent
    segments, query or fragment. *)
Theorem scrape_targets_safe cfg services target :
  In target (app_metrics_targets cfg services) ->
  app_metrics_enabled cfg = true /\ app_metrics_discovery_enabled cfg = true /\
  In (sp_namespace target) (app_metrics_namespaces cfg) /\
  In (sp_scheme target) ["http"; "https"] /\
  0 <= sp_port target <= u16_max /\
  (exists service annotations, In service services /\
     Kube.annotations (svc_metadata service) = Some annotations /\
     annotation_is_true annotations ["prometheus.io/scrape"; "sentinella.io/app-metrics"] = true /\
     sp_namespace target = unwrap_or "" (namespace (svc_metadata service)) /\
     sp_service target = unwrap_or "" (name (svc_metadata service))) /\
  (exists rest, sp_path target = "/" +s+ rest) /\
  Forall (fun bad => str_contains bad (sp_path target) = false)
    [".."; "://"; "?"; "#"; String (byte_of 10) ""; String (byte_of 13) ""].
Proof.
  unfold app_metrics_targets.
  destruct (app_metrics_enabled cfg); [|done]. destruct (app_metrics_discovery_enabled cfg); [|done].
  destruct (is_empty _); [done|]. cbn [negb orb].
  rewrite <- list_elem_of_In, list_elem_of_omap. intros (service & Hin%list_elem_of_In & Ht).
  destruct (existsb _ _) eqn:Hns; [|done]. apply existsb_exists in Hns as (ns & Hns & ->%String.eqb_eq).
  unfold discover_app_metrics_target in Ht.
  destruct (Kube.annotations (svc_metadata service)) as [ann|] eqn:Hann; [|done].
  destruct (annotation_is_true _ _) eqn:Htrue; [|done]. cbn [negb] in Ht.
  destruct (sanitize_app_metrics_path _) as [path|] eqn:Hpath; [|done].
  destruct (sanitize_app_metrics_scheme _) as [scheme|] eqn:Hscheme; [|done].
  destruct (opt_or _ _) as [port|] eqn:Hport; [|done]. injection Ht as <-.
  cbn [sp_namespace sp_scheme sp_port sp_service sp_path].
  assert (Hrange : 0 <= port <= u16_max).
  { unfold opt_or in Hport. destruct (value ← _; _) as [p|] eqn:Hp in Hport.
    - injection Hport as <-. apply bind_Some in Hp as (v & _ & Hp).
      unfold parse_u16, parse_unsigned in Hp. apply bind_Some in Hp as (n & _ & Hp).
      unfold check_range in Hp. case_match eqn:Hc; simplify_eq. lia.
    - apply bind_Some in Hport as (spec & _ & Hport). apply bind_Some in Hport as (ports & _ & Hport).
      apply bind_Some in Hport as (p & _ & [= <-]).
      unfold Tetragon.as_u16, u16_max. pose proof (Z.mod_pos_bound (svp_port p) 65536). lia. }
  unfold sanitize_app_metrics_path in Hpath. destruct (_ || _) eqn:Hc in Hpath; [done|].
  injection Hpath as Hpath. rewrite Hpath in Hc. bools.
  do 3 (split; [done|]). split; [|split; [done|split; [by eauto 8|split]]].
  - unfold sanitize_app_metrics_scheme in Hscheme. destruct (existsb _ _) eqn:Hs; [|done].
    injection Hscheme as <-. by apply existsb_exists in Hs as (x & Hx & ->%String.eqb_eq).
  - by apply starts_with_spec.
  - by repeat constructor.
Qed.

(** ** Log tails *)

Section log_lemmas.
Context (pod_log : string -> string -> string -> option string) (cfg : Config).

Definition pod_logs_of (pod : PodInfo) : option WorkloadMonitoringPodLogs :=
  if log_task_of cfg pod then collect_workload_monitoring_pod_logs pod_log pod else None.

Definition indexed (offset : nat) (pods : list PodInfo) : list (nat * WorkloadMonitoringPodLogs) :=
  omap (fun p => logs ← pod_logs_of (snd p); Some (fst p, logs))
    (imap (fun i pod => (offset + i, pod)%nat) pods).

Lemma indexed_cons offset pod pods :
  indexed offset (pod :: pods) =
  match pod_logs_of pod with Some logs => [(offset, logs)] | None => [] end ++ indexed (S offset) pods.
Proof.
  unfold indexed. rewrite imap_cons. cbn [omap list_omap snd fst]. rewrite Nat.add_0_r.
  replace (imap _ pods) with (imap (fun i pod => (S offset + i, pod)%nat) pods)
    by (apply imap_ext; intros i p _; cbn; f_equal; lia).
  by destruct (pod_logs_of pod).
Qed.

Lemma indexed_above offset pods : Forall (fun p => (offset <= fst p)%nat) (indexed offset pods).
Proof.
  revert offset. induction pods as [|pod pods IH]; intros offset; [constructor|].
  rewrite indexed_cons. apply Forall_app. split; [case_match; by repeat constructor|].
  eapply Forall_impl; [apply IH|]. intros p ?; simpl in *; lia.
Qed.

Lemma indexed_sorted offset pods : StronglySorted (cmp_le index_compare) (indexed offset pods).
Proof.
  revert offset. induction pods as [|pod pods IH]; intros offset; [constructor|].
  rewrite indexed_cons. destruct (pod_logs_of pod); simpl; [|done]. constructor; [done|].
  eapply Forall_impl; [apply indexed_above|]. intros p ?. unfold cmp_le, index_compare, cmp_on. simpl in *.
  rewrite Z.compare_gt_iff. lia.
Qed.

Lemma indexed_unique offset pods p q :
  p ∈ indexed offset pods -> q ∈ indexed offset pods -> fst p = fst q -> p = q.
Proof.
  revert offset. induction pods as [|pod pods IH]; intros offset; [by intros ?%not_elem_of_nil|].
  rewrite indexed_cons, !elem_of_app. pose proof (indexed_above (S offset) pods) as Ha.
  rewrite Forall_forall in Ha. destruct (pod_logs_of pod) as [logs|].
  - rewrite !list_elem_of_singleton. intros [->|Hp] [->|Hq] Heq; [done| | |by eapply IH].
    + specialize (Ha _ Hq). simpl in *. lia.
    + specialize (Ha _ Hp). simpl in *. lia.
  - intros [[]%not_elem_of_nil|Hp] [[]%not_elem_of_nil|Hq] Heq. by eapply IH.
Qed.

Lemma indexed_values offset pods : map snd (indexed offset pods) = omap pod_logs_of pods.
Proof.
  revert offset. induction pods as [|pod pods IH]; intros offset; [done|].
  rewrite indexed_cons, map_app, IH. simpl. by destruct (pod_logs_of pod).
Qed.

Lemma log_tasks_indexed pods :
  omap (fun p => match snd p with Some logs => Some (fst p, logs) | None => None end)
    (omap (fun p => if log_task_of cfg (snd p)
                    then Some (fst p, collect_workload_monitoring_pod_logs pod_log (snd p)) else None)
      (imap pair pods)) = indexed 0 pods.
Proof.
  unfold indexed. change (fun i pod => (0 + i, pod)%nat) with (@pair nat PodInfo).
  generalize (imap pair pods). intros l. induction l as [|[i pod] l IH]; [done|].
  cbn [omap list_omap snd fst]. unfold pod_logs_of. destruct (log_task_of cfg pod); cbn; [|done].
  destruct (collect_workload_monitoring_pod_logs pod_log pod); cbn; by rewrite IH.
Qed.
End log_lemmas.

Lemma omap_nil_all {A B} (f : A -> option B) l : (forall x, In x l -> f x = None) -> omap f l = [].
Proof.
  induction l as [|x l IH]; intros Hf; [done|]. cbn [omap list_omap].
  rewrite Hf by by left. apply IH. intros y Hy. apply Hf. by right.
Qed.

(** In whatever order the log tasks end, the result is the log tails of the
    pods in allowlisted namespaces in the order of the pods. *)
Theorem log_order_independent pod_log cfg pods joined :
  Permutation joined (log_tasks pod_log cfg pods) ->
  collect_workload_monitoring_logs joined =
  if workload_monitoring_enabled cfg then omap (pod_logs_of pod_log cfg) pods else [].
Proof.
  intros Hp. unfold collect_workload_monitoring_logs. unfold log_tasks in Hp.
  destruct (workload_monitoring_enabled cfg); cbn [negb orb] in Hp.
  - destruct (workload_monitoring_namespaces cfg) as [|ns nss] eqn:Hns; cbn [is_empty] in Hp.
    + apply Permutation_nil_r in Hp as ->. symmetry. apply omap_nil_all.
      intros pod _. unfold pod_logs_of, log_task_of. by rewrite Hns.
    + apply (omap_Permutation (fun p : nat * option WorkloadMonitoringPodLogs =>
        match snd p with Some logs => Some (fst p, logs) | None => None end)) in Hp.
      rewrite log_tasks_indexed in Hp. rewrite <- (indexed_values pod_log cfg 0 pods). f_equal.
      apply sort_by_unique; [apply _| |done|apply indexed_sorted].
      intros p q Hin1%list_elem_of_In Hin2%list_elem_of_In Heq%Z.compare_eq.
      rewrite Hp in Hin1, Hin2. eapply indexed_unique; [done..|lia].
  - by apply Permutation_nil_r in Hp as ->.
Qed.

Definition demo_log (ns pod container : string) : option string :=
  if String.eqb container "gone" then None else Some (pod +s+ ":" +s+ container).

(** ** The sample configuration *)

Definition demo_monitoring : Config :=
  match @from_env_for_mode (list_to_map [("HUB_URL", "https://hub.example"); ("CLUSTER_ID", "c-1");
      ("HUB_API_KEY", "shub_1"); ("APP_METRICS_ENABLED", "true"); ("APP_METRICS_NAMESPACES", "shop");
      ("WORKLOAD_MONITORING_ENABLED", "true"); ("WORKLOAD_MONITORING_NAMESPACES", "shop,db")])
    demo_yaml Agent with
  | Ok cfg => cfg | Err _ => demo_config false end.

Definition demo_service : Service :=
  {| svc_metadata :=
       {| name := Some "web"; namespace := Some "shop"; labels := None;
          annotations := Some (list_to_map [("prometheus.io/scrape", " True "); ("prometheus.io/path", "/m")]);
          generation := None; resource_version := None; owner_references := None; creation_timestamp := None |};
     svc_spec := Some {| service_type := None; cluster_ip := None; external_ips := None; selector := None;
       service_ports := Some [{| svp_name := None; svp_protocol := None; svp_port := 8080;
                                 svp_target_port := None; svp_node_port := None |}] |};
     svc_status := None |}.
Definition demo_target : AppMetricsTargetSpec :=
  {| sp_namespace := "shop"; sp_service := "web"; sp_port := 8080; sp_path := "/m";
     sp_source := "prometheus-annotation"; sp_scheme := "http" |}.

Lemma scrape_targets_safe_witness :
  app_metrics_targets demo_monitoring [demo_service] = [demo_target] /\
  scrape_url demo_target = "http://web.shop.svc.cluster.local:8080/m" /\
  0 <= sp_port demo_target <= u16_max.
Proof.
  assert (Ht : app_metrics_targets demo_monitoring [demo_service] = [demo_target])
    by (vm_compute; reflexivity).
  split; [exact Ht|]. split; [vm_compute; reflexivity|].
  pose proof (scrape_targets_safe demo_monitoring [demo_service] demo_target) as H.
  rewrite Ht in H. destruct (H (or_introl eq_refl)) as (_ & _ & _ & _ & Hp & _). exact Hp.
Defined.

Definition demo_pod_info (ns nm : string) (names : list string) : PodInfo :=
  map_pod ∅ false None
    {| pod_metadata := {| name := Some nm; namespace := Some ns; labels := None; annotations := None;
         generation := None; resource_version := None; owner_references := None;
         creation_timestamp := None |};
       pod_spec := Some {| containers := map (fun c => container c None) names; node_name := None |};
       pod_status := None |}.
Definition demo_pods_info : list PodInfo :=
  [demo_pod_info "shop" "a" ["c"; "gone"]; demo_pod_info "other" "b" ["c"]; demo_pod_info "db" "d" ["c"]].
Definition demo_logs_of (nm ns : string) : WorkloadMonitoringPodLogs :=
  {| pl_namespace := ns; pl_name := nm;
     pl_containers := [{| cl_name := "c"; cl_truncated := false; cl_lines := [nm +s+ ":c"] |}] |}.

Lemma log_order_independent_witness :
  collect_workload_monitoring_logs [(2%nat, Some (demo_logs_of "d" "db")); (0%nat, Some (demo_logs_of "a" "shop"))]
  = [demo_logs_of "a" "shop"; demo_logs_of "d" "db"].
Proof.
  etransitivity; [apply (log_order_independent demo_log demo_monitoring demo_pods_info)|].
  - replace (log_tasks demo_log demo_monitoring demo_pods_info) with
      [(0%nat, Some (demo_logs_of "a" "shop")); (2%nat, Some (demo_logs_of "d" "db"))]
      by (vm_compute; reflexivity).
    apply perm_swap.
  - vm_compute. reflexivity.
Defined.
