(* ===== verification/Network.v ===== *)
(** * Services and ingresses (collector.rs: map_service, map_ingress)

    The network section of a snapshot.  Everything a listed object gives as a
    list is sorted, so that equal clusters give equal sections. *)
From S2P Require Import Prelude RustStr Ordering Kube Env Inventory.
Local Open Scope Z_scope.

(** ** Rust's standard library: comparison of sequences and [Vec::dedup] *)

Fixpoint list_compare {A} (cmp : A -> A -> comparison) (l l' : list A) : comparison :=
  match l, l' with
  | [], [] => Eq
  | [], _ :: _ => Lt
  | _ :: _, [] => Gt
  | a :: l, b :: l' => cmp_then (cmp a b) (list_compare cmp l l')
  end.

Section list_compare.
Context {A : Type} (cmp : A -> A -> comparison) `{!Comparator cmp}.
Global Instance list_comparator : Comparator (list_compare cmp).
Proof.
  split.
  - intros l. induction l as [|a l IH]; intros [|b l']; simpl; [done..|].
    rewrite (cmp_flip cmp a b). destruct (cmp a b); simpl; [apply IH|done..].
  - intros l. induction l as [|a l IH]; intros [|b l'] [|c l'']; simpl; try done.
    destruct (cmp a b) eqn:Hab; simpl; [|intros _|done].
    + rewrite (cmp_eq_left cmp a b c Hab). destruct (cmp b c); simpl; [apply IH|done..].
    + destruct (cmp b c) eqn:Hbc; simpl; [intros _|intros _|done].
      * rewrite (cmp_flip cmp c a), <- (cmp_eq_left cmp b c a Hbc), (cmp_flip cmp a b), Hab. done.
      * by rewrite (cmp_lt_trans cmp a b c).
  - intros l. induction l as [|a l IH]; intros [|b l'] [|c l'']; simpl; try done.
    destruct (cmp a b) eqn:Hab; simpl; [|done..]. intros Hl.
    rewrite (cmp_eq_left cmp a b c Hab). destruct (cmp b c); simpl; [by apply IH|done..].
Qed.
End list_compare.

Fixpoint dedup (l : list string) : list string :=
  match l with
  | [] => []
  | x :: l' => match dedup l' with
               | y :: r => if String.eqb x y then y :: r else x :: y :: r
               | [] => [x] end
  end.

(** ** Services *)

Record ServicePortInfo := {
  spi_name : option string; spi_protocol : option string; spi_port : Z;
  spi_target_port : option string; spi_node_port : option Z }.
Record ServiceInfo := {
  svi_namespace : string; svi_name : string; svi_type : string; svi_cluster_ip : option string;
  svi_external_ips : list string; svi_selector : list KV; svi_ports : list ServicePortInfo;
  svi_load_balancer_ingress : list string }.

Definition format_int_or_string (value : IntOrString) : string :=
  match value with IntPort n => int_to_string n | NamedPort s => s end.
Definition kv_compare : KV -> KV -> comparison :=
  cmp_lex (cmp_on kv_key String.compare) (cmp_on kv_value String.compare).
Definition port_compare : ServicePortInfo -> ServicePortInfo -> comparison :=
  cmp_lex (cmp_on spi_port Z.compare)
  (cmp_lex (cmp_on spi_name (opt_compare String.compare))
           (cmp_on spi_protocol (opt_compare String.compare))).
Global Instance kv_comparator : Comparator kv_compare.
Proof. unfold kv_compare. comparator. Qed.
Global Instance port_comparator : Comparator port_compare.
Proof. unfold port_compare. comparator. Qed.

Definition map_port (p : ServicePort) : ServicePortInfo :=
  {| spi_name := svp_name p; spi_protocol := svp_protocol p; spi_port := svp_port p;
     spi_target_port := format_int_or_string <$> svp_target_port p; spi_node_port := svp_node_port p |}.
Definition non_empty (o : option string) : option string :=
  s ← o; if str_is_empty s then None else Some s.
Definition balancer_entries (entry : LoadBalancerIngress -> option string)
    (lb : option LoadBalancerStatus) : list string :=
  sort_strings (omap (fun e => non_empty (entry e)) (unwrap_or [] (l ← lb; lb_ingress l))).

Definition map_service (svc : Service) : ServiceInfo :=
  let spec := svc_spec svc in
  {| svi_namespace := unwrap_or "" (namespace (svc_metadata svc));
     svi_name := unwrap_or "" (name (svc_metadata svc));
     svi_type := unwrap_or "ClusterIP" (s ← spec; service_type s);
     svi_cluster_ip := (s ← spec; cluster_ip s);
     svi_external_ips := sort_strings (unwrap_or [] (s ← spec; external_ips s));
     svi_selector := sort_by kv_compare
       (map (fun p => {| kv_key := fst p; kv_value := snd p |})
          (btree_iter (unwrap_or ∅ (s ← spec; selector s))));
     svi_ports := sort_by port_compare (map map_port (unwrap_or [] (s ← spec; service_ports s)));
     svi_load_balancer_ingress :=
       balancer_entries (fun e => opt_or (opt_or (lbi_hostname e) (lbi_ip e)) (lbi_ip_mode e))
         (st ← svc_status svc; load_balancer st) |}.

(** ** Ingresses *)

Record IngressRuleInfo := {
  iri_host : option string; iri_path : option string; iri_path_type : option string;
  iri_backend_service : option string; iri_backend_port : option string }.
Record IngressTlsInfo := { iti_hosts : list string; iti_secret_name : option string }.
Record IngressInfo := {
  igi_namespace : string; igi_name : string; igi_class_name : option string;
  igi_hosts : list string; igi_rules : list IngressRuleInfo; igi_tls : list IngressTlsInfo;
  igi_load_balancer_ingress : list string }.

Definition backend_port_text (p : ServiceBackendPort) : string :=
  match bp_name p, bp_number p with
  | Some name, _ => name
  | None, Some number => int_to_string number
  | None, None => ""
  end.
Definition path_info (host : option string) (p : HTTPIngressPath) : IngressRuleInfo :=
  {| iri_host := host; iri_path := hp_path p; iri_path_type := Some (hp_path_type p);
     iri_backend_service := ib_name <$> hp_backend_service p;
     iri_backend_port := non_empty (s ← hp_backend_service p; backend_port_text <$> ib_port s) |}.
Definition rule_infos (rule : IngressRule) : list IngressRuleInfo :=
  match ir_http rule with
  | Some paths => map (path_info (ir_host rule)) paths
  | None => [{| iri_host := ir_host rule; iri_path := None; iri_path_type := None;
                iri_backend_service := None; iri_backend_port := None |}]
  end.
Definition rule_compare : IngressRuleInfo -> IngressRuleInfo -> comparison :=
  cmp_lex (cmp_on iri_host (opt_compare String.compare))
  (cmp_lex (cmp_on iri_path (opt_compare String.compare))
  (cmp_lex (cmp_on iri_backend_service (opt_compare String.compare))
           (cmp_on iri_backend_port (opt_compare String.compare)))).
Definition tls_compare : IngressTlsInfo -> IngressTlsInfo -> comparison :=
  cmp_lex (cmp_on iti_secret_name (opt_compare String.compare))
          (cmp_on iti_hosts (list_compare String.compare)).
Definition tls_info (entry : IngressTLS) : IngressTlsInfo :=
  {| iti_hosts := sort_strings (unwrap_or [] (it_hosts entry)); iti_secret_name := it_secret_name entry |}.
Global Instance rule_comparator : Comparator rule_compare.
Proof. unfold rule_compare. comparator. Qed.
Global Instance tls_comparator : Comparator tls_compare.
Proof.
  unfold tls_compare. apply cmp_lex_comparator; [comparator|].
  apply cmp_on_comparator, list_comparator, string_comparator.
Qed.

Definition map_ingress (ingress : Ingress) : IngressInfo :=
  let spec := ing_spec ingress in
  let rules := unwrap_or [] (s ← spec; ingress_rules_of s) in
  {| igi_namespace := unwrap_or "" (namespace (ing_metadata ingress));
     igi_name := unwrap_or "" (name (ing_metadata ingress));
     igi_class_name := (s ← spec; ingress_class_name s);
     igi_hosts := dedup (sort_strings (omap ir_host rules));
     igi_rules := sort_by rule_compare (concat (map rule_infos rules));
     igi_tls := sort_by tls_compare (map tls_info (unwrap_or [] (s ← spec; ingress_tls s)));
     igi_load_balancer_ingress :=
       balancer_entries (fun e => opt_or (lbi_hostname e) (lbi_ip e)) (ing_load_balancer ingress) |}.
Definition sort_ingresses_for_snapshot : list Ingress -> list Ingress :=
  sort_by (meta_compare ing_metadata).

(** The network section of [collect]. *)
Record NetworkInventory := { net_services : list ServiceInfo; net_ingresses : list IngressInfo }.
Definition network_inventory (services : result ListError (list Service))
    (ingresses : result ListError (list Ingress)) : NetworkInventory :=
  {| net_services := map map_service (sort_services_for_snapshot (soft_unwrap services));
     net_ingresses := map map_ingress (sort_ingresses_for_snapshot (soft_unwrap ingresses)) |}.

(** ** Lemmas: sorted lists without repetitions *)

Lemma dedup_in l x : In x (dedup l) <-> In x l.
Proof.
  induction l as [|a l IH]; [done|]. cbn [dedup In]. rewrite <- IH.
  destruct (dedup l) as [|b r]; [done|]. destruct (String.eqb_spec a b) as [->|]; simpl; naive_solver.
Qed.

Lemma dedup_sorted l :
  StronglySorted String.le l -> StronglySorted String.le (dedup l) /\ NoDup (dedup l).
Proof.
  induction 1 as [|a l Hs [IHs IHn] Ha]; [by repeat constructor|]. cbn [dedup].
  assert (Hd : Forall (String.le a) (dedup l)).
  { apply List.Forall_forall. intros x Hx. rewrite List.Forall_forall in Ha. by apply Ha, dedup_in. }
  destruct (dedup l) as [|b r]; [split; [by repeat constructor|apply NoDup_singleton]|].
  destruct (String.eqb_spec a b) as [->|Hab]; [done|]. split; [by constructor|].
  apply NoDup_cons. split; [|done]. intros [->|Hr]%elem_of_cons; [done|].
  inversion IHs as [|? ? _ Hbr]; subst. inversion Hd as [|? ? Hle _]; subst.
  apply Hab. apply (anti_symm String.le); [done|].
  rewrite List.Forall_forall in Hbr. by apply Hbr, list_elem_of_In.
Qed.

Lemma sort_strings_sorted l : StronglySorted String.le (sort_strings l).
Proof. apply StronglySorted_merge_sort; apply _. Qed.

(** Sorting and then dropping equal neighbours is the list of the set. *)
Lemma sort_dedup l : dedup (sort_strings l) = btree_elements (list_to_set l).
Proof.
  destruct (dedup_sorted (sort_strings l) (sort_strings_sorted l)) as [Hs Hn].
  apply (StronglySorted_unique String.le); [done|apply sort_strings_sorted|].
  apply NoDup_Permutation; [done| |].
  - unfold btree_elements, sort_strings. rewrite merge_sort_Permutation. apply NoDup_elements.
  - intros x. rewrite !list_elem_of_In, dedup_in, sort_strings_in, btree_elements_in.
    by rewrite elem_of_list_to_set, list_elem_of_In.
Qed.

(** ** Properties *)

(** The hosts of an ingress are the set of the hosts of its rules. *)
Lemma ingress_hosts i :
  igi_hosts (map_ingress i) =
  btree_elements (list_to_set (omap ir_host (unwrap_or [] (s ← ing_spec i; ingress_rules_of s)))).
Proof. apply sort_dedup. Qed.

Lemma sort_strings_perm l l' : l ≡ₚ l' -> sort_strings l = sort_strings l'.
Proof.
  intros Hp. apply (StronglySorted_unique String.le); [apply sort_strings_sorted..|].
  unfold sort_strings. by rewrite !merge_sort_Permutation.
Qed.

(** Two services that differ in the order of their external addresses, of
    their ports or of the entries of their load balancer. *)
Record same_service (s s' : Service) (p p' : ServiceSpec) : Prop := {
  same_metadata : svc_metadata s = svc_metadata s';
  same_spec : svc_spec s = Some p /\ svc_spec s' = Some p';
  same_rest : service_type p = service_type p' /\ cluster_ip p = cluster_ip p' /\ selector p = selector p';
  same_ips : unwrap_or [] (external_ips p) ≡ₚ unwrap_or [] (external_ips p');
  same_ports : unwrap_or [] (service_ports p) ≡ₚ unwrap_or [] (service_ports p');
  distinct_ports : NoDup (map (fun q => (svp_port q, svp_name q, svp_protocol q)) (unwrap_or [] (service_ports p)));
  same_balancer : unwrap_or [] (st ← svc_status s; l ← load_balancer st; lb_ingress l)
               ≡ₚ unwrap_or [] (st ← svc_status s'; l ← load_balancer st; lb_ingress l) }.

Lemma opt_compare_eq (a b : option string) : opt_compare String.compare a b = Eq -> a = b.
Proof. destruct a, b; simpl; try done. by intros ->%String.compare_eq_iff. Qed.

Lemma port_compare_eq a b :
  port_compare a b = Eq -> (spi_port a, spi_name a, spi_protocol a) = (spi_port b, spi_name b, spi_protocol b).
Proof.
  unfold port_compare, cmp_lex, cmp_on, cmp_then.
  destruct (spi_port a ?= spi_port b) eqn:H1; [|done..].
  destruct (opt_compare String.compare (spi_name a) _) eqn:H2; [|done..]. intros H3.
  apply Z.compare_eq in H1 as ->. apply opt_compare_eq in H2 as ->, H3 as ->. done.
Qed.

Lemma balancer_entries_perm entry l l' :
  unwrap_or [] (x ← l; lb_ingress x) ≡ₚ unwrap_or [] (x ← l'; lb_ingress x) ->
  balancer_entries entry l = balancer_entries entry l'.
Proof. intros Hp. apply sort_strings_perm. by rewrite Hp. Qed.

Lemma map_service_same s s' p p' : same_service s s' p p' -> map_service s = map_service s'.
Proof.
  intros [Hm [Hs Hs'] (Ht & Hc & Hsel) Hi Hp Hd Hb]. unfold map_service. rewrite Hm, Hs, Hs'.
  cbn [mbind option_bind]. rewrite Ht, Hc, Hsel. f_equal.
  - by apply sort_strings_perm.
  - apply sort_by_perm; [apply _| |by rewrite Hp].
    intros a b Ha Hb' Hcmp%port_compare_eq. revert Ha Hb' Hcmp.
    apply (NoDup_map_eq (fun q => (spi_port q, spi_name q, spi_protocol q))). by rewrite map_map.
  - apply balancer_entries_perm. revert Hb. by destruct (svc_status s), (svc_status s').
Qed.

(** The order of the services as an order of their reports. *)
Definition info_compare : ServiceInfo -> ServiceInfo -> comparison :=
  cmp_lex (cmp_on svi_namespace String.compare) (cmp_on svi_name String.compare).
Global Instance info_comparator : Comparator info_compare.
Proof. unfold info_compare. comparator. Qed.

Lemma info_compare_eq l a b :
  distinct_meta svc_metadata l -> In a (map map_service l) -> In b (map map_service l) ->
  info_compare a b = Eq -> a = b.
Proof.
  intros Hd (s & <- & Hs)%in_map_iff (s' & <- & Hs')%in_map_iff Hc. f_equal.
  by eapply distinct_meta_compare.
Qed.

Lemma service_infos_sorted l :
  distinct_meta svc_metadata l ->
  map map_service (sort_services_for_snapshot l) = sort_by info_compare (map map_service l).
Proof.
  intros Hd. symmetry. apply sort_by_unique; [apply _| | |].
  - intros a b. by apply info_compare_eq.
  - unfold sort_services_for_snapshot. by rewrite sort_by_permutation.
  - pose proof (sort_by_sorted (meta_compare svc_metadata) l) as Hs. unfold sort_services_for_snapshot.
    induction Hs as [|s l' Hs IH Hl]; simpl; [constructor|]. constructor; [done|].
    rewrite List.Forall_forall in *. intros i (s' & <- & Hs')%in_map_iff. by apply (Hl s').
Qed.

Definition variant (s s' : Service) : Prop := s = s' \/ exists p p', same_service s s' p p'.

(** The network section depends neither on the order in which the API
    server lists services and ingresses nor, within a service, on the order of
    the addresses, ports and load balancer entries. *)
Theorem network_order_independent services reordered services' ingresses ingresses' :
  Forall2 variant services reordered -> reordered ≡ₚ services' ->
  distinct_meta svc_metadata services ->
  ingresses ≡ₚ ingresses' -> distinct_meta ing_metadata ingresses ->
  network_inventory (Ok services) (Ok ingresses) = network_inventory (Ok services') (Ok ingresses').
Proof.
  intros Hv Hp Hd Hi Hdi. unfold network_inventory. cbn [soft_unwrap].
  assert (Hm : map map_service services = map map_service reordered /\
               map svc_metadata services = map svc_metadata reordered).
  { clear -Hv. induction Hv as [|s s' l l' Hs _ [IH1 IH2]]; [done|]. simpl. rewrite IH1, IH2.
    destruct Hs as [->|(p & p' & Hs)]; [done|]. by rewrite (map_service_same _ _ _ _ Hs), (same_metadata _ _ _ _ Hs). }
  destruct Hm as [Hm Hmeta].
  assert (Hd' : distinct_meta svc_metadata services').
  { unfold distinct_meta in *. revert Hd.
    rewrite <- (map_map svc_metadata (fun m => (unwrap_or "" (namespace m), unwrap_or "" (name m)))), Hmeta, map_map.
    by rewrite Hp. }
  f_equal.
  - rewrite !service_infos_sorted by done. rewrite Hm. apply sort_by_perm; [apply _| |by rewrite Hp].
    intros a b. rewrite <- Hm. by apply info_compare_eq.
  - f_equal. unfold sort_ingresses_for_snapshot. apply sort_by_perm; [apply _| |done].
    intros a b. by apply distinct_meta_compare.
Qed.

Definition demo_port (n : Z) : ServicePort :=
  {| svp_name := None; svp_protocol := Some "TCP"; svp_port := n; svp_target_port := None;
     svp_node_port := None |}.
Definition demo_ports (l : list Z) : ServiceSpec :=
  {| service_type := None; cluster_ip := None; external_ips := None; selector := None;
     service_ports := Some (map demo_port l) |}.
Definition demo_ported (nm : string) (l : list Z) : Service :=
  {| svc_metadata := meta_named nm; svc_spec := Some (demo_ports l); svc_status := None |}.

Lemma network_order_independent_witness :
  network_inventory (Ok [demo_ported "a" [80; 443]; demo_ported "b" []]) (Ok []) =
  network_inventory (Ok [demo_ported "b" []; demo_ported "a" [443; 80]]) (Ok []).
Proof.
  apply (network_order_independent _ [demo_ported "a" [443; 80]; demo_ported "b" []]).
  - constructor; [right|constructor; [by left|constructor]]. exists (demo_ports [80; 443]), (demo_ports [443; 80]).
    split; try done.
    + apply perm_swap.
    + apply (bool_decide_unpack _). vm_compute. exact I.
  - apply perm_swap.
  - apply (bool_decide_unpack _). vm_compute. exact I.
  - done.
  - constructor.
Defined.
