(* ===== verification/Posture.v ===== *)
(** * Events, jobs, security and maturity (collector.rs)

    Which events and cron jobs a snapshot keeps and in which order, what it
    says of network policies, cluster role bindings and pod security labels,
    and what it derives of the descheduler and the autoscaler.  The listed
    objects are the environment. *)
From S2P Require Import Prelude RustStr Ordering Json Kube Env Inventory Network.
Local Open Scope Z_scope.

(** ** Namespaces *)

Record NamespaceInfo := { ni_name : string; ni_phase : option string; ni_labels : list KV }.
Definition map_namespace (n : Namespace) : NamespaceInfo :=
  {| ni_name := unwrap_or "" (name (ns_metadata n)); ni_phase := (s ← ns_status n; ns_phase s);
     ni_labels := map_metadata_pairs (unwrap_or ∅ (labels (ns_metadata n))) |}.

(** ** Events *)

Definition MAX_EVENTS : nat := 500.
Definition MAX_EVENT_MESSAGE_CHARS : nat := 500.
Definition MAX_SCHEDULED_JOBS : nat := 500.

Definition event_type_rank (kind : option string) : Z :=
  if bool_decide (kind = Some "Warning") then 1 else 0.
Definition event_sort_ts_seconds (e : EventObject) : Z :=
  unwrap_or 0 (opt_or (opt_or (as_second <$> evt_event_time e) (as_second <$> evt_last_timestamp e))
                      (as_second <$> evt_first_timestamp e)).
Definition event_compare : EventObject -> EventObject -> comparison :=
  cmp_lex (cmp_rev (cmp_on (fun e => event_type_rank (evt_type e)) Z.compare))
  (cmp_lex (cmp_rev (cmp_on event_sort_ts_seconds Z.compare))
           (meta_compare evt_metadata)).
Global Instance event_comparator : Comparator event_compare.
Proof. unfold event_compare, meta_compare. comparator. Qed.
Definition sort_events_for_snapshot : list EventObject -> list EventObject := sort_by event_compare.

Definition truncate_chars (input : list Z) (max_chars : nat) : list Z :=
  if (length input <=? max_chars)%nat then input
  else take (max_chars - 3) input ++ (if (3 <=? max_chars)%nat then [46; 46; 46] else []).

Record InvolvedObjectInfo := {
  io_kind : option string; io_name : option string; io_namespace : option string;
  io_uid : option string }.
Record EventInfo := {
  ei_namespace : string; ei_name : string; ei_type : option string; ei_reason : option string;
  ei_message : option (list Z); ei_count : option Z; ei_first_timestamp : option string;
  ei_last_timestamp : option string; ei_reporting_controller : option string;
  ei_reporting_instance : option string; ei_involved_object : InvolvedObjectInfo }.
Definition map_event (e : EventObject) : EventInfo :=
  let involved := evt_involved_object e in
  {| ei_namespace := unwrap_or "" (namespace (evt_metadata e));
     ei_name := unwrap_or "" (name (evt_metadata e)); ei_type := evt_type e;
     ei_reason := evt_reason e;
     ei_message := (fun m => truncate_chars m MAX_EVENT_MESSAGE_CHARS) <$> evt_message e;
     ei_count := evt_count e;
     ei_first_timestamp := time_text <$> evt_first_timestamp e;
     ei_last_timestamp := opt_or (time_text <$> evt_event_time e) (time_text <$> evt_last_timestamp e);
     ei_reporting_controller := evt_reporting_component e;
     ei_reporting_instance := evt_reporting_instance e;
     ei_involved_object := {| io_kind := or_kind involved; io_name := or_name involved;
       io_namespace := or_namespace involved; io_uid := or_uid involved |} |}.
Definition event_infos (events : list EventObject) : list EventInfo :=
  map map_event (take MAX_EVENTS (sort_events_for_snapshot events)).

(** ** Cron jobs *)

Record ScheduledJobInfo := {
  sji_namespace : string; sji_name : string; sji_schedule : string; sji_suspend : bool;
  sji_last_schedule_time : option string; sji_last_successful_time : option string }.

Definition map_scheduled_job (cj : CronJob) : ScheduledJobInfo :=
  {| sji_namespace := unwrap_or "" (namespace (cj_metadata cj));
     sji_name := unwrap_or "" (name (cj_metadata cj));
     sji_schedule := unwrap_or "" (schedule <$> cj_spec cj);
     sji_suspend := unwrap_or false (s ← cj_spec cj; suspend s);
     sji_last_schedule_time := time_text <$> (s ← cj_status cj; last_schedule_time s);
     sji_last_successful_time := time_text <$> (s ← cj_status cj; last_successful_time s) |}.
Definition sort_cronjobs_for_snapshot : list CronJob -> list CronJob :=
  sort_by (meta_compare cj_metadata).

(** ** Security *)

Definition is_high_risk_role (role_name : string) : bool :=
  existsb (String.eqb role_name) ["cluster-admin"; "admin"; "edit"].
Definition should_include_cluster_role_binding (role_ref_kind role_ref_name : string) : bool :=
  is_high_risk_role role_ref_name
  || (String.eqb role_ref_kind "ClusterRole" && negb (starts_with "system:" role_ref_name)).

Record SecuritySubjectInfo := {
  sj_kind : string; sj_name : string; sj_namespace : option string }.
Definition map_subject (s : Subject) : SecuritySubjectInfo :=
  {| sj_kind := subject_kind s; sj_name := subject_name s; sj_namespace := subject_namespace s |}.
Definition subject_compare : SecuritySubjectInfo -> SecuritySubjectInfo -> comparison :=
  cmp_lex (cmp_on sj_kind String.compare)
  (cmp_lex (cmp_on sj_name String.compare) (cmp_on sj_namespace (opt_compare String.compare))).
Record ClusterRoleBindingInfo := {
  bi_name : string; bi_role_ref_name : string; bi_role_ref_kind : string; bi_risk_level : string;
  bi_subjects : list SecuritySubjectInfo }.
Definition map_cluster_role_binding (b : ClusterRoleBinding) : option ClusterRoleBindingInfo :=
  if negb (should_include_cluster_role_binding (crb_role_kind b) (crb_role_name b)) then None else
  Some {| bi_name := unwrap_or "" (crb_name b); bi_role_ref_name := crb_role_name b;
          bi_role_ref_kind := crb_role_kind b;
          bi_risk_level := if is_high_risk_role (crb_role_name b) then "high" else "review";
          bi_subjects := sort_by subject_compare (map map_subject (unwrap_or [] (crb_subjects b))) |}.

Record NetworkPolicyInfo := {
  npi_namespace : string; npi_name : string; npi_policy_types : list string;
  npi_pod_selector : list KV; npi_ingress_rules_count : nat; npi_egress_rules_count : nat }.

Definition network_policy_types (spec : NetworkPolicySpec) : list string :=
  let types := unwrap_or [] (policy_types spec) in
  let some_rules rules := match rules with Some l => negb (is_empty l) | None => false end in
  let types := if is_empty types then
      (if some_rules (ingress_rules spec) then ["Ingress"] else [])
      ++ (if some_rules (egress_rules spec) then ["Egress"] else [])
    else types in
  dedup (sort_strings types).
Definition map_network_policy (policy : NetworkPolicy) : NetworkPolicyInfo :=
  let spec := np_spec policy in
  {| npi_namespace := unwrap_or "" (namespace (np_metadata policy));
     npi_name := unwrap_or "" (name (np_metadata policy));
     npi_policy_types := unwrap_or [] (network_policy_types <$> spec);
     npi_pod_selector := unwrap_or [] ((fun s =>
       map_metadata_pairs (unwrap_or ∅ (x ← np_pod_selector s; match_labels x))) <$> spec);
     npi_ingress_rules_count := unwrap_or 0%nat (length <$> (s ← spec; ingress_rules s));
     npi_egress_rules_count := unwrap_or 0%nat (length <$> (s ← spec; egress_rules s)) |}.
Definition sort_network_policies_for_snapshot : list NetworkPolicy -> list NetworkPolicy :=
  sort_by (meta_compare np_metadata).

Definition PSA_ENFORCE_LABEL : string := "pod-security.kubernetes.io/enforce".
Definition PSA_AUDIT_LABEL : string := "pod-security.kubernetes.io/audit".
Definition PSA_WARN_LABEL : string := "pod-security.kubernetes.io/warn".
Record PodSecurityNamespaceInfo := {
  psa_namespace : string; psa_enforce : option string; psa_audit : option string;
  psa_warn : option string }.
Definition pod_security_namespace (ns : NamespaceInfo) : PodSecurityNamespaceInfo :=
  let labels := fold_left (fun m kv => <[kv_key kv := kv_value kv]> m) (ni_labels ns) (∅ : gmap string string) in
  {| psa_namespace := ni_name ns; psa_enforce := labels !! PSA_ENFORCE_LABEL;
     psa_audit := labels !! PSA_AUDIT_LABEL; psa_warn := labels !! PSA_WARN_LABEL |}.
Definition build_pod_security_admission (namespaces : list NamespaceInfo)
    : list PodSecurityNamespaceInfo :=
  sort_by (cmp_on psa_namespace String.compare) (map pod_security_namespace namespaces).

(** The security section of [collect]. *)
Record SecurityInventory := {
  network_policies : list NetworkPolicyInfo; cluster_role_bindings : list ClusterRoleBindingInfo;
  pod_security_admission : list PodSecurityNamespaceInfo }.
Definition security_inventory (policies : result ListError (list NetworkPolicy))
    (bindings : result ListError (list ClusterRoleBinding)) (namespaces : result ListError (list Namespace))
    : SecurityInventory :=
  {| network_policies :=
       map map_network_policy (sort_network_policies_for_snapshot (soft_unwrap policies));
     cluster_role_bindings :=
       sort_by (cmp_on bi_name String.compare) (omap map_cluster_role_binding (soft_unwrap bindings));
     pod_security_admission :=
       build_pod_security_admission (map map_namespace (soft_unwrap namespaces)) |}.

(** ** Maturity *)

(** A VPA object as the JSON value it is turned into. *)
Record VpaInfo := { vpa_installed : bool; objects_count : nat; update_modes : list string }.
Definition vpa_mode (vpa : json) : string :=
  unwrap_or "Auto" (x ← json_pointer ["spec"; "updatePolicy"; "updateMode"] vpa; as_str x).
Definition build_vpa_info (vpa_objects : list json) : VpaInfo :=
  {| vpa_installed := negb (is_empty vpa_objects); objects_count := length vpa_objects;
     update_modes := btree_elements (list_to_set (map vpa_mode vpa_objects)) |}.

Record DeschedulerInfo := {
  installed : bool; detected_by : option string; ds_namespace : option string;
  strategy : option string; ds_schedule : option string }.
Definition DESCHEDULER_DEPLOYMENT_NAMES : list string :=
  ["descheduler"; "openshift-descheduler"; "kube-descheduler"].
Definition DESCHEDULER_NS : string := "openshift-kube-descheduler-operator".
Definition descheduler_default : DeschedulerInfo :=
  {| installed := false; detected_by := None; ds_namespace := None; strategy := None;
     ds_schedule := None |}.
Definition detect_descheduler (deployments : list Deployment) : DeschedulerInfo :=
  match find_first (fun d => existsb (String.eqb (unwrap_or "" (name (dp_metadata d))))
                               DESCHEDULER_DEPLOYMENT_NAMES) deployments with
  | Some d =>
      {| installed := true; detected_by := Some "deployment";
         ds_namespace := namespace (dp_metadata d);
         strategy := (spec ← dp_spec d; l ← match_labels (dp_selector spec);
                      opt_or (l !! "descheduler") (l !! "app"));
         ds_schedule := None |}
  | None =>
      if existsb (fun d => bool_decide (namespace (dp_metadata d) = Some DESCHEDULER_NS)) deployments
      then {| installed := true; detected_by := Some "namespace"; ds_namespace := Some DESCHEDULER_NS;
              strategy := None; ds_schedule := None |}
      else descheduler_default
  end.

(** The maturity section of [collect]. *)
Record OperationalMaturityInventory := {
  om_descheduler : DeschedulerInfo; om_vpa : VpaInfo; om_scheduled_jobs : list ScheduledJobInfo;
  truncated_jobs : bool }.
Definition operational_maturity (deployments : result ListError (list Deployment))
    (vpa : result ListError (list json)) (cronjobs : result ListError (list CronJob))
    : OperationalMaturityInventory :=
  {| om_descheduler := detect_descheduler (soft_unwrap deployments);
     om_vpa := build_vpa_info (soft_unwrap vpa);
     om_scheduled_jobs := map map_scheduled_job
       (take MAX_SCHEDULED_JOBS (sort_cronjobs_for_snapshot (soft_unwrap cronjobs)));
     truncated_jobs := false |}.

(** ** Events *)

Lemma truncate_chars_length m n : (3 <= n)%nat -> (length (truncate_chars m n) <= n)%nat.
Proof.
  intros Hn. unfold truncate_chars. destruct (Nat.leb_spec (length m) n); [done|].
  rewrite (proj2 (Nat.leb_le 3 n) Hn), length_app, length_take. simpl. lia.
Qed.

(** The events of a snapshot are at most 500, the first of the order that
    puts warnings before everything else and newer before older events; no
    event that is left out comes before one that is kept, and no message is
    longer than 500 characters. *)
Theorem events_selection events :
  exists kept dropped, events ≡ₚ kept ++ dropped /\ event_infos events = map map_event kept /\
    length kept = Nat.min MAX_EVENTS (length events) /\
    StronglySorted (cmp_le event_compare) kept /\
    (forall e e', In e kept -> In e' dropped -> cmp_le event_compare e e') /\
    (forall e e', In e kept -> In e' dropped -> evt_type e' = Some "Warning" ->
       evt_type e = Some "Warning" /\ event_sort_ts_seconds e' <= event_sort_ts_seconds e) /\
    Forall (fun i => forall m, ei_message i = Some m -> (length m <= MAX_EVENT_MESSAGE_CHARS)%nat)
      (event_infos events).
Proof.
  pose proof (sort_by_sorted event_compare events) as Hs.
  assert (Hle : forall e e', In e (take MAX_EVENTS (sort_by event_compare events)) ->
      In e' (drop MAX_EVENTS (sort_by event_compare events)) -> cmp_le event_compare e e')
    by (intros e e'; by apply take_sorted).
  exists (take MAX_EVENTS (sort_by event_compare events)), (drop MAX_EVENTS (sort_by event_compare events)).
  split_and!; [|done| | |done| |].
  - by rewrite take_drop, sort_by_permutation.
  - by rewrite length_take, (Permutation_length (sort_by_permutation event_compare events)).
  - apply StronglySorted_app_1_l with (drop MAX_EVENTS (sort_by event_compare events)).
    by rewrite take_drop.
  - intros e e' He He' Hw. specialize (Hle e e' He He'). revert Hle.
    unfold cmp_le, event_compare, cmp_lex, cmp_rev, cmp_on, event_type_rank. rewrite Hw.
    rewrite (bool_decide_eq_true_2 (Some "Warning" = Some "Warning")) by done.
    case_bool_decide as Hk; [|done]. simpl. intros Hc. split; [done|].
    destruct (Z.compare_spec (event_sort_ts_seconds e') (event_sort_ts_seconds e)); simpl in Hc; lia || done.
  - apply List.Forall_forall. intros i (e & <- & _)%in_map_iff m. cbn [ei_message map_event].
    destruct (evt_message e) as [t|]; simpl; [|done]. intros [= <-]. apply truncate_chars_length.
    unfold MAX_EVENT_MESSAGE_CHARS. lia.
Qed.

(** The jobs are capped like the events, but the snapshot never says so. *)
Lemma jobs_truncation_hidden deployments vpa cronjobs :
  (MAX_SCHEDULED_JOBS < length cronjobs)%nat ->
  (length (om_scheduled_jobs (operational_maturity deployments vpa (Ok cronjobs))) < length cronjobs)%nat /\
  truncated_jobs (operational_maturity deployments vpa (Ok cronjobs)) = false.
Proof.
  intros H. split; [|done]. cbn [om_scheduled_jobs operational_maturity soft_unwrap].
  rewrite length_map, length_take. unfold sort_cronjobs_for_snapshot.
  rewrite (Permutation_length (sort_by_permutation _ cronjobs)). lia.
Qed.

(** ** Security *)

Lemma reported_binding_names l :
  NoDup (map (fun b => unwrap_or "" (crb_name b)) l) ->
  NoDup (map bi_name (omap map_cluster_role_binding l)).
Proof.
  induction l as [|b l IH]; [by constructor|]. cbn [map]. rewrite NoDup_cons. intros [Hb Hl]. cbn [omap list_omap].
  destruct (map_cluster_role_binding b) as [i|] eqn:Hi; [|by apply IH].
  cbn [map]. apply NoDup_cons. split; [|by apply IH].
  intros (j & Hj & (c & Hc & Hcj)%list_elem_of_omap)%list_elem_of_fmap. apply Hb.
  assert (Hname : forall b i, map_cluster_role_binding b = Some i -> bi_name i = unwrap_or "" (crb_name b)).
  { intros b' i'. unfold map_cluster_role_binding. case_match; [done|]. by intros [= <-]. }
  rewrite <- (Hname b i Hi), Hj, (Hname c j Hcj).
  by apply (list_elem_of_fmap_2 (fun b => unwrap_or "" (crb_name b))).
Qed.

(** The security section does not depend on the order in which the API
    server lists the objects, as long as no two of them have the same name. *)
Theorem security_order_independent policies policies' bindings bindings' namespaces namespaces' :
  policies ≡ₚ policies' -> distinct_meta np_metadata policies ->
  bindings ≡ₚ bindings' -> NoDup (map (fun b => unwrap_or "" (crb_name b)) bindings) ->
  namespaces ≡ₚ namespaces' -> NoDup (map (fun n => unwrap_or "" (name (ns_metadata n))) namespaces) ->
  security_inventory (Ok policies) (Ok bindings) (Ok namespaces) =
  security_inventory (Ok policies') (Ok bindings') (Ok namespaces').
Proof.
  intros Hp Hdp Hb Hdb Hn Hdn. unfold security_inventory. cbn [soft_unwrap]. f_equal.
  - f_equal. unfold sort_network_policies_for_snapshot. apply sort_by_perm; [apply _| |done].
    intros a b. by apply distinct_meta_compare.
  - apply sort_by_perm; [apply _| |by apply omap_Permutation].
    intros a b. by apply on_distinct, reported_binding_names.
  - unfold build_pod_security_admission. apply sort_by_perm; [apply _| |by rewrite Hn].
    intros a b. apply on_distinct. by rewrite !map_map.
Qed.

(** A binding is reported exactly if it grants one of the three roles of
    administrators and editors, or a cluster role that is not the system's; it
    is called high exactly in the first case. *)
Lemma reported_bindings b :
  match map_cluster_role_binding b with
  | Some i => bi_name i = unwrap_or "" (crb_name b) /\
      bi_subjects i ≡ₚ map map_subject (unwrap_or [] (crb_subjects b)) /\
      (bi_risk_level i = "high" <-> In (crb_role_name b) ["cluster-admin"; "admin"; "edit"])
  | None => ~ In (crb_role_name b) ["cluster-admin"; "admin"; "edit"] /\
      (crb_role_kind b = "ClusterRole" -> starts_with "system:" (crb_role_name b) = true)
  end.
Proof.
  assert (Hr : is_high_risk_role (crb_role_name b) = true <->
               In (crb_role_name b) ["cluster-admin"; "admin"; "edit"]).
  { unfold is_high_risk_role. rewrite existsb_exists. split.
    - by intros (x & Hx & ->%String.eqb_eq).
    - intros Hx. exists (crb_role_name b). by rewrite String.eqb_refl. }
  unfold map_cluster_role_binding, should_include_cluster_role_binding.
  destruct (is_high_risk_role (crb_role_name b)) eqn:Hk; cbn [orb negb].
  - split; [done|]. split; [apply sort_by_permutation|]. by rewrite <- Hr.
  - destruct (String.eqb_spec (crb_role_kind b) "ClusterRole") as [He|He]; cbn [andb negb].
    + destruct (starts_with "system:" (crb_role_name b)) eqn:Hs; cbn [negb].
      * split; [by rewrite <- Hr|done].
      * split; [done|]. split; [apply sort_by_permutation|]. cbn [bi_risk_level]. by rewrite <- Hr.
    + split; [by rewrite <- Hr|done].
Qed.

Definition demo_role_binding (nm role : string) : ClusterRoleBinding :=
  {| crb_name := Some nm; crb_role_kind := "ClusterRole"; crb_role_name := role; crb_subjects := None |}.
Definition demo_psa (nm : string) : Namespace :=
  {| ns_metadata := meta_named nm; ns_status := None |}.

Lemma security_order_independent_witness :
  let l := [demo_role_binding "b" "admin"; demo_role_binding "a" "view"; demo_role_binding "c" "system:node"] in
  security_inventory (Ok []) (Ok l) (Ok [demo_psa "x"; demo_psa "w"]) =
  security_inventory (Ok []) (Ok (rev l)) (Ok [demo_psa "w"; demo_psa "x"]) /\
  map bi_name (cluster_role_bindings (security_inventory (Ok []) (Ok l) (Ok []))) = ["a"; "b"].
Proof.
  intros l. split; [|vm_compute; reflexivity].
  apply security_order_independent; [done|constructor| | |apply Permutation_swap|].
  - apply Permutation_rev.
  - apply (bool_decide_unpack _). vm_compute. exact I.
  - apply (bool_decide_unpack _). vm_compute. exact I.
Defined.
