(* ===== verification/Monitoring.v ===== *)
(** * The workload monitoring plugin (plugins/mod.rs)

    The block of a snapshot that repeats the objects of an allowlist of
    namespaces, with the log tails and application metrics that were collected
    for it. *)
From S2P Require Import Prelude RustStr Config Inventory Cluster Network Posture AppMetrics Dependencies.
Local Open Scope Z_scope.

Record AppMetricsInventory := { am_targets : list AppMetricsTarget }.
Record WorkloadMonitoringLogs := { wml_pods : list WorkloadMonitoringPodLogs }.
Record WorkloadMonitoringSignals := {
  sg_workloads : list WorkloadRef; sg_pods : list PodInfo; sg_services : list ServiceInfo;
  sg_ingresses : list IngressInfo; sg_events : list EventInfo;
  sg_dependencies : option DependencyInventory; sg_app_metrics : option AppMetricsInventory }.
Record WorkloadMonitoringPlugin := {
  wm_enabled : bool; wm_namespaces : list string; technology_targets : list string;
  wm_schema_version : Z; wm_generated_at_ms : Z; signals : WorkloadMonitoringSignals;
  wm_logs : WorkloadMonitoringLogs }.

(** [SystemTime::now()] as the time since the epoch, if it is past it. *)
Definition now_ms (since_epoch : option Z) : Z := unwrap_or 0 since_epoch.

(** [allow.iter().any(|ns| *ns == namespace)]. *)
Definition allowed (allow : list string) (namespace : string) : bool :=
  existsb (fun ns => String.eqb ns namespace) allow.
Definition in_namespaces {A} (allow : list string) (ns : A -> string) (l : list A) : list A :=
  List.filter (fun x => allowed allow (ns x)) l.

Definition filter_workloads (items : list WorkloadRef) (allow : list string) : list WorkloadRef :=
  in_namespaces allow Cluster.wr_namespace items.
Definition merge_workload_refs (w : Workloads) : list WorkloadRef :=
  wl_deployments w ++ wl_statefulsets w ++ wl_daemonsets w.

(** An edge belongs to the allowlist if one of its ends does. *)
Definition edge_allowed (allow : list string) (edge : DependencyEdge) : bool :=
  unwrap_or false (allowed allow <$> ep_namespace (from (edge_key edge)))
  || unwrap_or false (allowed allow <$> ep_namespace (to (edge_key edge))).
Definition filter_dependencies (allow : list string) (d : DependencyInventory) : DependencyInventory :=
  {| edges := List.filter (edge_allowed allow) (edges d); truncated := truncated d;
     inv_dropped_edges := inv_dropped_edges d; inv_coverage := inv_coverage d;
     dep_source := dep_source d; window_seconds := window_seconds d |}.

Definition build_workload_monitoring (cfg : Config) (workloads : Workloads) (pods : list PodInfo)
    (network : NetworkInventory) (events : list EventInfo) (dependencies : DependencyInventory)
    (app_metrics : AppMetricsInventory) (logs : WorkloadMonitoringLogs) (since_epoch : option Z)
    : option WorkloadMonitoringPlugin :=
  if negb (workload_monitoring_enabled cfg) then None else
  if is_empty (workload_monitoring_namespaces cfg) then None else
  let allow := workload_monitoring_namespaces cfg in
  let filtered_workloads :=
    {| wl_deployments := filter_workloads (wl_deployments workloads) allow;
       wl_statefulsets := filter_workloads (wl_statefulsets workloads) allow;
       wl_daemonsets := filter_workloads (wl_daemonsets workloads) allow |} in
  let filtered_dependencies :=
    if collect_dependencies_tetragon cfg then Some (filter_dependencies allow dependencies) else None in
  Some {| wm_enabled := true; wm_namespaces := workload_monitoring_namespaces cfg;
          technology_targets := workload_monitoring_targets cfg; wm_schema_version := 1;
          wm_generated_at_ms := now_ms since_epoch;
          signals := {|
            sg_workloads := merge_workload_refs filtered_workloads;
            sg_pods := in_namespaces allow pinf_namespace pods;
            sg_services := in_namespaces allow svi_namespace (net_services network);
            sg_ingresses := in_namespaces allow igi_namespace (net_ingresses network);
            sg_events := in_namespaces allow ei_namespace events;
            sg_dependencies := filtered_dependencies;
            sg_app_metrics := if app_metrics_enabled cfg then Some app_metrics else None |};
          wm_logs := logs |}.

(** ** Lemmas *)

Lemma allowed_in allow ns : allowed allow ns = true <-> In ns allow.
Proof.
  unfold allowed. rewrite existsb_exists. split; [by intros (x & Hx & ->%String.eqb_eq)|].
  intros H. exists ns. by rewrite String.eqb_refl.
Qed.

Lemma in_namespaces_in {A} allow (ns : A -> string) l x :
  In x (in_namespaces allow ns l) <-> In x l /\ In (ns x) allow.
Proof. unfold in_namespaces. by rewrite filter_In, allowed_in. Qed.

Lemma filter_merge allow w :
  merge_workload_refs {| wl_deployments := filter_workloads (wl_deployments w) allow;
    wl_statefulsets := filter_workloads (wl_statefulsets w) allow;
    wl_daemonsets := filter_workloads (wl_daemonsets w) allow |} =
  filter_workloads (merge_workload_refs w) allow.
Proof. unfold merge_workload_refs, filter_workloads, in_namespaces. simpl. by rewrite !List.filter_app. Qed.

Lemma filter_sublist {A} (p : A -> bool) l : sublist (List.filter p l) l.
Proof.
  induction l as [|x l IH]; simpl; [constructor|]. destruct (p x); [by apply sublist_skip|by apply sublist_cons].
Qed.

Lemma edge_allowed_spec allow e :
  edge_allowed allow e = true <->
  exists ns, In ns allow /\
    (ep_namespace (from (edge_key e)) = Some ns \/ ep_namespace (to (edge_key e)) = Some ns).
Proof.
  unfold edge_allowed. rewrite orb_true_iff.
  assert (H : forall o, unwrap_or false (allowed allow <$> o) = true <-> exists ns, In ns allow /\ o = Some ns).
  { intros [ns|]; cbn; [|naive_solver]. rewrite allowed_in. naive_solver. }
  rewrite !H. naive_solver.
Qed.

(** [selected keep l l']: [l'] is what [l] has of [keep], in the order of [l]. *)
Record selected {A} (keep : A -> Prop) (l l' : list A) : Prop := {
  selected_order : sublist l' l;
  selected_in : forall x, In x l' <-> In x l /\ keep x }.

Lemma selected_in_namespaces {A} allow (ns : A -> string) l :
  selected (fun x => In (ns x) allow) l (in_namespaces allow ns l).
Proof. split; [apply filter_sublist|]. intros x. apply in_namespaces_in. Qed.

(** C28: The block is there exactly when the plugin is enabled with at least
    one namespace, and it holds, in the order of the inventory, exactly the
    workloads, pods, services, ingresses and events of these namespaces and
    exactly the edges with an end in one of them, with the counters of the
    whole collection.  Application metrics are there exactly when they are
    collected, and so is the dependency inventory, even if no edge has an end in
    one of the namespaces. *)
Theorem workload_block_exact cfg workloads pods network events deps am logs now :
  let allow := workload_monitoring_namespaces cfg in
  match build_workload_monitoring cfg workloads pods network events deps am logs now with
  | None => workload_monitoring_enabled cfg = false \/ allow = []
  | Some b =>
      workload_monitoring_enabled cfg = true /\ allow <> [] /\ wm_namespaces b = allow /\
      wm_logs b = logs /\
      selected (fun w => In (Cluster.wr_namespace w) allow) (merge_workload_refs workloads) (sg_workloads (signals b)) /\
      selected (fun p => In (pinf_namespace p) allow) pods (sg_pods (signals b)) /\
      selected (fun s => In (svi_namespace s) allow) (net_services network) (sg_services (signals b)) /\
      selected (fun i => In (igi_namespace i) allow) (net_ingresses network) (sg_ingresses (signals b)) /\
      selected (fun e => In (ei_namespace e) allow) events (sg_events (signals b)) /\
      sg_app_metrics (signals b) = (if app_metrics_enabled cfg then Some am else None) /\
      match sg_dependencies (signals b) with
      | None => collect_dependencies_tetragon cfg = false
      | Some d => collect_dependencies_tetragon cfg = true /\
          selected (fun e => exists ns, In ns allow /\
            (ep_namespace (from (edge_key e)) = Some ns \/ ep_namespace (to (edge_key e)) = Some ns))
            (edges deps) (edges d) /\
          inv_dropped_edges d = inv_dropped_edges deps /\ inv_coverage d = inv_coverage deps
      end
  end.
Proof.
  cbv zeta. unfold build_workload_monitoring.
  destruct (workload_monitoring_enabled cfg); simpl; [|by left].
  destruct (is_empty (workload_monitoring_namespaces cfg)) eqn:He; [apply is_empty_nil in He; by right|].
  cbn [signals sg_workloads sg_pods sg_services sg_ingresses sg_events sg_dependencies sg_app_metrics
       wm_namespaces wm_logs]. rewrite filter_merge.
  split_and!; try done; try apply selected_in_namespaces.
  - intros H. by rewrite H in He.
  - destruct (collect_dependencies_tetragon cfg); [|done]. split_and!; [done| |done..]. split; cbn [edges].
    + apply filter_sublist.
    + intros e. cbn [filter_dependencies edges]. by rewrite filter_In, edge_allowed_spec.
Qed.

(** SPEC.md omits an empty dependency inventory; the code keeps it whenever
    dependencies are collected. *)
Example empty_dependencies_kept cfg workloads pods network events deps am logs now b :
  collect_dependencies_tetragon cfg = true -> edges deps = [] ->
  build_workload_monitoring cfg workloads pods network events deps am logs now = Some b ->
  exists d, sg_dependencies (signals b) = Some d /\ edges d = [].
Proof.
  intros Hc He. unfold build_workload_monitoring.
  destruct (negb _); [done|]. destruct (is_empty _); [done|]. intros [= <-]. simpl. rewrite Hc.
  eexists. split; [done|]. unfold filter_dependencies. simpl. by rewrite He.
Qed.
