(* ===== verification/Collect.v ===== *)
(** * collect (collector.rs)

    The inventory as one function of what the list calls, the tasks and the
    stream of the dependencies give.  The calls run concurrently and each fails
    on its own, so the collection itself never fails. *)
From S2P Require Import Prelude RustStr Ordering Json Kube Config Env Startup Inventory Tech Cluster Network Posture AppMetrics Tetragon Dependencies Monitoring.
Local Open Scope Z_scope.

(** The answers: one per list call, the version of the API server, the UID of
    the namespace kube-system, the lines of the event buffer with the clock and
    the coverage, the scrape tasks in the order in which they end, and the
    system clock. *)
Record Answers := {
  an_nodes : result ListError (list Node);
  an_namespaces : result ListError (list Namespace);
  an_kube_system : result KubeError (option string);
  an_deployments : result ListError (list Deployment);
  an_statefulsets : result ListError (list StatefulSet);
  an_daemonsets : result ListError (list DaemonSet);
  an_pods : result ListError (list Pod);
  an_services : result ListError (list Service);
  an_ingresses : result ListError (list Ingress);
  an_network_policies : result ListError (list NetworkPolicy);
  an_cluster_role_bindings : result ListError (list ClusterRoleBinding);
  an_configmaps : result ListError (list ConfigMap);
  an_secrets : result ListError (list SecretObject);
  an_storage_classes : result ListError (list StorageClass);
  an_pvs : result ListError (list PersistentVolume);
  an_pvcs : result ListError (list PersistentVolumeClaim);
  an_snapshot_classes : result ListError (list json);
  an_snapshots : result ListError (list json);
  an_metrics_v1 : result ListError (list json);
  an_metrics_v1beta1 : result ListError (list json);
  an_vpa : result ListError (list json);
  an_cronjobs : result ListError (list CronJob);
  an_events : result ListError (list EventObject);
  an_version : option string;
  an_cluster_versions : result ListError (list json);
  an_event_lines : string;
  an_line_clock : nat -> Z;
  an_coverage : CoverageSnapshot;
  an_scrapes : list (option AppMetricsTarget);
  an_seconds : option Z;
  an_metrics_now_ms : Z;
  an_snapshot_now_ms : Z }.

Record Collected := {
  co_k8s_uid : option string;
  co_cluster : ClusterInfo;
  co_namespaces : list NamespaceInfo;
  co_workloads : Workloads;
  co_pods : list PodInfo;
  co_network : NetworkInventory;
  co_security : SecurityInventory;
  co_operational_maturity : OperationalMaturityInventory;
  co_dependencies : DependencyInventory;
  co_app_metrics : AppMetricsInventory;
  co_configuration : ConfigurationInventory;
  co_storage : StorageInventory;
  co_events : list EventInfo;
  co_metrics : MetricsStatus;
  co_snapshot_api : SnapshotApiStatus }.

Definition kube_system_uid (answer : result KubeError (option string)) : option string :=
  match answer with Ok uid => uid | Err _ => None end.

(** The guard of [collect_app_metrics] on the tasks that it starts. *)
Definition app_metrics_inventory (cfg : Config) (joined : list (option AppMetricsTarget))
    : AppMetricsInventory :=
  if negb (app_metrics_enabled cfg) || negb (app_metrics_discovery_enabled cfg)
     || is_empty (app_metrics_namespaces cfg)
  then {| am_targets := [] |} else {| am_targets := collect_app_metrics joined |}.

Definition inventory `{YamlList, JsonParser} (cfg : Config) (a : Answers) : Collected :=
  let '(pod_metrics, metrics_status) :=
    probe_pod_metrics (an_metrics_v1 a) (an_metrics_v1beta1 a) (an_metrics_now_ms a) in
  let '(snapshot_classes, snapshots, snapshot_api_status) :=
    probe_snapshot_api (an_snapshot_classes a) (an_snapshots a) (an_snapshot_now_ms a) in
  let pods := soft_unwrap (an_pods a) in
  let services := sort_services_for_snapshot (soft_unwrap (an_services a)) in
  {| co_k8s_uid := kube_system_uid (an_kube_system a);
     co_cluster := cluster_section (an_version a) (an_nodes a) (an_cluster_versions a);
     co_namespaces := map map_namespace (soft_unwrap (an_namespaces a));
     co_workloads := workloads_section (an_deployments a) (an_statefulsets a) (an_daemonsets a);
     co_pods := map (map_pod (build_pod_usage_index pod_metrics) (tech_detect_process cfg)
                       (an_seconds a)) pods;
     co_network := network_inventory (an_services a) (an_ingresses a);
     co_security := security_inventory (an_network_policies a) (an_cluster_role_bindings a)
                      (an_namespaces a);
     co_operational_maturity := operational_maturity (an_deployments a) (an_vpa a) (an_cronjobs a);
     co_dependencies := collect_dependency_inventory (collect_dependencies_tetragon cfg) pods services
                          (an_event_lines a) (an_line_clock a) (an_coverage a);
     co_app_metrics := app_metrics_inventory cfg (an_scrapes a);
     co_configuration := configuration_inventory (collect_secrets cfg) (an_configmaps a) (an_secrets a);
     co_storage := storage_inventory (an_storage_classes a) (an_pvs a) (an_pvcs a)
                     snapshot_classes snapshots;
     co_events := event_infos (soft_unwrap (an_events a));
     co_metrics := metrics_status;
     co_snapshot_api := snapshot_api_status |}.

(** Every failure is a matter of one section: there is no error to return. *)
Definition collect `{YamlList, JsonParser} (cfg : Config) (a : Answers) : result string Collected :=
  Ok (inventory cfg a).

(** ** Properties *)

(** What a list call counts for when it fails: the empty list. *)
Definition soften {E T} (r : result E (list T)) : result E (list T) := Ok (soft_unwrap r).
Definition softened (a : Answers) : Answers :=
  {| an_nodes := soften (an_nodes a); an_namespaces := soften (an_namespaces a);
     an_kube_system := an_kube_system a; an_deployments := soften (an_deployments a);
     an_statefulsets := soften (an_statefulsets a); an_daemonsets := soften (an_daemonsets a);
     an_pods := soften (an_pods a); an_services := soften (an_services a);
     an_ingresses := soften (an_ingresses a);
     an_network_policies := soften (an_network_policies a);
     an_cluster_role_bindings := soften (an_cluster_role_bindings a);
     an_configmaps := soften (an_configmaps a); an_secrets := soften (an_secrets a);
     an_storage_classes := soften (an_storage_classes a); an_pvs := soften (an_pvs a);
     an_pvcs := soften (an_pvcs a); an_snapshot_classes := an_snapshot_classes a;
     an_snapshots := an_snapshots a; an_metrics_v1 := an_metrics_v1 a;
     an_metrics_v1beta1 := an_metrics_v1beta1 a; an_vpa := soften (an_vpa a);
     an_cronjobs := soften (an_cronjobs a); an_events := soften (an_events a);
     an_version := an_version a; an_cluster_versions := soften (an_cluster_versions a);
     an_event_lines := an_event_lines a; an_line_clock := an_line_clock a;
     an_coverage := an_coverage a; an_scrapes := an_scrapes a; an_seconds := an_seconds a;
     an_metrics_now_ms := an_metrics_now_ms a; an_snapshot_now_ms := an_snapshot_now_ms a |}.

(** A failed list call leaves its own sections empty and nothing else different. *)
Lemma collect_fail_soft `{YamlList, JsonParser} cfg a : collect cfg (softened a) = collect cfg a.
Proof.
  unfold collect, inventory. cbn. destruct (probe_pod_metrics _ _ _), (probe_snapshot_api _ _ _) as [[? ?] ?].
  do 2 f_equal. unfold cluster_section. cbn. by destruct (an_cluster_versions a).
Qed.

(** The text that stands for a value. *)
Definition blank (m : gmap string string) : gmap string string := const "" <$> m.

Definition redact_secret (s : SecretObject) : SecretObject :=
  {| sec_metadata := sec_metadata s; sec_type := sec_type s; sec_immutable := sec_immutable s;
     sec_data := blank <$> sec_data s |}.
(** The data of the agent's own ConfigMaps is kept. *)
Definition is_own (m : ObjectMeta) : bool :=
  existsb (fun nm => bool_decide (name m = Some nm)) agent_configmap_names.
Definition redact_configmap (cm : ConfigMap) : ConfigMap :=
  {| cm_metadata := cm_metadata cm; cm_immutable := cm_immutable cm;
     cm_data := if is_own (cm_metadata cm) then cm_data cm else blank <$> cm_data cm;
     cm_binary_data := blank <$> cm_binary_data cm |}.

Definition redacted (cfg : Config) (a : Answers) : Answers :=
  {| an_nodes := an_nodes a; an_namespaces := an_namespaces a;
     an_kube_system := an_kube_system a; an_deployments := an_deployments a;
     an_statefulsets := an_statefulsets a; an_daemonsets := an_daemonsets a;
     an_pods := an_pods a; an_services := an_services a; an_ingresses := an_ingresses a;
     an_network_policies := an_network_policies a;
     an_cluster_role_bindings := an_cluster_role_bindings a;
     an_configmaps := map redact_configmap <$> an_configmaps a;
     an_secrets := (if collect_secrets cfg then map redact_secret <$> an_secrets a else Ok []);
     an_storage_classes := an_storage_classes a; an_pvs := an_pvs a; an_pvcs := an_pvcs a;
     an_snapshot_classes := an_snapshot_classes a; an_snapshots := an_snapshots a;
     an_metrics_v1 := an_metrics_v1 a; an_metrics_v1beta1 := an_metrics_v1beta1 a;
     an_vpa := an_vpa a; an_cronjobs := an_cronjobs a; an_events := an_events a;
     an_version := an_version a; an_cluster_versions := an_cluster_versions a;
     an_event_lines := an_event_lines a; an_line_clock := an_line_clock a;
     an_coverage := an_coverage a; an_scrapes := an_scrapes a; an_seconds := an_seconds a;
     an_metrics_now_ms := an_metrics_now_ms a; an_snapshot_now_ms := an_snapshot_now_ms a |}.

Lemma data_keys_blank m : map_data_keys (blank m) = map_data_keys m.
Proof. apply data_keys_dom. unfold blank. by rewrite dom_fmap_L. Qed.
Lemma data_keys_redacted o : map_data_keys (unwrap_or ∅ (blank <$> o)) = map_data_keys (unwrap_or ∅ o).
Proof. destruct o; [apply data_keys_blank|done]. Qed.

Lemma map_secret_redacted s : map_secret (redact_secret s) = map_secret s.
Proof. unfold map_secret, redact_secret. cbn -[unwrap_or]. by rewrite data_keys_redacted. Qed.
Lemma map_configmap_redacted cm : map_configmap (redact_configmap cm) = map_configmap cm.
Proof.
  unfold map_configmap, redact_configmap. cbn -[unwrap_or is_own]. rewrite data_keys_redacted.
  destruct (is_own (cm_metadata cm)); [done|]. by rewrite data_keys_redacted.
Qed.

Lemma soft_unwrap_map {E A B} (f : A -> B) (r : result E (list A)) :
  soft_unwrap (map f <$> r) = map f (soft_unwrap r).
Proof. by destruct r. Qed.

Lemma find_first_map {A B} (f : A -> B) (p : B -> bool) (q : A -> bool) l :
  (forall x, p (f x) = q x) -> find_first p (map f l) = f <$> find_first q l.
Proof. intros H. induction l as [|x l IH]; [done|]. simpl. rewrite H. by destruct (q x). Qed.

Lemma configured_env_redacted `{YamlList} l :
  collect_agent_configured_env (map redact_configmap l) = collect_agent_configured_env l.
Proof.
  unfold collect_agent_configured_env. f_equal.
  assert (Hstep : forall nm, In nm agent_configmap_names ->
    (cm ← find_first (fun cm => bool_decide (name (cm_metadata cm) = Some nm)) (map redact_configmap l);
     cm_data cm) =
    (cm ← find_first (fun cm => bool_decide (name (cm_metadata cm) = Some nm)) l; cm_data cm)).
  { intros nm Hin.
    rewrite (find_first_map redact_configmap _ (fun cm => bool_decide (name (cm_metadata cm) = Some nm)))
      by done.
    destruct (find_first _ l) as [cm|] eqn:Hf; [|done]. apply find_first_in in Hf as [_ Hf].
    cbn -[is_own]. replace (is_own (cm_metadata cm)) with true; [done|]. symmetry.
    apply existsb_exists. by exists nm. }
  generalize (∅ : gmap string string). revert Hstep. generalize agent_configmap_names.
  induction l0 as [|nm l0 IH]; intros Hstep m; [done|]. simpl.
  rewrite (Hstep nm (in_eq _ _)). apply IH. intros nm' Hin. apply Hstep. by right.
Qed.

Lemma configuration_redacted `{YamlList} cfg configmaps secrets :
  configuration_inventory (collect_secrets cfg) (map redact_configmap <$> configmaps)
    (if collect_secrets cfg then map redact_secret <$> secrets else Ok []) =
  configuration_inventory (collect_secrets cfg) configmaps secrets.
Proof.
  unfold configuration_inventory, sort_configmaps_for_snapshot, sort_secrets_for_snapshot.
  rewrite soft_unwrap_map, (sort_by_map redact_configmap _ (meta_compare cm_metadata)) by done.
  rewrite configured_env_redacted, map_map. rewrite (map_ext _ _ map_configmap_redacted).
  destruct (collect_secrets cfg); [|done].
  rewrite soft_unwrap_map, (sort_by_map redact_secret _ (meta_compare sec_metadata)) by done.
  by rewrite map_map, (map_ext _ _ map_secret_redacted).
Qed.

(** The inventory is a function of redacted answers: no value of a Secret
    reaches it, no binary value of a ConfigMap and no value of a ConfigMap but
    the agent's own three, and without COLLECT_SECRETS not even the names of
    the Secrets. *)
Lemma collect_redacted `{YamlList, JsonParser} cfg a : collect cfg (redacted cfg a) = collect cfg a.
Proof.
  unfold collect, inventory. cbn. destruct (probe_pod_metrics _ _ _), (probe_snapshot_api _ _ _) as [[? ?] ?].
  do 2 f_equal. apply configuration_redacted.
Qed.
