(* ===== verification/Gather.v ===== *)
(** * The calls of collect (collector.rs)

    [Collect.collect] is a function of the answers; here is how the collector
    comes by them: the list calls, the probes of optional APIs and the scrapes
    as operations.  The list calls run concurrently, each into a variable of
    its own, as do the scrapes, whose results are sorted; they are performed
    here in the order in which [join!] and [spawn] start them. *)
From S2P Require Import Prelude RustStr Effects Json Kube Config Env Startup Inventory Tech Cluster Network Posture AppMetrics Tetragon Dependencies Collect.
Local Open Scope Z_scope.

(** What the process itself has at that time: the event buffer, the clock at
    which each of its lines is parsed and the coverage of the streams, and the
    clock of the ages. *)
Record Local := {
  lo_event_lines : string; lo_line_clock : nat -> Z; lo_coverage : CoverageSnapshot;
  lo_seconds : option Z }.

Definition list_all (r : resource) : kprog (result ListError (list (obj r))) :=
  got ← call (ListObjs r None None : op);
  mret (match got with Ok items => Ok items | Err e => Err (KubeErr e) end).
Definition list_dynamic_all (group version kind : string) : kprog (result ListError (list json)) :=
  list_all (RValue group version kind).

(** The second call of a probe is made only after the answer that asks for it;
    where it is not made its answer does not matter. *)
Definition gather_pod_metrics : kprog (result ListError (list json) * result ListError (list json) * Z) :=
  v1 ← list_dynamic_all "metrics.k8s.io" "v1" "PodMetrics";
  v1beta1 ← match v1 with
    | Err (KubeErr e) =>
        if is_not_found e then list_dynamic_all "metrics.k8s.io" "v1beta1" "PodMetrics" else mret (Ok [])
    | _ => mret (Ok [])
    end;
  now ← call (NowMs : op);
  mret (v1, v1beta1, now).
Definition gather_snapshot_api : kprog (result ListError (list json) * result ListError (list json) * Z) :=
  classes ← list_dynamic_all "snapshot.storage.k8s.io" "v1" "VolumeSnapshotClass";
  snapshots ← match classes with
    | Ok _ => list_dynamic_all "snapshot.storage.k8s.io" "v1" "VolumeSnapshot"
    | Err _ => mret (Ok [])
    end;
  now ← call (NowMs : op);
  mret (classes, snapshots, now).

Definition is_openshift (version : option string) (nodes : result ListError (list Node)) : bool :=
  bool_decide (platform (build_cluster_info version (soft_unwrap nodes)) = Some "openshift").

Fixpoint scrape_all (cfg : Config) (targets : list AppMetricsTargetSpec)
    : kprog (list (option AppMetricsTarget)) :=
  match targets with
  | [] => mret []
  | target :: targets =>
      started_at ← call (InstantNow : op);
      answer ← call (HttpGet (scrape_url target) : op);
      now ← call (InstantNow : op);
      rest ← scrape_all cfg targets;
      mret (scrape_app_metrics_target (app_metrics_allowlist cfg)
              (Z.to_nat (app_metrics_max_samples cfg)) target answer ((now - started_at) / 1000000) :: rest)
  end.

Definition gather (cfg : Config) (local : Local) : kprog Answers :=
  nodes ← list_all RNode;
  namespaces ← list_all RNamespace;
  deployments ← list_all RDeployment;
  statefulsets ← list_all RStatefulSet;
  daemonsets ← list_all RDaemonSet;
  pods ← list_all RPod;
  services ← list_all RService;
  ingresses ← list_all RIngress;
  network_policies ← list_all RNetworkPolicy;
  cluster_role_bindings ← list_all RClusterRoleBinding;
  configmaps ← list_all RConfigMap;
  secrets ← (if collect_secrets cfg then list_all RSecret else mret (Ok []));
  storage_classes ← list_all RStorageClass;
  pvs ← list_all RPersistentVolume;
  pvcs ← list_all RPersistentVolumeClaim;
  vpa ← list_dynamic_all "autoscaling.k8s.io" "v1" "VerticalPodAutoscaler";
  cronjobs ← list_all RCronJob;
  events ← list_all REvent;
  version ← call (ServerVersion : op);
  k8s_uid ← call (GetUid RNamespace "kube-system" : op);
  pod_metrics ← gather_pod_metrics;
  snapshot_api ← gather_snapshot_api;
  cluster_versions ← (if is_openshift version nodes
                      then list_dynamic_all "config.openshift.io" "v1" "ClusterVersion" else mret (Ok []));
  scrapes ← scrape_all cfg (app_metrics_targets cfg (sort_services_for_snapshot (soft_unwrap services)));
  mret {| an_nodes := nodes; an_namespaces := namespaces; an_kube_system := k8s_uid;
     an_deployments := deployments; an_statefulsets := statefulsets; an_daemonsets := daemonsets;
     an_pods := pods; an_services := services; an_ingresses := ingresses;
     an_network_policies := network_policies; an_cluster_role_bindings := cluster_role_bindings;
     an_configmaps := configmaps; an_secrets := secrets; an_storage_classes := storage_classes;
     an_pvs := pvs; an_pvcs := pvcs;
     an_snapshot_classes := fst (fst snapshot_api); an_snapshots := snd (fst snapshot_api);
     an_metrics_v1 := fst (fst pod_metrics); an_metrics_v1beta1 := snd (fst pod_metrics);
     an_vpa := vpa; an_cronjobs := cronjobs; an_events := events; an_version := version;
     an_cluster_versions := cluster_versions; an_event_lines := lo_event_lines local;
     an_line_clock := lo_line_clock local; an_coverage := lo_coverage local; an_scrapes := scrapes;
     an_seconds := lo_seconds local; an_metrics_now_ms := snd pod_metrics;
     an_snapshot_now_ms := snd snapshot_api |}.

Definition collect_inventory `{YamlList, JsonParser} (cfg : Config) (local : Local)
    : kprog (result string Collected) :=
  answers ← gather cfg local;
  mret (collect cfg answers).

(** ** What the collection may do *)

(** The whole of the listings, Secrets only with COLLECT_SECRETS, and GETs of
    the scrape addresses of services in the configured namespaces. *)
Definition collected_resources : list resource :=
  [RNode; RNamespace; RDeployment; RStatefulSet; RDaemonSet; RPod; RService; RIngress; RNetworkPolicy;
   RClusterRoleBinding; RConfigMap; RStorageClass; RPersistentVolume; RPersistentVolumeClaim; RCronJob; REvent;
   RValue "autoscaling.k8s.io" "v1" "VerticalPodAutoscaler";
   RValue "metrics.k8s.io" "v1" "PodMetrics"; RValue "metrics.k8s.io" "v1beta1" "PodMetrics";
   RValue "snapshot.storage.k8s.io" "v1" "VolumeSnapshotClass";
   RValue "snapshot.storage.k8s.io" "v1" "VolumeSnapshot";
   RValue "config.openshift.io" "v1" "ClusterVersion"].
Definition collecting (cfg : Config) (o : op) : Prop :=
  match o with
  | ListObjs RSecret None None => collect_secrets cfg = true
  | ListObjs r None None => In r collected_resources
  | GetUid RNamespace nm => nm = "kube-system"
  | HttpGet url => app_metrics_enabled cfg = true /\ app_metrics_discovery_enabled cfg = true /\
      exists service target, discover_app_metrics_target service = Some target /\
        In (unwrap_or "" (namespace (svc_metadata service))) (app_metrics_namespaces cfg) /\
        url = scrape_url target
  | ServerVersion | NowMs | InstantNow => True
  | _ => False
  end.

Lemma collecting_reads cfg o : collecting cfg o -> mutating o = false.
Proof. by destruct o. Qed.

Section gathered.
Context (cfg : Config).

Lemma only_list_all r : In r collected_resources -> only (collecting cfg) (list_all r).
Proof using Type.
  intros Hr. apply only_bind; [|intros; apply only_ret]. apply only_op.
  destruct r; try exact Hr. by exfalso; repeat (destruct Hr as [Hr|Hr]; [discriminate Hr|]).
Qed.

Lemma only_pod_metrics : only (collecting cfg) gather_pod_metrics.
Proof using Type.
  apply only_bind; [apply only_list_all; simpl; tauto|]. intros v1.
  apply only_bind; [|intros; apply only_bind; [by apply only_op|intros; apply only_ret]].
  destruct v1 as [?|[?|]]; [|case_match|]; apply only_ret || (apply only_list_all; simpl; tauto).
Qed.

Lemma only_snapshot_api : only (collecting cfg) gather_snapshot_api.
Proof using Type.
  apply only_bind; [apply only_list_all; simpl; tauto|]. intros classes.
  apply only_bind; [|intros; apply only_bind; [by apply only_op|intros; apply only_ret]].
  destruct classes; apply only_ret || (apply only_list_all; simpl; tauto).
Qed.

(** The targets are of services in the configured namespaces. *)
Lemma only_scrapes services targets :
  (forall target, In target targets -> In target (app_metrics_targets cfg services)) ->
  only (collecting cfg) (scrape_all cfg targets).
Proof using Type.
  induction targets as [|target targets IH]; intros Hin; [apply only_ret|].
  apply only_bind; [by apply only_op|intros started]. apply only_bind; [apply only_op|intros answer].
  - specialize (Hin target (in_eq _ _)). unfold app_metrics_targets in Hin.
    destruct (app_metrics_enabled cfg) eqn:?, (app_metrics_discovery_enabled cfg) eqn:?; try done.
    destruct (is_empty _); [done|]. apply list_elem_of_In, list_elem_of_omap in Hin as (service & _ & Hd).
    destruct (existsb _ _) eqn:He; [|done]. apply existsb_exists in He as (ns & Hns & He).
    apply String.eqb_eq in He. subst ns. split_and!; [done|done|]. by exists service, target.
  - apply only_bind; [by apply only_op|intros now].
    apply only_bind; [|intros; apply only_ret]. apply IH. intros x Hx. apply Hin. by right.
Qed.

Lemma only_gather local : only (collecting cfg) (gather cfg local).
Proof using Type.
  unfold gather.
  repeat (apply only_bind; [first [apply only_list_all; simpl; tauto | by apply only_op
    | apply only_pod_metrics | apply only_snapshot_api | by eapply only_scrapes
    | destruct (collect_secrets cfg) eqn:Hs; [|apply only_ret];
      apply only_bind; [by apply only_op|intros; apply only_ret]
    | case_match; [apply only_list_all; simpl; tauto|apply only_ret]]|intros ?]).
  apply only_ret.
Qed.

Lemma only_collect `{YamlList, JsonParser} local : only (collecting cfg) (collect_inventory cfg local).
Proof using Type. apply only_bind; [apply only_gather|intros; apply only_ret]. Qed.

(** Without COLLECT_SECRETS nothing of a Secret is asked for. *)
Lemma gather_no_secrets local t a :
  collect_secrets cfg = false -> runs (gather cfg local) t a ->
  Forall (fun e => forall ns fields, op_of e <> ListObjs RSecret ns fields) t.
Proof using Type.
  intros Hoff Hr. eapply Forall_impl; [exact (only_runs _ _ _ _ (only_gather local) Hr)|].
  intros e He ns fields Heq. cbv beta in He. rewrite Heq in He. destruct ns, fields; try done. simpl in He. congruence.
Qed.
End gathered.
