(* ===== verification/PgMatch.v ===== *)
(** * PostgreSQL heuristics (plugins/mod.rs)

    Which pods, services, claims and events the PostgreSQL plugin takes for
    parts of a database.  A weak match is a substring of a name; a clear match
    of a service is one of the names as a token of its own, together with the
    port 5432. *)
From S2P Require Import Prelude RustStr Text Utf8 Env Inventory Tech Cluster Network Posture.
Local Open Scope Z_scope.

(** [o.as_deref().map(p).unwrap_or(false)]. *)
Definition opt_matches {A} (p : A -> bool) (o : option A) : bool := unwrap_or false (p <$> o).

Definition matches_postgresql_name (value : string) : bool :=
  let value := to_ascii_lowercase value in
  str_contains "postgres" value || str_contains "postgresql" value || str_contains "pgsql" value.

(** ** Tokens *)

Definition first_char (s : string) : option ascii := match s with String a _ => Some a | _ => None end.
Definition last_char (s : string) : option ascii := first_char (str_rev s).
Definition boundary (o : option ascii) : bool :=
  unwrap_or true ((fun c => negb (is_ascii_alphanumeric c)) <$> o).

(** The loop of [contains_token] with [lower[..start]] and [lower[start..]]. *)
Fixpoint token_loop (fuel : nat) (needle before rest : string) : bool :=
  match fuel with
  | O => false
  | S fuel =>
      match split_once needle rest with
      | Some (l, r) =>
          if boundary (last_char (before +s+ l)) && boundary (first_char r) then true
          else token_loop fuel needle (before +s+ l +s+ needle) r
      | None => false
      end
  end.
Definition contains_token (value needle : string) : bool :=
  let lower := to_ascii_lowercase value in
  token_loop (S (String.length lower)) needle "" lower.

Definition CLEAR_NAMES : list string := ["postgresql"; "postgres"; "pgsql"].
Definition matches_clear_postgresql_name (value : string) : bool :=
  existsb (contains_token value) CLEAR_NAMES.

(** ** Objects *)

Definition matches_postgresql_pod (pod : PodInfo) : bool :=
  matches_postgresql_name (pinf_name pod)
  || opt_matches matches_postgresql_name (pinf_owner_name pod)
  || existsb (fun container =>
       matches_postgresql_name (cti_image container)
       || matches_postgresql_name (unwrap_or "" (product (cti_technology container)))
       || matches_postgresql_name (unwrap_or "" (subtype (cti_technology container))))
     (pinf_containers pod).

Definition on_5432 (port : ServicePortInfo) : bool :=
  (spi_port port =? 5432) || bool_decide (spi_target_port port = Some "5432").

Definition matches_postgresql_service (service : ServiceInfo) : bool :=
  matches_postgresql_name (svi_name service)
  || existsb (fun kv => matches_postgresql_name (kv_key kv) || matches_postgresql_name (kv_value kv))
       (svi_selector service)
  || existsb on_5432 (svi_ports service).

Definition is_clear_postgresql_service (service : ServiceInfo) : bool :=
  let name_or_selector := matches_clear_postgresql_name (svi_name service)
    || existsb (fun kv => matches_clear_postgresql_name (kv_key kv)
                          || matches_clear_postgresql_name (kv_value kv)) (svi_selector service) in
  let has_postgresql_port := existsb on_5432 (svi_ports service) in
  name_or_selector && has_postgresql_port.

Definition matches_postgresql_pvc (pvc : PersistentVolumeClaimInfo) : bool :=
  matches_postgresql_name (ci_pvc_name pvc)
  || opt_matches matches_postgresql_name (ci_pvc_volume_name pvc)
  || opt_matches matches_postgresql_name (ci_pvc_storage_class pvc).

Definition pvc_match_reason (pvc : PersistentVolumeClaimInfo) : string :=
  let reasons :=
    (if matches_postgresql_name (ci_pvc_name pvc) then ["name"] else [])
    ++ (if opt_matches matches_postgresql_name (ci_pvc_volume_name pvc) then ["volume_name"] else [])
    ++ (if opt_matches matches_postgresql_name (ci_pvc_storage_class pvc) then ["storage_class"] else []) in
  if is_empty reasons then "unknown" else join "," reasons.

(** The message of an event is a list of code points. *)
Definition message_text (event : EventInfo) : option string := utf8_encode <$> ei_message event.

Definition matches_postgresql_event (event : EventInfo) : bool :=
  matches_postgresql_name (ei_name event)
  || opt_matches matches_postgresql_name (ei_reason event)
  || opt_matches matches_postgresql_name (message_text event)
  || opt_matches matches_postgresql_name (io_name (ei_involved_object event)).

(** ** Lemmas: occurrences *)

Lemma append_cancel l x y : l +s+ x = l +s+ y -> x = y.
Proof. induction l as [|a l IH]; simpl; [done|]. intros [= H]. auto. Qed.

Lemma append_le l x m y :
  l +s+ x = m +s+ y -> (String.length l <= String.length m)%nat ->
  exists k, m = l +s+ k /\ x = k +s+ y.
Proof.
  revert m. induction l as [|a l IH]; intros m; simpl; [intros -> _; by exists m|].
  destruct m as [|b m]; simpl; [lia|]. intros [= -> H] Hl.
  destruct (IH m H) as (k & -> & ->); [lia|]. by exists k.
Qed.

Lemma split_once_none sep s : split_once sep s = None -> ~ occurs sep s.
Proof.
  intros Hn (l & r & ->). revert Hn. induction l as [|a l IH].
  - change ("" +s+ sep +s+ r) with (sep +s+ r). pose proof (strip_prefix_app sep r) as Hp.
    destruct (sep +s+ r); cbn [split_once]; by rewrite Hp.
  - change (String a l +s+ sep +s+ r) with (String a (l +s+ sep +s+ r)). cbn [split_once].
    destruct (strip_prefix sep _); [done|]. by destruct (split_once sep (l +s+ sep +s+ r)); auto.
Qed.

(** The occurrence that is found is the first. *)
Lemma split_once_leftmost sep s l r l' r' :
  split_once sep s = Some (l, r) -> s = l' +s+ sep +s+ r' ->
  (String.length l <= String.length l')%nat.
Proof.
  revert l l'. induction s as [|a s IH]; intros l l'; cbn [split_once].
  - destruct (strip_prefix sep ""); [|done]. intros [= <- _]. simpl. lia.
  - destruct (strip_prefix sep (String a s)) eqn:Hp; [intros [= <- _]; simpl; lia|].
    intros ([l1 r1] & Hs & Heq)%fmap_Some. simplify_eq. intros Heq.
    destruct l' as [|b l']; simpl in *.
    + rewrite Heq, strip_prefix_app in Hp. done.
    + injection Heq as -> Heq. specialize (IH _ _ Hs Heq). lia.
Qed.

Lemma last_char_app l a m : last_char (l +s+ String a m) = last_char (String a m).
Proof.
  unfold last_char. rewrite str_rev_append, str_rev_cons.
  by destruct (str_rev m).
Qed.

Lemma last_char_in p m a : str_all p (String a m) = true -> exists c, last_char (String a m) = Some c /\ p c = true.
Proof.
  rewrite <- str_all_rev. unfold last_char. rewrite str_rev_cons.
  destruct (str_rev m) as [|b t]; simpl; intros [Hp _]%andb_true_iff; eauto.
Qed.

(** [needle] occurs in [s], which follows [before], as a token of its own: the
    characters around the occurrence are not alphanumeric. *)
Definition token_in (needle before s : string) : Prop :=
  exists l r, s = l +s+ needle +s+ r /\
    boundary (last_char (before +s+ l)) = true /\ boundary (first_char r) = true.

Section tokens.
Context (needle : string) (Hne : str_is_empty needle = false)
        (Hneedle : str_all is_ascii_alphanumeric needle = true).

(** No token starts inside another occurrence. *)
Lemma inside_not_boundary l m k : needle = m +s+ k -> str_is_empty m = false -> boundary (last_char (l +s+ m)) = false.
Proof using Hneedle.
  intros Heq Hm. rewrite Heq, str_all_app in Hneedle. apply andb_true_iff in Hneedle as [Ha _].
  destruct m as [|a m]; [done|]. rewrite last_char_app.
  destruct (last_char_in _ _ _ Ha) as (c & -> & Hc). unfold boundary. simpl. by rewrite Hc.
Qed.

(** After a first occurrence [l] that is not a token, the tokens are those of
    the rest. *)
Lemma token_skip before rest l r :
  split_once needle rest = Some (l, r) ->
  boundary (last_char (before +s+ l)) && boundary (first_char r) = false ->
  token_in needle before rest <-> token_in needle (before +s+ l +s+ needle) r.
Proof using Hneedle.
  intros Hs Hb. pose proof (split_once_some _ _ _ _ Hs) as Heq. split.
  - intros (l' & r' & Heq' & H1 & H2).
    pose proof (split_once_leftmost _ _ _ _ _ _ Hs Heq') as Hfirst.
    rewrite Heq in Heq'. apply append_le in Heq' as (k & -> & Hk); [|done].
    destruct (Nat.le_gt_cases (String.length needle) (String.length k)) as [Hlen|Hlen].
    + apply append_le in Hk as (j & -> & ->); [|done]. exists j, r'.
      by rewrite !append_assoc in *.
    + destruct k as [|a k].
      * rewrite append_nil_r in H1. simpl in Hk. apply append_cancel in Hk as ->. by rewrite H1, H2 in Hb.
      * symmetry in Hk. apply append_le in Hk as (j & Hj & _); [|lia].
        rewrite <- append_assoc in H1. by rewrite (inside_not_boundary _ _ _ Hj eq_refl) in H1.
  - intros (l' & r' & -> & H1 & H2). exists (l +s+ needle +s+ l'), r'.
    rewrite !append_assoc in *. by rewrite Heq.
Qed.

Lemma token_loop_spec fuel before rest :
  (String.length rest < fuel)%nat ->
  token_loop fuel needle before rest = true <-> token_in needle before rest.
Proof using Hne Hneedle.
  revert before rest. induction fuel as [|fuel IH]; intros before rest Hf; [lia|].
  cbn [token_loop]. destruct (split_once needle rest) as [[l r]|] eqn:Hs.
  - pose proof (split_once_some _ _ _ _ Hs) as Heq.
    destruct (boundary _ && boundary _) eqn:Hb.
    + apply andb_true_iff in Hb as [? ?]. split; [|done]. intros _. by exists l, r.
    + rewrite (token_skip _ _ _ _ Hs Hb). apply IH.
      rewrite Heq, !length_append in Hf. destruct needle; simpl in *; [done|lia].
  - split; [done|]. intros (l & r & -> & _). apply split_once_none in Hs.
    exfalso. apply Hs. by exists l, r.
Qed.
End tokens.

Lemma contains_token_spec value needle :
  str_is_empty needle = false -> str_all is_ascii_alphanumeric needle = true ->
  contains_token value needle = true <-> token_in needle "" (to_ascii_lowercase value).
Proof. intros ? ?. apply token_loop_spec; [done..|lia]. Qed.

Lemma occurs_trans a b c : occurs a b -> occurs b c -> occurs a c.
Proof.
  intros (l & r & ->) (l' & r' & ->). exists (l' +s+ l), (r +s+ r'). by rewrite !append_assoc.
Qed.

(** The second alternative of [matches_postgresql_name] is covered by the first. *)
Lemma matches_postgresql_name_spec value :
  matches_postgresql_name value = true <->
  occurs "postgres" (to_ascii_lowercase value) \/ occurs "pgsql" (to_ascii_lowercase value).
Proof.
  unfold matches_postgresql_name. rewrite !orb_true_iff, !str_contains_occurs.
  split; [|tauto]. intros [[H|H]|H]; [tauto| |tauto]. left.
  apply (occurs_trans _ "postgresql"); [by exists "", "ql"|done].
Qed.

Lemma matches_clear_postgresql_name_spec value :
  matches_clear_postgresql_name value = true <->
  exists needle, In needle CLEAR_NAMES /\ token_in needle "" (to_ascii_lowercase value).
Proof.
  unfold matches_clear_postgresql_name. rewrite existsb_exists.
  split; intros (needle & Hin & H); exists needle; (split; [done|]); revert H;
    apply contains_token_spec; (repeat destruct Hin as [<-|Hin]; [done..|destruct Hin]).
Qed.

Lemma clear_name_matches value :
  matches_clear_postgresql_name value = true -> matches_postgresql_name value = true.
Proof.
  rewrite matches_clear_postgresql_name_spec, matches_postgresql_name_spec.
  intros (needle & Hin & l & r & Heq & _).
  destruct Hin as [<-|[<-|[<-|[]]]]; [left|left|right]; [|by exists l, r..].
  apply (occurs_trans _ "postgresql"); [by exists "", "ql"|by exists l, r].
Qed.

(** A clear service is a matching one. *)
Lemma clear_service_matches service :
  is_clear_postgresql_service service = true -> matches_postgresql_service service = true.
Proof. unfold is_clear_postgresql_service, matches_postgresql_service. intros [_ ->]%andb_true_iff. apply orb_true_r. Qed.

(** The texts of a service that are searched for a clear name. *)
Definition service_texts (service : ServiceInfo) : list string :=
  svi_name service :: concat (map (fun kv => [kv_key kv; kv_value kv]) (svi_selector service)).

(** C29: a service is a clear PostgreSQL service exactly when it has a port 5432
    and one of its name, selector keys and selector values holds, in any case,
    one of the names postgresql, postgres and pgsql between characters that
    are not letters or digits; the scan for such a token, which resumes behind
    each occurrence, misses none and always ends. *)
Theorem clear_service_exact service :
  is_clear_postgresql_service service = true <->
  (exists port, In port (svi_ports service) /\ (spi_port port = 5432 \/ spi_target_port port = Some "5432")) /\
  exists text needle, In text (service_texts service) /\ In needle CLEAR_NAMES /\
    token_in needle "" (to_ascii_lowercase text).
Proof.
  unfold is_clear_postgresql_service, service_texts.
  rewrite andb_true_iff, orb_true_iff, !existsb_exists, (and_comm (_ \/ _)). f_equiv.
  - unfold on_5432. split; intros (p & Hin & H); exists p; (split; [done|]); revert H;
      by rewrite orb_true_iff, Z.eqb_eq, bool_decide_eq_true.
  - rewrite matches_clear_postgresql_name_spec. split.
    + intros [(n & ? & ?)|(kv & Hin & H)]; [exists (svi_name service), n; simpl; auto|].
      apply orb_true_iff in H as [(n & ? & ?)%matches_clear_postgresql_name_spec
        |(n & ? & ?)%matches_clear_postgresql_name_spec];
        [exists (kv_key kv), n|exists (kv_value kv), n]; (split_and!; [|done..]); right;
        apply in_concat; exists [kv_key kv; kv_value kv]; simpl;
        (split; [apply in_map_iff; eauto|auto]).
    + intros (text & n & [<-|Hin] & Hn & Ht); [left; eauto|]. right.
      apply in_concat in Hin as (ts & (kv & <- & Hkv)%in_map_iff & Hin). exists kv.
      split; [done|]. rewrite orb_true_iff, !matches_clear_postgresql_name_spec.
      destruct Hin as [<-|[<-|[]]]; [left|right]; eauto.
Qed.

(** A name in which the token follows an occurrence inside a longer word. *)
Example token_after_word : contains_token "postgresfoo-Postgres" "postgres" = true.
Proof. reflexivity. Qed.
Example no_token_in_word : matches_clear_postgresql_name "mypostgres-db" = false.
Proof. reflexivity. Qed.
