(* ===== verification/PgProbe.v ===== *)
(** * The PostgreSQL probe (plugins/mod.rs)

    The live check of one service: where its settings come from, the text it
    connects with, and what is reported of the answers.  The Secret is read
    with the API client; the connection and its only query are operations of
    the signature; native_tls is the class [NativeTls]. *)
From S2P Require Import Prelude RustStr Text Utf8 Effects Config Kube Inventory Network PgMatch.
Local Open Scope Z_scope.

Inductive PostgresqlProbeResult :=
  | Connected (host : string) (port latency_ms : Z)
  | Failed (host : string) (port : Z) (classification : string).

(** ** Settings *)

Record PostgresqlProbeSettings := {
  ps_host : string; ps_port : Z; ps_user : string; ps_password : option string;
  ps_database : string; ps_sslmode : string; ps_sslrootcert : option string }.

Definition uses_tls (s : PostgresqlProbeSettings) : bool :=
  negb (eq_ignore_ascii_case (ps_sslmode s) "disable").

Definition connection_string (s : PostgresqlProbeSettings) : string :=
  let parts := ["host=" +s+ ps_host s; "port=" +s+ nat_to_string (ps_port s);
                "user=" +s+ ps_user s; "dbname=" +s+ ps_database s] in
  join " " (match ps_password s with
            | Some password => parts ++ ["password=" +s+ password]
            | None => parts
            end).

(** The port as the service has it, cast to a [u16]. *)
Definition select_postgresql_port (service : ServiceInfo) : option Z :=
  (fun port => spi_port port mod 2 ^ 16) <$> find_first on_5432 (svi_ports service).

Definition postgresql_service_host (service : ServiceInfo) : string :=
  svi_name service +s+ "." +s+ svi_namespace service +s+ ".svc.cluster.local".

(** [o.filter(|v| !v.trim().is_empty())], trimmed. *)
Definition override (o : option string) : option string :=
  v ← o; if str_is_empty (trim v) then None else Some (trim v).

Definition apply_postgresql_probe_overrides (s : PostgresqlProbeSettings)
    (values : gmap string string) : PostgresqlProbeSettings :=
  {| ps_host := unwrap_or (ps_host s) (override (values !! "host"));
     ps_port := unwrap_or (ps_port s) (v ← values !! "port"; parse_u16 (trim v));
     ps_user := unwrap_or (ps_user s) (override (values !! "user"));
     ps_password := opt_or (override (values !! "password")) (ps_password s);
     ps_database := unwrap_or (ps_database s) (override (values !! "database"));
     ps_sslmode := unwrap_or (ps_sslmode s) (override (values !! "sslmode"));
     ps_sslrootcert := opt_or (override (values !! "sslrootcert")) (ps_sslrootcert s) |}.

Definition apply_postgresql_probe_overrides_from_config (s : PostgresqlProbeSettings)
    (cfg : Config) : PostgresqlProbeSettings :=
  {| ps_host := unwrap_or (ps_host s) (override (postgresql_monitoring_host cfg));
     ps_port := unwrap_or (ps_port s) (postgresql_monitoring_port cfg);
     ps_user := unwrap_or (ps_user s) (override (postgresql_monitoring_user cfg));
     ps_password := opt_or (override (postgresql_monitoring_password cfg)) (ps_password s);
     ps_database := unwrap_or (ps_database s) (override (postgresql_monitoring_database cfg));
     ps_sslmode := unwrap_or (ps_sslmode s) (override (postgresql_monitoring_sslmode cfg));
     ps_sslrootcert := opt_or (override (postgresql_monitoring_sslrootcert cfg)) (ps_sslrootcert s) |}.

(** The entries of a Secret that are texts; [None] when it is missing or cannot
    be read. *)
Definition secret_strings (secret : SecretObject) : gmap string string :=
  filter (fun kv => valid_utf8 (snd kv) = true) (unwrap_or ∅ (sec_data secret)).
Definition load_secret_string_data (namespace secret_name : string)
    : kprog (option (gmap string string)) :=
  got ← call (GetOpt RSecret (Some namespace) secret_name);
  mret (match got with Ok (Some secret) => Some (secret_strings secret) | _ => None end).

Definition default_settings (service : ServiceInfo) (port : Z) : PostgresqlProbeSettings :=
  {| ps_host := postgresql_service_host service; ps_port := port; ps_user := "postgres";
     ps_password := None; ps_database := "postgres"; ps_sslmode := "disable";
     ps_sslrootcert := None |}.

(** [client]: whether there is a client for the API. *)
Definition resolve_postgresql_probe_settings (client : bool) (cfg : Config)
    (service : ServiceInfo) (port : Z) : kprog PostgresqlProbeSettings :=
  let settings := default_settings service port in
  settings ← (match client, postgresql_monitoring_secret_name cfg with
    | true, Some secret_name =>
        secret_data ← load_secret_string_data (svi_namespace service) secret_name;
        mret (match secret_data with
              | Some values => apply_postgresql_probe_overrides settings values
              | None => settings
              end)
    | _, _ => mret settings
    end : kprog PostgresqlProbeSettings);
  mret (apply_postgresql_probe_overrides_from_config settings cfg).

(** ** Errors *)

Definition classify_postgresql_probe_error (message : string) : string :=
  let lower := to_ascii_lowercase message in
  let has needle := str_contains needle lower in
  if has "timed out" || has "timeout" then "failed: timeout"
  else if has "refused" then "failed: connection refused"
  else if has "lookup" || has "resolve" || has "name or service not known" || has "no such host"
  then "failed: dns"
  else if has "authentication" || has "password" || has "permission denied" then "failed: auth"
  else if has "ssl" || has "tls" || has "handshake" then "failed: tls"
  else "failed: io".

(** ** The probe *)

(** native_tls: whether a text is read as a certificate, and whether a
    connector with it among its roots can be built. *)
Class NativeTls := {
  from_pem : string -> bool;
  build_connector : option string -> bool }.

Section probe.
Context `{NativeTls}.

Definition build_tls_connector (s : PostgresqlProbeSettings) : result string MakeTlsConnector :=
  let build root := if build_connector root then Ok {| root_certificate := root |}
                    else Err "failed: tls connector build" in
  match ps_sslrootcert s with
  | Some pem => if from_pem pem then build (Some pem) else Err "failed: tls certificate parse"
  | None => build None
  end.

(** [Instant::elapsed] in milliseconds. *)
Definition elapsed_ms (started_at now : Z) : Z := sat_sub now started_at / 1000000.

(** [probe_without_tls] and [probe_with_tls] differ in the connector only. *)
Definition probe_connection (s : PostgresqlProbeSettings) (tls : option MakeTlsConnector)
    : kprog PostgresqlProbeResult :=
  let failed classification := Failed (ps_host s) (ps_port s) classification in
  let connect_str := connection_string s in
  started_at ← call InstantNow;
  connect ← call (PgConnect connect_str tls);
  match connect with
  | Some (Ok _) =>
      query ← call (PgQuery "SELECT 1");
      match query with
      | Some (Ok _) =>
          now ← call InstantNow;
          mret (Connected (ps_host s) (ps_port s) (elapsed_ms started_at now))
      | Some (Err message) => mret (failed (classify_postgresql_probe_error message))
      | None => mret (failed "failed: timeout")
      end
  | Some (Err message) => mret (failed (classify_postgresql_probe_error message))
  | None => mret (failed "failed: timeout")
  end.
Definition probe_without_tls (s : PostgresqlProbeSettings) : kprog PostgresqlProbeResult :=
  probe_connection s None.
Definition probe_with_tls (s : PostgresqlProbeSettings) (tls : MakeTlsConnector)
    : kprog PostgresqlProbeResult := probe_connection s (Some tls).

Definition probe_postgresql_service (client : bool) (cfg : Config) (service : ServiceInfo)
    : kprog PostgresqlProbeResult :=
  some port := select_postgresql_port service else
    mret (Failed (postgresql_service_host service) 5432 "failed: no usable port") in
  settings ← resolve_postgresql_probe_settings client cfg service port;
  started_at ← call InstantNow;
  probe ← (if uses_tls settings then
             match build_tls_connector settings with
             | Ok tls => probe_with_tls settings tls
             | Err classification => mret (Failed (ps_host settings) port classification)
             end
           else probe_without_tls settings);
  match probe with
  | Connected _ _ _ =>
      now ← call InstantNow;
      mret (Connected (ps_host settings) (ps_port settings) (elapsed_ms started_at now))
  | Failed _ _ classification =>
      mret (Failed (ps_host settings) (ps_port settings) classification)
  end.
End probe.

(** ** What a probe does *)

(** The reference for the settings: the configuration, then the Secret, then
    the default; blank values do not count. *)
Definition settings_for (cfg : Config) (service : ServiceInfo) (port : Z)
    (values : option (gmap string string)) : PostgresqlProbeSettings :=
  let pick key configured := opt_or (override configured) (m ← values; override (m !! key)) in
  {| ps_host := unwrap_or (postgresql_service_host service) (pick "host" (postgresql_monitoring_host cfg));
     ps_port := unwrap_or port (opt_or (postgresql_monitoring_port cfg)
                                  (m ← values; v ← m !! "port"; parse_u16 (trim v)));
     ps_user := unwrap_or "postgres" (pick "user" (postgresql_monitoring_user cfg));
     ps_password := pick "password" (postgresql_monitoring_password cfg);
     ps_database := unwrap_or "postgres" (pick "database" (postgresql_monitoring_database cfg));
     ps_sslmode := unwrap_or "disable" (pick "sslmode" (postgresql_monitoring_sslmode cfg));
     ps_sslrootcert := pick "sslrootcert" (postgresql_monitoring_sslrootcert cfg) |}.

(** The Secret that an event delivers. *)
Definition secret_of (e : kevent) : option SecretObject :=
  let 'existT o x := e in
  match o return resp o -> option SecretObject with
  | GetOpt r _ _ =>
      match r return result KubeError (option (obj r)) -> option SecretObject with
      | RSecret => fun x => match x with Ok o => o | Err _ => None end
      | _ => fun _ => None
      end
  | _ => fun _ => None
  end x.

(** An event in which the query succeeds. *)
Definition queried_ok (e : kevent) : bool :=
  let 'existT o x := e in
  match o return resp o -> bool with
  | PgQuery sql => fun x => String.eqb sql "SELECT 1" && match x with Some (Ok _) => true | _ => false end
  | _ => fun _ => false
  end x.

Definition connections (t : list kevent) : list (string * option MakeTlsConnector) :=
  omap (fun e => match op_of e with PgConnect c tls => Some (c, tls) | _ => None end) t.

(** The operations of a probe. *)
Definition probe_op (client : bool) (cfg : Config) (service : ServiceInfo) (o : op) : Prop :=
  match o with
  | GetOpt RSecret (Some ns) nm =>
      client = true /\ ns = svi_namespace service /\ postgresql_monitoring_secret_name cfg = Some nm
  | InstantNow | PgConnect _ _ => True
  | PgQuery sql => sql = "SELECT 1"
  | _ => False
  end.

Definition CLASSIFICATIONS : list string :=
  ["failed: timeout"; "failed: connection refused"; "failed: dns"; "failed: auth"; "failed: tls";
   "failed: io"; "failed: tls certificate parse"; "failed: tls connector build"].

Lemma classification_known message : In (classify_postgresql_probe_error message) CLASSIFICATIONS.
Proof. unfold classify_postgresql_probe_error. repeat case_match; simpl; tauto. Qed.

Lemma find_map_app {A B} (f : A -> option B) l1 l2 :
  find_map f (l1 ++ l2) = opt_or (find_map f l1) (find_map f l2).
Proof. induction l1 as [|x l1 IH]; simpl; [done|]. by destruct (f x). Qed.
Lemma connections_app t1 t2 : connections (t1 ++ t2) = connections t1 ++ connections t2.
Proof. apply omap_app. Qed.

Lemma opt_or_none {A} (o : option A) : opt_or o None = o.
Proof. by destruct o. Qed.
Lemma unwrap_or_assoc {A} (d : A) o1 o2 : unwrap_or d (opt_or o1 o2) = unwrap_or (unwrap_or d o2) o1.
Proof. by destruct o1. Qed.

Section probe_lemmas.
Context `{NativeTls} (client : bool) (cfg : Config) (service : ServiceInfo).

Let ops_ok (t : list kevent) : Prop := Forall (fun e => probe_op client cfg service (op_of e)) t.

(** What a connection attempt does and reports, with its trace. *)
Record connects (s : PostgresqlProbeSettings) (tls : option MakeTlsConnector) (t : list kevent)
    (r : PostgresqlProbeResult) : Prop := {
  connects_once : connections t = [(connection_string s, tls)];
  connects_no_secret : find_map secret_of t = None;
  connects_ops : ops_ok t;
  connects_result : match r with
    | Connected host port _ => host = ps_host s /\ port = ps_port s /\ existsb queried_ok t = true
    | Failed host port c =>
        host = ps_host s /\ port = ps_port s /\ In c CLASSIFICATIONS /\ existsb queried_ok t = false
    end }.

Lemma probe_connection_runs s tls t r : runs (probe_connection s tls) t r -> connects s tls t r.
Proof using Type.
  unfold probe_connection. intros Hr. run_call Hr as start t1. run_call Hr as c t2.
  destruct c as [[[]|message]|].
  - run_call Hr as q t3. destruct q as [[[]|message]|].
    + run_call Hr as now t4. destruct Hr as [-> ->]. split; [done..|repeat constructor|done].
    + destruct Hr as [-> ->]. split; [done..|repeat constructor|].
      split_and!; try done. apply classification_known.
    + destruct Hr as [-> ->]. split; [done..|repeat constructor|]. split_and!; try done. by left.
  - destruct Hr as [-> ->]. split; [done..|repeat constructor|].
    split_and!; try done. apply classification_known.
  - destruct Hr as [-> ->]. split; [done..|repeat constructor|]. split_and!; try done. by left.
Qed.

Lemma resolve_runs port t s :
  runs (resolve_postgresql_probe_settings client cfg service port) t s ->
  s = settings_for cfg service port (secret_strings <$> find_map secret_of t) /\
  connections t = [] /\ existsb queried_ok t = false /\ ops_ok t.
Proof using Type.
  unfold resolve_postgresql_probe_settings, load_secret_string_data.
  destruct client, (postgresql_monitoring_secret_name cfg) as [nm|] eqn:Hsec;
    [|intros [-> ->]..]; unfold settings_for, apply_postgresql_probe_overrides_from_config;
    [|by rewrite ?opt_or_none; cbn; rewrite ?opt_or_none; split_and!; [|done..|constructor]..].
  intros Hr. inv_runs. destruct H0 as (got & t1 & -> & -> & ->).
  split_and!; [|done|done|by repeat constructor].
  destruct got as [[secret|]|e]; cbn -[trim secret_strings override]; rewrite ?opt_or_none;
    [|by f_equal..].
  by rewrite !unwrap_or_assoc.
Qed.
End probe_lemmas.

(** A probe reads at most the configured Secret of the service's namespace,
    makes at most one connection and runs nothing but SELECT 1.  It is reported
    as connected exactly when the query succeeded; a failure is reported by one
    of eight phrases, and of the settings host and port are reported only. *)
Lemma probe_runs `{NativeTls} client cfg service t r :
  runs (probe_postgresql_service client cfg service) t r ->
  Forall (fun e => probe_op client cfg service (op_of e)) t /\
  match select_postgresql_port service with
  | None => t = [] /\ r = Failed (postgresql_service_host service) 5432 "failed: no usable port"
  | Some port =>
      let s := settings_for cfg service port (secret_strings <$> find_map secret_of t) in
      (connections t = [] \/ exists tls, connections t = [(connection_string s, tls)] /\
         (tls = None <-> uses_tls s = false) /\
         forall c, tls = Some c -> root_certificate c = ps_sslrootcert s) /\
      match r with
      | Connected host port _ => host = ps_host s /\ port = ps_port s /\ existsb queried_ok t = true
      | Failed host port c => host = ps_host s /\ port = ps_port s /\ In c CLASSIFICATIONS /\
          existsb queried_ok t = false
      end
  end.
Proof.
  unfold probe_postgresql_service. destruct (select_postgresql_port service) as [port|];
    [|intros [-> ->]; by split; [constructor|]].
  intros Hr. run_bind Hr as s ts t' Hs. apply resolve_runs in Hs as (Hs & Hc & Hq & Hops).
  run_call Hr as start t1. run_bind Hr as probe tp te Hp.
  assert (Hte : connections te = [] /\ find_map secret_of te = None /\ existsb queried_ok te = false /\
    Forall (fun e => probe_op client cfg service (op_of e)) te /\
    match probe with
    | Connected _ _ _ => exists l, r = Connected (ps_host s) (ps_port s) l
    | Failed _ _ c => r = Failed (ps_host s) (ps_port s) c
    end).
  { destruct probe.
    - run_call Hr as now t2. destruct Hr as [-> ->]. split_and!; [done..|by repeat constructor|by eexists].
    - by destruct Hr as [-> ->]. }
  clear Hr. destruct Hte as (Hc2 & Hs2 & Hq2 & Hops2 & Hr).
  assert (Htp : (connects client cfg service s
                   (if uses_tls s then Some {| root_certificate := ps_sslrootcert s |} else None) tp probe) \/
    (tp = [] /\ exists c, probe = Failed (ps_host s) port c /\ In c CLASSIFICATIONS)).
  { revert Hp. unfold build_tls_connector. destruct (uses_tls s).
    - repeat case_match; simplify_eq; intros Hp;
        try (left; by apply probe_connection_runs);
        destruct Hp as [-> ->]; right; (split; [done|]); eexists; (split; [done|]); simpl; tauto.
    - intros Hp. left. by apply probe_connection_runs. }
  assert (Hsec : find_map secret_of (ts ++ ev InstantNow start :: tp ++ te) = find_map secret_of ts).
  { rewrite find_map_app. cbn. rewrite find_map_app, Hs2.
    destruct Htp as [[? -> ? ?]|[-> _]]; apply opt_or_none. }
  rewrite Hsec. cbv zeta. rewrite <- Hs.
  rewrite connections_app, Hc, !existsb_app, Hq. cbn. rewrite existsb_app, Hq2, orb_false_r.
  setoid_rewrite connections_app. rewrite Hc2, app_nil_r.
  split; [apply Forall_app; split; [done|]; constructor; [done|]; apply Forall_app; split; [|done];
          destruct Htp as [[]|[-> _]]; [done|constructor]|].
  destruct Htp as [[H1 _ _ H2]|[-> (c & -> & Hc')]].
  - split.
    + right. rewrite H1. eexists. split; [done|]. destruct (uses_tls s); split; naive_solver.
    + destruct probe; [destruct Hr as [l ->]|subst r]; naive_solver.
  - split; [by left|]. subst r. naive_solver.
Qed.

(** ** The connection string *)

(** The reference reader: parameters are separated by spaces, a value follows
    the first equals sign of its parameter. *)
Definition read_parameters (s : string) : list (string * string) :=
  omap (split_once "=") (str_split " " s).

Definition parameters (s : PostgresqlProbeSettings) : list (string * string) :=
  [("host", ps_host s); ("port", nat_to_string (ps_port s)); ("user", ps_user s);
   ("dbname", ps_database s)]
  ++ match ps_password s with Some p => [("password", p)] | None => [] end.

Lemma connection_string_parameters s :
  connection_string s = join " " (map (fun p => fst p +s+ "=" +s+ snd p) (parameters s)).
Proof. unfold connection_string, parameters. by destruct (ps_password s). Qed.

Lemma split_once_equals key value :
  free_of "=" key = true -> split_once "=" (key +s+ "=" +s+ value) = Some (key, value).
Proof.
  unfold free_of. induction key as [|a key IH]; [done|].
  simpl. intros [Ha Hk]%andb_true_iff. apply negb_true_iff in Ha. rewrite Ha.
  change (String "=" value) with ("=" +s+ value). by rewrite IH.
Qed.

Lemma print_digits_free c fuel n acc :
  is_ascii_digit c = false -> 0 <= n -> free_of c acc = true -> free_of c (print_digits fuel n acc) = true.
Proof.
  intros Hc. unfold free_of.
  assert (Hd : forall d, 0 <= d < 10 -> Ascii.eqb c (digit_char d) = false).
  { intros d Hd. apply Ascii.eqb_neq. intros ->. revert Hc.
    assert (d = 0 \/ d = 1 \/ d = 2 \/ d = 3 \/ d = 4 \/ d = 5 \/ d = 6 \/ d = 7 \/ d = 8 \/ d = 9)
      as Hcases by lia.
    by repeat destruct Hcases as [->|Hcases]; [..|subst]. }
  revert n acc. induction fuel as [|fuel IH]; intros n acc Hn Hacc; [done|]. cbn [print_digits].
  destruct (n <? 10) eqn:Hlt; [apply Z.ltb_lt in Hlt|]; cbn [str_all].
  - rewrite Hacc, Hd by lia. done.
  - apply IH; [by apply Z.div_pos|]. cbn [str_all]. rewrite Hacc, Hd; [done|].
    by apply Z.mod_pos_bound.
Qed.

Lemma nat_to_string_free c n : is_ascii_digit c = false -> 0 <= n -> free_of c (nat_to_string n) = true.
Proof. intros. by apply print_digits_free. Qed.

Definition space_free (s : PostgresqlProbeSettings) : Prop :=
  free_of " " (ps_host s) = true /\ free_of " " (ps_user s) = true /\
  free_of " " (ps_database s) = true /\
  forall p, ps_password s = Some p -> free_of " " p = true.

(** If host, user, database and password have no space in them, what is
    sent to the client reads back as exactly these parameters, the password
    among them if and only if there is one; the values are not quoted, so a
    space in one of them starts a parameter of its own. *)
Theorem connection_string_roundtrip s :
  0 <= ps_port s -> space_free s ->
  read_parameters (connection_string s) = parameters s.
Proof.
  intros Hport (Hh & Hu & Hd & Hp). rewrite connection_string_parameters.
  unfold read_parameters. rewrite str_split_join.
  - unfold parameters. destruct (ps_password s) as [p|];
      cbn [map omap list_omap app fst snd]; by rewrite !split_once_equals.
  - by destruct s.
  - unfold parameters, free_of in *. apply Forall_map, Forall_app. split.
    + repeat (apply Forall_cons; split); cbn [fst snd]; rewrite ?str_all_app; rewrite ?Hh, ?Hu, ?Hd; try done.
      pose proof (nat_to_string_free " " _ eq_refl Hport) as Hn. unfold free_of in Hn. by rewrite Hn.
    + destruct (ps_password s) as [p|]; [|constructor]. apply Forall_singleton.
      cbn [fst snd]. rewrite !str_all_app, (Hp p eq_refl). reflexivity.
Qed.

Definition demo_settings (password : string) : PostgresqlProbeSettings :=
  {| ps_host := "db.shop.svc.cluster.local"; ps_port := 5432; ps_user := "monitor";
     ps_password := Some password; ps_database := "shop"; ps_sslmode := "disable";
     ps_sslrootcert := None |}.

Lemma connection_string_roundtrip_witness :
  read_parameters (connection_string (demo_settings "s3cret")) = parameters (demo_settings "s3cret").
Proof.
  apply connection_string_roundtrip; [done|]. split_and!; [reflexivity..|].
  intros p Hp. injection Hp as <-. reflexivity.
Defined.

(** A password with a space changes the parameters: the client is told to
    connect to another host as well. *)
Example password_adds_host :
  read_parameters (connection_string (demo_settings "s3cret host=elsewhere")) =
  [("host", "db.shop.svc.cluster.local"); ("port", "5432"); ("user", "monitor"); ("dbname", "shop");
   ("password", "s3cret"); ("host", "elsewhere")].
Proof. reflexivity. Qed.
