(* ===== verification/Postgresql.v ===== *)
(** * The PostgreSQL monitoring plugin (plugins/mod.rs)

    What the allowed namespaces hold of a database, the probe of the service if
    there is exactly one clear candidate, and the block that is built of both:
    status, summary, details, evidence and missing data. *)
From S2P Require Import Prelude RustStr Text Utf8 Effects Config Kube Model Inventory Tech Cluster Network Posture Monitoring PgMatch PgProbe.
Local Open Scope Z_scope.

Record PostgresqlMonitoringPlugin := {
  pm_enabled : bool; pm_namespaces : list string; pm_schema_version : Z; pm_generated_at_ms : Z;
  pm_status : string; pm_summary : string; pm_detail : list PostgresqlMonitoringDetailItem;
  pm_evidence : list PostgresqlMonitoringEvidenceItem;
  pm_missing_data : list PostgresqlMonitoringMissingDataItem }.

Definition detail_item (title value : string) : PostgresqlMonitoringDetailItem :=
  {| dt_title := title; dt_value := value |}.
Definition evidence_item (title value : string) : PostgresqlMonitoringEvidenceItem :=
  {| ev_title := title; ev_value := value |}.
Definition missing_item (title value : string) : PostgresqlMonitoringMissingDataItem :=
  {| md_title := title; md_value := value |}.

Definition count {A} (l : list A) : string := nat_to_string (Z.of_nat (length l)).
Definition slash (namespace name : string) : string := namespace +s+ "/" +s+ name.
Definition or_unknown (o : option string) : string := unwrap_or "unknown" o.

(** ** Discovery *)

Record Discovery := {
  allow : list string;
  filtered_deployments : list WorkloadRef;
  filtered_statefulsets : list WorkloadRef;
  filtered_daemonsets : list WorkloadRef;
  filtered_pods : list PodInfo;
  filtered_services : list ServiceInfo;
  filtered_pvcs : list PersistentVolumeClaimInfo;
  filtered_events : list EventInfo }.

Definition postgresql_workloads (items : list WorkloadRef) (allow : list string) : list WorkloadRef :=
  List.filter (fun w => matches_postgresql_name (Cluster.wr_name w)) (filter_workloads items allow).

Definition discover (allow : list string) (workloads : Workloads) (pods : list PodInfo)
    (network : NetworkInventory) (storage : StorageInventory) (events : list EventInfo) : Discovery :=
  {| allow := allow;
     filtered_deployments := postgresql_workloads (wl_deployments workloads) allow;
     filtered_statefulsets := postgresql_workloads (wl_statefulsets workloads) allow;
     filtered_daemonsets := postgresql_workloads (wl_daemonsets workloads) allow;
     filtered_pods := List.filter matches_postgresql_pod (in_namespaces allow pinf_namespace pods);
     filtered_services := List.filter matches_postgresql_service
       (in_namespaces allow svi_namespace (net_services network));
     filtered_pvcs := List.filter matches_postgresql_pvc
       (in_namespaces allow ci_pvc_namespace (persistent_volume_claims storage));
     filtered_events := List.filter matches_postgresql_event (in_namespaces allow ei_namespace events) |}.

Section block.
Context (d : Discovery).

Definition filtered_workloads : list WorkloadRef :=
  filtered_deployments d ++ filtered_statefulsets d ++ filtered_daemonsets d.
Definition running (pod : PodInfo) : bool := bool_decide (pinf_phase pod = Some "Running").
Definition ready_pods : list PodInfo := List.filter running (filtered_pods d).
Definition service_ports : list ServicePortInfo :=
  List.filter on_5432 (concat (map svi_ports (filtered_services d))).
Definition clear_candidates : list ServiceInfo :=
  List.filter is_clear_postgresql_service (filtered_services d).
Definition weak_candidates : list ServiceInfo :=
  List.filter (fun s => matches_postgresql_service s && negb (is_clear_postgresql_service s))
    (filtered_services d).

Definition probe_note : option string :=
  match clear_candidates with
  | [_] => None
  | [] => if is_empty (filtered_services d) then None
          else Some "Service did not clearly match PostgreSQL heuristics; live probe skipped"
  | _ => Some "Multiple services matched PostgreSQL heuristics; live probe skipped"
  end.

(** The result of the probe, if one was made. *)
Context (probe_result : option PostgresqlProbeResult).

Definition probe_connected : bool :=
  match probe_result with Some (Connected _ _ _) => true | _ => false end.
Definition probe_failed : bool :=
  match probe_result with Some (Failed _ _ _) => true | _ => false end.

Definition plugin_status : string :=
  let clear := length clear_candidates in
  let status :=
    if (1 <? clear)%nat then "unknown"
    else if (clear =? 1)%nat then
      if negb (is_empty ready_pods) && negb (is_empty service_ports) && negb (is_empty (filtered_pvcs d))
      then if probe_connected then "healthy" else "warning"
      else "warning"
    else if negb (is_empty (filtered_services d)) || negb (is_empty filtered_workloads)
            || negb (is_empty (filtered_pods d)) || negb (is_empty (filtered_pvcs d)) then "warning"
    else if is_empty (filtered_events d) then "critical" else "unknown" in
  if probe_failed && String.eqb status "healthy" then "warning" else status.

Definition plugin_summary : string :=
  let status := plugin_status in
  let found := "PostgreSQL workload found in " +s+ count (allow d) +s+ " namespace(s) with "
               +s+ count ready_pods +s+ " running pod(s)" in
  match probe_result with
  | Some (Connected _ _ latency_ms) =>
      if String.eqb status "healthy"
      then found +s+ "; live SELECT 1 succeeded in " +s+ nat_to_string latency_ms +s+ " ms"
      else "PostgreSQL workload found, live SELECT 1 succeeded in " +s+ nat_to_string latency_ms
           +s+ " ms, but one or more signals are incomplete"
  | Some (Failed _ _ classification) =>
      "PostgreSQL workload found, but live SELECT 1 " +s+ classification
  | None =>
      if String.eqb status "healthy" then found
      else if String.eqb status "warning"
      then "PostgreSQL workload found, but one or more signals are incomplete"
      else if String.eqb status "unknown"
      then "PostgreSQL-related activity was seen, but the workload could not be classified confidently"
      else "No PostgreSQL workload found in the configured namespaces"
  end.

(** What is said of a probe that was made. *)
Definition probe_text : option string :=
  match probe_result with
  | Some (Connected host port latency_ms) =>
      Some ("SELECT 1 succeeded on " +s+ host +s+ ":" +s+ nat_to_string port +s+ " in "
            +s+ nat_to_string latency_ms +s+ " ms")
  | Some (Failed host port classification) =>
      Some ("SELECT 1 " +s+ classification +s+ " on " +s+ host +s+ ":" +s+ nat_to_string port)
  | None => None
  end.

Definition optional {A B} (f : A -> B) (o : option A) : list B :=
  match o with Some x => [f x] | None => [] end.
Definition when {A} (b : bool) (x : A) : list A := if b then [x] else [].

Definition nothing_discovered : bool :=
  is_empty filtered_workloads && is_empty (filtered_pods d) && is_empty (filtered_services d)
  && is_empty (filtered_pvcs d).

Definition plugin_detail : list PostgresqlMonitoringDetailItem :=
  [detail_item "namespaces" (join ", " (allow d));
   detail_item "matched workloads" (count filtered_workloads);
   detail_item "matched pods" (count (filtered_pods d));
   detail_item "running pods" (count ready_pods);
   detail_item "matched services" (count (filtered_services d));
   detail_item "clear services" (count clear_candidates);
   detail_item "weak services" (count weak_candidates);
   detail_item "service ports on 5432" (count service_ports);
   detail_item "matched pvcs" (count (filtered_pvcs d))]
  ++ optional (detail_item "live probe") probe_note
  ++ optional (detail_item "live probe") probe_text
  ++ when nothing_discovered (detail_item "classification" plugin_status).

(** *** Evidence *)

Definition workload_evidence (title kind : string) (w : WorkloadRef) : PostgresqlMonitoringEvidenceItem :=
  evidence_item title (kind +s+ " " +s+ slash (Cluster.wr_namespace w) (Cluster.wr_name w) +s+ " match=name").

Definition pod_evidence (pod : PodInfo) : PostgresqlMonitoringEvidenceItem :=
  let image := unwrap_or "unknown" (cti_image <$> head (pinf_containers pod)) in
  let owner := match pinf_owner_kind pod, pinf_owner_name pod with
    | Some kind, Some name => "owner=" +s+ kind +s+ " name=" +s+ name
    | Some kind, None => "owner=" +s+ kind
    | None, Some name => "name=" +s+ name
    | None, None => "owner=unknown"
    end in
  evidence_item "pod" (slash (pinf_namespace pod) (pinf_name pod) +s+ " " +s+ owner +s+ " phase="
    +s+ or_unknown (pinf_phase pod) +s+ " image=" +s+ image).

Definition service_evidence (strength : string) (s : ServiceInfo) : PostgresqlMonitoringEvidenceItem :=
  let ports := join "," (map (fun p => int_to_string (spi_port p)) (svi_ports s)) in
  evidence_item "service" (strength +s+ " " +s+ slash (svi_namespace s) (svi_name s) +s+ " ports="
    +s+ ports +s+ " selector=" +s+ count (svi_selector s)).

Definition pvc_evidence (pvc : PersistentVolumeClaimInfo) : PostgresqlMonitoringEvidenceItem :=
  evidence_item "pvc" (slash (ci_pvc_namespace pvc) (ci_pvc_name pvc) +s+ " match="
    +s+ pvc_match_reason pvc +s+ " storage_class=" +s+ or_unknown (ci_pvc_storage_class pvc)
    +s+ " volume=" +s+ or_unknown (ci_pvc_volume_name pvc)).

Definition event_evidence (event : EventInfo) : PostgresqlMonitoringEvidenceItem :=
  evidence_item "event" (slash (ei_namespace event) (ei_name event) +s+ " reason="
    +s+ or_unknown (ei_reason event) +s+ " message=" +s+ or_unknown (message_text event)).

Definition plugin_evidence : list PostgresqlMonitoringEvidenceItem :=
  map (workload_evidence "workload_name" "deployment") (filtered_deployments d)
  ++ map (workload_evidence "workload_owner" "statefulset") (filtered_statefulsets d)
  ++ map (workload_evidence "workload_name" "daemonset") (filtered_daemonsets d)
  ++ map pod_evidence (filtered_pods d)
  ++ map (service_evidence "clear") clear_candidates
  ++ map (service_evidence "weak") weak_candidates
  ++ map pvc_evidence (filtered_pvcs d)
  ++ map event_evidence (filtered_events d)
  ++ optional (evidence_item "probe") probe_text.

(** *** Missing data *)

Definition plugin_missing_data : list PostgresqlMonitoringMissingDataItem :=
  optional (missing_item "live probe") probe_note
  ++ (if probe_failed then optional (missing_item "live probe") probe_text else [])
  ++ when (is_empty filtered_workloads) (missing_item "workload discovery"
       "No PostgreSQL-like workload name was found in the configured namespaces")
  ++ when (is_empty (filtered_pods d)) (missing_item "pods"
       "No pod matched the PostgreSQL discovery heuristics")
  ++ when (is_empty (filtered_services d)) (missing_item "service"
       "No service matched the PostgreSQL discovery heuristics")
  ++ when (is_empty (filtered_pvcs d)) (missing_item "persistent volume claims"
       "No PVC matched the PostgreSQL discovery heuristics")
  ++ when (is_empty (filtered_events d)) (missing_item "events"
       "No PostgreSQL-related warning events were observed in the configured namespaces").
End block.

(** ** The block *)

Definition build_postgresql_monitoring_with_probe (cfg : Config) (workloads : Workloads)
    (pods : list PodInfo) (network : NetworkInventory) (storage : StorageInventory)
    (events : list EventInfo) (probe_fn : ServiceInfo -> kprog PostgresqlProbeResult)
    : kprog (option PostgresqlMonitoringPlugin) :=
  if negb (postgresql_monitoring_enabled cfg) then mret None else
  if is_empty (postgresql_monitoring_namespaces cfg) then mret None else
  let d := discover (postgresql_monitoring_namespaces cfg) workloads pods network storage events in
  probe_result ← (match clear_candidates d with
                  | [service] => r ← probe_fn service; mret (Some r)
                  | _ => mret None
                  end : kprog (option PostgresqlProbeResult));
  now ← call NowMs;
  mret (Some {| pm_enabled := true; pm_namespaces := postgresql_monitoring_namespaces cfg;
                pm_schema_version := 1; pm_generated_at_ms := now;
                pm_status := plugin_status d probe_result;
                pm_summary := plugin_summary d probe_result;
                pm_detail := plugin_detail d probe_result;
                pm_evidence := plugin_evidence d probe_result;
                pm_missing_data := plugin_missing_data d probe_result |}).

Definition build_postgresql_monitoring `{NativeTls} (client : bool) (cfg : Config)
    (workloads : Workloads) (pods : list PodInfo) (network : NetworkInventory)
    (storage : StorageInventory) (events : list EventInfo)
    : kprog (option PostgresqlMonitoringPlugin) :=
  build_postgresql_monitoring_with_probe cfg workloads pods network storage events
    (probe_postgresql_service client cfg).

(** ** What the block says *)

Lemma is_empty_false {A} (l : list A) : is_empty l = false <-> l <> [].
Proof. by destruct l. Qed.
Lemma not_empty {A} (l : list A) : negb (is_empty l) = true <-> l <> [].
Proof. by destruct l. Qed.
Lemma when_nil {A} b (x : A) : when b x = [] <-> b = false.
Proof. by destruct b. Qed.

(** The list of [when (is_empty l) item]s is empty when no list is. *)
Lemma when_empty_nil {A B} (l : list A) (x : B) : when (is_empty l) x = [] <-> l <> [].
Proof. by destruct l. Qed.

Section status.
Context (d : Discovery) (probe_result : option PostgresqlProbeResult).

(** A clear candidate has a port, so the port count adds nothing. *)
Lemma clear_has_port service :
  In service (clear_candidates d) -> exists port, In port (service_ports d).
Proof using Type.
  unfold clear_candidates, service_ports. rewrite filter_In.
  intros [Hin [_ (port & Hp & H)%existsb_exists]%andb_true_iff].
  exists port. rewrite filter_In, in_concat. split; [|done].
  exists (svi_ports service). split; [by apply in_map|done].
Qed.

Lemma one_clear : (length (clear_candidates d) =? 1)%nat = true <-> exists s, clear_candidates d = [s].
Proof using Type.
  rewrite Nat.eqb_eq. destruct (clear_candidates d) as [|s [|s' l]]; simpl; naive_solver.
Qed.

(** Nothing of a database was found in the namespaces. *)
Definition nothing_found : Prop :=
  filtered_workloads d = [] /\ filtered_pods d = [] /\ filtered_services d = [] /\ filtered_pvcs d = [].

Lemma nothing_found_spec :
  negb (is_empty (filtered_services d)) || negb (is_empty (filtered_workloads d))
  || negb (is_empty (filtered_pods d)) || negb (is_empty (filtered_pvcs d)) = false <-> nothing_found.
Proof using Type.
  unfold nothing_found. rewrite !orb_false_iff, !negb_false_iff, !is_empty_nil. naive_solver.
Qed.

Lemma nothing_found_clear : nothing_found -> clear_candidates d = [].
Proof using Type. unfold clear_candidates. by intros (_ & _ & -> & _). Qed.

(** The conditions of the four states. *)
Definition is_healthy : Prop :=
  (exists s, clear_candidates d = [s]) /\ (exists pod, In pod (ready_pods d)) /\
  filtered_pvcs d <> [] /\ probe_connected probe_result = true.
Definition is_critical : Prop := nothing_found /\ filtered_events d = [].
Definition is_ambiguous : Prop :=
  (1 < length (clear_candidates d))%nat \/ (nothing_found /\ filtered_events d <> []).

Lemma plugin_status_cases :
  (plugin_status d probe_result = "healthy" /\ is_healthy) \/
  (plugin_status d probe_result = "critical" /\ is_critical) \/
  (plugin_status d probe_result = "unknown" /\ is_ambiguous) \/
  (plugin_status d probe_result = "warning" /\ ~ is_healthy /\ ~ is_critical /\ ~ is_ambiguous).
Proof using Type.
  unfold plugin_status, is_healthy, is_critical, is_ambiguous.
  destruct (1 <? length (clear_candidates d))%nat eqn:H1.
  { rewrite andb_false_r. apply Nat.ltb_lt in H1. right; right; left. auto. }
  apply Nat.ltb_ge in H1.
  destruct (length (clear_candidates d) =? 1)%nat eqn:H2.
  - pose proof (proj1 one_clear H2) as [s Hs].
    assert (Hports : is_empty (service_ports d) = false).
    { destruct (clear_has_port s) as [p Hp]; [rewrite Hs; by left|].
      by destruct (service_ports d). }
    assert (Hf : ~ nothing_found) by (intros Hn%nothing_found_clear; congruence).
    rewrite Hports. destruct (is_empty (ready_pods d)) eqn:Hr; simpl.
    { rewrite andb_false_r. do 3 right. split_and!; [done| |naive_solver|].
      - apply is_empty_nil in Hr. rewrite Hr. naive_solver.
      - intros [?|[? _]]; [lia|done]. }
    apply is_empty_false in Hr. destruct (is_empty (filtered_pvcs d)) eqn:Hv; simpl.
    { rewrite andb_false_r. apply is_empty_nil in Hv. do 3 right. split_and!; [done|naive_solver|naive_solver|].
      intros [?|[? _]]; [lia|done]. }
    apply is_empty_false in Hv. destruct (probe_connected probe_result) eqn:Hc.
    + left. destruct (probe_failed probe_result) eqn:Hpf.
      { unfold probe_connected, probe_failed in *. by repeat case_match. }
      split; [done|]. split_and!; eauto. destruct (ready_pods d) as [|pod l]; [done|].
      exists pod. by left.
    + rewrite andb_false_r. do 3 right. split_and!; [done|naive_solver|naive_solver|].
      intros [?|[? _]]; [lia|done].
  - assert (Hno : ~ exists s, clear_candidates d = [s]) by (intros H%one_clear; congruence).
    destruct (_ || _ || _ || _) eqn:Hn; [|apply nothing_found_spec in Hn].
    + rewrite andb_false_r. do 3 right.
      assert (~ nothing_found) by (intros Hf%nothing_found_spec; congruence).
      split_and!; [done|naive_solver|naive_solver|]. intros [?|[? _]]; [lia|done].
    + destruct (is_empty (filtered_events d)) eqn:He; rewrite andb_false_r.
      * apply is_empty_nil in He. right; left. auto.
      * apply is_empty_false in He. right; right; left. auto.
Qed.

(** Nothing is missing exactly when every kind of object was found and the one
    clear service answered. *)
Definition complete : Prop :=
  (exists s, clear_candidates d = [s]) /\ probe_connected probe_result = true /\
  filtered_workloads d <> [] /\ filtered_pods d <> [] /\ filtered_pvcs d <> [] /\ filtered_events d <> [].

(** A probe was made exactly when there is one clear candidate. *)
Definition probed : Prop := is_Some probe_result <-> exists s, clear_candidates d = [s].

Lemma missing_data_nil : probed -> plugin_missing_data d probe_result = [] <-> complete.
Proof using Type.
  intros Hp. unfold plugin_missing_data, complete. rewrite !app_nil, !when_empty_nil.
  unfold probe_note, probed in *. destruct (clear_candidates d) as [|s [|s' l]] eqn:Hc.
  - destruct (is_empty (filtered_services d)) eqn:Hs; simpl.
    + apply is_empty_nil in Hs. naive_solver.
    + naive_solver.
  - assert (Hserv : filtered_services d <> []).
    { unfold clear_candidates in Hc. by destruct (filtered_services d). }
    destruct Hp as [_ [r ->]]; [by eexists|]. destruct r; simpl; naive_solver.
  - simpl. naive_solver.
Qed.
End status.

(** The only evidence with the title probe is the text of the probe. *)
Lemma probe_evidence d r text :
  In (evidence_item "probe" text) (plugin_evidence d r) -> probe_text r = Some text.
Proof.
  unfold plugin_evidence. rewrite !in_app_iff, !in_map_iff.
  intros H. repeat (destruct H as [(x & Hx & _)|H]; [discriminate Hx|]).
  destruct (probe_text r) as [x|]; [|done]. destruct H as [[= ->]|[]]. done.
Qed.

Section built.
Context (cfg : Config) (workloads : Workloads) (pods : list PodInfo) (network : NetworkInventory)
        (storage : StorageInventory) (events : list EventInfo)
        (probe_fn : ServiceInfo -> kprog PostgresqlProbeResult).

Let d := discover (postgresql_monitoring_namespaces cfg) workloads pods network storage events.
Let build := build_postgresql_monitoring_with_probe cfg workloads pods network storage events probe_fn.

(** The trace of a block: the probe of the only clear candidate, then the clock. *)
Record built (t : list kevent) (b : PostgresqlMonitoringPlugin) (tp : list kevent)
    (r : option PostgresqlProbeResult) (now : Z) : Prop := {
  built_trace : t = tp ++ [ev NowMs now];
  built_probe : match r with
    | Some r => exists s, clear_candidates d = [s] /\ runs (probe_fn s) tp r
    | None => tp = [] /\ ~ exists s, clear_candidates d = [s]
    end;
  built_status : pm_status b = plugin_status d r;
  built_summary : pm_summary b = plugin_summary d r;
  built_detail : pm_detail b = plugin_detail d r;
  built_evidence : pm_evidence b = plugin_evidence d r;
  built_missing : pm_missing_data b = plugin_missing_data d r;
  built_time : pm_generated_at_ms b = now }.

Lemma build_runs t o :
  runs build t o ->
  match o with
  | None => t = [] /\ (postgresql_monitoring_enabled cfg = false \/ postgresql_monitoring_namespaces cfg = [])
  | Some b => postgresql_monitoring_enabled cfg = true /\ postgresql_monitoring_namespaces cfg <> [] /\
      exists tp r now, built t b tp r now
  end.
Proof using Type.
  unfold build, build_postgresql_monitoring_with_probe.
  destruct (postgresql_monitoring_enabled cfg); cbn [negb]; [|intros [-> ->]; auto].
  destruct (is_empty (postgresql_monitoring_namespaces cfg)) eqn:He;
    [apply is_empty_nil in He; intros [-> ->]; auto|apply is_empty_false in He].
  fold d. intros Hr. run_bind Hr as r tp t2 Hp. run_call Hr as now t3. destruct Hr as [-> ->].
  split_and!; [done..|]. exists tp, r, now. split; try done.
  destruct (clear_candidates d) as [|s [|s' l]].
  - destruct Hp as [-> ->]. split; [done|naive_solver].
  - run_bind Hp as x t4 t5 Hx. destruct Hp as [-> ->]. rewrite app_nil_r. eauto.
  - destruct Hp as [-> ->]. split; [done|naive_solver].
Qed.

Lemma built_probed t b tp r now : built t b tp r now -> probed d r.
Proof using Type.
  intros [_ Hp _ _ _ _ _ _]. unfold probed. destruct r as [r|].
  - destruct Hp as (s & Hs & _). split; [eauto|by eexists].
  - split; [by intros [? ?]|]. tauto.
Qed.
End built.

(** C27: the status of the block: healthy exactly with one clear service, a
    running pod, a claim and a query that succeeded; critical exactly when
    nothing was found, not even an event; unknown exactly with several clear
    services or with events alone; warning otherwise.  Data is missing unless
    the one clear service answered and there are workloads, pods, claims and
    events. *)
Theorem postgresql_status_exact cfg workloads pods network storage events probe_fn t b :
  runs (build_postgresql_monitoring_with_probe cfg workloads pods network storage events probe_fn) t (Some b) ->
  let d := discover (postgresql_monitoring_namespaces cfg) workloads pods network storage events in
  exists tp r now, t = tp ++ [ev NowMs now] /\
    match r with
    | Some r => exists s, clear_candidates d = [s] /\ runs (probe_fn s) tp r
    | None => tp = [] /\ ~ exists s, clear_candidates d = [s]
    end /\
    (pm_status b = "healthy" <-> is_healthy d r) /\
    (pm_status b = "critical" <-> is_critical d) /\
    (pm_status b = "unknown" <-> is_ambiguous d) /\
    In (pm_status b) ["healthy"; "critical"; "unknown"; "warning"] /\
    (pm_missing_data b = [] <-> complete d r).
Proof.
  intros (_ & _ & tp & r & now & Hb)%build_runs. cbv zeta.
  pose proof (built_probed _ _ _ _ _ _ _ _ _ _ _ _ Hb) as Hprobed.
  destruct Hb as [-> Hp Hs _ _ _ Hm _]. rewrite Hs, Hm. exists tp, r, now.
  split; [done|]. split; [done|]. rewrite missing_data_nil by done.
  set (d := discover _ _ _ _ _ _) in *.
  assert (Hhc : is_healthy d r -> ~ is_critical d).
  { intros ((s & Hc) & _) (Hn%nothing_found_clear & _). congruence. }
  assert (Hha : is_healthy d r -> ~ is_ambiguous d).
  { intros ((s & Hc) & _) [Hl|[Hn%nothing_found_clear _]]; [rewrite Hc in Hl; simpl in Hl; lia|congruence]. }
  assert (Hca : is_critical d -> ~ is_ambiguous d).
  { intros [Hn He] [Hl|[_ He']]; [|done]. rewrite (nothing_found_clear _ Hn) in Hl. simpl in Hl. lia. }
  destruct (plugin_status_cases d r) as [[-> H]|[[-> H]|[[-> H]|[-> (H1 & H2 & H3)]]]];
    split_and!; try (simpl; tauto); split; intros; (done || tauto).
Qed.

(** The reference for the choice of a service: the clear ones in the allowed
    namespaces. *)
Definition probe_candidates (namespaces : list string) (network : NetworkInventory) : list ServiceInfo :=
  List.filter (fun s => bool_decide (svi_namespace s ∈ namespaces) && is_clear_postgresql_service s)
    (net_services network).

Lemma filter_filter {A} (p q : A -> bool) l : List.filter p (List.filter q l) = List.filter (fun x => q x && p x) l.
Proof. induction l as [|x l IH]; [done|]. simpl. destruct (q x); simpl; [|done]. by rewrite IH. Qed.

Lemma clear_candidates_spec namespaces workloads pods network storage events :
  clear_candidates (discover namespaces workloads pods network storage events)
  = probe_candidates namespaces network.
Proof.
  unfold clear_candidates, probe_candidates, in_namespaces. cbn [filtered_services discover].
  unfold in_namespaces. rewrite !filter_filter. apply List.filter_ext. intros s.
  f_equal; [apply eq_true_iff_eq; rewrite bool_decide_eq_true, list_elem_of_In; apply allowed_in|].
  destruct (is_clear_postgresql_service s) eqn:Hc; [|apply andb_false_r].
  by rewrite (clear_service_matches _ Hc).
Qed.

