(* ===== verification/Diagnosis.v ===== *)
(** * diagnose_postgresql (plugins/mod.rs)

    The diagnosis of one namespace on request: the collected inventory is cut
    down to the namespace and the hints of the request, the monitoring plugin
    is run on what is left, and its block becomes a report.  This discharges
    [Actions.Diagnostics], what the executor relies on. *)
From S2P Require Import Prelude RustStr Text Utf8 Unicode Effects Config Env Kube Model Access Actions Inventory Cluster Network Posture Dependencies Monitoring Collect Gather PgMatch PgProbe Postgresql.
Local Open Scope Z_scope.

(** ** Hints *)

Definition postgres_hint_matches (value hint : string) : bool :=
  str_contains (to_lowercase hint) (to_lowercase value).
Definition postgres_pod_matches (pod : PodInfo) (hint : string) : bool :=
  postgres_hint_matches (pinf_name pod) hint
  || opt_matches (fun v => postgres_hint_matches v hint) (pinf_owner_name pod)
  || opt_matches (fun v => postgres_hint_matches v hint) (pinf_owner_kind pod)
  || existsb (fun c => postgres_hint_matches (cti_name c) hint || postgres_hint_matches (cti_image c) hint)
       (pinf_containers pod).
Definition postgres_event_matches_hint (event : EventInfo) (hint : string) : bool :=
  postgres_hint_matches (ei_name event) hint
  || opt_matches (fun v => postgres_hint_matches v hint) (ei_reason event)
  || opt_matches (fun v => postgres_hint_matches v hint) (message_text event)
  || opt_matches (fun v => postgres_hint_matches v hint) (io_name (ei_involved_object event)).

(** [hint.map(p).unwrap_or(true)]. *)
Definition hinted (p : string -> bool) (hint : option string) : bool := unwrap_or true (p <$> hint).

(** ** The scope of a diagnosis *)

Record PostgresqlDiagnosticScope := {
  sc_workloads : Workloads; sc_pods : list PodInfo; sc_network : NetworkInventory;
  sc_storage : StorageInventory; sc_events : list EventInfo;
  hint_missing_data : list PostgresqlMonitoringMissingDataItem;
  hint_findings : list PostgresqlDiagnosticFinding }.

Definition finding (title severity description evidence recommendation : string)
    : PostgresqlDiagnosticFinding :=
  {| fd_title := title; fd_severity := severity; fd_description := description;
     fd_evidence := evidence; fd_recommendation := recommendation |}.

Definition service_hint_text (service_name namespace : string) : string :=
  "no Service named `" +s+ service_name +s+ "` matched namespace `" +s+ namespace +s+ "`".
Definition pod_hint_text (pod_selector namespace : string) : string :=
  "no Pod or workload name matched `" +s+ pod_selector +s+ "` in namespace `" +s+ namespace +s+ "`".

Definition in_namespace {A} (namespace : string) (ns : A -> string) (l : list A) : list A :=
  List.filter (fun x => String.eqb (ns x) namespace) l.

Definition scope_workloads (namespace : string) (pod_selector : option string)
    (l : list WorkloadRef) : list WorkloadRef :=
  List.filter (fun w => hinted (postgres_hint_matches (Cluster.wr_name w)) pod_selector)
    (in_namespace namespace Cluster.wr_namespace l).
Definition scope_pods (namespace : string) (pod_selector : option string) (l : list PodInfo)
    : list PodInfo :=
  List.filter (fun p => hinted (postgres_pod_matches p) pod_selector)
    (in_namespace namespace pinf_namespace l).
Definition scope_events (namespace : string) (pod_selector : option string) (l : list EventInfo)
    : list EventInfo :=
  List.filter (fun e => hinted (postgres_event_matches_hint e) pod_selector)
    (in_namespace namespace ei_namespace l).
Definition scope_storage (namespace : string) (s : StorageInventory) : StorageInventory :=
  {| storage_classes := storage_classes s; persistent_volumes := persistent_volumes s;
     persistent_volume_claims := in_namespace namespace ci_pvc_namespace (persistent_volume_claims s);
     volume_snapshot_classes := volume_snapshot_classes s; volume_snapshots := volume_snapshots s |}.

Definition scope_postgresql_diagnostic (namespace : string) (spec : PostgresqlDiagnosticSpec)
    (workloads : Workloads) (pods : list PodInfo) (network : NetworkInventory)
    (storage : StorageInventory) (events : list EventInfo) : PostgresqlDiagnosticScope :=
  let service_name := override (pg_service_name spec) in
  let pod_selector := override (pg_pod_selector spec) in
  let pods := scope_pods namespace pod_selector pods in
  let scope services missing findings :=
    {| sc_workloads :=
         {| wl_deployments := scope_workloads namespace pod_selector (wl_deployments workloads);
            wl_statefulsets := scope_workloads namespace pod_selector (wl_statefulsets workloads);
            wl_daemonsets := scope_workloads namespace pod_selector (wl_daemonsets workloads) |};
       sc_pods := pods;
       sc_network := {| net_services := services;
                        net_ingresses := in_namespace namespace igi_namespace (net_ingresses network) |};
       sc_storage := scope_storage namespace storage;
       sc_events := scope_events namespace pod_selector events;
       hint_missing_data := missing; hint_findings := findings |} in
  let services := in_namespace namespace svi_namespace (net_services network) in
  let resolved services :=
    let missing := match pod_selector with
      | Some hint => if is_empty pods
                     then [missing_item "pod selector hint" (pod_hint_text hint namespace)] else []
      | None => []
      end in
    scope services missing
      (optional (fun item => finding "Discovery hint not resolved" "unknown" (md_value item)
         "discovery hint filtered out all candidate pods/workloads"
         "double-check the pod_selector hint or omit it to use heuristic discovery") (head missing)) in
  match service_name with
  | Some service_name =>
      let matched := List.filter (fun s => String.eqb (svi_name s) service_name) services in
      if is_empty matched then
        scope [] [missing_item "service hint" (service_hint_text service_name namespace)]
          [finding "Service hint not resolved" "unknown" (service_hint_text service_name namespace)
             "service hint did not match any namespace-local Service"
             "double-check the service_name hint or omit it to use heuristic discovery"]
      else resolved matched
  | None => resolved services
  end.

(** ** Reports *)

Definition diagnostic_severity (status : string) : string :=
  match status with
  | "healthy" => "info" | "warning" => "warning" | "critical" => "critical" | _ => "unknown"
  end.
Definition diagnostic_recommendation (status : string) : string :=
  match status with
  | "healthy" => "continue monitoring and re-run if symptoms change"
  | "warning" => "review the warnings and missing data, then re-run the diagnosis"
  | "critical" => "treat this as an active incident and inspect the identified evidence"
  | _ => "resolve the missing data or discovery issues, then re-run the diagnosis"
  end.
Definition diagnostic_recommendations (status : string)
    (findings : list PostgresqlDiagnosticFinding) : list string :=
  let recommendations := [diagnostic_recommendation status]
    ++ when (existsb (fun f => String.eqb (fd_severity f) "unknown") findings)
         "double-check discovery hints and permissions" in
  dedup (sort_strings recommendations).

Section reports.
Context (namespace : string).

Definition diagnostic_report_error (message : string)
    (hint_missing_data : list PostgresqlMonitoringMissingDataItem)
    (hint_findings : list PostgresqlDiagnosticFinding) : PostgresqlDiagnosticReport :=
  {| rep_namespace := namespace; rep_status := "unknown"; rep_summary := message;
     rep_findings := hint_findings ++
       [finding "PostgreSQL diagnosis failed" "unknown" message message
          "retry after the underlying collection or configuration issue is resolved"];
     rep_evidence := []; rep_missing_data := hint_missing_data;
     rep_recommended_actions :=
       ["retry after resolving the underlying collection or configuration issue"] |}.

Definition diagnostic_report_unknown (summary : string)
    (hint_missing_data : list PostgresqlMonitoringMissingDataItem)
    (hint_findings : list PostgresqlDiagnosticFinding) : PostgresqlDiagnosticReport :=
  {| rep_namespace := namespace; rep_status := "unknown"; rep_summary := summary;
     rep_findings := hint_findings ++
       [finding "PostgreSQL diagnosis" "unknown" summary summary
          "review the missing data and discovery hints, then retry"];
     rep_evidence := []; rep_missing_data := hint_missing_data;
     rep_recommended_actions := ["review the missing data and discovery hints, then retry"] |}.

Definition diagnostic_report_from_plugin (plugin : PostgresqlMonitoringPlugin)
    (hint_missing_data : list PostgresqlMonitoringMissingDataItem)
    (hint_findings : list PostgresqlDiagnosticFinding) : PostgresqlDiagnosticReport :=
  let missing_data := pm_missing_data plugin ++ hint_missing_data in
  let incomplete := negb (is_empty missing_data) in
  let status := if incomplete then "unknown" else pm_status plugin in
  let summary := if incomplete
    then pm_summary plugin +s+ " Discovery hints or missing data prevented a fully resolved diagnosis."
    else pm_summary plugin in
  let evidence := join "; " (map (fun item => ev_title item +s+ ": " +s+ ev_value item) (pm_evidence plugin)) in
  let about title description :=
    finding title (diagnostic_severity status) description evidence (diagnostic_recommendation status) in
  let findings := about "PostgreSQL diagnosis" summary
    :: map (fun item => about (dt_title item) (dt_value item)) (pm_detail plugin) ++ hint_findings in
  {| rep_namespace := namespace; rep_status := status; rep_summary := summary;
     rep_findings := findings; rep_evidence := pm_evidence plugin; rep_missing_data := missing_data;
     rep_recommended_actions := diagnostic_recommendations status findings |}.
End reports.

(** ** The diagnosis *)

(** The configuration that the plugin is run with. *)
Definition probe_config (cfg : Config) (namespace : string) (secret_name : option string) : Config :=
  {| hub_url := hub_url cfg; cluster_id := cluster_id cfg; api_key := api_key cfg;
     agent_version_override := agent_version_override cfg;
     collect_interval := collect_interval cfg; poll_wait := poll_wait cfg;
     actions_enabled := actions_enabled cfg;
     action_operator_enabled := action_operator_enabled cfg;
     action_operator_poll_interval := action_operator_poll_interval cfg;
     action_operator_excluded_namespaces := action_operator_excluded_namespaces cfg;
     readonly_commands_enabled := readonly_commands_enabled cfg;
     collect_secrets := collect_secrets cfg;
     collect_dependencies_tetragon := collect_dependencies_tetragon cfg;
     tetragon_endpoint_discovery_enabled := tetragon_endpoint_discovery_enabled cfg;
     tetragon_required_for_readiness := tetragon_required_for_readiness cfg;
     tetragon_grpc_address := tetragon_grpc_address cfg;
     tetragon_grpc_port := tetragon_grpc_port cfg;
     tetragon_service_namespace := tetragon_service_namespace cfg;
     tetragon_service_name := tetragon_service_name cfg; http_timeout := http_timeout cfg;
     http_debug := http_debug cfg; http_debug_bodies := http_debug_bodies cfg;
     full_debug := full_debug cfg; agent_log := agent_log cfg;
     tech_detect_process := tech_detect_process cfg; Config.pod_name := Config.pod_name cfg;
     pod_namespace := pod_namespace cfg; agent_node_name := agent_node_name cfg;
     lease_name := lease_name cfg; lease_ttl := lease_ttl cfg;
     workload_monitoring_enabled := workload_monitoring_enabled cfg;
     workload_monitoring_namespaces := workload_monitoring_namespaces cfg;
     workload_monitoring_targets := workload_monitoring_targets cfg;
     postgresql_monitoring_enabled := true; postgresql_monitoring_namespaces := [namespace];
     postgresql_monitoring_secret_name := opt_or (override secret_name) (postgresql_monitoring_secret_name cfg);
     postgresql_monitoring_host := postgresql_monitoring_host cfg;
     postgresql_monitoring_port := postgresql_monitoring_port cfg;
     postgresql_monitoring_user := postgresql_monitoring_user cfg;
     postgresql_monitoring_password := postgresql_monitoring_password cfg;
     postgresql_monitoring_database := postgresql_monitoring_database cfg;
     postgresql_monitoring_sslmode := postgresql_monitoring_sslmode cfg;
     postgresql_monitoring_sslrootcert := postgresql_monitoring_sslrootcert cfg;
     app_metrics_enabled := app_metrics_enabled cfg;
     app_metrics_discovery_enabled := app_metrics_discovery_enabled cfg;
     app_metrics_namespaces := app_metrics_namespaces cfg;
     app_metrics_allowlist := app_metrics_allowlist cfg;
     app_metrics_timeout := app_metrics_timeout cfg;
     app_metrics_max_samples := app_metrics_max_samples cfg |}.

(** What follows on the inventory that [collector::collect] returned. *)
Definition diagnose_collected `{NativeTls} (cfg : Config) (spec : PostgresqlDiagnosticSpec)
    (namespace : string) (c : Collected) : kprog PostgresqlDiagnosticReport :=
  let scope := scope_postgresql_diagnostic namespace spec (co_workloads c) (co_pods c) (co_network c)
                 (co_storage c) (co_events c) in
  let probe_cfg := probe_config cfg namespace (pg_secret_name spec) in
  plugin ← build_postgresql_monitoring true probe_cfg (sc_workloads scope) (sc_pods scope)
             (sc_network scope) (sc_storage scope) (sc_events scope);
  mret (match plugin with
        | Some plugin => diagnostic_report_from_plugin namespace plugin
            (hint_missing_data scope) (hint_findings scope)
        | None => diagnostic_report_unknown namespace "postgresql diagnosis unavailable"
            (hint_missing_data scope) (hint_findings scope)
        end).

Definition diagnose_postgresql `{NativeTls, YamlList, JsonParser} (local : Local) (cfg : Config)
    (spec : PostgresqlDiagnosticSpec) : kprog PostgresqlDiagnosticReport :=
  let namespace := trim (pg_namespace spec) in
  if str_is_empty namespace
  then mret (diagnostic_report_error namespace "namespace is required" [] []) else
  collected ← collect_inventory cfg local;
  try c := collected else err =>
    mret (diagnostic_report_error namespace ("failed to collect cluster inventory: " +s+ err) [] []) in
  diagnose_collected cfg spec namespace c.

(** ** The interface of the executor *)

Section reads.
Context `{NativeTls}.
Notation reads := (only (fun o : op => mutating o = false)).

Lemma reads_settings client cfg service port :
  reads (resolve_postgresql_probe_settings client cfg service port).
Proof using Type.
  unfold resolve_postgresql_probe_settings, load_secret_string_data. apply only_bind; [|intros; apply only_ret].
  destruct client, (postgresql_monitoring_secret_name cfg); try apply only_ret.
  apply only_bind; [|intros; apply only_ret]. apply only_bind; [by apply only_op|intros; apply only_ret].
Qed.

Lemma reads_connection s tls : reads (probe_connection s tls).
Proof using Type.
  unfold probe_connection. apply only_bind; [by apply only_op|]. intros start.
  apply only_bind; [by apply only_op|]. intros [[?|?]|]; try apply only_ret.
  apply only_bind; [by apply only_op|]. intros [[?|?]|]; try apply only_ret.
  apply only_bind; [by apply only_op|]. intros; apply only_ret.
Qed.

Lemma reads_probe client cfg service : reads (probe_postgresql_service client cfg service).
Proof using Type.
  unfold probe_postgresql_service. destruct (select_postgresql_port service); [|apply only_ret].
  apply only_bind; [apply reads_settings|]. intros s. apply only_bind; [by apply only_op|]. intros start.
  apply only_bind.
  - destruct (uses_tls s); [destruct (build_tls_connector s); [|apply only_ret]|]; apply reads_connection.
  - intros []; [|apply only_ret]. apply only_bind; [by apply only_op|]. intros; apply only_ret.
Qed.

Lemma reads_plugin client cfg workloads pods network storage events :
  reads (build_postgresql_monitoring client cfg workloads pods network storage events).
Proof using Type.
  unfold build_postgresql_monitoring, build_postgresql_monitoring_with_probe.
  repeat (case_match; [apply only_ret|]). apply only_bind.
  - destruct (clear_candidates _) as [|s [|s' l]]; try apply only_ret.
    apply only_bind; [apply reads_probe|intros; apply only_ret].
  - intros r. apply only_bind; [by apply only_op|intros; apply only_ret].
Qed.

Lemma reads_diagnosis `{YamlList, JsonParser} local cfg spec :
  reads (diagnose_postgresql local cfg spec).
Proof using Type.
  unfold diagnose_postgresql, diagnose_collected. case_match; [apply only_ret|].
  apply only_bind; [eapply only_mono; [apply only_collect|apply collecting_reads]|]. intros [c|err]; [|apply only_ret].
  apply only_bind; [apply reads_plugin|intros; apply only_ret].
Qed.
End reads.

(** The plugin is what the executor's [Diagnostics] stands for. *)
#[export] Instance plugin_diagnostics `{NativeTls, YamlList, JsonParser} (local : Local) : Diagnostics :=
  {| diagnose cfg spec := diagnose_postgresql local cfg spec;
     diagnose_reads cfg spec h := reads_diagnosis local cfg spec h |}.

(** ** What a diagnosis reports *)

Section diagnosis.
Context `{NativeTls} (c : Collected) (cfg : Config) (spec : PostgresqlDiagnosticSpec).

Definition diagnosed_namespace : string := trim (pg_namespace spec).
Definition diagnosis_scope : PostgresqlDiagnosticScope :=
  scope_postgresql_diagnostic diagnosed_namespace spec (co_workloads c) (co_pods c) (co_network c)
    (co_storage c) (co_events c).
(** What the plugin finds in the scope. *)
Definition diagnosed : Discovery :=
  discover [diagnosed_namespace] (sc_workloads diagnosis_scope) (sc_pods diagnosis_scope)
    (sc_network diagnosis_scope) (sc_storage diagnosis_scope) (sc_events diagnosis_scope).
Definition diagnosis_config : Config := probe_config cfg diagnosed_namespace (pg_secret_name spec).

Lemma diagnosis_runs t rep :
  runs (diagnose_collected cfg spec diagnosed_namespace c) t rep ->
  exists b tp r now,
    built diagnosis_config (sc_workloads diagnosis_scope) (sc_pods diagnosis_scope)
      (sc_network diagnosis_scope) (sc_storage diagnosis_scope) (sc_events diagnosis_scope)
      (probe_postgresql_service true diagnosis_config) t b tp r now /\
    rep = diagnostic_report_from_plugin diagnosed_namespace b (hint_missing_data diagnosis_scope)
            (hint_findings diagnosis_scope).
Proof using Type.
  unfold diagnose_collected. cbv zeta. intros Hr.
  run_bind Hr as plugin t1 t2 Hp. destruct Hr as [-> ->]. rewrite app_nil_r.
  apply build_runs in Hp. destruct plugin as [b|].
  - destruct Hp as (_ & _ & tp & r & now & Hb). by exists b, tp, r, now.
  - by destruct Hp as (_ & [?|?]).
Qed.

Lemma complete_status d r :
  complete d r -> plugin_status d r = (if is_empty (ready_pods d) then "warning" else "healthy").
Proof using Type.
  intros ((s & Hc) & Hconn & Hw & Hp & Hv & He).
  destruct (plugin_status_cases d r) as [[-> H1]|[[-> H1]|[[-> H1]|[-> (H1 & _ & _)]]]].
  - destruct H1 as (_ & (pod & Hpod) & _). by destruct (ready_pods d).
  - by destruct H1 as [(Hn & _) _].
  - destruct H1 as [Hl|[(Hn & _) _]]; [rewrite Hc in Hl; simpl in Hl; lia|done].
  - destruct (ready_pods d) as [|pod l] eqn:Hr; [done|]. exfalso. apply H1.
    split_and!; eauto. exists pod. rewrite Hr. by left.
Qed.

Lemma diagnosis_status t rep :
  runs (diagnose_collected cfg spec diagnosed_namespace c) t rep ->
  exists r, probe_connected r = existsb queried_ok t /\
    (rep_missing_data rep = [] <-> complete diagnosed r /\ hint_missing_data diagnosis_scope = []) /\
    rep_status rep =
      (if is_empty (rep_missing_data rep)
       then if is_empty (ready_pods diagnosed) then "warning" else "healthy" else "unknown").
Proof using Type.
  intros (b & tp & r & now & Hb & ->)%diagnosis_runs. exists r.
  pose proof (built_probed _ _ _ _ _ _ _ _ _ _ _ _ Hb) as Hprobed.
  destruct Hb as [-> Hp Hs _ _ _ Hm _].
  change (discover _ _ _ _ _ _) with diagnosed in Hp, Hs, Hm, Hprobed.
  cbn [rep_missing_data rep_status diagnostic_report_from_plugin]. rewrite Hs, Hm.
  assert (Hq : probe_connected r = existsb queried_ok (tp ++ [ev NowMs now])).
  { rewrite existsb_app. cbn. rewrite orb_false_r. destruct r as [r|]; [|by destruct Hp as [-> _]].
    destruct Hp as (s & _ & (_ & Hr)%probe_runs).
    destruct (select_postgresql_port s); [|by destruct Hr as [-> ->]].
    destruct Hr as [_ Hr], r; symmetry; tauto. }
  split_and!; [done| |].
  - by rewrite app_nil, missing_data_nil.
  - destruct (is_empty (_ ++ _)) eqn:He; [|done]. apply is_empty_nil, app_nil in He as [He _].
    apply missing_data_nil in He; [|done]. cbn [negb]. by apply complete_status.
Qed.

(** The operations that a diagnosis may perform. *)
Definition confined (o : op) : Prop :=
  match o with
  | GetOpt RSecret ns nm => ns = Some diagnosed_namespace /\
      opt_or (override (pg_secret_name spec)) (postgresql_monitoring_secret_name cfg) = Some nm
  | InstantNow | NowMs | PgConnect _ _ => True
  | PgQuery sql => sql = "SELECT 1"
  | _ => False
  end.

(** The members of [found] are those members of [l] that are in the namespace. *)
Definition within {A} (ns : A -> string) (found l : list A) : Prop :=
  forall x, In x found -> In x l /\ ns x = diagnosed_namespace.

Lemma in_namespace_in {A} namespace (ns : A -> string) l x :
  In x (in_namespace namespace ns l) <-> In x l /\ ns x = namespace.
Proof using Type. unfold in_namespace. by rewrite filter_In, String.eqb_eq. Qed.

Lemma scope_services :
  within svi_namespace (net_services (sc_network diagnosis_scope)) (net_services (co_network c)).
Proof using Type.
  intros s. unfold diagnosis_scope, scope_postgresql_diagnostic.
  destruct (override (pg_service_name spec)) as [nm|]; [case_match|]; cbn [sc_network net_services].
  - done.
  - rewrite filter_In, in_namespace_in. tauto.
  - by rewrite in_namespace_in.
Qed.

(** The parts of the scope that do not depend on the service hint. *)
Lemma scope_parts :
  let selector := override (pg_pod_selector spec) in
  sc_workloads diagnosis_scope =
    {| wl_deployments := scope_workloads diagnosed_namespace selector (wl_deployments (co_workloads c));
       wl_statefulsets := scope_workloads diagnosed_namespace selector (wl_statefulsets (co_workloads c));
       wl_daemonsets := scope_workloads diagnosed_namespace selector (wl_daemonsets (co_workloads c)) |} /\
  sc_pods diagnosis_scope = scope_pods diagnosed_namespace selector (co_pods c) /\
  sc_storage diagnosis_scope = scope_storage diagnosed_namespace (co_storage c) /\
  sc_events diagnosis_scope = scope_events diagnosed_namespace selector (co_events c).
Proof using Type.
  unfold diagnosis_scope, scope_postgresql_diagnostic.
  destruct (override (pg_service_name spec)); [|done]. by case_match.
Qed.

Lemma filtered_in {A} (p q : A -> bool) (ns : A -> string) allow l x :
  In x (List.filter p (in_namespaces allow ns (List.filter q l))) -> In x l.
Proof using Type. rewrite filter_In, in_namespaces_in, filter_In. tauto. Qed.

Lemma diagnosed_workloads :
  within Cluster.wr_namespace (filtered_workloads diagnosed) (merge_workload_refs (co_workloads c)).
Proof using Type.
  intros w. unfold filtered_workloads, diagnosed, merge_workload_refs. destruct scope_parts as (-> & _).
  cbn -[scope_workloads in_namespaces]. unfold postgresql_workloads, filter_workloads, scope_workloads.
  rewrite !in_app_iff.
  intros [Hw|[Hw|Hw]]; apply filtered_in, in_namespace_in in Hw as [? ?]; tauto.
Qed.

Lemma diagnosed_pods : within pinf_namespace (filtered_pods diagnosed) (co_pods c).
Proof using Type.
  intros p. unfold diagnosed. destruct scope_parts as (_ & -> & _).
  by intros Hin%filtered_in%in_namespace_in.
Qed.

Lemma diagnosed_events : within ei_namespace (filtered_events diagnosed) (co_events c).
Proof using Type.
  intros e. unfold diagnosed. destruct scope_parts as (_ & _ & _ & ->).
  by intros Hin%filtered_in%in_namespace_in.
Qed.

Lemma diagnosed_pvcs :
  within ci_pvc_namespace (filtered_pvcs diagnosed) (persistent_volume_claims (co_storage c)).
Proof using Type.
  intros p. unfold diagnosed. destruct scope_parts as (_ & _ & -> & _). cbn -[in_namespace in_namespaces].
  rewrite filter_In, in_namespaces_in, in_namespace_in. tauto.
Qed.

Lemma diagnosed_services : within svi_namespace (filtered_services diagnosed) (net_services (co_network c)).
Proof using Type.
  intros s. unfold diagnosed. cbn [filtered_services discover].
  rewrite filter_In, in_namespaces_in. intros [[Hin _] _]. by apply scope_services.
Qed.

(** What the evidence of a diagnosis is taken from: the members of the inventory
    that are in the namespace. *)
Record scoped : Prop := {
  scoped_workloads : within Cluster.wr_namespace (filtered_workloads diagnosed) (merge_workload_refs (co_workloads c));
  scoped_pods : within pinf_namespace (filtered_pods diagnosed) (co_pods c);
  scoped_services : within svi_namespace (filtered_services diagnosed) (net_services (co_network c));
  scoped_pvcs : within ci_pvc_namespace (filtered_pvcs diagnosed) (persistent_volume_claims (co_storage c));
  scoped_events : within ei_namespace (filtered_events diagnosed) (co_events c) }.

Lemma diagnosis_scoped : scoped.
Proof using Type.
  split; [apply diagnosed_workloads|apply diagnosed_pods|apply diagnosed_services|apply diagnosed_pvcs
    |apply diagnosed_events].
Qed.

Lemma collected_confined t rep :
  runs (diagnose_collected cfg spec diagnosed_namespace c) t rep ->
  Forall (fun e => confined (op_of e)) t /\ (length (connections t) <= 1)%nat /\
  exists r, rep_evidence rep = plugin_evidence diagnosed r.
Proof using Type.
  intros (b & tp & r & now & Hb & ->)%diagnosis_runs.
  destruct Hb as [-> Hp _ _ _ He _ _]. change (discover _ _ _ _ _ _) with diagnosed in Hp, He.
  cbn [rep_evidence diagnostic_report_from_plugin]. rewrite connections_app, app_nil_r.
  split_and!; [| |by exists r].
  - apply Forall_app. split; [|by repeat constructor].
    destruct r as [r|]; [|by destruct Hp as [-> _]]. destruct Hp as (s & Hs & (Hops & _)%probe_runs).
    assert (Hsn : svi_namespace s = diagnosed_namespace).
    { apply diagnosed_services. assert (In s (clear_candidates diagnosed)) as [? _]%filter_In by (rewrite Hs; by left). done. }
    eapply Forall_impl; [exact Hops|]. intros [o x]; cbn [op_of projT1]. unfold probe_op, confined.
    destruct o as [|r' ns nm| | | | | | | | | | | | | | | | | |]; try done.
    destruct r', ns as [ns|]; try done. intros (_ & -> & Hn). by rewrite Hsn.
  - destruct r as [r|]; [|by destruct Hp as [-> _]; simpl; lia].
    destruct Hp as (s & _ & (_ & Hr)%probe_runs).
    destruct (select_postgresql_port s); [|by destruct Hr as [-> _]; simpl; lia].
    destruct Hr as [[->|(tls & -> & _)] _]; simpl; lia.
Qed.
End diagnosis.

(** ** The whole diagnosis *)

Section whole.
Context `{NativeTls, YamlList, JsonParser} (local : Local) (cfg : Config) (spec : PostgresqlDiagnosticSpec).

Lemma whole_runs t rep :
  diagnosed_namespace spec <> "" -> runs (diagnose_postgresql local cfg spec) t rep ->
  exists a tc tp, t = tc ++ tp /\ runs (gather cfg local) tc a /\
    Forall (fun e => collecting cfg (op_of e)) tc /\
    runs (diagnose_collected cfg spec (diagnosed_namespace spec) (inventory cfg a)) tp rep.
Proof using Type.
  unfold diagnose_postgresql. fold (diagnosed_namespace spec). cbv zeta.
  destruct (diagnosed_namespace spec) as [|x ns] eqn:Hns; [done|]. cbn [str_is_empty]. rewrite <- Hns.
  intros _ Hr. run_bind Hr as collected tc tp Hc. unfold collect_inventory in Hc.
  run_bind Hc as a t1 t2 Hg. destruct Hc as [-> ->]. rewrite app_nil_r.
  exists a, t1, tp. split_and!; [done|done| |exact Hr]. exact (only_runs _ _ _ _ (only_gather cfg local) Hg).
Qed.

Lemma collecting_no_query t : Forall (fun e => collecting cfg (op_of e)) t -> existsb queried_ok t = false.
Proof using Type. induction 1 as [|[o x] t Ho _ IH]; [done|]. simpl. rewrite IH. by destruct o. Qed.
Lemma collecting_no_connection t : Forall (fun e => collecting cfg (op_of e)) t -> connections t = [].
Proof using Type.
  induction 1 as [|[o x] t Ho _ IH]; [done|]. change (?e :: t) with ([e] ++ t).
  rewrite connections_app, IH. by destruct o.
Qed.

(** C15: a diagnosis is healthy only if every kind of object was found, an event
    among them, the one clear service answered, a pod is running and the hints
    of the request were met; it is a warning exactly if only the running pod
    is lacking; in every other case it is unknown.  So it is never critical,
    and a database without events is never found healthy.  Found means: in the
    inventory that the diagnosis collects itself. *)
Theorem diagnosis_status_exact t rep :
  diagnosed_namespace spec <> "" -> runs (diagnose_postgresql local cfg spec) t rep ->
  exists a r, (exists tc tp, t = tc ++ tp /\ runs (gather cfg local) tc a) /\
    let c := inventory cfg a in
    probe_connected r = existsb queried_ok t /\
    (rep_missing_data rep = [] <-> complete (diagnosed c spec) r /\ hint_missing_data (diagnosis_scope c spec) = []) /\
    rep_status rep =
      (if is_empty (rep_missing_data rep)
       then if is_empty (ready_pods (diagnosed c spec)) then "warning" else "healthy" else "unknown").
Proof using Type.
  intros Hns Hr. destruct (whole_runs _ _ Hns Hr) as (a & tc & tp & -> & Hg & Hc & Hd).
  destruct (diagnosis_status _ _ _ _ _ Hd) as (r & Hq & Hrest). exists a, r.
  split; [by exists tc, tp|]. cbv zeta. split; [|exact Hrest].
  by rewrite existsb_app, (collecting_no_query _ Hc).
Qed.

(** C14: a diagnosis first collects the inventory of the whole cluster, as a
    snapshot does: it lists what the collector lists, the Secrets of all
    namespaces only with COLLECT_SECRETS, and scrapes metrics if they are on.
    From then on it stays in its namespace: of the Kubernetes API it reads at
    most the named Secret of this namespace, it connects at most once and asks
    SELECT 1, and all evidence that it reports is of workloads, pods, services,
    claims and events of that inventory that are in this namespace. *)
Theorem diagnosis_confined t rep :
  diagnosed_namespace spec <> "" -> runs (diagnose_postgresql local cfg spec) t rep ->
  exists a tc tp, t = tc ++ tp /\ runs (gather cfg local) tc a /\
    Forall (fun e => collecting cfg (op_of e)) tc /\
    (collect_secrets cfg = false -> Forall (fun e => forall ns fields, op_of e <> ListObjs RSecret ns fields) t) /\
    Forall (fun e => confined cfg spec (op_of e)) tp /\ (length (connections t) <= 1)%nat /\
    (exists r, rep_evidence rep = plugin_evidence (diagnosed (inventory cfg a) spec) r) /\
    scoped (inventory cfg a) spec.
Proof using Type.
  intros Hns Hr. destruct (whole_runs _ _ Hns Hr) as (a & tc & tp & -> & Hg & Hc & Hd).
  destruct (collected_confined _ _ _ _ _ Hd) as (Hconf & Hconn & Hev).
  exists a, tc, tp. split_and!; [done|done|done| |done| |done|apply diagnosis_scoped].
  - intros Hoff. apply Forall_app. split; [by eapply gather_no_secrets|].
    eapply Forall_impl; [exact Hconf|]. intros e He ns fields Heq. cbv beta in He. by rewrite Heq in He.
  - by rewrite connections_app, (collecting_no_connection _ Hc).
Qed.
End whole.
