(* ===== verification/Snapshot.v ===== *)
(** * The snapshot and its tick (main.rs, model.rs)

    [build_and_send]: the collected inventory, the environment of the agent, the
    log tails and the plugins are put into one snapshot, which the hub client
    sends; and the turn of the collector loop around it.  Here the collector,
    the plugins, the leader flag and the hub client meet, over a signature that
    holds the operations of both clients; an exchange with the hub carries the
    snapshot that is its body. *)
From S2P Require Import Prelude RustStr Effects Config Env Kube Model Startup Leader Hub Inventory Cluster Network Posture AppMetrics Dependencies Monitoring Collect PgProbe Postgresql Diagnosis.
Local Open Scope Z_scope.

Record AgentInfo := {
  ag_name : string; ag_version : string; ag_pod_name : string; ag_pod_namespace : string;
  ag_node_name : string; ag_actions_enabled : bool; ag_collect_dependencies_tetragon : bool }.
Record Plugins := {
  pl_workload_monitoring : option WorkloadMonitoringPlugin;
  pl_postgresql_monitoring : option PostgresqlMonitoringPlugin }.
Record InventorySnapshot := {
  schema_version : Z; agent : AgentInfo; snap_cluster_id : string; timestamp_ms : Z;
  k8s_uid : option string; cluster : ClusterInfo; namespaces : list NamespaceInfo;
  workloads : Workloads; pods : list PodInfo; network : NetworkInventory;
  security : SecurityInventory; maturity : OperationalMaturityInventory;
  dependencies : DependencyInventory; configuration : ConfigurationInventory;
  storage : StorageInventory; events : list EventInfo; plugins : option Plugins;
  metrics : MetricsStatus; snapshot_api : SnapshotApiStatus }.

Definition AGENT_NAME : string := "Sentinella Hub Kubernetes Agent".

(** [package] is the version of the package, [CARGO_PKG_VERSION]. *)
Definition agent_info (package : string) (cfg : Config) : AgentInfo :=
  {| ag_name := AGENT_NAME; ag_version := reported_agent_version package cfg;
     ag_pod_name := Config.pod_name cfg; ag_pod_namespace := pod_namespace cfg;
     ag_node_name := agent_node_name cfg; ag_actions_enabled := actions_enabled cfg;
     ag_collect_dependencies_tetragon := collect_dependencies_tetragon cfg |}.

(** What is logged about the optional APIs before the snapshot is built. *)
Definition status_warnings (c : Collected) (now1 now2 : Z) (m : suppressions)
    : list LogLine * suppressions :=
  let '(l1, m) := warn_metrics_status_change (co_metrics c) now1 m in
  let '(l2, m) := warn_snapshot_api_status_change (co_snapshot_api c) now2 m in
  (l1 ++ l2, m).

(** ** Both clients *)

Inductive sop :=
  | ApiCall (o : op)
  | HubCall (body : InventorySnapshot) (o : hop).
Definition sresp (o : sop) : Type :=
  match o with ApiCall o => resp o | HubCall _ o => hresp o end.
Notation sprog := (prog sresp).
Notation sevent := (event sresp).

Fixpoint api {A} (p : kprog A) : sprog A :=
  match p with
  | Ret a => Ret a
  | Vis o k => Vis (ApiCall o : sop) (fun x : resp o => api (k x))
  end.
Fixpoint hub {A} (body : InventorySnapshot) (p : hprog A) : sprog A :=
  match p with
  | Ret a => Ret a
  | Vis o k => Vis (HubCall body o : sop) (fun x : hresp o => hub body (k x))
  end.

Inductive SnapshotError := CollectFailed (e : string) | SendFailed (e : HubError).

Section snapshot.
Context `{NativeTls, YamlList, HubCodec} (package : string) (cfg : Config).
(** The answers to the log calls, and the order in which their tasks end. *)
Context (pod_log : string -> string -> string -> option string)
        (finish : list (nat * option WorkloadMonitoringPodLogs) -> list (nat * option WorkloadMonitoringPodLogs)).
(** The clock that the workload plugin reads, and the instants of the warnings. *)
Context (since_epoch : option Z) (now1 now2 : Z).

Definition build_snapshot (c : Collected) : kprog InventorySnapshot :=
  let configuration :=
    {| inv_configmaps := inv_configmaps (co_configuration c); inv_secrets := inv_secrets (co_configuration c);
       inv_runtime_env := agent_runtime_env cfg;
       inv_configured_env := inv_configured_env (co_configuration c) |} in
  let logs := {| wml_pods := collect_workload_monitoring_logs (finish (log_tasks pod_log cfg (co_pods c))) |} in
  let workload_monitoring :=
    build_workload_monitoring cfg (co_workloads c) (co_pods c) (co_network c) (co_events c)
      (co_dependencies c) (co_app_metrics c) logs since_epoch in
  postgresql_monitoring ← build_postgresql_monitoring true cfg (co_workloads c) (co_pods c)
    (co_network c) (co_storage c) (co_events c);
  let plugins :=
    if is_some workload_monitoring || is_some postgresql_monitoring
    then Some {| pl_workload_monitoring := workload_monitoring;
                 pl_postgresql_monitoring := postgresql_monitoring |}
    else None in
  now ← call NowMs;
  mret {| schema_version := 1; agent := agent_info package cfg; snap_cluster_id := cluster_id cfg;
          timestamp_ms := now; k8s_uid := co_k8s_uid c; cluster := co_cluster c;
          namespaces := co_namespaces c; workloads := co_workloads c; pods := co_pods c;
          network := co_network c; security := co_security c; maturity := co_operational_maturity c;
          dependencies := co_dependencies c; configuration := configuration; storage := co_storage c;
          events := co_events c; plugins := plugins; metrics := co_metrics c;
          snapshot_api := co_snapshot_api c |}.

(** With the result, the lines that are logged and the table of suppressed
    warnings. *)
Definition build_and_send (collected : result string Collected) (m : suppressions)
    : sprog (result SnapshotError unit * (list LogLine * suppressions)) :=
  try c := collected else e => mret (Err (CollectFailed e), ([], m)) in
  let warned := status_warnings c now1 now2 m in
  snap ← api (build_snapshot c);
  sent ← hub snap (send_snapshot cfg (inventory_urls (hub_routes_new cfg) (cluster_id cfg)));
  mret (map_err SendFailed sent, warned).

(** A turn of [collector_loop], with the flag as it is then. *)
Definition collector_turn (leader : bool) (collected : result string Collected) (m : suppressions)
    : sprog (TickOutcome * (list LogLine * suppressions)) :=
  if negb leader then mret (SkippedNotLeader, ([], m)) else
  sent ← build_and_send collected m;
  mret (collector_tick leader (is_ok (fst sent)), snd sent).
End snapshot.

(** ** Properties *)

Definition api_event (e : kevent) : sevent := ev (ApiCall (op_of e) : sop) (projT2 e : sresp (ApiCall (op_of e))).
Definition hub_event (body : InventorySnapshot) (e : hevent) : sevent :=
  ev (HubCall body (op_of e) : sop) (projT2 e : sresp (HubCall body (op_of e))).

Lemma runs_api {A} (p : kprog A) t a :
  runs (api p) t a <-> exists t', t = map api_event t' /\ runs p t' a.
Proof.
  revert t. induction p as [b|o k IH]; intros t; simpl.
  - split; [intros [-> ->]; by exists []|]. by intros (t' & -> & -> & ->).
  - split.
    + intros (x & t1 & -> & (t' & -> & Hr)%IH). exists (ev o x :: t'). split; [done|]. by exists x, t'.
    + intros (t' & -> & x & t1 & -> & Hr). exists x, (map api_event t1). split; [done|]. apply IH. eauto.
Qed.

Lemma runs_hub {A} body (p : hprog A) t a :
  runs (hub body p) t a <-> exists t', t = map (hub_event body) t' /\ runs p t' a.
Proof.
  revert t. induction p as [b|o k IH]; intros t; simpl.
  - split; [intros [-> ->]; by exists []|]. by intros (t' & -> & -> & ->).
  - split.
    + intros (x & t1 & -> & (t' & -> & Hr)%IH). exists (ev o x :: t'). split; [done|]. by exists x, t'.
    + intros (t' & -> & x & t1 & -> & Hr). exists x, (map (hub_event body) t1). split; [done|]. apply IH. eauto.
Qed.

(** A plugin is off when it is not enabled or has no namespace. *)
Definition workload_plugin_off (cfg : Config) : Prop :=
  workload_monitoring_enabled cfg = false \/ workload_monitoring_namespaces cfg = [].
Definition postgresql_plugin_off (cfg : Config) : Prop :=
  postgresql_monitoring_enabled cfg = false \/ postgresql_monitoring_namespaces cfg = [].

Lemma workload_plugin_none cfg w p n e d am logs now :
  build_workload_monitoring cfg w p n e d am logs now = None <-> workload_plugin_off cfg.
Proof.
  unfold build_workload_monitoring, workload_plugin_off.
  destruct (workload_monitoring_enabled cfg); cbn [negb]; [|naive_solver].
  destruct (workload_monitoring_namespaces cfg); cbn [is_empty]; naive_solver.
Qed.

Lemma postgresql_plugin_none `{NativeTls} client cfg w p n s e t o :
  runs (build_postgresql_monitoring client cfg w p n s e) t o -> o = None <-> postgresql_plugin_off cfg.
Proof.
  intros Hr%build_runs. unfold postgresql_plugin_off. destruct o as [b|]; [|naive_solver].
  destruct Hr as (He & Hn & _). split; [done|]. intros [?|?]; congruence.
Qed.

Section turn.
Context `{NativeTls, YamlList, HubCodec} (package : string) (cfg : Config)
        (pod_log : string -> string -> string -> option string)
        (finish : list (nat * option WorkloadMonitoringPodLogs) -> list (nat * option WorkloadMonitoringPodLogs))
        (since_epoch : option Z) (now1 now2 : Z).

Let build (c : Collected) := build_snapshot package cfg pod_log finish since_epoch c.
Let turn := collector_turn package cfg pod_log finish since_epoch now1 now2.

Lemma reads_snapshot c : only (fun o : op => mutating o = false) (build c).
Proof using Type.
  apply only_bind; [apply reads_plugin|]. intros pg.
  apply only_bind; [by apply only_op|]. intros; apply only_ret.
Qed.

Lemma build_snapshot_parts c t snap :
  runs (build c) t snap ->
  (plugins snap = None <-> workload_plugin_off cfg /\ postgresql_plugin_off cfg) /\
  inv_runtime_env (configuration snap) = agent_runtime_env cfg /\
  inv_secrets (configuration snap) = inv_secrets (co_configuration c) /\
  pods snap = co_pods c /\ network snap = co_network c /\ events snap = co_events c.
Proof using Type.
  unfold build, build_snapshot. intros Hr. run_bind Hr as pg t1 t2 Hp. run_call Hr as now t3.
  destruct Hr as [-> ->]. cbn [plugins configuration inv_runtime_env inv_secrets pods network events].
  split_and!; try done. rewrite <- (postgresql_plugin_none _ _ _ _ _ _ _ _ _ Hp).
  set (wm := build_workload_monitoring _ _ _ _ _ _ _ _ _).
  assert (Hwm : wm = None <-> workload_plugin_off cfg) by apply workload_plugin_none.
  rewrite <- Hwm. clearbody wm. destruct wm, pg; cbn; naive_solver.
Qed.

(** C13: a tick of the collector without the leader flag does nothing.  With it,
    one snapshot is built by reading calls alone, and is the body of every
    request that follows, all of them those of [send_snapshot]; the tick counts
    as ok exactly when that succeeds.  The snapshot has plugins exactly when one
    of them is enabled with a namespace, its runtime environment is the
    allowlisted one, and it repeats the inventory it was built from; the lines
    that are logged are the warnings about the optional APIs. *)
Theorem collector_turn_exact leader c m t out :
  runs (turn leader (Ok c) m) t out ->
  if leader then
    exists snap ts th sent, t = map api_event ts ++ map (hub_event snap) th /\
      runs (build c) ts snap /\
      Forall (fun e => mutating (op_of e) = false) ts /\
      runs (send_snapshot cfg (inventory_urls (hub_routes_new cfg) (cluster_id cfg))) th sent /\
      out = (if is_ok sent then TickOk else TickError, status_warnings c now1 now2 m) /\
      (plugins snap = None <-> workload_plugin_off cfg /\ postgresql_plugin_off cfg) /\
      inv_runtime_env (configuration snap) = agent_runtime_env cfg /\
      inv_secrets (configuration snap) = inv_secrets (co_configuration c) /\
      pods snap = co_pods c /\ network snap = co_network c /\ events snap = co_events c
  else t = [] /\ out = (SkippedNotLeader, ([], m)).
Proof using Type.
  unfold turn, collector_turn. destruct leader; cbn [negb]; [|done].
  unfold build_and_send. intros Hr. run_bind Hr as sent' t1 t2 Hs. destruct Hr as [-> ->].
  run_bind Hs as snap t3 t4 Hsnap. run_bind Hs as sent t5 t6 Hsent. destruct Hs as [-> ->].
  apply runs_api in Hsnap as (ts & -> & Hsnap). apply runs_hub in Hsent as (th & -> & Hsent).
  exists snap, ts, th, sent. rewrite !app_nil_r.
  split_and!; try done; try apply (build_snapshot_parts c ts snap Hsnap).
  - exact (only_runs _ _ _ _ (reads_snapshot c) Hsnap).
  - by destruct sent.
Qed.

(** C12: a tick is a function of redacted answers: no value of a listed Secret,
    no binary value of a ConfigMap and no value of a ConfigMap other than the
    agent's own three has any influence on what a tick does or sends, and
    without COLLECT_SECRETS not even the list of the Secrets has. *)
Theorem collector_turn_redacted `{JsonParser} leader answers m :
  turn leader (collect cfg (redacted cfg answers)) m = turn leader (collect cfg answers) m.
Proof using Type. by rewrite collect_redacted. Qed.
End turn.
