(* ===== verification/PgDemo.v ===== *)
(** * A sample database

    A namespace with one PostgreSQL service, its pod, claim, workload and event,
    used by the witnesses of the plugins and of the snapshot.  It is no part of
    the model of the agent. *)
From S2P Require Import Prelude RustStr Text Effects Json Config Env Kube Model Demo Startup Hub Leader Inventory Tech Cluster Network Posture AppMetrics Tetragon Dependencies Monitoring Collect Gather PgMatch PgProbe Postgresql Diagnosis Snapshot.
Local Open Scope Z_scope.

Definition demo_tls : NativeTls :=
  {| from_pem := fun pem => str_contains "BEGIN CERTIFICATE" pem; build_connector := fun _ => true |}.
Definition demo_json : JsonParser := {| from_str := fun _ => None |}.

Definition in_shop (nm : string) : ObjectMeta :=
  {| name := Some nm; namespace := Some "shop"; labels := None; annotations := None; generation := None;
     resource_version := None; owner_references := None; creation_timestamp := None |}.

Definition pg_service : Service :=
  {| svc_metadata := in_shop "postgres"; svc_spec := Some (demo_ports [5432]); svc_status := None |}.
Definition pg_pod : Pod :=
  {| pod_metadata := in_shop "postgres-0";
     pod_spec := Some {| containers := [container "db" (Some "postgres:16")]; node_name := None |};
     pod_status := Some {| pod_ip := None; pod_phase := Some "Running" |} |}.
Definition pg_set : StatefulSet :=
  {| st_metadata := in_shop "postgres"; st_spec := None; st_status := None |}.
Definition pg_claim : PersistentVolumeClaim :=
  {| pvc_metadata := in_shop "data-postgres-0"; pvc_spec := None |}.
Definition pg_event : EventObject :=
  {| evt_metadata := in_shop "postgres-0.1"; evt_type := Some "Normal"; evt_reason := Some "Started";
     evt_message := None; evt_count := None; evt_event_time := None; evt_last_timestamp := None;
     evt_first_timestamp := None; evt_reporting_component := None; evt_reporting_instance := None;
     evt_involved_object := {| or_kind := None; or_name := None; or_namespace := None; or_uid := None |} |}.

(** The answers of a cluster that has these objects and [events]. *)
Definition demo_answers (events : list EventObject) : Answers :=
  {| an_nodes := Ok []; an_namespaces := Ok []; an_kube_system := Ok (Some "uid-1");
     an_deployments := Ok []; an_statefulsets := Ok [pg_set]; an_daemonsets := Ok [];
     an_pods := Ok [pg_pod]; an_services := Ok [pg_service]; an_ingresses := Err NotKube;
     an_network_policies := Ok []; an_cluster_role_bindings := Ok []; an_configmaps := Ok [];
     an_secrets := Ok []; an_storage_classes := Ok []; an_pvs := Ok []; an_pvcs := Ok [pg_claim];
     an_snapshot_classes := Ok []; an_snapshots := Ok []; an_metrics_v1 := Err NotKube;
     an_metrics_v1beta1 := Ok []; an_vpa := Ok []; an_cronjobs := Ok []; an_events := Ok events;
     an_version := None; an_cluster_versions := Ok []; an_event_lines := ""; an_line_clock := fun _ => 0;
     an_coverage := {| observed_endpoints := 0; cov_connected := 0; unavailable_endpoints := 0 |};
     an_scrapes := []; an_seconds := None; an_metrics_now_ms := 0; an_snapshot_now_ms := 0 |}.

Definition demo_collected (events : list EventObject) : Collected :=
  @inventory demo_yaml demo_json (demo_config false) (demo_answers events).
Definition demo_spec : PostgresqlDiagnosticSpec :=
  {| pg_namespace := " shop "; pg_service_name := Some "postgres"; pg_pod_selector := None;
     pg_secret_name := Some "monitor" |}.
Definition demo_pg_config : Config := probe_config (demo_config false) "shop" None.

(** ** The plugin *)

Definition demo_build : kprog (option PostgresqlMonitoringPlugin) :=
  let c := demo_collected [] in
  @build_postgresql_monitoring demo_tls true demo_pg_config (co_workloads c) (co_pods c)
    (co_network c) (co_storage c) (co_events c).
Definition demo_discovery : Discovery :=
  let c := demo_collected [] in
  discover ["shop"] (co_workloads c) (co_pods c) (co_network c) (co_storage c) (co_events c).

Lemma postgresql_status_exact_witness :
  exists b r, runs demo_build (interp_trace demo_handler demo_build demo_start) (Some b) /\
    pm_status b = "healthy" /\ is_healthy demo_discovery r.
Proof.
  pose proof (interp_runs _ demo_handler demo_build demo_start) as Hr.
  destruct (fst (interp demo_handler demo_build demo_start)) as [b|] eqn:Hb;
    [|apply (f_equal is_some) in Hb; vm_compute in Hb; discriminate Hb].
  assert (Hs : pm_status b = "healthy").
  { apply (f_equal (fun o => match o with Some b => pm_status b | None => "" end)) in Hb.
    rewrite <- Hb. vm_compute. reflexivity. }
  exists b. destruct (postgresql_status_exact _ _ _ _ _ _ _ _ b Hr) as (_ & r & _ & _ & _ & Hh & _).
  exists r. split; [exact Hr|]. split; [exact Hs|]. apply Hh. exact Hs.
Defined.


(** ** The diagnosis *)

(** The same cluster, with these objects behind the list calls. *)
Definition pg_list (events : list EventObject) (r : resource) (s : DemoCluster)
    : result KubeError (list (obj r)) :=
  match r return result KubeError (list (obj r)) with
  | RPod => Ok [pg_pod]
  | RStatefulSet => Ok [pg_set]
  | RService => Ok [pg_service]
  | RPersistentVolumeClaim => Ok [pg_claim]
  | REvent => Ok events
  | r => demo_list r s
  end.
Definition pg_handler (events : list EventObject) (o : op) (s : DemoCluster) : resp o * DemoCluster :=
  match o return resp o * DemoCluster with
  | ListObjs r _ _ => (pg_list events r s, s)
  | o => demo_handler o s
  end.
Definition demo_local : Local :=
  {| lo_event_lines := ""; lo_line_clock := fun _ => 0;
     lo_coverage := {| observed_endpoints := 0; cov_connected := 0; unavailable_endpoints := 0 |};
     lo_seconds := None |}.
Definition demo_diagnosis : kprog PostgresqlDiagnosticReport :=
  @diagnose_postgresql demo_tls demo_yaml demo_json demo_local (demo_config false) demo_spec.

(** With an event the database is found healthy, without one it is not. *)
Lemma diagnosis_status_exact_witness :
  rep_status (fst (interp (pg_handler [pg_event]) demo_diagnosis demo_start)) = "healthy" /\
  rep_status (fst (interp (pg_handler []) demo_diagnosis demo_start)) = "unknown" /\
  exists a r, complete (diagnosed (@inventory demo_yaml demo_json (demo_config false) a) demo_spec) r.
Proof.
  split; [vm_compute; reflexivity|]. split; [vm_compute; reflexivity|].
  assert (Hns : diagnosed_namespace demo_spec <> "") by (vm_compute; discriminate).
  destruct (@diagnosis_status_exact demo_tls demo_yaml demo_json demo_local (demo_config false) demo_spec
    _ _ Hns (interp_runs _ (pg_handler [pg_event]) demo_diagnosis demo_start)) as (a & r & _ & _ & Hm & _).
  exists a, r. apply Hm. vm_compute. reflexivity.
Defined.

Lemma diagnosis_confined_witness :
  existsb queried_ok (interp_trace (pg_handler []) demo_diagnosis demo_start) = true /\
  exists tc tp, interp_trace (pg_handler []) demo_diagnosis demo_start = tc ++ tp /\
    Forall (fun e => collecting (demo_config false) (op_of e)) tc /\
    Forall (fun e => confined (demo_config false) demo_spec (op_of e)) tp.
Proof.
  split; [vm_compute; reflexivity|].
  assert (Hns : diagnosed_namespace demo_spec <> "") by (vm_compute; discriminate).
  destruct (@diagnosis_confined demo_tls demo_yaml demo_json demo_local (demo_config false) demo_spec
    _ _ Hns (interp_runs _ (pg_handler []) demo_diagnosis demo_start))
    as (a & tc & tp & Ht & _ & Hc & _ & Hp & _).
  exists tc, tp. split; [exact Ht|]. split; [exact Hc|exact Hp].
Defined.

(** ** The tick *)

Definition demo_clients (o : sop) (s : DemoCluster * nat) : sresp o * (DemoCluster * nat) :=
  match o return sresp o * (DemoCluster * nat) with
  | ApiCall o => let '(x, c) := demo_handler o (fst s) in (x, (c, snd s))
  | HubCall _ o => let '(x, n) := demo_hub o (snd s) in (x, (fst s, n))
  end.
Definition demo_turn : sprog (TickOutcome * (list LogLine * suppressions)) :=
  @collector_turn demo_tls demo_yaml demo_hub_codec "1.0.0" demo_monitoring demo_log id (Some 7) 0 0 true
    (Ok (demo_collected [])) ∅.

Lemma collector_turn_exact_witness :
  fst (fst (interp demo_clients demo_turn (demo_start, 0%nat))) = TickOk /\
  exists snap ts th, interp_trace demo_clients demo_turn (demo_start, 0%nat) =
    map api_event ts ++ map (hub_event snap) th /\ plugins snap <> None /\ pods snap = co_pods (demo_collected []).
Proof.
  assert (Hok : fst (fst (interp demo_clients demo_turn (demo_start, 0%nat))) = TickOk) by (vm_compute; reflexivity).
  split; [exact Hok|].
  destruct (@collector_turn_exact demo_tls demo_yaml demo_hub_codec "1.0.0" demo_monitoring demo_log id (Some 7)
    0 0 true (demo_collected []) ∅ _ _ (interp_runs _ demo_clients demo_turn (demo_start, 0%nat)))
    as (snap & ts & th & sent & Ht & _ & _ & _ & _ & Hp & _ & _ & Hpods & _).
  exists snap, ts, th. split; [exact Ht|]. split; [|exact Hpods].
  intros [[H|H] _]%Hp; vm_compute in H; discriminate H.
Defined.
