(* ===== verification/Metrics.v ===== *)
(** * The metrics (health.rs)

    The statics of the metrics registry: each is created and registered when it
    is first touched, with [expect] on both, so that a name the library refuses
    or a name used twice would panic in whatever task touches it.  The library
    is the class [MetricsLibrary]. *)
From S2P Require Import Prelude RustStr Utf8.
Local Open Scope Z_scope.

Inductive MetricKind := IntCounter | IntGauge | IntCounterVec (labels : list string).
Record Metric := { metric_name : string; metric_help : string; metric_kind : MetricKind }.
Global Instance metric_kind_eq_dec : EqDecision MetricKind.
Proof. solve_decision. Defined.
Global Instance metric_eq_dec : EqDecision Metric.
Proof. solve_decision. Defined.

Definition SNAPSHOTS_SENT : Metric :=
  {| metric_name := "agent_snapshots_total";
     metric_help := "Snapshots sent by outcome"; metric_kind := IntCounterVec ["outcome"] |}.
Definition COMMANDS_RECEIVED : Metric :=
  {| metric_name := "agent_commands_received_total";
     metric_help := "Commands received from Hub"; metric_kind := IntCounter |}.
Definition COMMANDS_EXECUTED : Metric :=
  {| metric_name := "agent_commands_executed_total";
     metric_help := "Commands by status"; metric_kind := IntCounterVec ["status"] |}.
Definition IS_LEADER : Metric :=
  {| metric_name := "agent_is_leader";
     metric_help := "1 if this pod currently holds the lease"; metric_kind := IntGauge |}.
Definition TETRAGON_CONNECTED : Metric :=
  {| metric_name := "agent_tetragon_connected";
     metric_help := "1 if the agent currently has a live Tetragon gRPC stream"; metric_kind := IntGauge |}.
Definition TETRAGON_RECONNECTS : Metric :=
  {| metric_name := "agent_tetragon_reconnects_total";
     metric_help := "Tetragon stream reconnects after a previously ready stream ended"; metric_kind := IntCounter |}.
Definition TETRAGON_CONNECTION_FAILURES : Metric :=
  {| metric_name := "agent_tetragon_connection_failures_total";
     metric_help := "Tetragon connection or stream startup failures before the stream became ready"; metric_kind := IntCounter |}.
Definition TETRAGON_POLICY_APPLY_FAILURES : Metric :=
  {| metric_name := "agent_tetragon_policy_apply_failures_total";
     metric_help := "Tetragon tracing policy apply failures"; metric_kind := IntCounter |}.
Definition DEPENDENCY_PARSE_FAILURES : Metric :=
  {| metric_name := "agent_dependency_parse_failures_total";
     metric_help := "Dependency event lines that could not be parsed or normalized"; metric_kind := IntCounter |}.
Definition DEPENDENCY_EVENTS_DROPPED : Metric :=
  {| metric_name := "agent_dependency_events_dropped_total";
     metric_help := "Dependency events dropped because snapshot caps were exceeded"; metric_kind := IntCounter |}.
Definition DEPENDENCY_EVENTS_SKIPPED : Metric :=
  {| metric_name := "agent_dependency_events_skipped_total";
     metric_help := "Dependency events skipped because per-source fanout caps were exceeded"; metric_kind := IntCounter |}.
Definition DEPENDENCY_SNAPSHOTS_TRUNCATED : Metric :=
  {| metric_name := "agent_dependency_snapshots_truncated_total";
     metric_help := "Dependency snapshots truncated by internal caps"; metric_kind := IntCounter |}.
Definition SNAPSHOT_SEND_SUCCESS : Metric :=
  {| metric_name := "agent_snapshot_send_success_total";
     metric_help := "Successful snapshot send operations"; metric_kind := IntCounter |}.
Definition SNAPSHOT_SEND_FAILURE : Metric :=
  {| metric_name := "agent_snapshot_send_failure_total";
     metric_help := "Failed snapshot send operations"; metric_kind := IntCounter |}.
Definition COMMAND_POLL_SUCCESS : Metric :=
  {| metric_name := "agent_command_poll_success_total";
     metric_help := "Successful command polls that returned work"; metric_kind := IntCounter |}.
Definition COMMAND_POLL_EMPTY : Metric :=
  {| metric_name := "agent_command_poll_empty_total";
     metric_help := "Successful command polls that returned no work"; metric_kind := IntCounter |}.
Definition COMMAND_POLL_FAILURE : Metric :=
  {| metric_name := "agent_command_poll_failure_total";
     metric_help := "Failed command polls"; metric_kind := IntCounter |}.
Definition COMMAND_ACK_SUCCESS : Metric :=
  {| metric_name := "agent_command_ack_success_total";
     metric_help := "Successful command acknowledgement sends"; metric_kind := IntCounter |}.
Definition COMMAND_ACK_FAILURE : Metric :=
  {| metric_name := "agent_command_ack_failure_total";
     metric_help := "Failed command acknowledgement sends"; metric_kind := IntCounter |}.

(** The statics, in the order in which [run] touches them. *)
Definition METRICS : list Metric :=
  [SNAPSHOTS_SENT; COMMANDS_RECEIVED; COMMANDS_EXECUTED; IS_LEADER; TETRAGON_CONNECTED;
   TETRAGON_RECONNECTS; TETRAGON_CONNECTION_FAILURES; TETRAGON_POLICY_APPLY_FAILURES;
   DEPENDENCY_PARSE_FAILURES; DEPENDENCY_EVENTS_DROPPED; DEPENDENCY_EVENTS_SKIPPED;
   DEPENDENCY_SNAPSHOTS_TRUNCATED; SNAPSHOT_SEND_SUCCESS; SNAPSHOT_SEND_FAILURE;
   COMMAND_POLL_SUCCESS; COMMAND_POLL_EMPTY; COMMAND_POLL_FAILURE; COMMAND_ACK_SUCCESS;
   COMMAND_ACK_FAILURE].

(** What the library answers to the creation of a metric and to its registration
    beside those that are registered. *)
Class MetricsLibrary := {
  create : Metric -> result string unit;
  register : Metric -> list Metric -> result string unit }.

Section metrics.
Context `{MetricsLibrary}.

(** A static is touched: nothing happens if it is initialised, otherwise it is
    created and registered; [None] is a panic. *)
Definition touch (registry : list Metric) (m : Metric) : option (list Metric) :=
  if bool_decide (m ∈ registry) then Some registry else
  match create m, register m registry with
  | Ok _, Ok _ => Some (registry ++ [m])
  | _, _ => None
  end.
Fixpoint touch_all (registry : list Metric) (touched : list Metric) : option (list Metric) :=
  match touched with
  | [] => Some registry
  | m :: touched => registry ← touch registry m; touch_all registry touched
  end.

(** The start of [run], after other tasks have touched some metrics. *)
Definition run_metrics (touched : list Metric) : option (list Metric) :=
  touch_all [] (touched ++ METRICS).
End metrics.

(** ** What the library documents *)

Definition is_word_start (c : ascii) : bool :=
  let n := byte_value c in
  ((65 <=? n) && (n <=? 90)) || ((97 <=? n) && (n <=? 122)) || (n =? 95).
Definition is_word (s : string) : bool :=
  match s with
  | EmptyString => false
  | String c s => is_word_start c && str_all (fun c => is_word_start c || is_ascii_digit c) s
  end.

(** A name and label names of letters, digits and underscores that do not start
    with a digit, no label twice, and a help text. *)
Definition valid_metric (m : Metric) : bool :=
  is_word (metric_name m) && negb (str_is_empty (metric_help m)) &&
  match metric_kind m with
  | IntCounterVec labels => forallb is_word labels && bool_decide (NoDup labels)
  | _ => true
  end.

(** A valid metric can be created, and registered if its name is free. *)
Class MetricsLaws `{MetricsLibrary} : Prop := {
  create_valid : forall m, valid_metric m = true -> create m = Ok tt;
  register_fresh : forall m registry,
    valid_metric m = true -> ~ In (metric_name m) (map metric_name registry) ->
    register m registry = Ok tt }.

(** ** Properties *)

Lemma metrics_valid m : In m METRICS -> valid_metric m = true.
Proof. revert m. apply forallb_forall. vm_compute. reflexivity. Qed.

Lemma metric_names_distinct m m' : In m METRICS -> In m' METRICS -> metric_name m = metric_name m' -> m = m'.
Proof.
  intros Hm Hm' Heq.
  assert (Hnd : NoDup (map metric_name METRICS)) by (apply (bool_decide_unpack _); vm_compute; exact I).
  apply list_elem_of_In in Hm, Hm'. apply list_elem_of_lookup in Hm as [i Hi], Hm' as [j Hj].
  assert (i = j) as ->; [|congruence].
  eapply (NoDup_lookup _ i j (metric_name m) Hnd); rewrite list_lookup_fmap; [by rewrite Hi|].
  rewrite Hj. simpl. by rewrite Heq.
Qed.

Lemma touch_all_spec `{MetricsLaws} registry touched :
  NoDup registry -> Forall (fun m => In m METRICS) registry -> Forall (fun m => In m METRICS) touched ->
  exists st, touch_all registry touched = Some st /\ NoDup st /\
    forall m, m ∈ st <-> m ∈ registry \/ m ∈ touched.
Proof.
  revert registry. induction touched as [|m touched IH]; intros registry Hnd Hr Ht; cbn [touch_all].
  { exists registry. split_and!; [done|done|]. set_solver. }
  apply Forall_cons in Ht as [Hm Ht]. unfold touch. case_bool_decide as Hin; cbn [mbind option_bind].
  { destruct (IH registry Hnd Hr Ht) as (st & Hs & Hn & Hel). exists st. split_and!; [done|done|]. set_solver. }
  rewrite create_valid by (by apply metrics_valid).
  rewrite register_fresh; [|by apply metrics_valid|].
  - destruct (IH (registry ++ [m])) as (st & Hs & Hn & Hel); [|by apply Forall_app; auto|done|].
    + apply NoDup_app. split_and!; [done|set_solver|apply NoDup_singleton].
    + exists st. split_and!; [done|done|]. set_solver.
  - intros (m' & Hn & Hm'%list_elem_of_In)%in_map_iff. apply Hin.
    rewrite Forall_forall in Hr. by rewrite <- (metric_names_distinct m' m) by auto using list_elem_of_In.
Qed.

(** Touching the metrics never panics, in whatever order the tasks do it and
    before or after the health server starts; once it has started every metric
    is registered, each of them once. *)
Theorem metrics_never_panic `{MetricsLaws} touched :
  Forall (fun m => In m METRICS) touched ->
  (exists st, touch_all [] touched = Some st) /\
  exists st, run_metrics touched = Some st /\ NoDup st /\ forall m, m ∈ st <-> m ∈ METRICS.
Proof.
  intros Ht. split.
  - destruct (touch_all_spec [] touched) as (st & Hs & _); [constructor|constructor|done|by exists st].
  - destruct (touch_all_spec [] (touched ++ METRICS)) as (st & Hs & Hn & Hel); [constructor|constructor| |].
    + apply Forall_app. split; [done|]. apply Forall_forall. intros m. apply list_elem_of_In.
    + exists st. split_and!; [done|done|]. intros m. rewrite Hel.
      rewrite Forall_forall in Ht. set_solver.
Qed.

(** A library that checks just that. *)
Definition checking_library : MetricsLibrary :=
  {| create := fun m => if valid_metric m then Ok tt else Err "invalid descriptor";
     register := fun m registry =>
       if existsb (String.eqb (metric_name m)) (map metric_name registry)
       then Err "duplicate metrics collector registration attempted" else Ok tt |}.
Global Instance checking_laws : @MetricsLaws checking_library.
Proof.
  split; [intros m Hv; cbv [create checking_library]; by rewrite Hv|]. intros m registry _ Hfree.
  cbv [register checking_library].
  destruct (existsb _ _) eqn:He; [|done]. apply existsb_exists in He as (n & Hn & <-%String.eqb_eq). done.
Qed.

Lemma metrics_never_panic_witness :
  exists st, @run_metrics checking_library [TETRAGON_CONNECTED; IS_LEADER; IS_LEADER] = Some st /\
    length st = 19%nat /\ NoDup st.
Proof.
  destruct (@metrics_never_panic checking_library checking_laws [TETRAGON_CONNECTED; IS_LEADER; IS_LEADER])
    as [_ (st & Hs & Hn & _)]; [repeat constructor; vm_compute; tauto|].
  exists st. split_and!; [exact Hs| |exact Hn].
  assert (Hl : length <$> @run_metrics checking_library [TETRAGON_CONNECTED; IS_LEADER; IS_LEADER] = Some 19%nat)
    by (vm_compute; reflexivity).
  rewrite Hs in Hl. by injection Hl.
Defined.
