(* ===== verification/Process.v ===== *)
(** * The agent process (main.rs, health.rs)

    What [main] does before it starts the loops, the endpoints of health.rs,
    and the process as a whole: the lease task, the collector loop, the command
    loop and the lifecycle watcher, which run side by side over one leader flag
    and are interleaved at every call.  A step relation makes one call or one
    decision of one task at a time, so that a trace is any prefix of any
    interleaving, whatever the API server, the hub and the lease library
    answer, and a shutdown may cut it anywhere. *)
From S2P Require Import Prelude RustStr Ordering Json Effects Kube Model Config Env Leader Startup Hub Policy Workload Access Demo Actions Executor Dedup Agent Operator Lifecycle Tetragon AppMetrics Monitoring Collect PgProbe Diagnosis Snapshot PgDemo.
Local Open Scope Z_scope.

(** ** Before the loops *)

(** [init_tracing]: the filter of the log. *)
Definition tracing_filter (env : environment) : string :=
  let set_text (v : string) := negb (str_is_empty (trim v)) in
  match opt_filter set_text (env !! "AGENT_LOG") with
  | Some filter => filter
  | None => unwrap_or "info" (opt_filter set_text (env !! "RUST_LOG"))
  end.

(** [main] up to the start of the mode; [client] is the answer of the
    Kubernetes client's builder. *)
Definition start `{YamlList} (args : list string) (env : environment) (client : result string unit)
    : result string (RuntimeMode * Config) :=
  try mode := parse_runtime_mode args else e => Err e in
  try cfg := from_env_for_mode env mode else e => Err e in
  try _c := client else e => Err e in
  Ok (mode, cfg).

(** ** The health endpoints *)

Record DependencyFlags := { dependency_required : bool; flag_ready : bool }.
Definition flags_default : DependencyFlags := {| dependency_required := false; flag_ready := true |}.
Definition set_dependency_required (required : bool) (f : DependencyFlags) : DependencyFlags :=
  {| dependency_required := required; flag_ready := flag_ready f |}.
Definition set_dependency_ready (ready : bool) (f : DependencyFlags) : DependencyFlags :=
  {| dependency_required := dependency_required f; flag_ready := ready |}.

Record HealthResponse := { hr_status : Z; hr_content_type : option string; hr_body : string }.
Definition plain (status : Z) (body : string) : HealthResponse :=
  {| hr_status := status; hr_content_type := None; hr_body := body |}.

(** [handle]: the answer for a path; [metrics] and [format_type] are what the
    metrics library makes of the registry. *)
Definition handle (metrics format_type path : string) (f : DependencyFlags) : HealthResponse :=
  if String.eqb path "/healthz" || String.eqb path "/livez" then plain 200 "ok"
  else if String.eqb path "/readyz" then
    if Z.eqb (readyz (dependency_required f) (flag_ready f)) 503
    then plain 503 "dependency stream not ready" else plain 200 "ok"
  else if String.eqb path "/metrics" then
    {| hr_status := 200; hr_content_type := Some format_type; hr_body := metrics |}
  else plain 404 "not found".

(** What the configuration asks of the dependency stream. *)
Definition stream_required (cfg : Config) : bool :=
  collect_dependencies_tetragon cfg && tetragon_required_for_readiness cfg.

(** [tetragon::init]: the flags, and the manager if it starts.  [main] calls it
    once, so that the guard against a second start is down. *)
Definition tetragon_init (cfg : Config) (f : DependencyFlags) : DependencyFlags * option Manager :=
  let required := stream_required cfg in
  let f := set_dependency_required required f in
  if negb (collect_dependencies_tetragon cfg) then (set_dependency_ready true f, None)
  else (set_dependency_ready (negb required) f, Some (manager_init required)).

(** The flags once the manager has handled [events]; each of its health
    updates stores its own view of the streams. *)
Definition flags_after `{IpAddresses} (cfg : Config) (events : list manager_event) : DependencyFlags :=
  match tetragon_init cfg flags_default with
  | (f, None) => f
  | (f, Some m) =>
      set_dependency_ready
        (dependency_ready (manager_run (tetragon_grpc_port cfg) (stream_required cfg) events m)) f
  end.

(** ** The tasks *)

(** What a tick of the collector reads besides the flag. *)
Record TickInput := {
  ti_collected : result string Collected;
  ti_pod_log : string -> string -> string -> option string;
  ti_finish : list (nat * option WorkloadMonitoringPodLogs) -> list (nat * option WorkloadMonitoringPodLogs);
  ti_since_epoch : option Z; ti_now1 : Z; ti_now2 : Z }.
Notation tick_result := (TickOutcome * (list LogLine * suppressions))%type.
Notation loop_result := (option (CommandDedupState * bool)).

(** A task that waits for its next turn, or is within one; a collector loop
    without a period has ended. *)
Inductive CollectorTask :=
  | CollectorEnded
  | CollectorIdle (m : suppressions)
  | CollectorBusy (p : sprog tick_result).
Inductive WatcherTask :=
  | WatcherReading
  | WatcherRead (got : result KubeError ConfigMap)
  | WatcherBusy (p : kprog WatchState)
  | WatcherIdle (st : WatchState).

Record AgentState := {
  leader : LeaderState;
  collector : CollectorTask;
  commands : aprog loop_result;
  watcher : WatcherTask }.
Definition with_leader l s :=
  {| leader := l; collector := collector s; commands := commands s; watcher := watcher s |}.
Definition with_collector c s :=
  {| leader := leader s; collector := c; commands := commands s; watcher := watcher s |}.
Definition with_commands p s :=
  {| leader := leader s; collector := collector s; commands := p; watcher := watcher s |}.
Definition with_watcher w s :=
  {| leader := leader s; collector := collector s; commands := commands s; watcher := w |}.

(** What starts a turn of the watcher. *)
Inductive cause := Initial (got : result KubeError ConfigMap) | Input (i : watch_input).

Inductive label :=
  | Lease (a : LeaseAnswer)
  | TickStarts
  | Collector (e : sevent)
  | TickEnds (o : TickOutcome)
  | Commands (e : aevent)
  | TurnStarts (c : cause)
  | Watcher (e : kevent)
  | TurnEnds.

(** The command loop has ended the process. *)
Definition exited (s : AgentState) : bool :=
  match commands s with Ret (Some (_, true)) => true | _ => false end.

Section process.
Context `{Codec, Diagnostics, NativeTls, YamlList, HubCodec, LifecycleCodec}.
Context (package : string) (cfg : Config).

Definition tick (i : TickInput) (flag : bool) (m : suppressions) : sprog tick_result :=
  collector_turn package cfg (ti_pod_log i) (ti_finish i) (ti_since_epoch i) (ti_now1 i) (ti_now2 i)
    flag (ti_collected i) m.

Definition turn (c : cause) (flag : bool) (st : WatchState) : kprog WatchState :=
  match c with
  | Initial got => initial_turn (pod_namespace cfg) (pod_name cfg) flag got
  | Input i => x ← watch_turn (pod_namespace cfg) (pod_name cfg) flag i st; mret (fst x)
  end.

(** [run_agent_mode] when it has spawned the tasks; the command loop may make
    [rounds] rounds. *)
Definition agent_start (rounds : nat) : AgentState :=
  {| leader := leader_new;
     collector := if collect_interval cfg =? 0 then CollectorEnded else CollectorIdle ∅;
     commands := command_loop cfg rounds dedup_default;
     watcher := WatcherReading |}.

Inductive agent_step (s : AgentState) : label -> AgentState -> Prop :=
  | StepLease a :
      agent_step s (Lease a) (with_leader (fst (leader_turn (lease_ttl cfg) (leader s) a)) s)
  | StepTick i m : collector s = CollectorIdle m ->
      agent_step s TickStarts (with_collector (CollectorBusy (tick i (is_leader (leader s)) m)) s)
  | StepCollector o k x : collector s = CollectorBusy (Vis o k) ->
      agent_step s (Collector (ev o x)) (with_collector (CollectorBusy (k x)) s)
  | StepTickEnds o l m : collector s = CollectorBusy (Ret (o, (l, m))) ->
      agent_step s (TickEnds o) (with_collector (CollectorIdle m) s)
  | StepCommands o k x : commands s = Vis o k ->
      agent_step s (Commands (ev o x)) (with_commands (k x) s)
  | StepRead got : watcher s = WatcherReading ->
      agent_step s (Watcher (ev (R:=resp) (Get RConfigMap (Some (pod_namespace cfg)) CONFIG_MAP_NAME) got))
        (with_watcher (WatcherRead got) s)
  | StepInitial got : watcher s = WatcherRead got ->
      agent_step s (TurnStarts (Initial got))
        (with_watcher (WatcherBusy (turn (Initial got) (is_leader (leader s)) watch_start)) s)
  | StepInput i st : watcher s = WatcherIdle st ->
      agent_step s (TurnStarts (Input i))
        (with_watcher (WatcherBusy (turn (Input i) (is_leader (leader s)) st)) s)
  | StepWatcher o k x : watcher s = WatcherBusy (Vis o k) ->
      agent_step s (Watcher (ev o x)) (with_watcher (WatcherBusy (k x)) s)
  | StepTurnEnds st : watcher s = WatcherBusy (Ret st) ->
      agent_step s TurnEnds (with_watcher (WatcherIdle st) s).

(** The traces of the process. *)
Inductive reach (rounds : nat) : list label -> AgentState -> Prop :=
  | ReachStart : reach rounds [] (agent_start rounds)
  | ReachStep h l s s' :
      reach rounds h s -> exited s = false -> agent_step s l s' -> reach rounds (h ++ [l]) s'.

(** ** A scheduler

    Which task moves, with the answer it gets; a choice that does not apply is
    skipped. *)
Inductive choice :=
  | ChooseLease (a : LeaseAnswer)
  | ChooseTick (i : TickInput)
  | ChooseCollector (answer : forall o, sresp o)
  | ChooseCommands (answer : forall o, aresp o)
  | ChooseInput (i : watch_input)
  | ChooseWatcher (answer : forall o, resp o).

Definition advance (c : choice) (s : AgentState) : option (label * AgentState) :=
  match c with
  | ChooseLease a => Some (Lease a, with_leader (fst (leader_turn (lease_ttl cfg) (leader s) a)) s)
  | ChooseTick i =>
      match collector s with
      | CollectorIdle m => Some (TickStarts, with_collector (CollectorBusy (tick i (is_leader (leader s)) m)) s)
      | _ => None
      end
  | ChooseCollector answer =>
      match collector s with
      | CollectorBusy (Vis o k) => Some (Collector (ev o (answer o)), with_collector (CollectorBusy (k (answer o))) s)
      | CollectorBusy (Ret (o, (l, m))) => Some (TickEnds o, with_collector (CollectorIdle m) s)
      | _ => None
      end
  | ChooseCommands answer =>
      match commands s with
      | Vis o k => Some (Commands (ev o (answer o)), with_commands (k (answer o)) s)
      | _ => None
      end
  | ChooseInput i =>
      match watcher s with
      | WatcherIdle st =>
          Some (TurnStarts (Input i), with_watcher (WatcherBusy (turn (Input i) (is_leader (leader s)) st)) s)
      | _ => None
      end
  | ChooseWatcher answer =>
      match watcher s with
      | WatcherReading =>
          let got := answer (Get RConfigMap (Some (pod_namespace cfg)) CONFIG_MAP_NAME) in
          Some (Watcher (ev (R:=resp) (Get RConfigMap (Some (pod_namespace cfg)) CONFIG_MAP_NAME) got),
                with_watcher (WatcherRead got) s)
      | WatcherRead got =>
          Some (TurnStarts (Initial got),
                with_watcher (WatcherBusy (turn (Initial got) (is_leader (leader s)) watch_start)) s)
      | WatcherBusy (Vis o k) => Some (Watcher (ev o (answer o)), with_watcher (WatcherBusy (k (answer o))) s)
      | WatcherBusy (Ret st) => Some (TurnEnds, with_watcher (WatcherIdle st) s)
      | WatcherIdle _ => None
      end
  end.

Fixpoint serve_choices (l : list choice) (s : AgentState) : list label * AgentState :=
  match l with
  | [] => ([], s)
  | c :: l =>
      if exited s then ([], s) else
      match advance c s with
      | Some (x, s') => let '(h, s'') := serve_choices l s' in (x :: h, s'')
      | None => serve_choices l s
      end
  end.

Lemma advance_step c s x s' : advance c s = Some (x, s') -> agent_step s x s'.
Proof using Type.
  destruct c; simpl; repeat case_match; intros [= <- <-]; by econstructor.
Qed.

Lemma choices_reach rounds l h s :
  reach rounds h s -> reach rounds (h ++ fst (serve_choices l s)) (snd (serve_choices l s)).
Proof using Type.
  revert h s. induction l as [|c l IH]; intros h s Hr; cbn [serve_choices]; [by rewrite app_nil_r|].
  destruct (exited s) eqn:He; [by rewrite app_nil_r|].
  destruct (advance c s) as [[x s']|] eqn:Ha; [|by apply IH].
  specialize (IH (h ++ [x]) s' (ReachStep _ _ _ _ _ Hr He (advance_step _ _ _ _ Ha))).
  destruct (serve_choices l s') as [h' s'']. simpl in *. by rewrite <- app_assoc in IH.
Qed.

(** ** What a trace says *)

Definition leases_of (h : list label) : list LeaseAnswer :=
  omap (fun l => match l with Lease a => Some a | _ => None end) h.
Definition commands_of (h : list label) : list aevent :=
  omap (fun l => match l with Commands e => Some e | _ => None end) h.
Definition watcher_of (h : list label) : list kevent :=
  omap (fun l => match l with Watcher e => Some e | _ => None end) h.
Definition causes_of (h : list label) : list cause :=
  omap (fun l => match l with TurnStarts c => Some c | _ => None end) h.

(** The last answer of the lease library, errors apart, was the lease. *)
Definition leads (h : list label) : bool := acquired (last_answer (leases_of h)).

(** What the watcher knows from the causes of its turns. *)
Definition cause_state (st : WatchState) (c : cause) : WatchState :=
  match c with Initial got => initial_state got | Input i => observe i st end.
Definition watched (h : list label) : WatchState := fold_left cause_state (causes_of h) watch_start.
Definition cause_reconciles (c : cause) : bool :=
  match c with Initial _ => true | Input i => reconciles i end.

(** A change of the watcher, [t] after the start of a turn for [c] at [h]: it
    led at that time, and the change is one that the state asks for. *)
Definition turn_guard (h : list label) (c : cause) (t : list kevent) (o : op) : Prop :=
  mutating o = true ->
  leads h = true /\ cause_reconciles c = true /\
  exists enabled, last_enabled (watched (h ++ [TurnStarts c])) = Some enabled /\
    workload_guard (pod_namespace cfg) enabled (last_excluded (watched (h ++ [TurnStarts c]))) t o.

(** The collector only reads. *)
Definition quiet (o : sop) : Prop := match o with ApiCall o => mutating o = false | HubCall _ _ => True end.

(** What the process may do at a history. *)
Definition allowed (h : list label) (l : label) : Prop :=
  match l with
  | Commands e => loop_guard cfg (commands_of h) (op_of e)
  | Collector e =>
      quiet (op_of e) /\
      exists h0 h1, h = h0 ++ TickStarts :: h1 /\ ~ In TickStarts h1 /\ leads h0 = true
  | Watcher e =>
      mutating (op_of e) = true ->
      exists h0 c h1, h = h0 ++ TurnStarts c :: h1 /\ causes_of h1 = [] /\
        turn_guard h0 c (watcher_of h1) (op_of e)
  | _ => True
  end.

(** ** The invariant *)

Definition collector_ok (h : list label) (c : CollectorTask) : Prop :=
  match c with
  | CollectorBusy p =>
      (exists x, p = Ret x) \/
      (wp (fun _ => quiet) (fun _ _ => True) [] p /\
       exists h0 h1, h = h0 ++ TickStarts :: h1 /\ ~ In TickStarts h1 /\ leads h0 = true)
  | _ => True
  end.
Definition watcher_ok (h : list label) (w : WatcherTask) : Prop :=
  match w with
  | WatcherReading | WatcherRead _ => causes_of h = []
  | WatcherIdle st => st = watched h
  | WatcherBusy p =>
      exists h0 c h1, h = h0 ++ TurnStarts c :: h1 /\ causes_of h1 = [] /\
        wp (turn_guard h0 c) (fun st _ => st = watched (h0 ++ [TurnStarts c])) (watcher_of h1) p
  end.
Record agent_inv (h : list label) (s : AgentState) : Prop := {
  inv_leader : is_leader (leader s) = leads h;
  inv_collector : collector_ok h (collector s);
  inv_commands : wp (loop_guard cfg) loop_post (commands_of h) (commands s);
  inv_watcher : watcher_ok h (watcher s) }.

Lemma last_answer_snoc l a :
  last_answer (l ++ [a]) = match a with LeaseError => last_answer l | _ => Some a end.
Proof using Type.
  induction l as [|b l IH]; [by destruct a|]. cbn [app last_answer]. rewrite IH.
  by destruct a, (last_answer l).
Qed.

Lemma leads_lease h a st :
  is_leader st = leads h -> is_leader (fst (leader_turn (lease_ttl cfg) st a)) = leads (h ++ [Lease a]).
Proof using Type.
  intros Hs. unfold leads, leases_of. rewrite omap_app. cbn. rewrite last_answer_snoc. by destruct a.
Qed.

Lemma leads_other h l : (forall a, l <> Lease a) -> leads (h ++ [l]) = leads h.
Proof using Type.
  intros Hl. unfold leads, leases_of. rewrite omap_app. destruct l; simpl; rewrite ?app_nil_r; try done.
  by destruct (Hl a).
Qed.

Lemma causes_app h1 h2 : causes_of (h1 ++ h2) = causes_of h1 ++ causes_of h2.
Proof using Type. unfold causes_of. by rewrite omap_app. Qed.

Lemma causes_other h l : (forall c, l <> TurnStarts c) -> causes_of (h ++ [l]) = causes_of h.
Proof using Type.
  intros Hl. unfold causes_of. rewrite omap_app. destruct l; simpl; rewrite ?app_nil_r; try done.
  by destruct (Hl c).
Qed.

Lemma watched_turn h c : watched (h ++ [TurnStarts c]) = cause_state (watched h) c.
Proof using Type. unfold watched, causes_of. by rewrite omap_app, fold_left_app. Qed.

Lemma watched_since h0 c h1 :
  causes_of h1 = [] -> watched (h0 ++ [TurnStarts c]) = watched (h0 ++ TurnStarts c :: h1).
Proof using Type.
  intros Hh1. unfold watched. replace (h0 ++ TurnStarts c :: h1) with ((h0 ++ [TurnStarts c]) ++ h1)
    by (by rewrite <- app_assoc).
  by rewrite (causes_app _ h1), Hh1, app_nil_r.
Qed.

(** A label that is not of a task leaves its part of the invariant alone. *)
Lemma collector_ok_other h l c : l <> TickStarts -> collector_ok h c -> collector_ok (h ++ [l]) c.
Proof using Type.
  intros Hl. destruct c as [| |p]; [done|done|]. intros [Hr|(Hp & h0 & h1 & -> & Hn & Hlead)]; [by left|].
  right. split; [done|]. exists h0, (h1 ++ [l]). split; [by rewrite <- app_assoc|].
  split; [|done]. rewrite in_app_iff. intros [?|[?|[]]]; auto.
Qed.

Lemma watcher_ok_other h l w :
  (forall c, l <> TurnStarts c) -> (forall e, l <> Watcher e) -> watcher_ok h w -> watcher_ok (h ++ [l]) w.
Proof using Type.
  intros Hc He. destruct w as [| |p|st]; simpl; unfold watched; rewrite ?causes_other by done; try done.
  intros (h0 & c & h1 & -> & Hh1 & Hp). exists h0, c, (h1 ++ [l]).
  split; [by rewrite <- app_assoc|]. rewrite causes_other by done. split; [done|].
  unfold watcher_of in *. rewrite omap_app. destruct l; simpl; rewrite ?app_nil_r; try done. by destruct (He e).
Qed.

Lemma commands_other h l : (forall e, l <> Commands e) -> commands_of (h ++ [l]) = commands_of h.
Proof using Type.
  intros Hl. unfold commands_of. rewrite omap_app. destruct l; simpl; rewrite ?app_nil_r; try done.
  by destruct (Hl e).
Qed.

(** ** The turns *)

Lemma wp_hub {A} body (p : hprog A) t : wp (fun _ => quiet) (fun _ _ => True) t (hub body p).
Proof using Type. revert t. induction p as [a|o k IH]; intros t; simpl; auto. Qed.

Lemma wp_api {A} (p : kprog A) t t' :
  wp (fun (_ : list kevent) o => mutating o = false) (fun _ _ => True) t p -> wp (fun _ => quiet) (fun _ _ => True) t' (api p).
Proof using Type. revert t t'. induction p as [a|o k IH]; intros t t'; simpl; [done|]. intros [? ?]; eauto. Qed.

Lemma quiet_any {A} (p : sprog A) t t' :
  wp (fun _ => quiet) (fun _ _ => True) t p -> wp (fun _ => quiet) (fun _ _ => True) t' p.
Proof using Type. revert t t'. induction p as [a|o k IH]; intros t t'; simpl; [done|]. intros [? ?]; eauto. Qed.

Lemma quiet_tick i m t : wp (fun _ => quiet) (fun _ _ => True) t (tick i true m).
Proof using Type.
  unfold tick, collector_turn. cbn [negb]. apply wp_bind. apply wp_mono with (Q := fun _ _ => True); [|done].
  unfold build_and_send. destruct (ti_collected i) as [c|e]; [|done].
  apply wp_bind. eapply wp_mono; [eapply (wp_api _ []), reads_snapshot|]. intros snap t1 _.
  apply wp_bind. eapply wp_mono; [apply wp_hub|]. done.
Qed.

(** The reconciliation of a turn, if it leads and the state asks for one. *)
Lemma wp_turn_reconcile {A} h c (f : kprog A) Q t :
  (forall t', wp (turn_guard h c) Q t' f) ->
  wp (turn_guard h c) Q t
    (_ ← match last_enabled (watched (h ++ [TurnStarts c])) with
         | Some enabled =>
             if cause_reconciles c && leads h then
               reconcile_operator_workload (pod_namespace cfg) (pod_name cfg) enabled
                 (last_excluded (watched (h ++ [TurnStarts c])))
             else mret (Ok tt)
         | None => mret (Ok tt)
         end; f).
Proof using Type.
  intros Hf. wp_step.
  destruct (last_enabled (watched (h ++ [TurnStarts c]))) as [enabled|] eqn:Hen; [|wp_step; apply Hf].
  destruct (cause_reconciles c && leads h) eqn:Hcl; [|wp_step; apply Hf].
  apply andb_true_iff in Hcl as [Hc Hl]. eapply wp_guard_mono.
  - apply wp_reconcile_operator_workload. intros x t' _. apply Hf.
  - intros t' o Hg Hm. split_and!; [done|done|]. by exists enabled; auto.
Qed.

Lemma wp_turn h c :
  wp (turn_guard h c) (fun st _ => st = watched (h ++ [TurnStarts c])) [] (turn c (leads h) (watched h)).
Proof using Type.
  pose proof (fun A => wp_turn_reconcile (A:=A) h c) as Hrec. rewrite watched_turn in Hrec |- *.
  destruct c as [got|i]; cbn [turn].
  - unfold initial_turn. apply Hrec. intros t. by wp_step.
  - unfold watch_turn. wp_step. apply Hrec. intros t. wp_step. by wp_step.
Qed.

(** ** Every step keeps it *)

Lemma inv_start rounds : agent_inv [] (agent_start rounds).
Proof using Type.
  split; [done| |apply wp_command_loop, loop_inv_start|done].
  simpl. by destruct (collect_interval cfg =? 0).
Qed.

Lemma step_allowed h s l s' : agent_inv h s -> agent_step s l s' -> allowed h l.
Proof using Type.
  intros [Hl Hc Hp Hw] Hs. destruct Hs as [| |o k x Hs| |o k x Hs| | | |o k x Hs|]; simpl; try done.
  - rewrite Hs in Hc. destruct Hc as [(y & [=])|(Hq & Hsince)]. split; [apply Hq|exact Hsince].
  - rewrite Hs in Hp. apply Hp.
  - rewrite Hs in Hw. destruct Hw as (h0 & c & h1 & -> & Hh1 & Hg & _). intros _. by exists h0, c, h1.
Qed.

Lemma step_inv h s l s' : agent_inv h s -> agent_step s l s' -> agent_inv (h ++ [l]) s'.
Proof using Type.
  intros [Hl Hc Hp Hw] Hs.
  destruct Hs as [a|i m Hs|o k x Hs|o ls m Hs|o k x Hs|got Hs|got Hs|i st Hs|o k x Hs|st Hs];
    split; cbn [leader collector commands watcher with_leader with_collector with_commands with_watcher];
    rewrite ?commands_other by done; try done;
    try (by apply leads_lease); try (by rewrite leads_other);
    try (by apply collector_ok_other); try (by apply watcher_ok_other).
  - rewrite Hl. destruct (leads h) eqn:Hh; [|left; by exists (SkippedNotLeader, ([], m))].
    right. split; [apply quiet_tick|]. exists h, []. split_and!; [done|by intros []|done].
  - rewrite Hs in Hc. destruct Hc as [(y & [=])|(Hq & Hsince)].
    refine (collector_ok_other h _ (CollectorBusy (k x)) _ _); [done|]. right. split; [|exact Hsince].
    destruct Hq as [_ Hk]. exact (quiet_any _ _ _ (Hk x)).
  - rewrite Hs in Hp. unfold commands_of. rewrite omap_app. apply Hp.
  - simpl in *. rewrite Hs in Hw. by rewrite causes_other.
  - pose proof (wp_turn h (Initial got)) as Hturn. rewrite Hl.
    exists h, (Initial got), []. split_and!; [done|done|exact Hturn].
  - rewrite Hs in Hw. simpl in Hw. subst st. rewrite Hl.
    exists h, (Input i), []. split_and!; [done|done|apply wp_turn].
  - rewrite Hs in Hw. destruct Hw as (h0 & c & h1 & -> & Hh1 & _ & Hk).
    exists h0, c, (h1 ++ [Watcher (ev o x)]). split; [by rewrite <- app_assoc|].
    rewrite causes_other by done. split; [done|]. unfold watcher_of. rewrite omap_app. apply Hk.
  - rewrite Hs in Hw. destruct Hw as (h0 & c & h1 & -> & Hh1 & ->). cbn [watcher_ok].
    rewrite (watched_since _ _ _ Hh1). unfold watched. by rewrite causes_other.
Qed.
End process.

(** ** Properties *)

Section reachable.
Context `{Codec, Diagnostics, NativeTls, YamlList, HubCodec, LifecycleCodec}.
Context (package : string) (cfg : Config).

Lemma reach_inv rounds h s : reach package cfg rounds h s -> agent_inv cfg h s.
Proof using Type. induction 1; [apply inv_start|by eapply step_inv]. Qed.

Lemma reach_allowed rounds h s h1 l h2 :
  reach package cfg rounds h s -> h = h1 ++ l :: h2 -> allowed cfg h1 l.
Proof using Type.
  intros Hr. revert h2. induction Hr as [|h x s s' Hr IH He Hs]; intros h2 Heq; [by destruct h1|].
  destruct h2 as [|y h2 _] using rev_ind.
  - apply app_inj_tail in Heq as [-> ->]. eapply step_allowed; [by eapply reach_inv|done].
  - rewrite app_comm_cons, app_assoc in Heq. apply app_inj_tail in Heq as [-> _]. by eapply IH.
Qed.
End reachable.

(** C25: the agent as a whole, however its tasks are interleaved and wherever a
    shutdown cuts them.  The cluster is changed by two tasks alone: by the
    command loop, as [loop_guard] allows from the commands' own history, and by
    the lifecycle watcher, in a turn at whose start the last answer of the
    lease library was the lease, and only as the ConfigMap it saw last asks.
    The collector changes nothing, and calls the API server or the hub only in
    a tick at whose start the agent led. *)
Theorem agent_safe `{Codec, Diagnostics, NativeTls, YamlList, HubCodec, LifecycleCodec}
    package cfg rounds h s h1 l h2 :
  reach package cfg rounds h s -> h = h1 ++ l :: h2 -> allowed cfg h1 l.
Proof. apply reach_allowed. Qed.

(** What is excluded of a standby agent: changes, and any call of the collector. *)
Definition label_changes (l : label) : bool :=
  match l with
  | Commands e => changes (op_of e)
  | Watcher e => mutating (op_of e)
  | Collector _ => true
  | _ => false
  end.

Lemma leads_acquired h : leads h = true -> In Acquired (leases_of h).
Proof.
  unfold leads. induction (leases_of h) as [|a l IH]; [done|]. cbn [last_answer].
  destruct (last_answer l) as [b|]; [intros Hb; right; by apply IH|]. destruct a; try done. by left.
Qed.

Lemma leases_prefix h0 l h1 : In Acquired (leases_of h0) -> In Acquired (leases_of (h0 ++ l :: h1)).
Proof. unfold leases_of. rewrite omap_app, in_app_iff. auto. Qed.

(** C38: a standby agent is inert: with actions off and the lease never acquired, no
    task changes anything in the cluster, and no snapshot is built or sent. *)
Theorem standby_agent_inert `{Codec, Diagnostics, NativeTls, YamlList, HubCodec, LifecycleCodec}
    package cfg rounds h s :
  reach package cfg rounds h s -> actions_enabled cfg = false -> ~ In Acquired (leases_of h) ->
  Forall (fun l => label_changes l = false) h.
Proof.
  intros Hr Hoff Hlease. apply Forall_forall. intros l (h1 & h2 & ->)%list_elem_of_split.
  pose proof (reach_allowed _ _ _ _ _ _ _ _ Hr eq_refl) as Ha.
  assert (Hno : forall h0 x h3, h1 = h0 ++ x :: h3 -> leads h0 = true -> False).
  { intros h0 x h3 -> Hl%leads_acquired. apply Hlease. rewrite <- app_assoc. by apply leases_prefix. }
  destruct l as [| |e| |e| |e|]; try done; simpl in Ha |- *.
  - destruct Ha as (_ & h0 & h3 & Hh & _ & Hl). by destruct (Hno _ _ _ Hh Hl).
  - destruct e as [[o| | |] x]; try done. simpl in *. destruct (mutating o) eqn:Hm; [|done].
    destruct Ha as (cmd & g & t & _ & _ & _ & Hg). destruct (Hg Hm) as [Hon _]. congruence.
  - destruct (mutating (op_of e)) eqn:Hm; [|done].
    destruct (Ha eq_refl) as (h0 & c & h3 & Hh & _ & Hg). destruct (Hg Hm) as [Hl _]. by destruct (Hno _ _ _ Hh Hl).
Qed.

(** The endpoints tell the state of the dependency stream: in whatever way the
    discoveries and the streams go, [/readyz] refuses exactly when the
    configuration requires a stream and none is connected; the liveness paths
    and [/metrics] are always served, and no other path is. *)
Theorem endpoints_exact `{IpAddresses} cfg events metrics format_type path :
  let m := manager_run (tetragon_grpc_port cfg) (stream_required cfg) events
             (manager_init (stream_required cfg)) in
  let answer := hr_status (handle metrics format_type path (flags_after cfg events)) in
  (answer = 503 <-> path = "/readyz" /\ stream_required cfg = true /\
                    connected_endpoints (streams m) = 0%nat) /\
  (answer = 404 <-> ~ In path ["/healthz"; "/livez"; "/readyz"; "/metrics"]) /\
  (answer = 200 \/ answer = 404 \/ answer = 503).
Proof.
  cbv zeta. set (m := manager_run _ _ _ _).
  assert (Hm : healthy (stream_required cfg) m).
  { apply run_healthy. split; [done|]. simpl. by rewrite orb_false_r. }
  assert (Hready : readyz (dependency_required (flags_after cfg events)) (flag_ready (flags_after cfg events)) =
    if stream_required cfg && (connected_endpoints (streams m) =? 0)%nat then 503 else 200).
  { unfold flags_after, tetragon_init. destruct (collect_dependencies_tetragon cfg) eqn:Hc; cbn.
    - fold m. destruct Hm as [Hg ->]. rewrite Hg. unfold readyz.
      destruct (stream_required cfg), (connected_endpoints (streams m)); done.
    - unfold stream_required. by rewrite Hc. }
  unfold handle. rewrite Hready. clear Hready Hm.
  destruct (String.eqb_spec path "/healthz"), (String.eqb_spec path "/livez"),
    (String.eqb_spec path "/readyz"), (String.eqb_spec path "/metrics"); subst; simpl; try congruence;
    try (split_and!; naive_solver).
  destruct (stream_required cfg); simpl; [|split_and!; naive_solver].
  destruct (Nat.eqb_spec (connected_endpoints (streams m)) 0); simpl; split_and!; naive_solver.
Qed.

(** What the watcher deploys starts: with the arguments of the container it
    writes, in whatever environment, the program comes up in operator mode,
    and the paths that the container's probes ask for are answered with 200. *)
Theorem operator_deployment_starts `{YamlList} image env metrics format_type :
  let get k := json_get k (operator_container image) in
  (exists args cfg, get "args" = Some (jstrs args) /\ start args env (Ok tt) = Ok (Operator, cfg)) /\
  Forall (fun probe => exists path,
      (v ← get probe; json_pointer ["httpGet"; "path"] v) = Some (JStr path) /\
      hr_status (handle metrics format_type path flags_default) = 200)
    ["startupProbe"; "livenessProbe"; "readinessProbe"].
Proof.
  cbv zeta. split.
  - eexists ["--mode"; "operator"], _. split; [reflexivity|]. unfold start.
    change (parse_runtime_mode ["--mode"; "operator"]) with (@Ok string RuntimeMode Operator).
    unfold from_env_for_mode, required_env. reflexivity.
  - repeat constructor; eexists; (split; [reflexivity|reflexivity]).
Qed.

(** ** The process in the sample cluster *)

Definition demo_process (l : list choice) : list label * AgentState :=
  @serve_choices demo_tls Env.demo_yaml demo_hub_codec demo_lifecycle_codec
    "1.0.0" (demo_config true) l
    (@agent_start (demo_codec demo_policy) demo_diagnostics (demo_config true) 1).

Definition demo_tick : TickInput :=
  {| ti_collected := Ok (demo_collected []); ti_pod_log := demo_log; ti_finish := id;
     ti_since_epoch := Some 7; ti_now1 := 0; ti_now2 := 0 |}.
Definition command_moves : choice := ChooseCommands (fun o => fst (demo_agent o (demo_start, 0%nat))).
Definition watcher_moves : choice := ChooseWatcher (fun o => fst (demo_watch o tt)).
Definition collector_moves : choice := ChooseCollector (fun o => fst (demo_clients o (demo_start, 0%nat))).

(** The agent gets the lease, the operator is enabled while a command runs and
    a snapshot is sent, and the lease is lost in the middle of it all. *)
Definition demo_schedule : list choice :=
  [command_moves; ChooseLease Acquired] ++ repeat watcher_moves 5 ++
  [ChooseInput (Modified (config_map [("ACTION_OPERATOR_ENABLED", "true")])); ChooseTick demo_tick] ++
  concat (repeat [collector_moves; command_moves; watcher_moves] 4) ++ [ChooseLease NotAcquired] ++
  concat (repeat [watcher_moves; command_moves; collector_moves] 12).
Definition demo_trace : list label := fst (demo_process demo_schedule).

Lemma demo_reach :
  @reach (demo_codec demo_policy) demo_diagnostics demo_tls Env.demo_yaml demo_hub_codec demo_lifecycle_codec
    "1.0.0" (demo_config true) 1 demo_trace (snd (demo_process demo_schedule)).
Proof.
  exact (@choices_reach (demo_codec demo_policy) demo_diagnostics demo_tls Env.demo_yaml demo_hub_codec
    demo_lifecycle_codec "1.0.0" (demo_config true) 1 demo_schedule [] _ (ReachStart _ _ _)).
Qed.

(** The watcher still works on its turn when the lease is lost, and the command
    loop scales the deployment between two of its changes. *)
Lemma agent_safe_witness :
  exists e e', demo_trace !! 22%nat = Some (Watcher e) /\ mutating (op_of e) = true /\
    leads (take 22 demo_trace) = false /\
    @allowed (demo_codec demo_policy) demo_lifecycle_codec (demo_config true) (take 22 demo_trace) (Watcher e) /\
    demo_trace !! 28%nat = Some (Commands e') /\ changes (op_of e') = true /\
    @allowed (demo_codec demo_policy) demo_lifecycle_codec (demo_config true) (take 28 demo_trace) (Commands e').
Proof.
  pose proof (fun n l (Hl : demo_trace !! n = Some l) =>
    @agent_safe _ _ _ _ _ _ _ _ _ _ _ _ l _ demo_reach (split_at _ _ _ Hl)) as Hsafe.
  assert (Hw : (l ← demo_trace !! 22%nat; if l is Watcher e then Some (mutating (op_of e)) else None) = Some true)
    by (vm_compute; reflexivity).
  assert (Hc : (l ← demo_trace !! 28%nat; if l is Commands e then Some (changes (op_of e)) else None) = Some true)
    by (vm_compute; reflexivity).
  destruct (demo_trace !! 22%nat) as [l|] eqn:H22; [|discriminate Hw].
  destruct (demo_trace !! 28%nat) as [l'|] eqn:H28; [|discriminate Hc].
  pose proof (Hsafe _ _ H22) as Sw. pose proof (Hsafe _ _ H28) as Sc.
  destruct l as [| | | | | |e|]; try discriminate Hw. destruct l' as [| | | |e'| | |]; try discriminate Hc.
  injection Hw as Hw. injection Hc as Hc.
  exists e, e'. split_and!; done.
Defined.

(** The same schedule without the lease and with actions off: the tick is
    skipped, the commands are refused, the watcher only reads. *)
Definition without_lease : list choice :=
  map (fun c => match c with ChooseLease _ => ChooseLease NotAcquired | c => c end) demo_schedule.
Definition demo_standby : list label * AgentState :=
  @serve_choices demo_tls Env.demo_yaml demo_hub_codec demo_lifecycle_codec "1.0.0" (demo_config false)
    without_lease
    (@agent_start (demo_codec demo_policy) demo_diagnostics (demo_config false) 1).

Lemma standby_agent_inert_witness :
  length (fst demo_standby) = 13%nat /\ Forall (fun l => label_changes l = false) (fst demo_standby).
Proof.
  split; [vm_compute; reflexivity|].
  apply (@standby_agent_inert (demo_codec demo_policy) demo_diagnostics demo_tls Env.demo_yaml demo_hub_codec
    demo_lifecycle_codec "1.0.0" (demo_config false) 1 (fst demo_standby) (snd demo_standby)).
  - exact (@choices_reach (demo_codec demo_policy) demo_diagnostics demo_tls Env.demo_yaml demo_hub_codec
      demo_lifecycle_codec "1.0.0" (demo_config false) 1 without_lease [] _ (ReachStart _ _ _)).
  - reflexivity.
  - vm_compute. intuition discriminate.
Defined.
