(* ===== verification/System.v ===== *)
(** * The agents, the operator and the API server between them

    Any number of agent processes (Process.v) and the operator (Operator.v),
    each of which may be started again at any time, in any interleaving.  They
    meet in the policies: the operator patches the statuses, the executors read
    them back.  Of the API server that is all that is assumed here, that a
    status which an executor decodes is one that was patched ([honest]), and of
    the encoding of statuses that it loses nothing ([StatusCodecLaw]). *)
From S2P Require Import Prelude Lifecycle RustStr Json Effects Kube Model Config Env Startup Hub Policy Access Demo Actions Executor Dedup Agent Operator Governance PgProbe Leader Snapshot PgDemo Process.
Local Open Scope Z_scope.

Class StatusCodecLaw `{OperatorCodec} : Prop :=
  status_encoding : forall st st', status_to_value st = status_to_value st' -> st = st'.

Record System := { agents : gmap nat AgentState; operator : kprog unit }.
Definition with_agent (i : nat) (s : AgentState) (S : System) : System :=
  {| agents := <[i := s]> (agents S); operator := operator S |}.
Definition with_operator (p : kprog unit) (S : System) : System :=
  {| agents := agents S; operator := p |}.

(** A process starts, for so many rounds or ticks at most, or goes on. *)
Inductive sys_event :=
  | AgentStarts (i rounds : nat)
  | AgentDoes (i : nat) (l : label)
  | OperatorStarts (ticks : nat)
  | OperatorDoes (e : kevent).

(** What a process has done since it was started last. *)
Definition agent_history (i : nat) (g : list sys_event) : list label :=
  fold_left (fun h e => match e with
    | AgentStarts j _ => if decide (j = i) then [] else h
    | AgentDoes j l => if decide (j = i) then h ++ [l] else h
    | _ => h end) g [].
Definition operator_history (g : list sys_event) : list kevent :=
  fold_left (fun h e => match e with
    | OperatorStarts _ => []
    | OperatorDoes e => h ++ [e]
    | _ => h end) g [].

Section system.
Context `{Codec, Diagnostics, NativeTls, YamlList, HubCodec, LifecycleCodec, OperatorCodec}.
(** The agents' configurations, which differ in the node, and the operator's. *)
Context (package : string) (cfg_of : nat -> Config) (operator_cfg : Config).

Definition sys_start : System := {| agents := ∅; operator := mret tt |}.

Inductive sys_step (S : System) : sys_event -> System -> Prop :=
  | StepAgentStarts i rounds :
      sys_step S (AgentStarts i rounds) (with_agent i (agent_start (cfg_of i) rounds) S)
  | StepAgent i s l s' :
      agents S !! i = Some s -> exited s = false -> agent_step package (cfg_of i) s l s' ->
      sys_step S (AgentDoes i l) (with_agent i s' S)
  | StepOperatorStarts ticks :
      sys_step S (OperatorStarts ticks) (with_operator (run_action_operator operator_cfg ticks) S)
  | StepOperator o k x : operator S = Vis o k ->
      sys_step S (OperatorDoes (ev o x)) (with_operator (k x) S).

(** A status of this value was patched on the policy. *)
Definition patched (g : list sys_event) (nm : string) (st : SentinellaHubActionPolicyStatus) : Prop :=
  exists x, In (OperatorDoes (ev (R:=resp) (status_patch nm st) x)) g.

(** The API server gives an executor no status that was not patched. *)
Definition honest (g : list sys_event) (e : sys_event) : Prop :=
  forall i listed policies p nm st,
    e = AgentDoes i (Commands (kube_event (ev (R:=resp) (ListObjs RPolicy None None) (Ok listed)))) ->
    decode_policies listed = Ok policies -> In p policies ->
    name (metadata p) = Some nm -> status p = Some st -> patched g nm st.

Inductive sys_reach : list sys_event -> System -> Prop :=
  | SysStart : sys_reach [] sys_start
  | SysStep g e S S' :
      sys_reach g S -> sys_step S e S' -> honest g e -> sys_reach (g ++ [e]) S'.

(** ** Projections *)

Lemma agent_history_snoc i g e :
  agent_history i (g ++ [e]) =
    match e with
    | AgentStarts j _ => if decide (j = i) then [] else agent_history i g
    | AgentDoes j l => if decide (j = i) then agent_history i g ++ [l] else agent_history i g
    | _ => agent_history i g
    end.
Proof using Type. unfold agent_history. by rewrite fold_left_app. Qed.

Lemma operator_history_snoc g e :
  operator_history (g ++ [e]) =
    match e with
    | OperatorStarts _ => []
    | OperatorDoes e => operator_history g ++ [e]
    | _ => operator_history g
    end.
Proof using Type. unfold operator_history. by rewrite fold_left_app. Qed.

Lemma agent_history_in i g l :
  In l (agent_history i g) -> exists u v, g = u ++ AgentDoes i l :: v.
Proof using Type.
  induction g as [|e g IH] using rev_ind; [done|]. rewrite agent_history_snoc.
  assert (Hlift : In l (agent_history i g) -> exists u v, g ++ [e] = u ++ AgentDoes i l :: v).
  { intros (u & v & ->)%IH. exists u, (v ++ [e]). by rewrite <- app_assoc. }
  destruct e as [j r|j l'|t|e]; auto; case_decide; subst; auto; [done|].
  rewrite in_app_iff. intros [?|[->|[]]]; auto. by exists g, [].
Qed.

(** An agent's history, cut at one of its steps. *)
Lemma agent_history_split i g a l b :
  agent_history i g = a ++ l :: b ->
  exists u v, g = u ++ AgentDoes i l :: v /\ agent_history i u = a.
Proof using Type.
  revert b. induction g as [|e g IH] using rev_ind; intros b Hg; [by destruct a|].
  assert (Hlift : forall b, agent_history i g = a ++ l :: b ->
    exists u v, g ++ [e] = u ++ AgentDoes i l :: v /\ agent_history i u = a).
  { intros b' (u & v & -> & Hu)%IH. exists u, (v ++ [e]). by rewrite <- app_assoc. }
  rewrite agent_history_snoc in Hg. destruct e as [j r|j l'|t|e]; eauto; case_decide; subst; eauto;
    [by destruct a|].
  destruct b as [|y b _] using rev_ind.
  - apply app_inj_tail in Hg as [<- ->]. by exists g, [].
  - rewrite app_comm_cons, app_assoc in Hg. apply app_inj_tail in Hg as [Hg _]. eauto.
Qed.

Lemma commands_of_split h a e b :
  commands_of h = a ++ e :: b -> exists u v, h = u ++ Commands e :: v /\ commands_of u = a /\ commands_of v = b.
Proof using Type.
  revert a. induction h as [|l h IH]; intros a Hh; [by destruct a|].
  destruct (match l with Commands x => Some x | _ => None end) as [x|] eqn:Hl.
  - destruct l; simplify_eq/=. destruct a as [|y a]; injection Hh as -> Hh.
    + by exists [], h.
    + destruct (IH _ Hh) as (u & v & -> & <- & Hv). by exists (Commands y :: u), v.
  - destruct (IH a) as (u & v & -> & <- & Hv); [by destruct l|].
    exists (l :: u), v. split_and!; [done|by destruct l|done].
Qed.

(** The same for the operations of the executor. *)
Lemma agent_commands_split i g a e b :
  commands_of (agent_history i g) = a ++ e :: b ->
  exists u v, g = u ++ AgentDoes i (Commands e) :: v /\ commands_of (agent_history i u) = a.
Proof using Type.
  intros (x & y & Hx & Ha & _)%commands_of_split.
  destruct (agent_history_split _ _ _ _ _ Hx) as (u & v & Hg & Hu). exists u, v. by rewrite Hu.
Qed.

(** Each agent runs as a process of its own, and every change of the operator
    answers to its own round. *)
Record sys_inv (g : list sys_event) (S : System) : Prop := {
  inv_agents : forall i s, agents S !! i = Some s ->
    exists rounds, reach package (cfg_of i) rounds (agent_history i g) s;
  inv_operator : wp (in_round operator_cfg) (fun _ _ => True) (operator_history g) (operator S) }.

Lemma sys_step_inv g S e S' : sys_inv g S -> sys_step S e S' -> sys_inv (g ++ [e]) S'.
Proof using Type.
  intros [Ha Ho] Hs. destruct Hs as [i rounds|i s l s' Hi He Hs|ticks|o k x Hs];
    split; cbn [agents operator with_agent with_operator];
    rewrite ?operator_history_snoc; try done;
    try (intros j sj; rewrite agent_history_snoc; try apply Ha).
  - rewrite lookup_insert_Some. intros [[-> <-]|[Hne Hj]].
    + exists rounds. rewrite decide_True by done. constructor.
    + rewrite decide_False by done. by apply Ha.
  - rewrite lookup_insert_Some. intros [[-> <-]|[Hne Hj]].
    + destruct (Ha j s Hi) as [rounds Hr]. exists rounds. rewrite decide_True by done.
      by econstructor.
    + rewrite decide_False by done. by apply Ha.
  - apply wp_run_action_operator.
  - rewrite Hs in Ho. apply Ho.
Qed.

Lemma sys_reach_inv g S : sys_reach g S -> sys_inv g S.
Proof using Type.
  induction 1 as [|g e S S' _ IH Hs _]; [|by eapply sys_step_inv].
  split; [intros i s; simpl; by rewrite lookup_empty|done].
Qed.

Lemma sys_reach_split g S u e v :
  sys_reach g S -> g = u ++ e :: v ->
  exists S1 S2, sys_reach u S1 /\ sys_step S1 e S2 /\ honest u e.
Proof using Type.
  intros Hr. revert v. induction Hr as [|g x S S' Hr IH Hs Hh]; intros v Heq; [by destruct u|].
  destruct v as [|y v _] using rev_ind.
  - apply app_inj_tail in Heq as [-> ->]. by exists S, S'.
  - rewrite app_comm_cons, app_assoc in Heq. apply app_inj_tail in Heq as [-> _]. by eapply IH.
Qed.

Lemma operator_did g S u e v :
  sys_reach g S -> g = u ++ OperatorDoes e :: v -> in_round operator_cfg (operator_history u) (op_of e).
Proof using Type.
  intros Hr Hg. destruct (sys_reach_split _ _ _ _ _ Hr Hg) as (S1 & S2 & Hr1 & Hs & _).
  apply sys_reach_inv in Hr1 as [_ Ho]. inversion Hs as [| | |o k x Hop]; subst. rewrite Hop in Ho. apply Ho.
Qed.

Lemma agent_did g S u i l v :
  sys_reach g S -> g = u ++ AgentDoes i l :: v -> allowed (cfg_of i) (agent_history i u) l.
Proof using Type.
  intros Hr Hg. destruct (sys_reach_split _ _ _ _ _ Hr Hg) as (S1 & S2 & Hr1 & Hs & _).
  apply sys_reach_inv in Hr1 as [Ha _]. inversion Hs as [|j s l' s' Hj He Hstep| |]; subst.
  destruct (Ha _ _ Hj) as [rounds Hreach]. eapply step_allowed; [by eapply reach_inv|exact Hstep].
Qed.
End system.

(** ** Properties *)

(** The round behind a permission at [u]: the operator patched the status [st]
    on a policy after the events [w]; the status is computed in the round [t],
    the last part of what the operator had done by then, from the namespaces
    and the policy listed in it, and grants permission. *)
Record round_behind `{Codec, OperatorCodec} (operator_cfg : Config) (u : list sys_event)
    (nm : string) (st : SentinellaHubActionPolicyStatus) (at_ms : Z) (namespaces : list Namespace)
    (p : SentinellaHubActionPolicy) (outcome : BindingReconcileOutcome) (t : list kevent) : Prop := {
  round_patched : exists w x w' h0, u = w ++ OperatorDoes (ev (R:=resp) (status_patch nm st) x) :: w' /\
    operator_history w = h0 ++ t;
  round_computed : computed operator_cfg nm st at_ms namespaces p outcome t;
  round_ready : ready_policy p (effective_namespaces st) outcome at_ms (stale_after_ms operator_cfg) }.

(** In the round [t] the namespace was listed as eligible, and bound. *)
Definition enabled_in `{Codec, OperatorCodec} (operator_cfg : Config) (namespaces : list Namespace)
    (t : list kevent) (nm : string) : Prop :=
  (exists ns, In ns namespaces /\ eligible (Config.action_operator_excluded_namespaces operator_cfg) ns nm) /\
  bound nm t.

Lemma live_status_ready p now after nm st :
  live p now after nm st -> condition_true (conditions st) "Ready" = true.
Proof. intros [_ _ _ Hr]. by apply condition_true_spec. Qed.

Definition policies_listed (listed : list DynamicObject) : aevent :=
  kube_event (ev (R:=resp) (ListObjs RPolicy None None) (Ok listed)).
Definition clock_read (now : Z) : aevent := kube_event (ev (R:=resp) NowMs now).

(** The agent [i], which runs the command [cmd] at [u], has judged the policy [p]:
    after the events [before] it listed [p], and what its executor did next is
    to read the clock, as [now]; at that time [p] authorised [a]. *)
Record judgement `{Codec} (cfg_of : nat -> Config) (u : list sys_event) (i : nat) (cmd : Command)
    (a : permit) (before : list sys_event) (now : Z) (p : SentinellaHubActionPolicy) : Prop := {
  judged_then : exists listed between after policies,
    u = before ++ AgentDoes i (Commands (policies_listed listed)) :: between ++
          AgentDoes i (Commands (clock_read now)) :: after /\
    commands_of (agent_history i (before ++ AgentDoes i (Commands (policies_listed listed)) :: between)) =
      commands_of (agent_history i before) ++ [policies_listed listed] /\
    decode_policies listed = Ok policies /\ In p policies;
  judged_in_run : exists h1 t t', next_in_line cmd h1 /\
    commands_of (agent_history i before) = h1 ++ map kube_event t /\
    commands_of (agent_history i u) = h1 ++ map kube_event t';
  judged_permitted : permitted (cfg_of i) a now p }.

Section governed.
Context `{Codec, Diagnostics, NativeTls, YamlList, HubCodec, LifecycleCodec, OperatorCodec}.
Context (Hlaw : StatusCodecLaw) (package : string) (cfg_of : nat -> Config) (operator_cfg : Config).
Let reached := sys_reach package cfg_of operator_cfg.

(** What was patched was computed in a round. *)
Lemma patched_computed g S nm st :
  reached g S -> patched g nm st ->
  exists w x w' h0 t at_ms namespaces p outcome,
    g = w ++ OperatorDoes (ev (R:=resp) (status_patch nm st) x) :: w' /\ operator_history w = h0 ++ t /\
    computed operator_cfg nm st at_ms namespaces p outcome t.
Proof using Hlaw.
  intros Hr (x & (w & w' & Hg)%in_split).
  destruct (operator_did _ _ _ _ _ _ _ _ Hr Hg) as (h0 & t & Ht & Hguard).
  destruct (Hguard eq_refl) as [(ns & nm' & d & _ & _ & _ & [?|(v & _ & ?)])|[(ns & nm' & _ & _ & ?)|
    (nm' & st' & at_ms & nss & p & outcome & Heq & Hc)]]; try discriminate.
  assert (nm' = nm /\ st' = st) as [-> ->].
  { unfold op_of, ev, status_patch in Heq. simpl in Heq. injection Heq as <- Hst.
    split; [done|]. by apply status_encoding. }
  by exists w, x, w', h0, t, at_ms, nss, p, outcome.
Qed.

(** A listed policy that is live: its status is a round's. *)
Lemma live_round u S p nm st now after :
  reached u S -> patched u nm st -> live p now after nm st ->
  exists at_ms namespaces q outcome t,
    round_behind operator_cfg u nm st at_ms namespaces q outcome t /\ now - at_ms <= after.
Proof using Hlaw.
  intros Hr Hp Hlive. destruct (patched_computed _ _ _ _ Hr Hp)
    as (w & x & w' & h0 & t & at_ms & nss & q & outcome & Hu & Ht & Hc).
  exists at_ms, nss, q, outcome, t. pose proof (live_status_ready _ _ _ _ _ Hlive) as Hready.
  destruct Hlive as [_ _ (last & Hl & Hf & _) _]. pose proof (computed_status _ _ _ _ _ _ _ _ Hc) as Hst.
  rewrite Hst in Hready, Hl. rewrite build_status_ready in Hready. apply ready_flag_spec in Hready.
  injection Hl as <-. split; [|done]. split; [by exists w, x, w', h0|done|]. by rewrite Hst.
Qed.

(** Where the status says that actions are effective, the round enabled them. *)
Lemma round_enabled u nm st at_ms namespaces q outcome t ns :
  round_behind operator_cfg u nm st at_ms namespaces q outcome t ->
  In ns (effective_namespaces st) -> enabled_in operator_cfg namespaces t ns.
Proof using Type.
  intros [_ Hc [_ [Hperm _] _ _ _ _]] Hin. pose proof (computed_settled _ _ _ _ _ _ _ _ Hc Hperm) as Hs.
  rewrite (computed_status _ _ _ _ _ _ _ _ Hc) in Hin. apply effective_namespaces_in in Hin as (n & Hn & He).
  split; [by exists n|]. rewrite Forall_forall in Hs. apply (Hs n (proj2 (list_elem_of_In _ _) Hn) ns (proj1 He)). done.
Qed.

(** The policy that authorised a command of an agent: where it was judged, what
    its status is by then, and how the run went on from there. *)
Lemma consulted_round u S i cmd a h1 t :
  reached u S -> commands_of (agent_history i u) = h1 ++ map kube_event t -> next_in_line cmd h1 ->
  consulted (cfg_of i) a t ->
  exists before S' now p, reached before S' /\ judgement cfg_of u i cmd a before now p /\
    forall nm st, name (metadata p) = Some nm -> status p = Some st -> patched before nm st.
Proof using Hlaw.
  intros Hr Hh Hnext (t1 & listed & now & t2 & ps & p & -> & Hd & Hin & Hperm).
  assert (Hn : commands_of (agent_history i u) =
    ((h1 ++ map kube_event t1) ++ [policies_listed listed]) ++ clock_read now :: map kube_event t2).
  { rewrite Hh, !map_app, <- !app_assoc. done. }
  destruct (agent_commands_split _ _ _ _ _ Hn) as (u0 & after & Hu & Hu0).
  destruct (agent_commands_split _ _ _ _ _ Hu0) as (before & between & -> & Hb).
  rewrite <- app_assoc in Hu. cbn [app] in Hu.
  destruct (sys_reach_split _ _ _ _ _ _ _ _ Hr Hu) as (S' & _ & Hr' & _ & Hhonest).
  exists before, S', now, p. split_and!; [done|split|].
  - exists listed, between, after, ps. split_and!; [exact Hu| |done|done]. by rewrite Hb.
  - exists h1, t1, (t1 ++ [ev (R:=resp) (ListObjs RPolicy None None) (Ok listed); ev NowMs now] ++ t2).
    split_and!; [done|done|exact Hh].
  - done.
  - intros nm st Hnm Hst. by apply (Hhonest _ _ _ _ _ _ eq_refl Hd Hin Hnm Hst).
Qed.
End governed.

(** What is behind a change [o] of the agent [i] at [u]: a policy that it judged
    while it runs the command, and the round that had written its status before
    the policy was listed. *)
Definition governed_change `{Codec, OperatorCodec} (cfg_of : nat -> Config) (operator_cfg : Config)
    (u : list sys_event) (i : nat) (o : op) : Prop :=
  exists cmd a, actions_enabled (cfg_of i) = true /\ permit_kind a = cmd_kind cmd /\ covers a o /\
    exists before now p nm st at_ms namespaces q outcome t,
      judgement cfg_of u i cmd a before now p /\
      name (metadata p) = Some nm /\ status p = Some st /\
      round_behind operator_cfg before nm st at_ms namespaces q outcome t /\
      now - at_ms <= stale_after_ms (cfg_of i) /\
      match a with
      | NamespacePermit ns kind _ _ =>
          enabled_in operator_cfg namespaces t ns \/ (kind = "update_agent" /\ ns = UPDATE_AGENT_NAMESPACE)
      | ClusterPermit _ => exists ns, enabled_in operator_cfg namespaces t ns
      end.

Lemma changes_governed_at `{Codec, Diagnostics, NativeTls, YamlList, HubCodec, LifecycleCodec, OperatorCodec}
    (Hlaw : StatusCodecLaw) package cfg_of operator_cfg g S u i e v o :
  sys_reach package cfg_of operator_cfg g S ->
  g = u ++ AgentDoes i (Commands e) :: v -> op_of e = Kube o -> mutating o = true ->
  governed_change cfg_of operator_cfg u i o.
Proof.
  intros Hr Hg Ho Hm. pose proof (agent_did _ _ _ _ _ _ _ _ _ Hr Hg) as Ha. simpl in Ha. rewrite Ho in Ha.
  destruct Ha as (cmd & h1 & t & Hh & Hnext & _ & Hguard).
  destruct (Hguard Hm) as (Hon & (a & Hk & Hcons & Hcov) & _).
  destruct (sys_reach_split _ _ _ _ _ _ _ _ Hr Hg) as (S1 & _ & Hr1 & _).
  destruct (consulted_round Hlaw _ _ _ _ _ _ _ _ _ _ Hr1 Hh Hnext Hcons)
    as (before & S' & now & p & Hr' & Hj & Hpatched).
  exists cmd, a. split_and!; [done..|]. pose proof (judged_permitted _ _ _ _ _ _ _ _ Hj) as Hperm.
  assert (Hlive : exists nm st, live p now (stale_after_ms (cfg_of i)) nm st /\
    match a with NamespacePermit ns kind _ _ => namespace_governed ns kind (effective_namespaces st)
    | _ => True end).
  { destruct a as [ns kind tk rs|kind]; destruct Hperm as (nm & st & Hl & Hrest); exists nm, st; tauto. }
  destruct Hlive as (nm & st & Hlive & Hns). pose proof Hlive as [Hn Hst _ _].
  destruct (live_round Hlaw _ _ _ _ _ _ _ _ _ _ Hr' (Hpatched _ _ Hn Hst) Hlive)
    as (at_ms & nss & q & outcome & w & Hround & Hfresh).
  exists before, now, p, nm, st, at_ms, nss, q, outcome, w. split_and!; [done..|].
  destruct a as [ns kind tk rs|kind].
  - destruct Hns as [Hns|Hns]; [left|by right]. by eapply round_enabled.
  - destruct (effective_namespaces st) as [|ns l] eqn:He.
    { pose proof (round_ready _ _ _ _ _ _ _ _ _ Hround) as [Hne _ _ _ _ _]. by rewrite He in Hne. }
    exists ns. eapply round_enabled; [done|]. rewrite He. by left.
Qed.


(** The namespace of a patch. *)
Definition patched_namespace (o : op) : option string :=
  match o with
  | PatchObj _ ns _ _ _ => ns
  | PatchScale ns _ _ _ => Some ns
  | _ => None
  end.

Lemma operator_history_in g e :
  In e (operator_history g) -> In (OperatorDoes e) g.
Proof.
  induction g as [|x g IH] using rev_ind; [done|]. rewrite operator_history_snoc, in_app_iff.
  destruct x as [?|?|?|e']; auto; [done|]. rewrite in_app_iff. intros [?|[->|[]]]; auto. right. by left.
Qed.

Lemma covers_patch a o ns :
  covers a o -> patched_namespace o = Some ns -> exists kind tk rs, a = NamespacePermit ns kind tk rs.
Proof.
  intros Hc Hns. unfold covers in Hc.
  destruct a as [ns' kind tk rs|kind], o; try discriminate Hns; simpl in Hns;
    repeat case_match; simplify_eq; try done; destruct Hc as [-> _]; by repeat eexists.
Qed.

(** The operator has never seen the namespace enabled. *)
Definition never_enabled (operator_cfg : Config) (g : list sys_event) (nm : string) : Prop :=
  forall namespaces, In (OperatorDoes (ev (R:=resp) (ListObjs RNamespace None None) (Ok namespaces))) g ->
    forall ns, In ns namespaces ->
      ~ eligible (Config.action_operator_excluded_namespaces operator_cfg) ns nm.

(** C2: a namespace in which no listing of the operator ever showed actions
    enabled, by its label and the exclusions, is never patched or scaled in by
    an executor, in any interleaving of any number of agents, the agents' own
    namespace apart.  (The evictions of a drain follow the node, not the
    namespace.) *)
Theorem unlabelled_namespace_untouched
    `{Codec, Diagnostics, NativeTls, YamlList, HubCodec, LifecycleCodec, OperatorCodec}
    (Hlaw : StatusCodecLaw) package cfg_of operator_cfg g S nm :
  sys_reach package cfg_of operator_cfg g S -> never_enabled operator_cfg g nm ->
  nm <> UPDATE_AGENT_NAMESPACE ->
  forall i e o, In (AgentDoes i (Commands e)) g -> op_of e = Kube o -> mutating o = true ->
    patched_namespace o <> Some nm.
Proof.
  intros Hr Hnever Hown i e o (u & v & Hg)%in_split Ho Hm Hns.
  destruct (changes_governed_at Hlaw _ _ _ _ _ _ _ _ _ _ Hr Hg Ho Hm)
    as (cmd & a & _ & _ & Hcov & before & now & p & n & st & at_ms & nss & q & outcome & t & Hj & _ & _ &
      Hround & _ & Ha).
  destruct (covers_patch _ _ _ Hcov Hns) as (kind & tk & rs & ->).
  destruct Ha as [[(ns & Hin & He) _]|[_ ?]]; [|done].
  destruct Hround as [(w & x & w' & h0 & Hu & Ht) [(items & ps & rest & Hrest & _) _ _ _] _].
  destruct Hj as [(listed & between & after & policies & Hj & _) _ _].
  apply (Hnever nss) with ns; [|done|done]. rewrite Hg, Hj, Hu. rewrite !in_app_iff. do 3 left.
  apply operator_history_in. rewrite Ht, Hrest, in_app_iff. right. simpl. auto.
Qed.

(** C1: from end to end: whenever an executor changes the cluster, in any
    interleaving of any number of agents and the operator with restarts of each,
    actions are enabled and, while it runs that command, the executor listed the
    policies and next read the clock, and one of the listed policies authorised
    the command at that reading; and before that listing the operator had
    written the status of that policy, which calls it Ready, in a round that
    had started, by the clocks, no longer than the freshness window before the
    reading.  For a command in a namespace, except [update_agent] in the agent's
    own, that round itself had listed the namespace with the label and not
    excluded, and had put the role binding there; for a drain it had done so
    with some namespace. *)
Theorem changes_governed `{Codec, Diagnostics, NativeTls, YamlList, HubCodec, LifecycleCodec, OperatorCodec}
    (Hlaw : StatusCodecLaw) package cfg_of operator_cfg g S u i e v o :
  sys_reach package cfg_of operator_cfg g S ->
  g = u ++ AgentDoes i (Commands e) :: v -> op_of e = Kube o -> mutating o = true ->
  governed_change cfg_of operator_cfg u i o.
Proof. apply (changes_governed_at Hlaw). Qed.

(** ** A scheduler *)

Inductive sys_choice :=
  | StartAgent (i rounds : nat)
  | AgentMoves (i : nat) (c : choice)
  | StartOperator (ticks : nat)
  | OperatorMoves (answer : forall o, resp o).

Section scheduler.
Context `{Codec, Diagnostics, NativeTls, YamlList, HubCodec, LifecycleCodec, OperatorCodec}.
Context (package : string) (cfg_of : nat -> Config) (operator_cfg : Config).

Definition sys_advance (c : sys_choice) (S : System) : option (sys_event * System) :=
  match c with
  | StartAgent i rounds => Some (AgentStarts i rounds, with_agent i (agent_start (cfg_of i) rounds) S)
  | AgentMoves i c =>
      s ← agents S !! i;
      if exited s then None else
      x ← advance package (cfg_of i) c s;
      Some (AgentDoes i (fst x), with_agent i (snd x) S)
  | StartOperator ticks => Some (OperatorStarts ticks, with_operator (run_action_operator operator_cfg ticks) S)
  | OperatorMoves answer =>
      match operator S with
      | Vis o k => Some (OperatorDoes (ev o (answer o)), with_operator (k (answer o)) S)
      | Ret _ => None
      end
  end.

Fixpoint sys_serve (l : list sys_choice) (S : System) : list sys_event * System :=
  match l with
  | [] => ([], S)
  | c :: l =>
      match sys_advance c S with
      | Some (e, S') => let '(g, S'') := sys_serve l S' in (e :: g, S'')
      | None => sys_serve l S
      end
  end.

(** The policies that an event gives to an executor. *)
Definition told_policies (e : sys_event) : option (list DynamicObject) :=
  match e with
  | AgentDoes _ (Commands (existT (Kube (ListObjs (RDynamic _ _ _) None None)) (Ok l))) => Some l
  | _ => None
  end.

Lemma silent_honest g e : told_policies e = None -> honest g e.
Proof using Type. intros He i listed ps p nm st ->. discriminate He. Qed.

Lemma sys_advance_step c S e S' :
  sys_advance c S = Some (e, S') -> sys_step package cfg_of operator_cfg S e S'.
Proof using Type.
  destruct c as [i rounds|i c|ticks|answer]; simpl.
  - intros [= <- <-]. constructor.
  - destruct (agents S !! i) as [s|] eqn:Hs; [|done]. simpl. destruct (exited s) eqn:He; [done|].
    destruct (advance package (cfg_of i) c s) as [[l s']|] eqn:Ha; [|done]. intros [= <- <-].
    econstructor; [done|done|by eapply advance_step].
  - intros [= <- <-]. constructor.
  - destruct (operator S) as [|o k] eqn:Ho; [done|]. intros [= <- <-]. by constructor.
Qed.

Lemma sys_serve_reach l g S :
  sys_reach package cfg_of operator_cfg g S ->
  forallb (fun e => is_none (told_policies e)) (fst (sys_serve l S)) = true ->
  sys_reach package cfg_of operator_cfg (g ++ fst (sys_serve l S)) (snd (sys_serve l S)).
Proof using Type.
  revert g S. induction l as [|c l IH]; intros g S Hr Hh; cbn [sys_serve] in *; [by rewrite app_nil_r|].
  destruct (sys_advance c S) as [[e S']|] eqn:Ha; [|by apply IH].
  specialize (IH (g ++ [e]) S'). destruct (sys_serve l S') as [g' S'']. simpl in *.
  apply andb_true_iff in Hh as [He Hh]. rewrite <- app_assoc in IH. apply IH; [|done].
  econstructor; [done|by eapply sys_advance_step|apply silent_honest; by destruct (told_policies e)].
Qed.

(** A step at which an executor is given policies. *)
Lemma sys_advance_reach c g S e S' :
  sys_reach package cfg_of operator_cfg g S -> sys_advance c S = Some (e, S') -> honest g e ->
  sys_reach package cfg_of operator_cfg (g ++ [e]) S'.
Proof using Type. intros Hr Ha Hh. econstructor; [done|by eapply sys_advance_step|done]. Qed.
End scheduler.

(** ** The sample cluster, from the label to the change *)

Definition opt_json {A} (f : A -> json) (o : option A) : json :=
  match o with Some a => JArr [f a] | None => JNull end.
Definition condition_json (c : SentinellaHubActionPolicyCondition) : json :=
  JArr [JStr (type_ c); JStr (cond_status c); opt_json JStr (cond_reason c); opt_json JStr (cond_message c);
        opt_json JNum (cond_observed_generation c); opt_json JNum (last_transition_time_ms c)].
Definition status_json (st : SentinellaHubActionPolicyStatus) : json :=
  JArr [jstrs (effective_namespaces st); JArr (map condition_json (conditions st));
        opt_json JNum (observed_generation st); opt_json JNum (last_reconciled_at_ms st); JBool (stale st)].

Lemma opt_json_inj {A} (f : A -> json) : Inj (=) (=) f -> Inj (=) (=) (opt_json f).
Proof. intros Hf [a|] [b|]; simpl; try done. by intros [= ->%Hf]. Qed.
Lemma map_json_inj {A} (f : A -> json) : Inj (=) (=) f -> Inj (=) (=) (map f).
Proof. intros Hf. apply list_fmap_eq_inj, Hf. Qed.
Lemma condition_json_inj : Inj (=) (=) condition_json.
Proof.
  intros [] [] [= -> -> Hr Hm Hg Ht].
  apply (opt_json_inj JStr) in Hr, Hm; [|by intros ? ? [=]..].
  apply (opt_json_inj JNum) in Hg, Ht; [|by intros ? ? [=]..]. by subst.
Qed.

Definition system_operator_codec : OperatorCodec :=
  {| status_to_value := status_json;
     role_binding_from_value := fun v => Ok v; role_binding_to_value := fun v => Ok v |}.
Lemma system_law : @StatusCodecLaw system_operator_codec.
Proof.
  intros [] [] [= He Hc Hg Hr ->].
  apply map_json_inj in He; [|by intros ? ? [=]]. apply map_json_inj in Hc; [|apply condition_json_inj].
  apply (opt_json_inj JNum) in Hg, Hr; [|by intros ? ? [=]..]. by subst.
Qed.

(** The policy as its author writes it, and as two rounds leave it. *)
Definition policy_v1 : SentinellaHubActionPolicy :=
  reconciled [] [demo_namespace "shop" "true"; demo_namespace "kube-system" "true"] demo_outcome 1000 90000
    demo_unready.
Definition policy_v2 : SentinellaHubActionPolicy :=
  reconciled [] [demo_namespace "shop" "true"; demo_namespace "kube-system" "true"] demo_outcome 31000 90000
    policy_v1.

(** A policy object carries the number of its version. *)
Definition policy_version (v : json) : result string SentinellaHubActionPolicy :=
  match v with
  | JNum 0 => Ok demo_unready | JNum 1 => Ok policy_v1 | JNum 2 => Ok policy_v2
  | _ => Err "no such version"
  end.
Definition system_codec : Codec :=
  let c := demo_codec demo_policy in
  {| dyn_to_value := @dyn_to_value c; yaml_to_string := @yaml_to_string c;
     policy_from_value := policy_version;
     resource_yaml_spec_from_value := @resource_yaml_spec_from_value c;
     postgresql_spec_from_value := @postgresql_spec_from_value c;
     workload_resources_spec_from_value := @workload_resources_spec_from_value c;
     rollout_restart_spec_from_value := @rollout_restart_spec_from_value c;
     scale_repr_from_value := @scale_repr_from_value c;
     drain_node_spec_from_value := @drain_node_spec_from_value c;
     self_update_spec_from_value := @self_update_spec_from_value c;
     update_agent_spec_from_value := @update_agent_spec_from_value c |}.

(** The API server at a time, with the policy in a version. *)
Definition server (now version : Z) (o : op) : resp o :=
  match o return resp o with
  | NowMs => now
  | ListObjs r _ _ =>
      match r return result KubeError (list (obj r)) with
      | RDynamic _ _ _ => Ok [{| dyn_metadata := meta_named "allow"; dyn_data := JNum version |}]
      | r => demo_list r demo_start
      end
  | o => fst (demo_handler o demo_start)
  end.
Definition command_served (now version : Z) : choice :=
  ChooseCommands (fun o => match o return aresp o with
    | Kube o => server now version o
    | o => fst (demo_agent o (demo_start, 0%nat))
    end).

(** Two agents start, the operator makes a round, is restarted, and makes
    another; the second agent polls the hub, lists the policies, and scales a
    Deployment while the first reads its ConfigMap. *)
Definition before_listing : list sys_choice :=
  [StartAgent 0 1; StartAgent 1 1; StartOperator 5] ++ repeat (OperatorMoves (server 1000 0)) 8 ++
  [AgentMoves 0 watcher_moves; StartOperator 5] ++ repeat (OperatorMoves (server 31000 1)) 8 ++
  [AgentMoves 1 (command_served 32000 2)].
Definition listing : sys_choice := AgentMoves 1 (command_served 32000 2).
Definition after_listing : list sys_choice :=
  concat (repeat [AgentMoves 0 watcher_moves; AgentMoves 1 (command_served 32000 2)] 7).
Definition system_serve : list sys_choice -> System -> list sys_event * System :=
  @sys_serve system_codec demo_diagnostics demo_tls Env.demo_yaml demo_hub_codec demo_lifecycle_codec
    system_operator_codec "1.0.0" (fun _ => demo_config true) (demo_config true).
Definition served_before : list sys_event * System := system_serve before_listing sys_start.
Definition served_listing : option (sys_event * System) :=
  @sys_advance system_codec demo_diagnostics demo_tls Env.demo_yaml demo_hub_codec demo_lifecycle_codec
    system_operator_codec "1.0.0" (fun _ => demo_config true) (demo_config true) listing (snd served_before).
Definition listing_event : sys_event :=
  AgentDoes 1 (Commands (kube_event (ev (R:=resp) (ListObjs RPolicy None None)
    (Ok [{| dyn_metadata := meta_named "allow"; dyn_data := JNum 2 |}])))).
Definition served_after : list sys_event * System :=
  system_serve after_listing (from_option snd sys_start served_listing).
Definition system_trace : list sys_event := (fst served_before ++ [listing_event]) ++ fst served_after.

Notation system_reach :=
  (@sys_reach system_codec demo_diagnostics demo_tls Env.demo_yaml demo_hub_codec demo_lifecycle_codec
    system_operator_codec "1.0.0" (fun _ => demo_config true) (demo_config true)).

(** The listed policy has the status of the second round. *)
Lemma listing_honest : @honest system_codec system_operator_codec (fst served_before) listing_event.
Proof.
  intros i listed ps p nm st He Hd Hin Hn Hst.
  apply (f_equal told_policies) in He. injection He as <-.
  assert (Hp : @decode_policies system_codec [{| dyn_metadata := meta_named "allow"; dyn_data := JNum 2 |}] =
    Ok [policy_v2]) by reflexivity.
  rewrite Hp in Hd. injection Hd as <-. destruct Hin as [<-|[]]. injection Hn as <-. injection Hst as <-.
  exists (Ok tt). apply list_elem_of_In, list_elem_of_lookup_2 with 19%nat. vm_compute. reflexivity.
Qed.

Lemma system_reached : system_reach system_trace (snd served_after).
Proof.
  assert (Hl : fst <$> served_listing = Some listing_event) by (vm_compute; reflexivity).
  assert (Hb : forallb (fun e => is_none (told_policies e)) (fst served_before) = true)
    by (vm_compute; reflexivity).
  assert (Ha : forallb (fun e => is_none (told_policies e)) (fst served_after) = true)
    by (vm_compute; reflexivity).
  refine (@sys_serve_reach system_codec demo_diagnostics demo_tls Env.demo_yaml demo_hub_codec
    demo_lifecycle_codec system_operator_codec "1.0.0" (fun _ => demo_config true) (demo_config true) after_listing _ _ _ Ha). clear Ha.
  destruct served_listing as [[e S]|] eqn:Hadv; [|discriminate Hl]. injection Hl as ->.
  refine (@sys_advance_reach system_codec demo_diagnostics demo_tls Env.demo_yaml demo_hub_codec
    demo_lifecycle_codec system_operator_codec "1.0.0" (fun _ => demo_config true) (demo_config true) listing _ (snd served_before) _ _ _ Hadv listing_honest).
  exact (@sys_serve_reach system_codec demo_diagnostics demo_tls Env.demo_yaml demo_hub_codec
    demo_lifecycle_codec system_operator_codec "1.0.0" (fun _ => demo_config true) (demo_config true) before_listing [] _ (SysStart _ _ _) Hb).
Qed.

(** The change of the second agent, event 30, goes back to the second round. *)
Lemma changes_governed_witness :
  exists e o, system_trace !! 30%nat = Some (AgentDoes 1 (Commands e)) /\ op_of e = Kube o /\
    mutating o = true /\
    @governed_change system_codec system_operator_codec (fun _ => demo_config true) (demo_config true)
      (take 30 system_trace) 1 o.
Proof.
  assert (Hc : (x ← system_trace !! 30%nat;
    match x with AgentDoes 1 (Commands e) => Some (changes (op_of e)) | _ => None end) = Some true)
    by (vm_compute; reflexivity).
  destruct (system_trace !! 30%nat) as [x|] eqn:Hx; [|discriminate Hc]. cbn [mbind option_bind] in Hc.
  destruct x as [|i l| |]; try discriminate Hc.
  destruct i as [|[|i]]; try discriminate Hc. destruct l as [| | | |e| | |]; try discriminate Hc.
  injection Hc as Hc. destruct (op_of e) as [o| | |] eqn:Ho; try discriminate Hc.
  exists e, o. split_and!; [done|done|exact Hc|].
  exact (@changes_governed system_codec demo_diagnostics demo_tls Env.demo_yaml demo_hub_codec
    demo_lifecycle_codec system_operator_codec system_law "1.0.0" (fun _ => demo_config true)
    (demo_config true) _ _ _ _ e _ o system_reached (split_at _ _ _ Hx) Ho Hc).
Defined.

(** "kube-system" is labelled in the sample cluster but excluded. *)
Lemma unlabelled_namespace_untouched_witness :
  Forall (fun x => forall e o, x = AgentDoes 1 (Commands e) -> op_of e = Kube o -> mutating o = true ->
    patched_namespace o <> Some "kube-system") system_trace.
Proof.
  assert (Hnever : never_enabled (demo_config true) system_trace "kube-system").
  { intros nss _ ns _ (_ & _ & He). apply He, namespace_is_excluded_spec. vm_compute. reflexivity. }
  apply List.Forall_forall. intros x Hin e o -> Ho Hm.
  exact (@unlabelled_namespace_untouched system_codec demo_diagnostics demo_tls Env.demo_yaml demo_hub_codec
    demo_lifecycle_codec system_operator_codec system_law "1.0.0" (fun _ => demo_config true)
    (demo_config true) _ _ "kube-system" system_reached Hnever ltac:(discriminate) 1 e o Hin Ho Hm).
Defined.
